(* ===== verification/_CoqProject ===== *)
-Q . S2P
Prelude.v
GoStrings.v
GoFloat.v
WheelTimer.v
TimerService.v
JobTypes.v
Crypto.v
Params.v
TimeDispatch.v
Scheduler.v
Agenda.v
JobServer.v
Processors.v
Futures.v
Units.v
Calc.v
Collect.v
MessageRouter.v
NettyFrame.v
Router.v
Collector.v
Config.v
Transport.v
Durations.v
Report.v
Ssh.v
Redis.v
JdbcUrl.v
Jdbc.v
Json.v
Arrow.v
Extract.v
Console.v
Md5.v
Http.v
Milvus.v
Collectors.v
EndToEnd.v
Server.v
