(* ===== verification/Prelude.v ===== *)
(** * A verification of the HertzBeat collector

    This library models the core of the collector (apache/hertzbeat-collector-go)
    and proves what makes it correct.  This file is the prelude: it holds what
    all the others share, after this description of the whole.

    ** The program

    A manager sends messages over a Netty or gRPC connection.  The processors
    ([transport]) decode the jobs in them, decrypt their passwords and hand them
    to the job server, which keeps the map of running jobs and passes them to
    the time dispatcher.  The dispatcher puts a timeout for each job on a hashed
    wheel; when it fires, the task of the job dispatches its collection: the
    metrics that are due are determined, the parameters are replaced in a clone
    of the job, every metric is collected by the collector of its protocol, the
    rows are turned into the configured fields, and the results go to a handler.
    Then the task is put on the wheel again.

    ** The files, in the order of dependency

    - Prelude: outcomes and a state monad with panics ([outcome], [M]), errors
      ([res]), 64-bit integers ([wrap64], [eq64]), the hint databases and the
      tactics, lemmas on lists.
    - GoStrings, GoFloat: the functions of the packages strings and strconv that
      the code calls, on ASCII strings and on float64 (the [spec_float] of the
      Standard Library, with correctly rounded parsing and shortest printing).
    - WheelTimer: types/job/timeout_types.go and dispatcher/hashed_wheel_timer.go.
      The timeouts are in a store, since the wheel and the dispatcher share
      pointers to them.  [tick_loop] is the loop of [tick] over a bucket.
    - TimerService: the interface [HashedWheelTimer] of time_wheel.go as a class
      of operations ([TimerOps]) and of laws ([TimerLaws]), and its
      implementation by the wheel.
    - JobTypes: types/job/job_types.go, metrics_types.go and protocol/*.go.
      Structs reached through pointers are in a heap.
    - Crypto: util/crypto/aes_util.go over AES-128, CBC and base64 written out.
    - Params: util/param/param_replacer.go.
    - TimeDispatch: dispatcher/time_wheel.go and wheel_timer_task.go, over any
      timer.
    - Scheduler: the dispatcher, its timer and the goroutines of running tasks
      as a transition system; a step is an operation or a part of a run.
    - Agenda: timers with a clock ([TimerClock]) and the specification of when
      jobs run, which the scheduler implements over every such timer.
    - JobServer: job/server/job_server.go, and the interface [JobScheduler] of
      transport/processors.go with its laws.
    - Processors: transport/processors.go, registry.go and the handling of
      received messages in netty_client.go and grpc_client.go, over any job
      scheduler.  [processReceivedMessage] starts a goroutine for a message and
      [handle_message] is that goroutine; [conn_run] interleaves them.
    - Futures: [SendMsgSync] of both clients, with the futures, the receiver and
      [Shutdown] of grpc_client.go and netty_client.go, as interleaved actions.
    - Units, Calc: util/unit/converter.go, and the calculation of the fields in
      collect/dispatch/metrics_collector.go.
    - Collect: collect/strategy/strategy_factory.go, [CollectMetrics] of
      metrics_collector.go and dispatcher/common_dispatcher.go.
      [collected_once] and [dispatched] specify what is collected.
    - MessageRouter: job/router/message_router.go, over any job scheduler and the
      interface [TransportClient] of transport/registry.go.
    - NettyFrame: the framing of messages in transport/netty_client.go, and its
      reading from a gzip reader that is created at the first read and ends with
      an error, with its last byte or after it ([gz_stream]).
    - Router: collect/result_handler.go and collect/lazy_message_router.go, the
      way of a result to the manager, over a client of either kind.
    - Collector: these components wired as cmd/server.go does, over a client of
      either kind, as a transition system from the messages of the manager to the
      results, and its specification, a plan.
    - Config: config/config.go with its watcher, whose reloading goroutines
      interleave in four steps each, types/config/config_types.go, and the levels of the loggers of util/logger/logger.go.
    - Transport: transport/transport.go and the life cycle of the two clients,
      as a pool of goroutines whose steps are the elements of a sequence; the
      processor of a message is a goroutine of the pool.
    - Durations: [time.ParseDuration], and the text of a duration.
    - Report: the statistics and the report of the dispatcher and its timer
      (dispatcher/time_wheel.go, hashed_wheel_timer.go).
    - Ssh: util/ssh/ssh_helper.go and protocol/basic/ssh/ssh_collector.go.
    - Redis: protocol/basic/redis/redis_collector.go.
    - JdbcUrl, Jdbc: protocol/basic/database/jdbc_collector.go, first the security
      check of URLs, then the collector and the connections through its tunnel.
    - Json, Md5: what the code uses of encoding/json and crypto/md5.
    - Arrow: util/arrow/arrow_serializer.go.
    - Extract: the constructors of types/job/protocol and the extraction of
      configurations by util/param/param_replacer.go, over fields of structs as
      encoding/json knows them ([json_field]).
    - Console: banner/embed.go, cmd/version/version.go, the metrics of
      metrics/metrics.go and collect/metrics/hertzbeat_metrics_collector.go.
    - Http: protocol/basic/http/http_collector.go.
    - Milvus: protocol/extension/milvus/milvus_collector.go.
    - Collectors: the interface of collectors against the five of them, and the
      registry that the program fills with them (protocol/standard/imports.go).
    - EndToEnd: Collector with the heap of the jobs that the messages are decoded
      into, whose tasks dispatch the collection (Collect) to the collectors.
    - Server: cmd/server.go, server/server.go, the runner of metrics/metrics.go
      and those of job/server/job_server.go and transport/transport.go (with
      the life cycle of Transport): the process as a transition system over the
      operations of its runners.

    ** The properties

    They are numbered by importance; by subject:

    - The whole (collector_follows_plan, machine_follows_plan): under every
      interleaving that fits a plan, and on a client of either kind, the jobs that
      the manager issues start at the ticks of the agenda, a Netty client answers
      every request, and the results go out on the connection; the second theorem
      has the jobs in their heap and says how their metrics are collected.
    - The wheel (wheel_refines_queue, timeout_fires_when_due,
      cancelled_never_fires): it refines a queue of deadlines; a timeout fires at
      its tick and at no other; a cancelled one never does.
    - Scheduling (job_runs_exactly_once, sched_refines_agenda,
      cyclic_job_start_times, report_lists_jobs): under every interleaving a registered job has one
      timeout or run; the scheduler refines an agenda of jobs; when a cyclic job
      starts on the wheel, first after its interval in milliseconds and then in
      seconds; the report describes the registered jobs.
    - Jobs (runner_refines_map, netty_messages_correct, router_processors_correct):
      the job server implements a finite map, for jobs that replace only jobs
      of their own kind; a Netty client does what its messages prescribe in the
      order in which their goroutines run, and answers every request; what a
      processor of the older router does.
    - The process (shutdown_closes_all): it can always end, and closes its
      runners, unless the protocol is gRPC.
    - Synchronous requests (response_reaches_call, sync_returns_own_response,
      second_response_blocks): a call gets the response to its request, and what
      a second response does.
    - Collection (ConstructPriorMetrics_correct, DispatchMetricsTask_collects,
      getCollectionTimeout_bounds, collectors_promise): which
      metrics are due, in whatever order Go visits a map; a dispatch never fails,
      collects every metric once, from a clone of the job and with the collector of
      its protocol, and delivers the results in order; its deadline;
      the five collectors that the program registers keep the interface of
      collectors on metrics with the configuration that they want.
    - Results (dispatch_sends, read_rows_roundtrip, arrow_roundtrip): from the
      dispatch of a job to the messages on the connection; what the manager reads.
    - Values (CalculateFields_shape, CalculateFields_projection): the calculated
      rows are well-formed; without expressions the calculation is a projection.
    - Parameters and passwords (replaceParamPlaceholders_correct,
      ReplaceJobParams_footprint, AesDecode_roundtrip): replacement evaluates a
      template; what it may write; decryption undoes the encryption of the manager.
    - Framing (stream_roundtrip, readMessage_total): round trip of streams, but
      for an empty message at their end; the reader ends on every stream.
    - Connections (netty_never_reconnects, collect_jdbc_closes_all): what happens
      when one is lost; which are closed.
    - Configuration (watch_loses_no_change, extract_roundtrip,
      extract_wrong_kind): the debouncing of the watcher loses no change, if no
      other reload is under way; the configuration of a protocol is read back from a map, and a value of the
      wrong kind makes that fail.
    - Security (validateURL_iff, validateURL_evaded): which URLs of databases pass
      the check, in terms of the language of its patterns, and how all can.
    - Requests (requests_handed_to_Do): the requests of the HTTP collector.
    - Rows of the collectors (json_rows_printed, http_result_full): what is
      printed as JSON is read back; the rows of an answer.

    Examples run the code where it does something unwanted: a deletion that
    overtakes the message of its job (delete_overtakes), a job replaced by one of
    the other kind (kinds_mixed), a reload that restores an old configuration
    (stale_reload_wins), a reader that the shutdown takes the gzip reader from
    (shutdown_under_reader), a process that never ends (grpc_never_closes).

    The files also prove what is not numbered: among others that a removed job may
    come back (remove_while_running_resurrects), that the replacement of
    parameters depends on the order of a map (replace_params_order_dependent),
    that the level of a logger never changes (log_level_never_changes), that the
    gRPC client answers nothing (grpc_never_replies) and piles up goroutines
    (grpc_reconnections_accumulate), that the counters of jobs balance
    (stats_balanced), which configurations lead to a connection
    (configured_protocols), which connections a script leaves open
    (executeSSHScript_connections), that a shutdown starves calls
    (shutdown_starves_calls), what the check of a database configuration promises
    (PreCheck_sound), how the columns of a query and the rows of Milvus come about
    (rows_by_position, columns_by_key, milvus_collects), that the forwarding
    through a tunnel ends at once (forward_ends_at_once), that the colour of the
    banner is reset (PrintBanner_resets), that metrics cannot be registered twice
    (second_collector_panics), and that scripts, INFO, units, challenges and JSON are
    read back (multi_row_roundtrip, info_roundtrip, ParseConversion_roundtrip,
    challenge_roundtrip, Decode_print).

    ** Conventions and bounds

    A clock reading is an argument [now] of the operation that makes it.  A
    range statement over a map visits it in an order that is an argument.  A
    panic is an outcome of its own ([Panic]), which also stands for a send on a
    full channel that blocks for ever.  Logging is left out.  Integers of type
    int, int64 and time.Duration wrap at 64 bits wherever the code can leave
    their range; theorems that need room say so.  Fuel occurs only in library
    functions (the digits of a number, bounded by its bit length; the segments of
    a duration, bounded by its characters) and in the two loops of NettyFrame
    (five bytes of a length prefix, one round per byte of the stream at most); it
    is proved to be enough.  Strings are sequences of bytes, whose case and white
    space are those of ASCII, except that the check of URLs (JdbcUrl) has the case
    of Unicode, as far as it leads to ASCII letters.

    The YAML and protobuf codecs, JSON where it is decoded into structs, gzip, the
    Arrow writer, the expression language, the decoders of keys, the network, the
    HTTP client, parsed URLs, the SQL drivers, and the SSH, Redis and Prometheus
    libraries are parameters; theorems state what they assume of them.

    ** Not modelled, and the plan

    The flags of the command line and the start of the process (third-party
    code takes them), the output of the loggers, the generated messages, error
    values that are only logged, and the second set of protocol structs in
    types/job/metrics_types.go, which nothing uses.  EndToEnd has a client that is
    connected: how connections are made and lost is in Transport, and the ends of
    the process are in Server.  There the answers of the servers may differ from
    one collection to the next; the goroutines that collect the metrics of one
    job run in any order, but each to its end.  A metric without the configuration that its
    collector wants is outside the plan, since it panics
    (Collectors.unconfigured_metric_panics).  Nothing further is planned: what is
    left is code of libraries, or has no state of its own. *)

From stdpp Require Export base gmap list strings numbers sorting.
From Stdlib Require Export ZArith Lia.

#[global] Set Default Goal Selector "!".
Open Scope Z_scope.

(** ** Go values

    A Go [error] is represented by its message; the nil error by [None].  A
    function that returns [(T, error)] returns a [res T]: Go code never looks
    at the value next to a non-nil error. *)

Definition error : Type := string.

Inductive res (A : Type) : Type :=
| Ok (a : A)
| Err (e : error).
Arguments Ok {A} _.
Arguments Err {A} _.

(** A stateful Go function either returns, leaving a new state, or panics,
    leaving the state as it was changed so far (a deferred [recover] observes
    that state). *)
Inductive outcome (S A : Type) : Type :=
| Ret (s : S) (a : A)
| Panic (s : S) (why : string).
Arguments Ret {S A} _ _.
Arguments Panic {S A} _ _.

Definition M (S A : Type) : Type := S -> outcome S A.

Definition mret {S A} (a : A) : M S A := fun s => Ret s a.
Definition mpanic {S A} (why : string) : M S A := fun s => Panic s why.
Definition mget {S} : M S S := fun s => Ret s s.
Definition mmodify {S} (f : S -> S) : M S unit := fun s => Ret (f s) tt.
Definition mbind' {S A B} (m : M S A) (k : A -> M S B) : M S B :=
  fun s => match m s with
           | Ret s' a => k a s'
           | Panic s' w => Panic s' w
           end.

Declare Scope go_scope.
Delimit Scope go_scope with go.
Notation "x <-! m ; k" := (mbind' m (fun x => k))
  (at level 100, m at next level, right associativity, format "x  <-!  m ; '//' k") : go_scope.
Notation "m ;! k" := (mbind' m (fun _ => k))
  (at level 100, right associativity, format "m ;! '//' k") : go_scope.

Lemma bind_ret {S A B} (m : M S A) (k : A -> M S B) s s' a :
  m s = Ret s' a -> mbind' m k s = k a s'.
Proof. intros E. unfold mbind'. by rewrite E. Qed.

Lemma bind_ret_l {S A B} (a : A) (k : A -> M S B) : mbind' (mret a) k = k a.
Proof. done. Qed.

(** The state an outcome leaves, and the value it returns. *)
Definition outcome_state {S A} (o : outcome S A) : S :=
  match o with Ret s _ | Panic s _ => s end.

Definition outcome_val {S A} (o : outcome S A) : option A :=
  match o with Ret _ a => Some a | Panic _ _ => None end.

(** ** Machine integers

    [int], [int64] and [time.Duration] are 64-bit two's complement; a value of
    such a type is a [Z] in range, and every arithmetic operation that can
    leave the range is followed by [wrap64]. *)

Definition min64 : Z := - 2 ^ 63.
Definition max64 : Z := 2 ^ 63 - 1.
Definition wrap64 (z : Z) : Z := (z + 2 ^ 63) mod 2 ^ 64 - 2 ^ 63.
Definition in64 (z : Z) : Prop := min64 <= z <= max64.

Definition uwrap32 (z : Z) : Z := z mod 2 ^ 32.

(** [time.Duration] constants, in nanoseconds. *)
Definition Millisecond : Z := 1000000.
Definition Second : Z := 1000 * Millisecond.

Ltac unfold_int := unfold in64, min64, max64, wrap64, uwrap32 in *.

Lemma wrap64_id z : in64 z -> wrap64 z = z.
Proof. unfold_int. intros [H1 H2]. rewrite Z.mod_small; lia. Qed.

Lemma wrap64_range z : in64 (wrap64 z).
Proof. unfold_int. pose proof (Z.mod_pos_bound (z + 2 ^ 63) (2 ^ 64)). lia. Qed.

Lemma wrap64_add_r a b : wrap64 (a + wrap64 b) = wrap64 (a + b).
Proof.
  unfold wrap64. f_equal.
  replace (a + ((b + 2 ^ 63) mod 2 ^ 64 - 2 ^ 63) + 2 ^ 63)
    with (a + (b + 2 ^ 63) mod 2 ^ 64) by lia.
  rewrite Z.add_mod_idemp_r by lia. f_equal. lia.
Qed.

Lemma wrap64_add_l a b : wrap64 (wrap64 a + b) = wrap64 (a + b).
Proof. rewrite Z.add_comm, wrap64_add_r. f_equal. lia. Qed.

Lemma wrap64_idem a : wrap64 (wrap64 a) = wrap64 a.
Proof. apply wrap64_id, wrap64_range. Qed.

(** Equality modulo 2^64, the equality of counters that wrap around. *)
Definition eq64 (a b : Z) : Prop := wrap64 a = wrap64 b.

#[global] Instance eq64_equivalence : Equivalence eq64.
Proof. unfold eq64. split; congruence || (intros ? ? ? -> ->; done) || done. Qed.

#[global] Instance eq64_add : Proper (eq64 ==> eq64 ==> eq64) Z.add.
Proof.
  intros a a' Ha b b' Hb. unfold eq64 in *.
  by rewrite <- wrap64_add_l, Ha, wrap64_add_l, <- wrap64_add_r, Hb, wrap64_add_r.
Qed.

Lemma eq64_wrap a : eq64 (wrap64 a) a.
Proof. apply wrap64_idem. Qed.

(** Go's [/] and [%] truncate towards zero. *)
Lemma go_rem_nonneg a b : 0 <= a -> 0 < b -> Z.rem a b = a mod b.
Proof. intros. by apply Z.rem_mod_nonneg. Qed.

Lemma go_quot_nonneg a b : 0 <= a -> 0 < b -> Z.quot a b = a / b.
Proof. intros. by apply Z.quot_div_nonneg. Qed.

(** ** Automation *)

Create HintDb collector.
Create Rewrite HintDb collector_rw.

#[export] Hint Resolve wrap64_range : collector.
#[export] Hint Rewrite @wrap64_add_r @wrap64_add_l @wrap64_idem : collector_rw.

(** Case analysis on the innermost scrutinee of a [match] or [if] that blocks
    the goal or a hypothesis, keeping the equation. *)
Ltac step_match :=
  match goal with
  | |- context [match ?x with _ => _ end] =>
      lazymatch x with context [match _ with _ => _ end] => fail | _ => destruct x eqn:? end
  | H : context [match ?x with _ => _ end] |- _ =>
      lazymatch x with context [match _ with _ => _ end] => fail | _ => destruct x eqn:? end
  end.

Ltac run_go := repeat (simplify_eq/=; try done; step_match).

(** Rewrites the boolean tests of the code into propositions. *)
Ltac bool_to_prop :=
  repeat match goal with
  | H : (_ && _) = true |- _ => apply andb_true_iff in H as [? ?]
  | H : (_ || _) = false |- _ => apply orb_false_iff in H as [? ?]
  | H : negb _ = true |- _ => apply negb_true_iff in H
  | H : negb _ = false |- _ => apply negb_false_iff in H
  | H : (_ <=? _) = true |- _ => apply Z.leb_le in H
  | H : (_ <=? _) = false |- _ => apply Z.leb_gt in H
  | H : (_ <? _) = true |- _ => apply Z.ltb_lt in H
  | H : (_ <? _) = false |- _ => apply Z.ltb_ge in H
  | H : (_ =? _) = true |- _ => apply Z.eqb_eq in H
  | H : (_ =? _) = false |- _ => apply Z.eqb_neq in H
  end.

(** ** Lists *)

Lemma filter_filter_comm {A} (P Q : A -> Prop)
    `{!forall x, Decision (P x)} `{!forall x, Decision (Q x)} (l : list A) :
  filter P (filter Q l) = filter Q (filter P l).
Proof.
  induction l as [|x l IH]; [done|].
  rewrite !filter_cons.
  repeat case_decide; rewrite ?filter_cons; repeat case_decide; congruence.
Qed.

Lemma filter_ext_in {A} (P Q : A -> Prop)
    `{!forall x, Decision (P x)} `{!forall x, Decision (Q x)} (l : list A) :
  (forall x, x ∈ l -> (P x <-> Q x)) -> filter P l = filter Q l.
Proof.
  induction l as [|x l IH]; intros Hl; [done|].
  rewrite !filter_cons. rewrite IH by (intros; apply Hl; by right).
  assert (P x <-> Q x) by (apply Hl; by left).
  repeat case_decide; tauto.
Qed.

Lemma filter_all {A} (P : A -> Prop) `{!forall x, Decision (P x)} (l : list A) :
  (forall x, x ∈ l -> P x) -> filter P l = l.
Proof.
  induction l as [|x l IH]; intros Hl; [done|].
  rewrite filter_cons_True by (apply Hl; by left).
  f_equal. apply IH. intros. apply Hl. by right.
Qed.

Lemma filter_none {A} (P : A -> Prop) `{!forall x, Decision (P x)} (l : list A) :
  (forall x, x ∈ l -> ~ P x) -> filter P l = [].
Proof.
  induction l as [|x l IH]; intros Hl; [done|].
  rewrite filter_cons_False by (apply Hl; by left).
  apply IH. intros. apply Hl. by right.
Qed.

Lemma filter_and {A} (P Q : A -> Prop)
    `{!forall x, Decision (P x)} `{!forall x, Decision (Q x)} (l : list A) :
  filter P (filter Q l) = filter (fun x => P x /\ Q x) l.
Proof.
  induction l as [|x l IH]; [done|].
  rewrite !filter_cons.
  repeat case_decide; rewrite ?filter_cons; repeat case_decide; tauto || congruence.
Qed.

Lemma filter_map {A B} (f : A -> B) (P : B -> Prop) `{!forall x, Decision (P x)} (l : list A) :
  filter P (f <$> l) = f <$> filter (fun x => P (f x)) l.
Proof.
  induction l as [|x l IH]; [done|].
  rewrite fmap_cons. destruct (decide (P (f x))).
  - rewrite !filter_cons_True by done. rewrite fmap_cons. by f_equal.
  - by rewrite !filter_cons_False by done.
Qed.

Lemma omap_ext_in {A B} (f g : A -> option B) (l : list A) :
  (forall x, x ∈ l -> f x = g x) -> omap f l = omap g l.
Proof.
  induction l as [|x l IH]; intros Hl; [done|]. csimpl. rewrite (Hl x) by (by left).
  by rewrite IH by (intros y Hy; apply Hl; by right).
Qed.

(** A map built from left to right holds the last value of each key. *)
Lemma foldl_insert_lookup {A K V} `{Countable K} (f : A -> option (K * V)) (l : list A) :
  forall (m : gmap K V) k,
  foldl (fun m x => match f x with Some (k, v) => <[k := v]> m | None => m end) m l !! k =
  match last (snd <$> filter (fun kv => fst kv = k) (omap f l)) with Some v => Some v | None => m !! k end.
Proof.
  induction l as [|x l IH]; intros m k; [done|]. cbn [foldl omap list_omap].
  destruct (f x) as [[k' v]|]; rewrite IH; [|done]. destruct (decide (k' = k)) as [->|Hne].
  - rewrite filter_cons_True, fmap_cons, last_cons, lookup_insert_eq by done. by destruct (last _).
  - by rewrite filter_cons_False, lookup_insert_ne by done.
Qed.
