(* ===== verification/GoStrings.v ===== *)
(** * Go strings

    The functions of packages strings and strconv (integers and booleans) that
    the collector calls, on byte strings.  Case mapping, folding and white
    space are those of ASCII: a byte from 128 up is left alone. *)

From Stdlib Require Import Ascii String.
From S2P Require Import Prelude.

Open Scope string_scope.
Open Scope list_scope.
Open Scope Z_scope.

(** ** Characters *)

Definition in_range (lo hi c : ascii) : bool :=
  (N_of_ascii lo <=? N_of_ascii c)%N && (N_of_ascii c <=? N_of_ascii hi)%N.

Definition is_digit (c : ascii) : bool := in_range "0" "9" c.
Definition is_lower (c : ascii) : bool := in_range "a" "z" c.
Definition is_upper (c : ascii) : bool := in_range "A" "Z" c.

(** '\t' '\n' '\v' '\f' '\r' and ' '. *)
Definition is_space (c : ascii) : bool :=
  let n := N_of_ascii c in ((9 <=? n) && (n <=? 13) || (n =? 32))%N.

Definition lower_ascii (c : ascii) : ascii :=
  if is_upper c then ascii_of_N (N_of_ascii c + 32) else c.
Definition upper_ascii (c : ascii) : ascii :=
  if is_lower c then ascii_of_N (N_of_ascii c - 32) else c.

(** ** Package strings *)

Fixpoint str_map (f : ascii -> ascii) (s : string) : string :=
  match s with
  | EmptyString => EmptyString
  | String c s => String (f c) (str_map f s)
  end.

Definition ToLower (s : string) : string := str_map lower_ascii s.
Definition ToUpper (s : string) : string := str_map upper_ascii s.
Definition EqualFold (s t : string) : bool := String.eqb (ToLower s) (ToLower t).

Definition HasPrefix (s p : string) : bool := String.prefix p s.

Fixpoint str_drop (n : nat) (s : string) : string :=
  match n, s with
  | O, _ => s
  | S n, EmptyString => EmptyString
  | S n, String _ s => str_drop n s
  end.

Fixpoint str_take (n : nat) (s : string) : string :=
  match n, s with
  | O, _ | _, EmptyString => EmptyString
  | S n, String c s => String c (str_take n s)
  end.

Definition TrimPrefix (s p : string) : string :=
  if HasPrefix s p then str_drop (String.length p) s else s.

Definition HasSuffix (s p : string) : bool :=
  (String.length p <=? String.length s)%nat
  && String.eqb (str_drop (String.length s - String.length p) s) p.

(** [strings.Index]: the offset of the first occurrence. *)
Fixpoint Index (s sub : string) : option nat :=
  if String.prefix sub s then Some O
  else match s with
       | EmptyString => None
       | String _ s => S <$> Index s sub
       end.

Definition Contains (s sub : string) : bool :=
  match Index s sub with Some _ => true | None => false end.

(** [strings.ReplaceAll] for a non-empty [old]: after a match the rest of
    [old] is skipped. *)
Fixpoint replace_loop (old new : string) (skip : nat) (s : string) : string :=
  match s with
  | EmptyString => EmptyString
  | String c rest =>
      match skip with
      | S k => replace_loop old new k rest
      | O =>
          if String.prefix old s
          then new +:+ replace_loop old new (pred (String.length old)) rest
          else String c (replace_loop old new O rest)
      end
  end.

Definition ReplaceAll (s old new : string) : string := replace_loop old new O s.

(** [strings.Split] for a non-empty separator; [acc] is the current piece. *)
Fixpoint split_loop (sep : string) (skip : nat) (acc s : string) : list string :=
  match s with
  | EmptyString => [acc]
  | String c rest =>
      match skip with
      | S k => split_loop sep k acc rest
      | O =>
          if String.prefix sep s
          then acc :: split_loop sep (pred (String.length sep)) EmptyString rest
          else split_loop sep O (acc +:+ String c EmptyString) rest
      end
  end.

Definition Split (s sep : string) : list string := split_loop sep O EmptyString s.

(** [strings.SplitN s sep 2]. *)
Definition SplitN2 (s sep : string) : list string :=
  match Index s sep with
  | None => [s]
  | Some i => [str_take i s; str_drop (i + String.length sep) s]
  end.

Fixpoint trim_left (f : ascii -> bool) (s : string) : string :=
  match s with
  | EmptyString => EmptyString
  | String c rest => if f c then trim_left f rest else s
  end.

Fixpoint str_all (f : ascii -> bool) (s : string) : bool :=
  match s with
  | EmptyString => true
  | String c s => f c && str_all f s
  end.

Fixpoint trim_right (f : ascii -> bool) (s : string) : string :=
  match s with
  | EmptyString => EmptyString
  | String c rest => if str_all f s then EmptyString else String c (trim_right f rest)
  end.

Definition TrimSpace (s : string) : string := trim_right is_space (trim_left is_space s).

(** [strings.Trim s "c"] with a cut set of one character. *)
Definition TrimChar (c : ascii) (s : string) : string :=
  trim_right (Ascii.eqb c) (trim_left (Ascii.eqb c) s).

(** [strings.Fields]. *)
Fixpoint fields_loop (acc s : string) : list string :=
  let flush := if String.eqb acc EmptyString then [] else [acc] in
  match s with
  | EmptyString => flush
  | String c rest =>
      if is_space c then flush ++ fields_loop EmptyString rest
      else fields_loop (acc +:+ String c EmptyString) rest
  end.

Definition Fields (s : string) : list string := fields_loop EmptyString s.

(** [strings.Count] for a non-empty substring. *)
Fixpoint count_loop (sub : string) (skip : nat) (s : string) : nat :=
  match s with
  | EmptyString => O
  | String c rest =>
      match skip with
      | S k => count_loop sub k rest
      | O => if String.prefix sub s then S (count_loop sub (pred (String.length sub)) rest)
             else count_loop sub O rest
      end
  end.

Definition Count (s sub : string) : nat := count_loop sub O s.

(** Hexadecimal digits. *)
Definition hex_digit (c : ascii) : option N :=
  let n := N_of_ascii c in
  if is_digit c then Some (n - 48)%N
  else if in_range "a" "f" c then Some (n - 87)%N
  else if in_range "A" "F" c then Some (n - 55)%N
  else None.

Definition hex_char (d : N) : ascii := ascii_of_N (if (d <? 10)%N then d + 48 else d + 87)%N.

(** ** Package strconv: integers and booleans *)

Definition digit_char (d : Z) : ascii := ascii_of_N (Z.to_N d + 48).
Definition char_digit (c : ascii) : Z := Z.of_N (N_of_ascii c) - 48.

Fixpoint digits_loop (fuel : nat) (z : Z) (acc : string) : string :=
  match fuel with
  | O => acc
  | S fuel =>
      let acc := String (digit_char (z mod 10)) acc in
      if z / 10 =? 0 then acc else digits_loop fuel (z / 10) acc
  end.

(** Decimal digits of a natural number: its bit length bounds their number. *)
Definition digits (z : Z) : string := digits_loop (S (Z.to_nat (Z.log2 z))) z EmptyString.

(** [strconv.Itoa], [strconv.FormatInt x 10], [fmt.Sprintf "%d"]. *)
Definition Itoa (z : Z) : string :=
  if z <? 0 then "-" +:+ digits (- z) else digits z.

Fixpoint undigits_loop (acc : Z) (s : string) : option Z :=
  match s with
  | EmptyString => Some acc
  | String c s => if is_digit c then undigits_loop (acc * 10 + char_digit c) s else None
  end.

Definition undigits (s : string) : option Z :=
  if String.eqb s EmptyString then None else undigits_loop 0 s.

(** [strconv.Atoi]: an optional sign, digits, and a value in range. *)
Definition Atoi (s : string) : option Z :=
  let v := match s with
           | String "-" s => Z.opp <$> undigits s
           | String "+" s => undigits s
           | _ => undigits s
           end in
  match v with
  | Some z => if (min64 <=? z) && (z <=? max64) then Some z else None
  | None => None
  end.

(** [strconv.ParseBool]. *)
Definition ParseBool (s : string) : option bool :=
  if existsb (String.eqb s) ["1"; "t"; "T"; "true"; "TRUE"; "True"] then Some true
  else if existsb (String.eqb s) ["0"; "f"; "F"; "false"; "FALSE"; "False"] then Some false
  else None.

(** [fmt.Sprintf "%t"]. *)
Definition fmt_bool (b : bool) : string := if b then "true" else "false".

(** ** Lemmas *)

#[local] Arguments String.append : simpl nomatch.

Lemma str_app_assoc (a b c : string) : (a +:+ b) +:+ c = a +:+ b +:+ c.
Proof. induction a as [|x a IH]; [done|]. simpl. by rewrite IH. Qed.

Lemma str_app_cons c (a b : string) : String c a +:+ b = String c (a +:+ b).
Proof. done. Qed.

Lemma str_all_app f (a b : string) : str_all f (a +:+ b) = str_all f a && str_all f b.
Proof. induction a as [|x a IH]; [done|]. simpl. by rewrite IH, andb_assoc. Qed.

Lemma str_app_nil_r (s : string) : s +:+ "" = s.
Proof. induction s as [|c s IH]; [done|]. simpl. by rewrite IH. Qed.

Lemma prefix_iff p : forall s, String.prefix p s = true <-> exists r, s = p +:+ r.
Proof.
  induction p as [|c p IH]; intros s.
  { split; [intros _; by exists s|by destruct s]. }
  destruct s as [|x s]; simpl.
  { split; [done|]. by intros []. }
  destruct (ascii_dec c x) as [->|Hne].
  - rewrite IH. split; intros [r Hr]; exists r; [by rewrite Hr|by injection Hr].
  - split; [done|]. by intros [r [= ? _]].
Qed.

Lemma str_drop_app a b : str_drop (String.length a) (a +:+ b) = b.
Proof. induction a as [|c a IH]; [done|]. simpl. by rewrite IH. Qed.

Lemma str_take_app a b : str_take (String.length a) (a +:+ b) = a.
Proof. induction a as [|c a IH]; [by destruct b|]. simpl. by rewrite IH. Qed.

Lemma str_length_app a b : String.length (a +:+ b) = (String.length a + String.length b)%nat.
Proof. induction a as [|c a IH]; [done|]. simpl. by rewrite IH. Qed.

(** A text without the first character of a separator. *)
Definition no_char (c : ascii) (s : string) : Prop :=
  str_all (fun x => negb (Ascii.eqb x c)) s = true.

Lemma no_char_cons c x s : no_char c (String x s) <-> x <> c /\ no_char c s.
Proof.
  unfold no_char. simpl. rewrite andb_true_iff, negb_true_iff, Ascii.eqb_neq. done.
Qed.

Lemma no_char_app c a b : no_char c (a +:+ b) <-> no_char c a /\ no_char c b.
Proof. unfold no_char. by rewrite str_all_app, andb_true_iff. Qed.

Lemma split_skip sep acc a b :
  split_loop sep (String.length a) acc (a +:+ b) = split_loop sep O acc b.
Proof. induction a as [|c a IH]; [done|]. simpl. by rewrite IH. Qed.

(** A separator that does not occur, and the first occurrence of one. *)
Lemma split_none c sep s : forall acc,
  no_char c s -> split_loop (String c sep) O acc s = [acc +:+ s].
Proof.
  induction s as [|x s IH]; intros acc Hs; simpl; [by rewrite str_app_nil_r|].
  apply no_char_cons in Hs as [Hx Hs].
  destruct (ascii_dec c x) as [->|_]; [done|].
  rewrite IH by done. by rewrite str_app_assoc.
Qed.

Lemma split_first c sep s t : forall acc,
  no_char c s ->
  split_loop (String c sep) O acc (s +:+ String c sep +:+ t) =
    (acc +:+ s) :: split_loop (String c sep) O "" t.
Proof.
  induction s as [|x s IH]; intros acc Hs.
  - rewrite str_app_nil_r. change ("" +:+ ?x) with x.
    assert (String.prefix (String c sep) (String c sep +:+ t) = true) as Hp
      by (apply prefix_iff; by eexists).
    change (String c sep +:+ t) with (String c (sep +:+ t)) in *.
    cbn [split_loop]. rewrite Hp. cbn [String.length pred]. by rewrite split_skip.
  - apply no_char_cons in Hs as [Hx Hs]. simpl. destruct (ascii_dec c x) as [->|_]; [done|].
    rewrite IH by done. by rewrite str_app_assoc.
Qed.

Lemma Split_two c sep s t :
  no_char c s -> no_char c t -> Split (s +:+ String c sep +:+ t) (String c sep) = [s; t].
Proof. intros Hs Ht. unfold Split. rewrite split_first by done. by rewrite split_none. Qed.

Lemma Index_first c sep s t :
  no_char c s -> Index (s +:+ String c sep +:+ t) (String c sep) = Some (String.length s).
Proof.
  intros Hs. induction s as [|x s IH].
  - assert (String.prefix (String c sep) (String c sep +:+ t) = true) as Hp
      by (apply prefix_iff; by eexists).
    change ("" +:+ ?x) with x. change (String c sep +:+ t) with (String c (sep +:+ t)) in *.
    cbn [Index]. by rewrite Hp.
  - apply no_char_cons in Hs as [Hx Hs]. 
    change (String x s +:+ ?y) with (String x (s +:+ y)). cbn [Index String.prefix].
    destruct (ascii_dec c x) as [->|_]; [done|]. by rewrite IH.
Qed.

Lemma Index_none c sep s : no_char c s -> Index s (String c sep) = None.
Proof.
  induction s as [|x s IH]; intros Hs; [done|]. apply no_char_cons in Hs as [Hx Hs]. simpl.
  destruct (ascii_dec c x) as [->|_]; [done|]. by rewrite IH.
Qed.

(** *** Decimal numbers *)

Lemma char_digit_char d : 0 <= d < 10 -> is_digit (digit_char d) = true /\ char_digit (digit_char d) = d.
Proof.
  intros Hd. assert (d = 0 \/ d = 1 \/ d = 2 \/ d = 3 \/ d = 4 \/ d = 5 \/ d = 6 \/ d = 7 \/ d = 8 \/ d = 9)
    as Hc by lia.
  repeat destruct Hc as [->|Hc]; try (split; reflexivity). subst. split; reflexivity.
Qed.

Lemma undigits_digits_loop fuel : forall z acc,
  0 <= z < 2 ^ Z.of_nat fuel ->
  undigits_loop 0 (digits_loop fuel z acc) = undigits_loop z acc.
Proof.
  induction fuel as [|fuel IH]; intros z acc Hz; [by replace z with 0 by (simpl in Hz; lia)|].
  cbn [digits_loop]. pose proof (Z.mod_pos_bound z 10). pose proof (Z.div_mod z 10).
  destruct (char_digit_char (z mod 10)) as [H1 H2]; [lia|].
  destruct (z / 10 =? 0) eqn:E.
  - apply Z.eqb_eq in E. cbn [undigits_loop]. rewrite H1, H2. f_equal. lia.
  - rewrite IH.
    + cbn [undigits_loop]. rewrite H1, H2. f_equal. lia.
    + rewrite Nat2Z.inj_succ, Z.pow_succ_r in Hz by lia. split; [by apply Z.div_pos; lia|].
      apply Z.div_lt_upper_bound; lia.
Qed.

Lemma digits_loop_cons fuel : forall z acc, exists c s, digits_loop (S fuel) z acc = String c s.
Proof.
  induction fuel as [|fuel IH]; intros z acc; cbn [digits_loop];
    destruct (z / 10 =? 0); try (by eexists _, _). apply IH.
Qed.

Lemma undigits_digits z : 0 <= z -> undigits (digits z) = Some z.
Proof.
  intros Hz. unfold undigits, digits.
  destruct (digits_loop_cons (Z.to_nat (Z.log2 z)) z "") as (c & s & E). rewrite E. simpl String.eqb.
  cbv iota. rewrite <- E, undigits_digits_loop; [done|].
  rewrite Nat2Z.inj_succ, Z2Nat.id by apply Z.log2_nonneg.
  destruct (decide (z = 0)) as [->|]; [by simpl|].
  pose proof (Z.log2_spec z). lia.
Qed.

Lemma Itoa_inj x y : Itoa x = Itoa y -> x = y.
Proof.
  assert (forall z, undigits ("-" +:+ digits z) = None) as Hm by done.
  assert (forall x y, 0 <= x -> 0 <= y -> digits x = digits y -> x = y) as Hd.
  { intros a b Ha Hb E. apply (f_equal undigits) in E. rewrite !undigits_digits in E by done. congruence. }
  unfold Itoa. destruct (x <? 0) eqn:Ex, (y <? 0) eqn:Ey; intros E; bool_to_prop.
  - injection E as E. apply Hd in E; lia.
  - apply (f_equal undigits) in E. by rewrite Hm, undigits_digits in E.
  - apply (f_equal undigits) in E. by rewrite Hm, undigits_digits in E.
  - apply Hd in E; lia.
Qed.

(** The text of a 64-bit integer is read back. *)
Lemma Atoi_Itoa z : in64 z -> Atoi (Itoa z) = Some z.
Proof.
  intros Hz. unfold Atoi, Itoa. destruct (z <? 0) eqn:E; bool_to_prop.
  - change (("-" +:+ digits (- z))%string) with (String "-" (digits (- z))). cbv iota beta.
    rewrite undigits_digits by lia. simpl. rewrite Z.opp_involutive. unfold_int.
    by rewrite (proj2 (Z.leb_le _ _)), (proj2 (Z.leb_le _ _)) by lia.
  - pose proof (undigits_digits z ltac:(lia)) as Hd.
    destruct (digits z) as [|c s] eqn:Es; [discriminate Hd|].
    assert (is_digit c = true) as Hc.
    { unfold undigits in Hd. cbn in Hd. by destruct (is_digit c). }
    assert ((min64 <=? z) && (z <=? max64) = true) as Hr.
    { unfold_int. by rewrite (proj2 (Z.leb_le _ _)), (proj2 (Z.leb_le _ _)) by lia. }
    destruct c as [[] [] [] [] [] [] [] []]; try discriminate Hc; cbv iota beta;
      by rewrite Hd, Hr.
Qed.

(** *** Words and lines *)

Definition newline : string := String (ascii_of_nat 10) "".
Definition no_space (s : string) : bool := str_all (fun c => negb (is_space c)) s.

(** A non-empty text without white space. *)
Definition word (s : string) : Prop := s <> "" /\ no_space s = true.

Lemma fields_word w : forall acc s,
  no_space w = true -> fields_loop acc (w +:+ s) = fields_loop (acc +:+ w) s.
Proof.
  induction w as [|c w IH]; intros acc s Hw; [by rewrite str_app_nil_r|].
  unfold no_space in Hw. simpl in Hw. apply andb_true_iff in Hw as [Hc Hw].
  apply negb_true_iff in Hc. simpl. rewrite Hc, IH by done. by rewrite str_app_assoc.
Qed.

Lemma fields_loop_words ws : forall acc,
  acc <> "" -> Forall word ws ->
  fields_loop acc (String.concat "" (map (fun w => " " +:+ w) ws)) = acc :: ws.
Proof.
  induction ws as [|w ws IH]; intros acc Hacc Hws.
  { simpl. by rewrite (proj2 (String.eqb_neq _ _)). }
  apply Forall_cons in Hws as [[Hne Hw] Hws].
  assert (String.concat "" (map (fun w => " " +:+ w) (w :: ws)) =
    String " " (w +:+ String.concat "" (map (fun w => " " +:+ w) ws))) as ->.
  { destruct ws; simpl; [by rewrite str_app_nil_r|done]. }
  cbn [fields_loop]. change (is_space " ") with true. cbv iota.
  rewrite (proj2 (String.eqb_neq _ _)) by done. cbn [app]. f_equal.
  rewrite fields_word by done. by apply IH.
Qed.

Lemma concat_spaces w ws :
  String.concat " " (w :: ws) = w +:+ String.concat "" (map (fun w => " " +:+ w) ws).
Proof.
  revert w. induction ws as [|w' ws IH]; intros w; [simpl; by rewrite str_app_nil_r|].
  change (String.concat " " (w :: w' :: ws)) with (w +:+ " " +:+ String.concat " " (w' :: ws)).
  rewrite IH. f_equal. destruct ws; simpl; [by rewrite str_app_nil_r|done].
Qed.

(** Words joined by spaces are split into the words. *)
Lemma Fields_words ws : Forall word ws -> Fields (String.concat " " ws) = ws.
Proof.
  destruct ws as [|w ws]; [done|]. intros Hws. apply Forall_cons in Hws as [[Hne Hw] Hws].
  unfold Fields. rewrite concat_spaces, fields_word by done. by apply fields_loop_words.
Qed.

Lemma fields_spaces s : forall acc,
  str_all is_space s = true -> fields_loop acc s = if String.eqb acc "" then [] else [acc].
Proof.
  induction s as [|c s IH]; intros acc Hs; [done|]. simpl in Hs.
  apply andb_true_iff in Hs as [Hc Hs]. simpl. rewrite Hc, IH by done. simpl. by rewrite app_nil_r.
Qed.

Lemma fields_trim_right s : forall acc, fields_loop acc (trim_right is_space s) = fields_loop acc s.
Proof.
  induction s as [|c s IH]; intros acc; [done|]. cbn [trim_right].
  destruct (str_all is_space (String c s)) eqn:E; [by rewrite (fields_spaces (String c s))|].
  cbn [fields_loop]. by destruct (is_space c); rewrite IH.
Qed.

Lemma Fields_TrimSpace s : Fields (TrimSpace s) = Fields s.
Proof.
  unfold Fields, TrimSpace. rewrite fields_trim_right.
  induction s as [|c s IH]; [done|]. cbn [trim_left].
  destruct (is_space c) eqn:E; [|done]. cbn [fields_loop]. rewrite E. simpl. exact IH.
Qed.

Lemma TrimSpace_word s : no_space s = true -> TrimSpace s = s.
Proof.
  intros Hs. unfold TrimSpace.
  assert (trim_left is_space s = s) as ->.
  { destruct s as [|c s]; [done|]. unfold no_space in Hs. simpl in Hs.
    apply andb_true_iff in Hs as [Hc _]. apply negb_true_iff in Hc. simpl. by rewrite Hc. }
  induction s as [|c s IH]; [done|]. unfold no_space in *. simpl in Hs.
  apply andb_true_iff in Hs as [Hc Hs]. apply negb_true_iff in Hc. simpl. by rewrite Hc, IH.
Qed.

(** What is joined by a character is split at it; with newlines, lines. *)
Lemma Split_join c l ls :
  Forall (no_char c) (l :: ls) ->
  Split (String.concat (String c "") (l :: ls)) (String c "") = l :: ls.
Proof.
  unfold Split. revert l. induction ls as [|l' ls IH]; intros l Hl; apply Forall_cons in Hl as [H1 Hl].
  - change (String.concat (String c "") [l]) with l. by rewrite split_none.
  - change (String.concat (String c "") (l :: l' :: ls))
      with (l +:+ String c "" +:+ String.concat (String c "") (l' :: ls)).
    rewrite split_first by done. simpl. f_equal. by apply IH.
Qed.

Lemma Split_lines l ls :
  Forall (no_char (ascii_of_nat 10)) (l :: ls) -> Split (String.concat newline (l :: ls)) newline = l :: ls.
Proof. apply Split_join. Qed.

Lemma no_space_no_char c s : is_space c = true -> no_space s = true -> no_char c s.
Proof.
  intros Hc. induction s as [|x s IH]; [done|]. unfold no_space. simpl. intros H.
  apply andb_true_iff in H as [Hx H]. apply no_char_cons. split; [|by apply IH].
  intros ->. by rewrite Hc in Hx.
Qed.

Lemma words_one_line ws : Forall word ws -> no_char (ascii_of_nat 10) (String.concat " " ws).
Proof.
  destruct ws as [|w ws]; [done|]. intros H. rewrite concat_spaces. apply Forall_cons in H as [[_ Hw] H].
  apply no_char_app. split; [by apply no_space_no_char|].
  induction H as [|v vs [_ Hv] H IH]; [done|].
  assert (String.concat "" (map (fun w => " " +:+ w) (v :: vs)) =
    " " +:+ v +:+ String.concat "" (map (fun w => " " +:+ w) vs)) as ->.
  { destruct vs; simpl; [by rewrite str_app_nil_r|done]. }
  apply no_char_app. split; [done|]. apply no_char_app. split; [by apply no_space_no_char|done].
Qed.

(** *** Trimming *)

Lemma trim_right_all f s : str_all f s = true -> trim_right f s = "".
Proof. destruct s as [|c s]; [done|]. intros H. cbn [trim_right]. by rewrite H. Qed.

Lemma str_all_trim_right f s : str_all f (trim_right f s) = str_all f s.
Proof.
  induction s as [|c s IH]; [done|]. cbn [trim_right].
  destruct (str_all f (String c s)) eqn:E; [done|]. cbn [str_all] in *. by rewrite IH.
Qed.

Lemma trim_right_idem f s : trim_right f (trim_right f s) = trim_right f s.
Proof.
  induction s as [|c s IH]; [done|]. cbn [trim_right].
  destruct (str_all f (String c s)) eqn:E; [done|]. cbn [trim_right].
  assert (str_all f (String c (trim_right f s)) = false) as ->; [|by rewrite IH].
  cbn [str_all] in *. by rewrite str_all_trim_right.
Qed.

Lemma trim_comm f s : trim_left f (trim_right f s) = trim_right f (trim_left f s).
Proof.
  induction s as [|c s IH]; [done|]. cbn [trim_right trim_left].
  destruct (str_all f (String c s)) eqn:E.
  - cbn [str_all] in E. apply andb_true_iff in E as [Hc Hs]. rewrite Hc. cbn [trim_left].
    rewrite <- IH. by rewrite trim_right_all.
  - cbn [trim_left]. destruct (f c) eqn:Hc; [done|]. cbn [trim_right]. by rewrite E.
Qed.

Lemma TrimSpace_right s : TrimSpace (trim_right is_space s) = TrimSpace s.
Proof. unfold TrimSpace. by rewrite trim_comm, trim_right_idem. Qed.

Lemma trim_right_stop f a c b : f c = false -> trim_right f (a +:+ String c b) = a +:+ String c (trim_right f b).
Proof.
  intros Hc. assert (forall a, str_all f (a +:+ String c b) = false) as H.
  { intros x. rewrite str_all_app. simpl. by rewrite Hc, andb_false_r. }
  induction a as [|x a IH].
  - change ("" +:+ ?x) with x. cbn [trim_right]. by rewrite (H "" : str_all f (String c b) = false).
  - change (String x a +:+ ?y) with (String x (a +:+ y)). cbn [trim_right].
    rewrite (H (String x a) : str_all f (String x (a +:+ String c b)) = false). by rewrite IH.
Qed.

Lemma trim_right_drop f a c : f c = true -> trim_right f (a +:+ String c "") = trim_right f a.
Proof.
  intros Hc. induction a as [|x a IH].
  - change ("" +:+ ?y) with y. cbn [trim_right str_all]. by rewrite Hc.
  - rewrite str_app_cons. cbn [trim_right str_all]. rewrite str_all_app, IH. cbn [str_all].
    by rewrite Hc, !andb_true_r.
Qed.

Lemma trim_right_space a c : is_space c = true -> trim_right is_space (a +:+ String c "") = trim_right is_space a.
Proof. apply trim_right_drop. Qed.

Lemma trim_left_stop f c s : f c = false -> trim_left f (String c s) = String c s.
Proof. intros Hc. cbn [trim_left]. by rewrite Hc. Qed.

(** Text without a character is not trimmed of it. *)
Lemma trim_left_none c s : no_char c s -> trim_left (Ascii.eqb c) s = s.
Proof.
  destruct s as [|x s]; [done|]. rewrite no_char_cons. intros [Hx _]. apply trim_left_stop, Ascii.eqb_neq.
  congruence.
Qed.

Lemma trim_right_none c s : no_char c s -> trim_right (Ascii.eqb c) s = s.
Proof.
  induction s as [|x s IH]; [done|]. rewrite no_char_cons. intros [Hx Hs]. cbn [trim_right str_all].
  rewrite (proj2 (Ascii.eqb_neq c x)) by congruence. by rewrite IH.
Qed.
