(* ===== verification/GoFloat.v ===== *)
(** * Go floating point

    [float64] as the IEEE 754 binary64 values of the Standard Library's
    SpecFloat, with [strconv.ParseFloat] and [strconv.FormatFloat] for the
    formats the collector uses: 'f' with a precision, 'f' and 'g' with the
    shortest digits that identify the value.  All rounding is done on exact
    integers. *)

From Stdlib Require Import Ascii String.
From Stdlib Require Import Floats.SpecFloat.
From S2P Require Import Prelude GoStrings.

Open Scope string_scope.
Open Scope list_scope.
Open Scope Z_scope.

Definition float64 : Type := spec_float.

Definition fprec : Z := 53.
Definition femax : Z := 1024.

Definition f64_mul : float64 -> float64 -> float64 := SFmul fprec femax.
Definition f64_div : float64 -> float64 -> float64 := SFdiv fprec femax.
Definition f64_of_Z (z : Z) : float64 := binary_normalize fprec femax z 0 false.

(** ** Decimal and hexadecimal syntax *)

(** [n / d], correctly rounded; the sign is given apart. *)
Definition round_ratio (s : bool) (n d : Z) : float64 :=
  if n =? 0 then S754_zero s
  else
    let '(q, e, l) := SFdiv_core_binary fprec femax n 0 d 0 in
    match q with
    | Zpos _ => binary_round_aux fprec femax s q e l
    | _ => S754_zero s
    end.

Definition hex_value (c : ascii) : option Z :=
  if is_digit c then Some (char_digit c)
  else let l := lower_ascii c in
       if in_range "a" "f" l then Some (Z.of_N (N_of_ascii l) - 87) else None.

(** The mantissa loop of [readFloat]: the digits read as an integer, the
    number of digits after the point, whether a digit was seen, and the rest.
    Underscores are skipped. *)
Fixpoint read_mantissa (base : Z) (mant frac : Z) (sawdot sawdigits : bool) (s : string)
    : Z * Z * bool * string :=
  match s with
  | EmptyString => (mant, frac, sawdigits, s)
  | String c rest =>
      if Ascii.eqb c "_" then read_mantissa base mant frac sawdot sawdigits rest
      else if Ascii.eqb c "." then
        if sawdot then (mant, frac, sawdigits, s)
        else read_mantissa base mant frac true sawdigits rest
      else
        match hex_value c with
        | Some d =>
            if d <? base
            then read_mantissa base (mant * base + d) (if sawdot then frac + 1 else frac)
                   sawdot true rest
            else (mant, frac, sawdigits, s)
        | None => (mant, frac, sawdigits, s)
        end
  end.

(** The digits of the exponent: it stops growing at 10000. *)
Fixpoint read_exponent (e : Z) (s : string) : Z * string :=
  match s with
  | EmptyString => (e, s)
  | String c rest =>
      if Ascii.eqb c "_" then read_exponent e rest
      else if is_digit c
      then read_exponent (if e <? 10000 then e * 10 + char_digit c else e) rest
      else (e, s)
  end.

(** [underscoreOK]: [saw] is the class of the last character, '0' for a digit. *)
Fixpoint underscore_loop (hex : bool) (saw : ascii) (s : string) : bool :=
  match s with
  | EmptyString => negb (Ascii.eqb saw "_")
  | String c rest =>
      if is_digit c || (hex && in_range "a" "f" (lower_ascii c)) then underscore_loop hex "0" rest
      else if Ascii.eqb c "_" then
        if Ascii.eqb saw "0" then underscore_loop hex "_" rest else false
      else if Ascii.eqb saw "_" then false
      else underscore_loop hex "!" rest
  end.

Definition strip_sign (s : string) : bool * string :=
  match s with
  | String "+" rest => (false, rest)
  | String "-" rest => (true, rest)
  | _ => (false, s)
  end.

Definition underscoreOK (s : string) : bool :=
  let s := snd (strip_sign s) in
  match s with
  | String "0" (String c rest) =>
      let l := lower_ascii c in
      if Ascii.eqb l "b" || Ascii.eqb l "o" || Ascii.eqb l "x"
      then underscore_loop (Ascii.eqb l "x") "0" rest
      else underscore_loop false "^" s
  | _ => underscore_loop false "^" s
  end.

Definition round_scaled (neg : bool) (base mant e : Z) : float64 :=
  if 0 <=? e then round_ratio neg (mant * base ^ e) 1
  else round_ratio neg mant (base ^ (- e)).

(** A number in Go's syntax that takes the whole string. *)
Definition read_number (s : string) : option float64 :=
  let '(neg, body) := strip_sign s in
  let hex := match body with
             | String "0" (String c (String _ _)) => Ascii.eqb (lower_ascii c) "x"
             | _ => false
             end in
  let base := if hex then 16 else 10 in
  let body := if hex then str_drop 2 body else body in
  let '(mant, frac, sawdigits, rest) := read_mantissa base 0 0 false false body in
  if negb sawdigits then None
  else
    let expChar := if hex then "p"%char else "e"%char in
    let exp :=
      match rest with
      | String c tail =>
          if Ascii.eqb (lower_ascii c) expChar then
            let '(eneg, digs) := strip_sign tail in
            match digs with
            | String d _ =>
                if is_digit d
                then let '(e, rest) := read_exponent 0 digs in Some (if eneg then - e else e, rest)
                else None
            | EmptyString => None
            end
          else if hex then None else Some (0, rest)
      | EmptyString => if hex then None else Some (0, rest)
      end in
    match exp with
    | Some (e, EmptyString) =>
        if negb (underscoreOK s) then None
        else if hex
        then Some (round_scaled neg 2 mant (e - 4 * frac))
        else Some (round_scaled neg 10 mant (e - frac))
    | _ => None
    end.

(** [strconv.ParseFloat s 64]: [None] for a syntax error or a value out of
    range, the cases with a non-nil error. *)
Definition ParseFloat (s : string) : option float64 :=
  let '(neg, body) := strip_sign s in
  let l := ToLower body in
  if String.eqb l "inf" || String.eqb l "infinity" then Some (S754_infinity neg)
  else if String.eqb (ToLower s) "nan" then Some S754_nan
  else match read_number s with
       | Some (S754_infinity _) => None
       | r => r
       end.

(** ** Formatting *)

Fixpoint str_repeat (n : nat) (c : ascii) : string :=
  match n with O => EmptyString | S n => String c (str_repeat n c) end.

(** [n / d] rounded to an integer, ties to even. *)
Definition round_half_even (n d : Z) : Z :=
  let q := n / d in
  let r := n mod d in
  if 2 * r <? d then q
  else if d <? 2 * r then q + 1
  else if Z.even q then q else q + 1.

(** The magnitude [m * 2 ^ e] as a ratio. *)
Definition float_ratio (m e : Z) : Z * Z :=
  if 0 <=? e then (m * 2 ^ e, 1) else (m, 2 ^ (- e)).

Fixpoint leading_zeros (fuel : nat) (n d : Z) : Z :=
  match fuel with
  | O => 0
  | S fuel => if d <=? n * 10 then 0 else 1 + leading_zeros fuel (n * 10) d
  end.

(** The [k] with [10 ^ (k - 1) <= n / d < 10 ^ k]. *)
Definition decimal_point (n d : Z) : Z :=
  if d <=? n then Z.of_nat (String.length (digits (n / d)))
  else - leading_zeros 400 n d.

(** Decimal digits [D] and the position [k] of the point: [0.D * 10 ^ k]. *)
Definition strip_zeros (s : string) : string := trim_right (Ascii.eqb "0") s.

Definition shortest_try (m e : Z) (k : Z) (nd : Z) : option (string * Z) :=
  let '(n, d) := float_ratio m e in
  let '(sn, sd) := if k - nd <? 0 then (10 ^ (nd - k), 1) else (1, 10 ^ (k - nd)) in
  (** [x] units of this many digits are worth [x * sd / sn] *)
  let lo := (n * sn) / (d * sd) in
  let exact := (n * sn) mod (d * sd) =? 0 in
  let hi := if exact then lo else lo + 1 in
  let inclusive := Z.even m in
  (** the interval that rounds to the float, in quarters of its last place *)
  let lower := if (m =? 2 ^ 52) && (-1074 <? e) then 4 * m - 1 else 4 * m - 2 in
  let upper := 4 * m + 2 in
  let scale x := x * sd * (if 0 <=? e then 1 else 2 ^ (- e)) * 4 in
  let bound x := x * sn * (if 0 <=? e then 2 ^ e else 1) in
  let okdown := (bound lower <? scale lo) || (inclusive && (bound lower =? scale lo)) in
  let okup := (scale hi <? bound upper) || (inclusive && (scale hi =? bound upper)) in
  let out x := let s := digits x in
               (strip_zeros s, if Z.of_nat (String.length s) <=? nd then k else k + 1) in
  match okdown, okup with
  | true, true => Some (out (round_half_even (n * sn) (d * sd)))
  | true, false => Some (out lo)
  | false, true => Some (out hi)
  | false, false => None
  end.

Fixpoint shortest_loop (fuel : nat) (m e k nd : Z) : string * Z :=
  match fuel with
  | O => let '(n, d) := float_ratio m e in (digits (n / d), k)
  | S fuel =>
      match shortest_try m e k nd with
      | Some r => r
      | None => shortest_loop fuel m e k (nd + 1)
      end
  end.

(** Seventeen digits always identify a [float64]. *)
Definition shortest_digits (m e : Z) : string * Z :=
  let '(n, d) := float_ratio m e in
  shortest_loop 17 m e (decimal_point n d) 1.

(** [fmtF] with the shortest digits. *)
Definition fmtF (ds : string) (dp : Z) : string :=
  let nd := Z.of_nat (String.length ds) in
  if dp <=? 0 then "0." +:+ str_repeat (Z.to_nat (- dp)) "0" +:+ ds
  else if nd <=? dp then ds +:+ str_repeat (Z.to_nat (dp - nd)) "0"
  else str_take (Z.to_nat dp) ds +:+ "." +:+ str_drop (Z.to_nat dp) ds.

(** [fmtE] with the shortest digits: at least two digits of exponent. *)
Definition fmtE (ds : string) (dp : Z) : string :=
  let e := dp - 1 in
  let es := digits (Z.abs e) in
  let es := if Z.abs e <? 10 then "0" +:+ es else es in
  str_take 1 ds +:+ (if String.eqb (str_drop 1 ds) "" then "" else "." +:+ str_drop 1 ds)
  +:+ "e" +:+ (if e <? 0 then "-" else "+") +:+ es.

Definition sign_str (s : bool) : string := if s then "-" else "".

(** [strconv.FormatFloat x 'f' (-1) 64]. *)
Definition FormatFloat_f (x : float64) : string :=
  match x with
  | S754_nan => "NaN"
  | S754_infinity s => if s then "-Inf" else "+Inf"
  | S754_zero s => sign_str s +:+ "0"
  | S754_finite s m e => let '(ds, dp) := shortest_digits (Zpos m) e in sign_str s +:+ fmtF ds dp
  end.

(** [strconv.FormatFloat x 'g' (-1) 64], which is [fmt.Sprintf "%v"]. *)
Definition FormatFloat_g (x : float64) : string :=
  match x with
  | S754_nan => "NaN"
  | S754_infinity s => if s then "-Inf" else "+Inf"
  | S754_zero s => sign_str s +:+ "0"
  | S754_finite s m e =>
      let '(ds, dp) := shortest_digits (Zpos m) e in
      sign_str s +:+ (if (dp - 1 <? -4) || (6 <=? dp - 1) then fmtE ds dp else fmtF ds dp)
  end.

(** [strconv.FormatFloat x 'f' p 64] for a precision [p >= 1]. *)
Definition FormatFloat_fp (p : nat) (x : float64) : string :=
  match x with
  | S754_nan => "NaN"
  | S754_infinity s => if s then "-Inf" else "+Inf"
  | S754_zero s => sign_str s +:+ "0." +:+ str_repeat p "0"
  | S754_finite s m e =>
      let '(n, d) := float_ratio (Zpos m) e in
      let v := round_half_even (n * 10 ^ Z.of_nat p) d in
      let ds := digits v in
      let ds := str_repeat (S p - String.length ds) "0" +:+ ds in
      let i := (String.length ds - p)%nat in
      sign_str s +:+ str_take i ds +:+ "." +:+ str_drop i ds
  end.
