(* ===== verification/WheelTimer.v ===== *)
(** * The hashed wheel timer

    Models internal/types/job/timeout_types.go and
    internal/job/dispatcher/hashed_wheel_timer.go.  A [*Timeout] is shared by
    the wheel and by the maps of the time dispatcher, so timeouts live in a
    heap [mem] and the buckets hold pointers into it.  The second half of the
    file relates the wheel to an abstract queue of deadlines. *)

From S2P Require Import Prelude.

Abbreviation tptr := nat (only parsing).

(** ** Timeouts *)

Record Timeout (Task : Type) := mkTimeout {
  to_task : Task;
  to_deadline : Z;
  to_cancelled : bool;
  to_wheelIndex : Z;
  to_bucketIndex : Z;
}.
Arguments mkTimeout {Task} _ _ _ _ _.
Arguments to_task {Task} _.
Arguments to_deadline {Task} _.
Arguments to_cancelled {Task} _.
Arguments to_wheelIndex {Task} _.
Arguments to_bucketIndex {Task} _.

(** [job.NewTimeout]: [now] is the clock reading of its [time.Now()]. *)
Definition newTimeoutObj {Task} (now : Z) (task : Task) (delay : Z) : Timeout Task :=
  mkTimeout task (now + delay) false 0 0.

Definition IsCancelled {Task} (t : Timeout Task) : bool := to_cancelled t.

(** [Timeout.Cancel]: true when this call cancelled it. *)
Definition Cancel {Task} (t : Timeout Task) : Timeout Task * bool :=
  if to_cancelled t then (t, false)
  else (mkTimeout (to_task t) (to_deadline t) true (to_wheelIndex t) (to_bucketIndex t), true).

Definition SetWheelIndex {Task} (i : Z) (t : Timeout Task) : Timeout Task :=
  mkTimeout (to_task t) (to_deadline t) (to_cancelled t) i (to_bucketIndex t).

Definition SetBucketIndex {Task} (i : Z) (t : Timeout Task) : Timeout Task :=
  mkTimeout (to_task t) (to_deadline t) (to_cancelled t) (to_wheelIndex t) i.

(** ** The wheel *)

Record hashedWheelTimer := mkHwt {
  tickDuration : Z;
  wheelSize : Z;
  wheel : list (list tptr);      (** one list of pointers per bucket *)
  currentTick : Z;
  startTime : option Z;
  hwt_ticker : bool;             (** [ticker] is not nil and not stopped *)
  hwt_started : bool;
  hwt_stopped : bool;
  hwt_cancel : bool;             (** [cancel] has been set *)
  hwt_running : bool;            (** the goroutine of [run] has not returned *)
}.

(** The wheel with the heap its pointers refer to. *)
Record timers (Task : Type) := mkTimers {
  mem : gmap tptr (Timeout Task);
  nextp : tptr;
  hwt : hashedWheelTimer;
}.
Arguments mkTimers {Task} _ _ _.
Arguments mem {Task} _.
Arguments nextp {Task} _.
Arguments hwt {Task} _.

Definition NewHashedWheelTimer (size duration : Z) : hashedWheelTimer :=
  let size := if size <=? 0 then 512 else size in
  let duration := if duration <=? 0 then 100 * Millisecond else duration in
  mkHwt duration size (replicate (Z.to_nat size) []) 0 None false false false false false.

Definition set_wheel (w : list (list tptr)) (h : hashedWheelTimer) : hashedWheelTimer :=
  mkHwt (tickDuration h) (wheelSize h) w (currentTick h) (startTime h) (hwt_ticker h)
        (hwt_started h) (hwt_stopped h) (hwt_cancel h) (hwt_running h).

Definition set_currentTick (c : Z) (h : hashedWheelTimer) : hashedWheelTimer :=
  mkHwt (tickDuration h) (wheelSize h) (wheel h) c (startTime h) (hwt_ticker h)
        (hwt_started h) (hwt_stopped h) (hwt_cancel h) (hwt_running h).

Section Operations.
Context {Task : Type}.
Implicit Types st : timers Task.

(** [hashedWheelTimer.NewTimeout]; [None] is the nil pointer it returns when
    the timer is stopped.  Indexing the wheel outside its range panics. *)
Definition NewTimeout (now : Z) (task : Task) (delay : Z) : M (timers Task) (option tptr) :=
  fun st =>
  let h := hwt st in
  if hwt_stopped h then Ret st None
  else
    let timeout := newTimeoutObj now task delay in
    let totalTicks := Z.quot delay (tickDuration h) in
    let targetTick := wrap64 (currentTick h + totalTicks) in
    let bucketIndex := Z.rem targetTick (wheelSize h) in
    let timeout := SetBucketIndex bucketIndex (SetWheelIndex targetTick timeout) in
    let p := nextp st in
    let m := <[p := timeout]> (mem st) in
    if (0 <=? bucketIndex) && (bucketIndex <? Z.of_nat (length (wheel h))) then
      Ret (mkTimers m (S p)
             (set_wheel (alter (fun b => b ++ [p]) (Z.to_nat bucketIndex) (wheel h)) h))
          (Some p)
    else Panic (mkTimers m (S p) h) "index out of range".

(** [hashedWheelTimer.Start]. *)
Definition hwt_Start (now : Z) (h : hashedWheelTimer) : hashedWheelTimer :=
  if hwt_started h then h
  else mkHwt (tickDuration h) (wheelSize h) (wheel h) (currentTick h) (Some now) true
             true (hwt_stopped h) true true.

(** [hashedWheelTimer.Stop]: calling the nil [cancel] of a timer that was
    never started panics.  [wg.Wait] returns when [run] has returned. *)
Definition hwt_Stop (h : hashedWheelTimer) : outcome hashedWheelTimer unit :=
  if hwt_stopped h then Ret h tt
  else
    let h := mkHwt (tickDuration h) (wheelSize h) (wheel h) (currentTick h) (startTime h)
                   (hwt_ticker h) (hwt_started h) true (hwt_cancel h) (hwt_running h) in
    if negb (hwt_cancel h) then Panic h "call of nil function"
    else Ret (mkHwt (tickDuration h) (wheelSize h) (wheel h) (currentTick h) (startTime h)
                    false (hwt_started h) (hwt_stopped h) (hwt_cancel h) false) tt.

(** The loop of [tick] over one bucket: the timeouts it runs, in order, and
    the ones it keeps.  A cancelled timeout is in neither list. *)
Fixpoint tick_loop (m : gmap tptr (Timeout Task)) (ct : Z) (bucket : list tptr)
    : list tptr * list tptr :=
  match bucket with
  | [] => ([], [])
  | p :: rest =>
      let '(fired, remaining) := tick_loop m ct rest in
      match m !! p with
      | None => (fired, remaining)
      | Some t =>
          if IsCancelled t then (fired, remaining)
          else if to_wheelIndex t <=? ct then (p :: fired, remaining)
          else (fired, p :: remaining)
      end
  end.

(** [hashedWheelTimer.tick]; the result is the list of timeouts whose task it
    starts a goroutine for. *)
Definition tick : M (timers Task) (list tptr) :=
  fun st =>
  let ct := wrap64 (currentTick (hwt st) + 1) in
  let h := set_currentTick ct (hwt st) in
  let bucketIndex := Z.rem ct (wheelSize h) in
  if 0 <=? bucketIndex then
    match wheel h !! Z.to_nat bucketIndex with
    | Some bucket =>
        let '(fired, remaining) := tick_loop (mem st) ct bucket in
        Ret (mkTimers (mem st) (nextp st)
               (set_wheel (<[Z.to_nat bucketIndex := remaining]> (wheel h)) h)) fired
    | None => Panic (mkTimers (mem st) (nextp st) h) "index out of range"
    end
  else Panic (mkTimers (mem st) (nextp st) h) "index out of range".

(** Cancelling through a pointer. *)
Definition cancel_ptr (p : tptr) (st : timers Task) : timers Task :=
  mkTimers (alter (fun t => fst (Cancel t)) p (mem st)) (nextp st) (hwt st).

(** [GetStats]: its "totalTimeouts" entry; the other entries are fields. *)
Definition totalTimeouts (h : hashedWheelTimer) : nat := sum_list (length <$> wheel h).

End Operations.

(** ** Specification: a queue of deadlines

    [tq_pending] lists the pending timeouts in order of creation, each with
    the tick at which it is due.  A delay of [k] whole ticks is due [k] ticks
    later; a delay shorter than one tick is due one revolution later. *)
Record timerQueue := mkTq {
  tq_now : Z;
  tq_next : tptr;
  tq_pending : list (Z * tptr);
}.

Definition due_in (W k : Z) : Z := if k =? 0 then W else k.

Definition tq_new (W k : Z) (q : timerQueue) : timerQueue :=
  mkTq (tq_now q) (S (tq_next q))
       (tq_pending q ++ [(tq_now q + due_in W k, tq_next q)]).

Definition tq_cancel (p : tptr) (q : timerQueue) : timerQueue :=
  mkTq (tq_now q) (tq_next q) (filter (fun x => x.2 <> p) (tq_pending q)).

Definition tq_tick (q : timerQueue) : timerQueue * list tptr :=
  let now := tq_now q + 1 in
  (mkTq now (tq_next q) (filter (fun x => x.1 <> now) (tq_pending q)),
   snd <$> filter (fun x => x.1 = now) (tq_pending q)).

(** A client's sequence of operations, run on the wheel and on the queue.  The
    output has one list per tick: the timeouts that fired there. *)
Inductive wheelOp (Task : Type) :=
| OpNew (now : Z) (task : Task) (delay : Z)
| OpCancel (p : tptr)
| OpTick.
Arguments OpNew {Task} _ _ _.
Arguments OpCancel {Task} _.
Arguments OpTick {Task}.

Fixpoint wheel_exec {Task} (ops : list (wheelOp Task)) (st : timers Task)
    : outcome (timers Task) (list (list tptr)) :=
  match ops with
  | [] => Ret st []
  | OpNew now task delay :: ops =>
      match NewTimeout now task delay st with
      | Ret st _ => wheel_exec ops st
      | Panic st w => Panic st w
      end
  | OpCancel p :: ops => wheel_exec ops (cancel_ptr p st)
  | OpTick :: ops =>
      match tick st with
      | Ret st fired =>
          match wheel_exec ops st with
          | Ret st outs => Ret st (fired :: outs)
          | Panic st w => Panic st w
          end
      | Panic st w => Panic st w
      end
  end.

Fixpoint tq_exec {Task} (W td : Z) (ops : list (wheelOp Task)) (q : timerQueue)
    : timerQueue * list (list tptr) :=
  match ops with
  | [] => (q, [])
  | OpNew _ _ delay :: ops => tq_exec W td ops (tq_new W (delay / td) q)
  | OpCancel p :: ops => tq_exec W td ops (tq_cancel p q)
  | OpTick :: ops =>
      let '(q, fired) := tq_tick q in
      let '(q, outs) := tq_exec W td ops q in (q, fired :: outs)
  end.

(** ** Invariant and refinement relation *)

Section Relations.
Context {Task : Type}.
Implicit Types (st : timers Task) (m : gmap tptr (Timeout Task)).

(** The tick at which a timeout with target [wi] will run, seen at tick [ct]. *)
Definition due (W ct wi : Z) : Z :=
  if ct <? wi then wi else ct + 1 + (wi - ct - 1) mod W.

Definition ptr_wi m (p : tptr) : Z := default 0 (to_wheelIndex <$> m !! p).

Definition ptr_live m (p : tptr) : Prop :=
  match m !! p with Some t => to_cancelled t = false | None => False end.

#[global] Instance ptr_live_dec m p : Decision (ptr_live m p).
Proof. unfold ptr_live. destruct (m !! p); apply _. Defined.

(** A pointer stored in bucket [i]. *)
Definition bucket_ok (W : Z) m (i : nat) (p : tptr) : Prop :=
  exists t, m !! p = Some t /\ 0 <= to_wheelIndex t
            /\ to_wheelIndex t mod W = Z.of_nat i /\ to_bucketIndex t = Z.of_nat i.

Record wheel_wf (st : timers Task) : Prop := {
  wf_duration : 0 < tickDuration (hwt st);
  wf_size : 0 < wheelSize (hwt st);
  wf_length : Z.of_nat (length (wheel (hwt st))) = wheelSize (hwt st);
  wf_tick : 0 <= currentTick (hwt st);
  wf_bucket : forall i b p, wheel (hwt st) !! i = Some b -> p ∈ b ->
                bucket_ok (wheelSize (hwt st)) (mem st) i p;
  wf_fresh : forall p, is_Some (mem st !! p) -> (p < nextp st)%nat;
  wf_nodup : forall i b, wheel (hwt st) !! i = Some b -> NoDup b;
}.

(** The wheel implements the queue: bucket by bucket, the timeouts that are
    not cancelled are the pending entries whose deadline falls in the bucket. *)
Record wheel_rel (st : timers Task) (q : timerQueue) : Prop := {
  rel_now : tq_now q = currentTick (hwt st);
  rel_next : tq_next q = nextp st;
  rel_bucket : forall i b, wheel (hwt st) !! i = Some b ->
    (fun p => (due (wheelSize (hwt st)) (currentTick (hwt st)) (ptr_wi (mem st) p), p))
      <$> filter (ptr_live (mem st)) b
    = filter (fun x => x.1 mod wheelSize (hwt st) = Z.of_nat i) (tq_pending q);
}.

(** No 64-bit overflow: the clock and every target it is asked for stay below
    2^63 ticks.  Delays are not negative. *)
Definition op_ok (td horizon : Z) (op : wheelOp Task) : Prop :=
  match op with
  | OpNew _ _ delay => 0 <= delay /\ horizon + delay / td <= max64
  | OpCancel _ | OpTick => True
  end.

Definition ops_ok (st : timers Task) (ops : list (wheelOp Task)) : Prop :=
  hwt_stopped (hwt st) = false /\
  currentTick (hwt st) + Z.of_nat (length ops) <= max64 /\
  Forall (op_ok (tickDuration (hwt st)) (currentTick (hwt st) + Z.of_nat (length ops))) ops.

End Relations.

(** ** Arithmetic of the wheel position *)

Lemma due_mod W ct wi : 0 < W -> due W ct wi mod W = wi mod W.
Proof.
  intros HW. unfold due. case_match; [done|].
  replace (ct + 1 + (wi - ct - 1) mod W) with ((wi - ct - 1) mod W + (ct + 1)) by lia.
  rewrite Z.add_mod_idemp_l by lia. f_equal. lia.
Qed.

Lemma due_gt W ct wi : 0 < W -> ct < due W ct wi.
Proof.
  intros HW. unfold due. case_match; bool_to_prop; [done|].
  pose proof (Z.mod_pos_bound (wi - ct - 1) W). lia.
Qed.

Lemma due_fires W ct wi :
  0 < W -> wi mod W = (ct + 1) mod W -> (due W ct wi = ct + 1 <-> wi <= ct + 1).
Proof.
  intros HW Hm. unfold due. case_match; bool_to_prop; [lia|].
  assert ((wi - ct - 1) mod W = 0) as ->; [|lia].
  replace (wi - ct - 1) with (wi - (ct + 1)) by lia.
  rewrite Zminus_mod, Hm, Z.sub_diag. apply Z.mod_0_l. lia.
Qed.

Lemma mod_pred x W : 0 < W -> x mod W <> 0 -> (x - 1) mod W = x mod W - 1.
Proof.
  intros HW Hx. pose proof (Z.mod_pos_bound x W HW).
  rewrite <- Zminus_mod_idemp_l. apply Z.mod_small. lia.
Qed.

Lemma due_step W ct wi :
  0 < W -> due W ct wi <> ct + 1 -> due W (ct + 1) wi = due W ct wi.
Proof.
  unfold due. intros HW Hd.
  destruct (ct <? wi) eqn:E1, (ct + 1 <? wi) eqn:E2; bool_to_prop; try lia.
  replace (wi - (ct + 1) - 1) with (wi - ct - 1 - 1) by lia.
  rewrite mod_pred by lia. lia.
Qed.

Lemma due_new W ct k : 0 < W -> 0 <= k -> due W ct (ct + k) = ct + due_in W k.
Proof.
  intros HW Hk. unfold due, due_in.
  destruct (ct <? ct + k) eqn:E1, (k =? 0) eqn:E2; bool_to_prop; try lia.
  replace (ct + k - ct - 1) with (-1 + 1 * W - W) by lia.
  replace (-1 + 1 * W - W) with (-1 * 1) by lia.
  rewrite <- (Z.mod_add (-1 * 1) 1 W) by lia.
  rewrite Z.mod_small by lia. lia.
Qed.

(** ** The operations, case by case *)

Section Facts.
Context {Task : Type}.
Implicit Types (st : timers Task) (m : gmap tptr (Timeout Task)).

Lemma ptr_live_Some m p t : m !! p = Some t -> (ptr_live m p <-> to_cancelled t = false).
Proof. intros Hp. unfold ptr_live. by rewrite Hp. Qed.

Lemma ptr_live_None m p : m !! p = None -> ~ ptr_live m p.
Proof. intros Hp. unfold ptr_live. rewrite Hp. tauto. Qed.

Lemma ptr_wi_Some m p t : m !! p = Some t -> ptr_wi m p = to_wheelIndex t.
Proof. intros Hp. unfold ptr_wi. by rewrite Hp. Qed.

Lemma tick_loop_spec m ct b :
  tick_loop m ct b =
    (filter (fun p => ptr_live m p /\ ptr_wi m p <= ct) b,
     filter (fun p => ptr_live m p /\ ct < ptr_wi m p) b).
Proof.
  induction b as [|p b IH]; [done|]. cbn [tick_loop]. rewrite IH, !filter_cons.
  unfold IsCancelled. destruct (m !! p) as [t|] eqn:Hp.
  - pose proof (ptr_live_Some _ _ _ Hp) as Hl. pose proof (ptr_wi_Some _ _ _ Hp) as Hw.
    destruct (to_cancelled t), (to_wheelIndex t <=? ct) eqn:E; bool_to_prop;
      repeat case_decide; intuition (congruence || lia).
  - pose proof (ptr_live_None _ _ Hp). repeat case_decide; tauto.
Qed.

(** The timeout [NewTimeout] creates when no overflow occurs. *)
Definition new_timeout (now : Z) (task : Task) (delay : Z) (h : hashedWheelTimer)
    : Timeout Task :=
  let target := currentTick h + delay / tickDuration h in
  mkTimeout task (now + delay) false target (target mod wheelSize h).

Lemma NewTimeout_eq st now task delay :
  wheel_wf st -> hwt_stopped (hwt st) = false -> 0 <= delay ->
  currentTick (hwt st) + delay / tickDuration (hwt st) <= max64 ->
  let target := currentTick (hwt st) + delay / tickDuration (hwt st) in
  NewTimeout now task delay st =
    Ret (mkTimers (<[nextp st := new_timeout now task delay (hwt st)]> (mem st)) (S (nextp st))
           (set_wheel (alter (fun b => b ++ [nextp st])
                             (Z.to_nat (target mod wheelSize (hwt st))) (wheel (hwt st))) (hwt st)))
        (Some (nextp st)).
Proof.
  intros [Htd HW Hlen Hct _ _ _] Hs Hd Hov target. unfold NewTimeout. rewrite Hs.
  rewrite go_quot_nonneg by done.
  assert (0 <= delay / tickDuration (hwt st)) by (apply Z.div_pos; lia).
  rewrite wrap64_id by (unfold_int; lia). fold target.
  rewrite go_rem_nonneg by lia.
  pose proof (Z.mod_pos_bound target _ HW).
  rewrite (proj2 (Z.leb_le 0 _)), (proj2 (Z.ltb_lt _ _)) by lia. done.
Qed.

Lemma tick_eq st :
  wheel_wf st -> currentTick (hwt st) + 1 <= max64 ->
  exists b, wheel (hwt st) !! Z.to_nat ((currentTick (hwt st) + 1) mod wheelSize (hwt st)) = Some b /\
  let ct := currentTick (hwt st) + 1 in
  tick st =
    Ret (mkTimers (mem st) (nextp st)
           (set_wheel (<[Z.to_nat (ct mod wheelSize (hwt st)) :=
                          filter (fun p => ptr_live (mem st) p /\ ct < ptr_wi (mem st) p) b]>
                        (wheel (hwt st)))
              (set_currentTick ct (hwt st))))
        (filter (fun p => ptr_live (mem st) p /\ ptr_wi (mem st) p <= ct) b).
Proof.
  intros [Htd HW Hlen Hct _ _ _] Hov.
  pose proof (Z.mod_pos_bound (currentTick (hwt st) + 1) _ HW).
  destruct (lookup_lt_is_Some_2 (wheel (hwt st))
    (Z.to_nat ((currentTick (hwt st) + 1) mod wheelSize (hwt st)))) as [b Hb]; [lia|].
  exists b. split; [done|]. cbv zeta. unfold tick.
  rewrite wrap64_id by (unfold_int; lia). cbn [set_currentTick wheelSize wheel].
  rewrite go_rem_nonneg by lia.
  rewrite (proj2 (Z.leb_le 0 _)) by (apply Z.mod_pos_bound; done).
  rewrite Hb, tick_loop_spec. done.
Qed.

(** ** Heap framing *)

Lemma ptr_live_insert_ne m p p' t : p <> p' -> ptr_live (<[p' := t]> m) p <-> ptr_live m p.
Proof. intros. unfold ptr_live. by rewrite lookup_insert_ne. Qed.

Lemma ptr_wi_insert_ne m p p' t : p <> p' -> ptr_wi (<[p' := t]> m) p = ptr_wi m p.
Proof. intros. unfold ptr_wi. by rewrite lookup_insert_ne. Qed.

Lemma bucket_ok_alloc W m i p t : bucket_ok W m i p ->
  m !! p = Some t -> ptr_wi m p mod W = Z.of_nat i.
Proof. intros (t' & Ht & _ & Hm & _) ?. unfold ptr_wi. rewrite Ht. done. Qed.

Lemma bucket_ptr_fresh st i b p :
  wheel_wf st -> wheel (hwt st) !! i = Some b -> p ∈ b -> (p < nextp st)%nat.
Proof. intros Hwf Hb Hp. destruct (wf_bucket _ Hwf _ _ _ Hb Hp) as (t & Ht & _).
  apply (wf_fresh _ Hwf). by rewrite Ht. Qed.

Lemma cancel_lookup p st p' :
  mem (cancel_ptr p st) !! p' =
    if decide (p = p') then (fun t => fst (Cancel t)) <$> mem st !! p' else mem st !! p'.
Proof. unfold cancel_ptr. simpl. rewrite lookup_alter. by case_decide; subst. Qed.

Lemma Cancel_fields (t : Timeout Task) :
  to_task (fst (Cancel t)) = to_task t /\ to_wheelIndex (fst (Cancel t)) = to_wheelIndex t
  /\ to_bucketIndex (fst (Cancel t)) = to_bucketIndex t /\ to_cancelled (fst (Cancel t)) = true.
Proof. unfold Cancel. destruct (to_cancelled t) eqn:E; simpl; auto. Qed.

Lemma cancel_wi p st p' : ptr_wi (mem (cancel_ptr p st)) p' = ptr_wi (mem st) p'.
Proof.
  unfold ptr_wi. rewrite cancel_lookup. case_decide; [|done].
  destruct (mem st !! p') as [t|]; simpl; [|done]. apply (Cancel_fields t).
Qed.

Lemma cancel_live p st p' :
  ptr_live (mem (cancel_ptr p st)) p' <-> p' <> p /\ ptr_live (mem st) p'.
Proof.
  unfold ptr_live. rewrite cancel_lookup. case_decide; subst.
  - destruct (mem st !! p') as [t|]; simpl; [|tauto].
    destruct (Cancel_fields t) as (_ & _ & _ & ->). intuition congruence.
  - intuition congruence.
Qed.

(** ** Every operation preserves the invariant *)

Lemma wheel_wf_new st now task delay :
  wheel_wf st -> hwt_stopped (hwt st) = false -> 0 <= delay ->
  currentTick (hwt st) + delay / tickDuration (hwt st) <= max64 ->
  exists st', NewTimeout now task delay st = Ret st' (Some (nextp st)) /\ wheel_wf st'.
Proof.
  intros Hwf Hs Hd Hov. eexists. split; [by apply NewTimeout_eq|].
  pose proof Hwf as [Htd HW Hlen Hct Hb Hf Hnd].
  assert (0 <= delay / tickDuration (hwt st)) by (apply Z.div_pos; lia).
  pose proof (Z.mod_pos_bound (currentTick (hwt st) + delay / tickDuration (hwt st)) _ HW).
  split; cbn [hwt mem nextp set_wheel tickDuration wheelSize wheel currentTick]; try done.
  - by rewrite length_alter.
  - intros i b p Hi Hp. rewrite list_lookup_alter in Hi.
    assert (forall b', wheel (hwt st) !! i = Some b' -> p ∈ b' ->
      bucket_ok (wheelSize (hwt st)) (<[nextp st:=new_timeout now task delay (hwt st)]> (mem st)) i p)
      as Hold.
    { intros b' Hb' Hp'. pose proof (bucket_ptr_fresh _ _ _ _ Hwf Hb' Hp').
      destruct (Hb _ _ _ Hb' Hp') as (t & Ht & ?). exists t.
      split; [|done]. by rewrite lookup_insert_ne by lia. }
    case_decide as Ei; [subst i|by eapply Hold].
    destruct (wheel (hwt st) !! _) as [b'|] eqn:Hb'; [|done]. injection Hi as <-.
    apply elem_of_app in Hp as [Hp|Hp]; [by eapply Hold|].
    apply list_elem_of_singleton in Hp as ->.
    eexists. split; [apply lookup_insert_eq|]. unfold new_timeout; simpl. lia.
  - intros p Hp. destruct (decide (p = nextp st)) as [->|]; [lia|].
    rewrite lookup_insert_ne in Hp by done. apply Hf in Hp. lia.
  - intros i b Hi. rewrite list_lookup_alter in Hi. case_decide; [subst i|by eapply Hnd].
    destruct (wheel (hwt st) !! _) as [b'|] eqn:Hb'; [|done]. injection Hi as <-.
    apply NoDup_app. split_and!; [by eapply Hnd| |apply NoDup_singleton].
    intros p Hp ->%list_elem_of_singleton.
    pose proof (bucket_ptr_fresh _ _ _ _ Hwf Hb' Hp). lia.
Qed.

Lemma wheel_wf_cancel st p : wheel_wf st -> wheel_wf (cancel_ptr p st).
Proof.
  intros [Htd HW Hlen Hct Hb Hf Hnd]. split; try done.
  - intros i b p' Hi Hp. destruct (Hb i b p' Hi Hp) as (t & Ht & H).
    unfold bucket_ok. rewrite cancel_lookup, Ht. case_decide; [|by exists t].
    exists (fst (Cancel t)). destruct (Cancel_fields t) as (_ & -> & -> & _). done.
  - intros p' Hp'. rewrite cancel_lookup in Hp'. apply Hf. case_decide; [|done].
    by rewrite fmap_is_Some in Hp'.
Qed.

Lemma wheel_wf_tick st :
  wheel_wf st -> currentTick (hwt st) + 1 <= max64 ->
  exists st' fired, tick st = Ret st' fired /\ wheel_wf st'.
Proof.
  intros Hwf Hov. destruct (tick_eq st Hwf Hov) as (b0 & Hb0 & Heq).
  pose proof Hwf as [Htd HW Hlen Hct Hb Hf Hnd].
  do 2 eexists. split; [exact Heq|].
  split; cbn [hwt mem nextp set_wheel set_currentTick tickDuration wheelSize wheel currentTick];
    try done; try lia.
  - by rewrite length_insert.
  - intros i b p Hi Hp. apply list_lookup_insert_Some in Hi as [(<- & <- & _)|[? Hi]].
    + apply list_elem_of_filter in Hp as [_ Hp]. by eapply Hb.
    + by eapply Hb.
  - intros i b Hi. apply list_lookup_insert_Some in Hi as [(<- & <- & _)|[? Hi]].
    + apply NoDup_filter. by eapply Hnd.
    + by eapply Hnd.
Qed.

(** ** Simulation, operation by operation *)

Lemma filter_single {A} (P : A -> Prop) `{!forall x, Decision (P x)} (x : A) :
  filter P [x] = if decide (P x) then [x] else [].
Proof. rewrite filter_cons. by case_decide. Qed.

Lemma rel_bucket_old st q now task delay i b :
  wheel_wf st -> wheel_rel st q -> wheel (hwt st) !! i = Some b ->
  let m := <[nextp st := new_timeout now task delay (hwt st)]> (mem st) in
  (fun p => (due (wheelSize (hwt st)) (currentTick (hwt st)) (ptr_wi m p), p)) <$> filter (ptr_live m) b
  = filter (fun x => x.1 mod wheelSize (hwt st) = Z.of_nat i) (tq_pending q).
Proof.
  intros Hwf Hr Hb m. rewrite <- (rel_bucket _ _ Hr _ _ Hb).
  assert (forall p, p ∈ b -> p <> nextp st) as Hne.
  { intros p Hp. pose proof (bucket_ptr_fresh _ _ _ _ Hwf Hb Hp). lia. }
  rewrite (filter_ext_in (ptr_live m) (ptr_live (mem st)))
    by (intros; apply ptr_live_insert_ne; auto).
  apply list_fmap_ext. intros ? p [_ Hp]%list_elem_of_lookup_2%list_elem_of_filter.
  unfold m. by rewrite ptr_wi_insert_ne by auto.
Qed.

Lemma sim_new st q now task delay :
  wheel_wf st -> wheel_rel st q -> hwt_stopped (hwt st) = false -> 0 <= delay ->
  currentTick (hwt st) + delay / tickDuration (hwt st) <= max64 ->
  wheel_rel (outcome_state (NewTimeout now task delay st))
            (tq_new (wheelSize (hwt st)) (delay / tickDuration (hwt st)) q).
Proof.
  intros Hwf Hr Hs Hd Hov. rewrite NewTimeout_eq by done. cbn [outcome_state].
  set (k := delay / tickDuration (hwt st)). set (W := wheelSize (hwt st)).
  assert (0 < W) as HW by apply Hwf.
  assert (0 <= k) by (apply Z.div_pos; [lia|apply Hwf]).
  split; cbn [hwt mem nextp set_wheel tickDuration wheelSize wheel currentTick tq_new tq_now tq_next tq_pending].
  - apply Hr.
  - f_equal. apply Hr.
  - intros i b Hi. rewrite list_lookup_alter in Hi. rewrite filter_app, filter_single.
    cbn [fst]. rewrite (rel_now _ _ Hr), (rel_next _ _ Hr), <- due_new, due_mod by done. fold k W in Hi |- *.
    pose proof (Z.mod_pos_bound (currentTick (hwt st) + k) W HW).
    case_decide as Ei; [subst i|].
    + destruct (wheel (hwt st) !! _) as [b'|] eqn:Hb'; [|done]. injection Hi as <-.
      rewrite decide_True by lia. rewrite filter_app, fmap_app.
      f_equal; [by apply rel_bucket_old|].
      rewrite filter_single, decide_True by (unfold ptr_live; by rewrite lookup_insert_eq).
      cbn. unfold ptr_wi. by rewrite lookup_insert_eq.
    + rewrite decide_False by lia. rewrite app_nil_r. by apply rel_bucket_old.
Qed.

Lemma sim_cancel st q p : wheel_rel st q -> wheel_rel (cancel_ptr p st) (tq_cancel p q).
Proof.
  intros [Hn Hx Hb]. split; [done..|]. intros i b Hi.
  cbn [tq_cancel tq_pending]. rewrite filter_filter_comm.
  change (wheel (hwt (cancel_ptr p st))) with (wheel (hwt st)) in Hi.
  change (wheelSize (hwt (cancel_ptr p st))) with (wheelSize (hwt st)).
  change (currentTick (hwt (cancel_ptr p st))) with (currentTick (hwt st)).
  rewrite <- (Hb _ _ Hi), filter_map, filter_and.
  rewrite (filter_ext_in (ptr_live _) (fun p' => p' <> p /\ ptr_live (mem st) p'))
    by (intros; apply cancel_live).
  apply list_fmap_ext. intros. by rewrite cancel_wi.
Qed.

Lemma tick_bucket_due st b :
  wheel_wf st ->
  wheel (hwt st) !! Z.to_nat ((currentTick (hwt st) + 1) mod wheelSize (hwt st)) = Some b ->
  forall p, p ∈ b ->
    (due (wheelSize (hwt st)) (currentTick (hwt st)) (ptr_wi (mem st) p) = currentTick (hwt st) + 1
     <-> ptr_wi (mem st) p <= currentTick (hwt st) + 1).
Proof.
  intros Hwf Hb p Hp. pose proof (wf_size _ Hwf) as HW. apply due_fires; [done|].
  destruct (wf_bucket _ Hwf _ _ _ Hb Hp) as (t & Ht & _ & Hm & _).
  rewrite (ptr_wi_Some _ _ _ Ht), Hm.
  pose proof (Z.mod_pos_bound (currentTick (hwt st) + 1) _ HW). lia.
Qed.

Lemma due_shift W ct m (l : list tptr) :
  0 < W -> (forall p, p ∈ l -> due W ct (ptr_wi m p) <> ct + 1) ->
  (fun p => (due W (ct + 1) (ptr_wi m p), p)) <$> l = (fun p => (due W ct (ptr_wi m p), p)) <$> l.
Proof.
  intros HW Hl. apply list_fmap_ext. intros ? p Hp%list_elem_of_lookup_2.
  by rewrite due_step by auto.
Qed.

(** The timeouts a tick runs are the ones due at that tick, in order. *)
Lemma sim_tick_fired st q b :
  wheel_wf st -> wheel_rel st q ->
  wheel (hwt st) !! Z.to_nat ((currentTick (hwt st) + 1) mod wheelSize (hwt st)) = Some b ->
  filter (fun p => ptr_live (mem st) p /\ ptr_wi (mem st) p <= currentTick (hwt st) + 1) b
  = (tq_tick q).2.
Proof.
  intros Hwf Hr Hb. cbn [tq_tick snd]. rewrite (rel_now _ _ Hr).
  pose proof (wf_size _ Hwf) as HW.
  pose proof (Z.mod_pos_bound (currentTick (hwt st) + 1) _ HW).
  assert (filter (fun x => x.1 = currentTick (hwt st) + 1) (tq_pending q)
    = filter (fun x => x.1 = currentTick (hwt st) + 1)
        (filter (fun x => x.1 mod wheelSize (hwt st)
           = Z.of_nat (Z.to_nat ((currentTick (hwt st) + 1) mod wheelSize (hwt st))))
           (tq_pending q))) as ->.
  { rewrite filter_and. apply filter_ext_in. intros [x ?] _; simpl.
    split; [intros ->; split; lia|tauto]. }
  rewrite <- (rel_bucket _ _ Hr _ _ Hb), filter_map, filter_and.
  rewrite <- list_fmap_compose. simpl. rewrite list_fmap_id.
  apply filter_ext_in. intros p Hp. simpl.
  pose proof (tick_bucket_due _ _ Hwf Hb p Hp). tauto.
Qed.

Lemma sim_tick st q :
  wheel_wf st -> wheel_rel st q -> currentTick (hwt st) + 1 <= max64 ->
  exists st', tick st = Ret st' (tq_tick q).2 /\ wheel_rel st' (tq_tick q).1.
Proof.
  intros Hwf Hr Hov. destruct (tick_eq st Hwf Hov) as (b0 & Hb0 & Heq).
  eexists. split; [by rewrite <- (sim_tick_fired _ _ _ Hwf Hr Hb0)|].
  pose proof (wf_size _ Hwf) as HW.
  set (ct := currentTick (hwt st)) in *. set (W := wheelSize (hwt st)) in *.
  pose proof (Z.mod_pos_bound (ct + 1) _ HW).
  split; cbn [hwt mem nextp set_wheel set_currentTick wheelSize wheel currentTick tq_tick fst
              tq_now tq_next tq_pending].
  - rewrite (rel_now _ _ Hr). done.
  - apply Hr.
  - intros i b Hi. rewrite (rel_now _ _ Hr). fold ct W.
    rewrite filter_filter_comm.
    apply list_lookup_insert_Some in Hi as [(<- & <- & _)|[Hne Hi]].
    + pose proof (rel_bucket _ _ Hr _ _ Hb0) as Hrb. fold ct W in Hrb.
      rewrite <- Hrb, filter_map, !filter_and.
      pose proof (tick_bucket_due _ _ Hwf Hb0) as Hdue. fold ct W in Hdue.
      rewrite (filter_ext_in _ (fun p => due W ct (ptr_wi (mem st) p) <> ct + 1 /\ ptr_live (mem st) p))
        by (intros p Hp; specialize (Hdue p Hp); intuition lia).
      apply due_shift; [done|]. by intros p [[? _] _]%list_elem_of_filter.
    + pose proof (rel_bucket _ _ Hr _ _ Hi) as Hrb. fold ct W in Hrb. rewrite <- Hrb.
      assert (forall p, p ∈ b -> due W ct (ptr_wi (mem st) p) <> ct + 1) as Hdue.
      { intros p Hp Hd. destruct (wf_bucket _ Hwf _ _ _ Hi Hp) as (t & Ht & _ & Hm & _).
        fold W in Hm. apply (f_equal (fun x => x mod W)) in Hd.
        rewrite due_mod, (ptr_wi_Some _ _ _ Ht), Hm in Hd by done. apply Hne. lia. }
      rewrite (filter_all (fun x => x.1 <> ct + 1)); [apply due_shift; [done|]|].
      * intros p [_ Hp]%list_elem_of_filter. auto.
      * intros [x p'] (p & [= -> ->] & [_ Hp]%list_elem_of_filter)%list_elem_of_fmap.
        by apply Hdue.
Qed.

(** ** Frame facts of the operations *)

Lemma new_frame st now task delay :
  hwt_stopped (hwt st) = false ->
  let h' := hwt (outcome_state (NewTimeout now task delay st)) in
  hwt_stopped h' = false /\ wheelSize h' = wheelSize (hwt st)
  /\ tickDuration h' = tickDuration (hwt st) /\ currentTick h' = currentTick (hwt st).
Proof. intros Hs. unfold NewTimeout. rewrite Hs. case_match; auto. Qed.

Lemma tick_frame st st' fired :
  tick st = Ret st' fired ->
  hwt_stopped (hwt st') = hwt_stopped (hwt st) /\ wheelSize (hwt st') = wheelSize (hwt st)
  /\ tickDuration (hwt st') = tickDuration (hwt st)
  /\ currentTick (hwt st') = wrap64 (currentTick (hwt st) + 1)
  /\ mem st' = mem st /\ nextp st' = nextp st.
Proof.
  unfold tick. intros Ht. repeat case_match; simplify_eq. auto 10.
Qed.

Lemma op_ok_mono td h h' (op : wheelOp Task) : h' <= h -> op_ok td h op -> op_ok td h' op.
Proof. destruct op; simpl; [intuition lia|done..]. Qed.

Lemma ops_ok_new st now task delay ops :
  ops_ok st (OpNew now task delay :: ops) ->
  ops_ok (outcome_state (NewTimeout now task delay st)) ops.
Proof.
  intros (Hs & Hl & Hf). apply Forall_cons in Hf as [_ Hf]. cbn [length] in *.
  destruct (new_frame st now task delay Hs) as (Hs' & _ & Htd & Hct).
  unfold ops_ok. rewrite Hs', Htd, Hct. split_and!; [done|lia|].
  eapply Forall_impl; [exact Hf|]. intros op. apply op_ok_mono. lia.
Qed.

Lemma ops_ok_cancel st p ops : ops_ok st (OpCancel p :: ops) -> ops_ok (cancel_ptr p st) ops.
Proof.
  intros (Hs & Hl & Hf). apply Forall_cons in Hf as [_ Hf]. cbn [length] in *.
  split_and!; [done|simpl; lia|].
  eapply Forall_impl; [exact Hf|]. intros op. apply op_ok_mono. simpl. lia.
Qed.

Lemma ops_ok_tick st st' fired ops :
  0 <= currentTick (hwt st) -> ops_ok st (OpTick :: ops) -> tick st = Ret st' fired -> ops_ok st' ops.
Proof.
  intros H0 (Hs & Hl & Hf) Ht. apply Forall_cons in Hf as [_ Hf]. cbn [length] in *.
  destruct (tick_frame _ _ _ Ht) as (Hs' & _ & Htd & Hct & _).
  rewrite wrap64_id in Hct by (unfold_int; lia).
  unfold ops_ok. rewrite Hs', Htd, Hct. split_and!; [done|lia|].
  eapply Forall_impl; [exact Hf|]. intros op. apply op_ok_mono. lia.
Qed.

(** The whole run: no panic, the same output, related final states. *)
Lemma wheel_exec_sim ops : forall st q,
  wheel_wf st -> wheel_rel st q -> ops_ok st ops ->
  let run := tq_exec (wheelSize (hwt st)) (tickDuration (hwt st)) ops q in
  exists st', wheel_exec ops st = Ret st' run.2 /\ wheel_wf st' /\ wheel_rel st' run.1.
Proof.
  induction ops as [|[now task delay|p|] ops IH]; intros st q Hwf Hr Hok run; subst run.
  - by exists st.
  - pose proof Hok as (Hs & Hl & [[Hd Ho] _]%Forall_cons). cbn [length] in *.
    assert (0 <= delay / tickDuration (hwt st)) by (apply Z.div_pos; [lia|apply Hwf]).
    destruct (wheel_wf_new st now task delay) as (st' & Heq & Hwf'); [done|done|lia|lia|].
    pose proof (sim_new st q now task delay Hwf Hr Hs Hd ltac:(lia)) as Hr'.
    pose proof (ops_ok_new _ _ _ _ _ Hok) as Hok'.
    destruct (new_frame st now task delay Hs) as (_ & HW & Htd & _).
    rewrite Heq in *. cbn [outcome_state] in *.
    cbn [wheel_exec tq_exec]. rewrite Heq, <- HW, <- Htd. apply IH; [done| |done].
    rewrite HW, Htd. done.
  - cbn [wheel_exec tq_exec]. apply (IH (cancel_ptr p st)).
    + by apply wheel_wf_cancel.
    + by apply sim_cancel.
    + by apply ops_ok_cancel.
  - pose proof Hok as (Hs & Hl & _). cbn [length] in *.
    destruct (sim_tick st q Hwf Hr) as (st' & Heq & Hr'); [lia|].
    destruct (wheel_wf_tick st Hwf) as (st'' & f & Heq' & Hwf'); [lia|].
    rewrite Heq in Heq'. injection Heq' as <- <-.
    destruct (tick_frame _ _ _ Heq) as (_ & HW & Htd & _).
    destruct (IH st' (tq_tick q).1) as (sf & Hx & ? & ?);
      [done|done|by eapply ops_ok_tick; [apply Hwf|done|done]|].
    exists sf. cbn [wheel_exec tq_exec]. rewrite Heq, Hx, HW, Htd.
    destruct (tq_tick q) as [q' fired]. cbn [fst snd] in *.
    rewrite HW, Htd in *. destruct (tq_exec _ _ ops q'). done.
Qed.

End Facts.

(** ** Runs of the queue *)

Section Queue.
Context {Task : Type}.
Implicit Types ops : list (wheelOp Task).

Record tq_wf (q : timerQueue) : Prop := {
  tq_wf_next : forall x p, (x, p) ∈ tq_pending q -> (p < tq_next q)%nat;
  tq_wf_due : forall x p, (x, p) ∈ tq_pending q -> tq_now q < x;
}.

(** [p] is pending, due at [x] and at no other tick; or it is not pending. *)
Definition due_only (p : tptr) (x : option Z) (q : timerQueue) : Prop :=
  (forall y, (y, p) ∈ tq_pending q <-> Some y = x).

Lemma tq_exec_cons_tick W td ops q :
  tq_exec W td (OpTick :: ops) q =
    ((tq_exec W td ops (tq_tick q).1).1, (tq_tick q).2 :: (tq_exec W td ops (tq_tick q).1).2).
Proof. cbn [tq_exec]. destruct (tq_tick q) as [q' f]. simpl. by destruct (tq_exec W td ops q'). Qed.

Lemma tq_new_due_only W k p x q :
  (p < tq_next q)%nat -> due_only p x q -> due_only p x (tq_new W k q).
Proof.
  intros Hp Hx y. cbn [tq_new tq_pending]. rewrite elem_of_app, list_elem_of_singleton, (Hx y).
  split; [intros [?|[= ? ?]]; [done|lia]|auto].
Qed.

Lemma tq_cancel_due_only p' p x q : p <> p' -> due_only p x q -> due_only p x (tq_cancel p' q).
Proof.
  intros Hp Hx y. cbn [tq_cancel tq_pending]. rewrite list_elem_of_filter, (Hx y). simpl. tauto.
Qed.

Lemma tq_tick_due_only p x q :
  due_only p (Some x) q -> x <> tq_now q + 1 -> due_only p (Some x) (tq_tick q).1.
Proof.
  intros Hx Hne y. cbn [tq_tick fst tq_pending]. rewrite list_elem_of_filter, (Hx y). simpl.
  split; [tauto|]. intros [= ->]. auto.
Qed.

Lemma tq_tick_fired p x q :
  due_only p x q -> (p ∈ (tq_tick q).2 <-> x = Some (tq_now q + 1)).
Proof.
  intros Hx. cbn [tq_tick snd]. rewrite list_elem_of_fmap. split.
  - intros ([y p'] & -> & [Hy Hin]%list_elem_of_filter). simpl in *.
    apply Hx in Hin. congruence.
  - intros ->. exists (tq_now q + 1, p). split; [done|].
    apply list_elem_of_filter. split; [done|]. by apply Hx.
Qed.

Lemma tq_tick_gone p x q :
  due_only p x q -> x = Some (tq_now q + 1) \/ x = None -> due_only p None (tq_tick q).1.
Proof.
  intros Hx Hor y. cbn [tq_tick fst tq_pending]. rewrite list_elem_of_filter, (Hx y). simpl.
  split; [|done]. intros [Hne <-]. destruct Hor as [[= ->]|]; done.
Qed.

(** Over a run that does not cancel it, [p] fires exactly at its deadline. *)
Lemma tq_exec_due W td p ops : forall q x,
  OpCancel p ∉ ops -> (p < tq_next q)%nat -> due_only p x q ->
  forall j fired, (tq_exec W td ops q).2 !! j = Some fired ->
    (p ∈ fired <-> x = Some (tq_now q + 1 + Z.of_nat j)).
Proof.
  induction ops as [|op ops IH]; intros q x Hno Hp Hx j fired Hj; [done|].
  apply not_elem_of_cons in Hno as [Hne Hno].
  destruct op as [now task delay|p'|].
  - apply (IH (tq_new W (delay / td) q) x) in Hj; try done.
    + cbn [tq_new tq_next]. lia.
    + by apply tq_new_due_only.
  - apply (IH (tq_cancel p' q) x) in Hj; try done.
    apply tq_cancel_due_only; [congruence|done].
  - rewrite tq_exec_cons_tick in Hj. destruct j as [|j]; simpl in Hj.
    { injection Hj as <-. rewrite (tq_tick_fired _ _ _ Hx). by rewrite Z.add_0_r. }
    destruct (decide (x = Some (tq_now q + 1))) as [->|Hx'].
    + apply (IH _ None) in Hj; [|done|done|eapply tq_tick_gone; [exact Hx|auto]].
      rewrite Hj. split; [done|]. intros [= Hj']. lia.
    + destruct x as [x|].
      * apply (IH _ (Some x)) in Hj; [|done|done|apply tq_tick_due_only; [done|congruence]].
        rewrite Hj. cbn [tq_tick fst tq_now]. split; intros [= ->]; f_equal; lia.
      * apply (IH _ None) in Hj; [|done|done|eapply tq_tick_gone; [exact Hx|auto]].
        rewrite Hj. split; done.
Qed.

(** A timeout that is not pending never fires again. *)
Lemma tq_exec_never W td p ops : forall q fired,
  (p < tq_next q)%nat -> due_only p None q -> fired ∈ (tq_exec W td ops q).2 -> p ∉ fired.
Proof.
  induction ops as [|[now task delay|p'|] ops IH]; intros q fired Hp Hx Hin.
  - by apply elem_of_nil in Hin.
  - eapply IH; [| |exact Hin]; [simpl; lia|by apply tq_new_due_only].
  - eapply IH; [| |exact Hin]; [done|]. intros y. cbn [tq_cancel tq_pending].
    rewrite list_elem_of_filter, (Hx y). split; [by intros [_ ?]|done].
  - rewrite tq_exec_cons_tick in Hin. apply elem_of_cons in Hin as [->|Hin].
    + by rewrite (tq_tick_fired _ _ _ Hx).
    + eapply IH; [| |exact Hin]; [done|]. eapply tq_tick_gone; [exact Hx|auto].
Qed.

Lemma tq_exec_next_mono W td ops : forall q, (tq_next q <= tq_next (tq_exec W td ops q).1)%nat.
Proof.
  induction ops as [|[now task delay|p|] ops IH]; intros q; [done|..].
  - cbn [tq_exec]. etrans; [|apply IH]. simpl. lia.
  - apply (IH (tq_cancel p q)).
  - rewrite tq_exec_cons_tick. apply (IH (tq_tick q).1).
Qed.

Lemma tq_exec_wf W td ops : 0 < W -> 0 < td -> Forall (op_ok td 0) ops -> forall q,
  tq_wf q -> tq_wf (tq_exec W td ops q).1.
Proof.
  intros HW Htd. induction ops as [|[now task delay|p|] ops IH]; intros Hok q Hwf; [done|..];
    apply Forall_cons in Hok as [Ho Hok].
  - apply IH; [done|]. destruct Hwf as [Hn Hd].
    assert (0 < due_in W (delay / td)).
    { unfold due_in. case_match; bool_to_prop; [done|].
      simpl in Ho. assert (0 <= delay / td) by (apply Z.div_pos; lia). lia. }
    split; cbn [tq_new tq_pending tq_next tq_now]; intros x p [Hin|Hin]%elem_of_app.
    + apply Hn in Hin. lia.
    + apply list_elem_of_singleton in Hin. injection Hin as -> ->. lia.
    + by eapply Hd.
    + apply list_elem_of_singleton in Hin. injection Hin as -> ->. lia.
  - apply IH; [done|]. destruct Hwf as [Hn Hd].
    split; intros x p' [_ Hin]%list_elem_of_filter; eauto.
  - rewrite tq_exec_cons_tick. apply IH; [done|]. destruct Hwf as [Hn Hd].
    split; intros x p' [Hx Hin]%list_elem_of_filter; [eauto|].
    specialize (Hd _ _ Hin). simpl in *. lia.
Qed.

End Queue.

(** ** A fresh timer *)

Definition fresh_timers (Task : Type) (size duration : Z) : timers Task :=
  mkTimers ∅ 0 (NewHashedWheelTimer size duration).
Arguments fresh_timers {Task} _ _.

Lemma fresh_wf {Task} size duration : wheel_wf (@fresh_timers Task size duration).
Proof.
  assert (0 < wheelSize (NewHashedWheelTimer size duration)).
  { unfold NewHashedWheelTimer. simpl. case_match; bool_to_prop; lia. }
  split; unfold fresh_timers; cbn [hwt mem nextp].
  - unfold NewHashedWheelTimer. simpl. case_match; bool_to_prop; [done|lia].
  - done.
  - simpl. rewrite length_replicate. revert H. simpl. lia.
  - done.
  - intros i b p Hi Hp. apply lookup_replicate in Hi as [-> _]. by apply elem_of_nil in Hp.
  - intros p [t Ht]. by rewrite lookup_empty in Ht.
  - intros i b Hi. apply lookup_replicate in Hi as [-> _]. apply NoDup_nil_2.
Qed.

Lemma fresh_rel {Task} size duration :
  wheel_rel (@fresh_timers Task size duration) (mkTq 0 0 []).
Proof.
  split; [done..|]. intros i b Hi. apply lookup_replicate in Hi as [-> _]. done.
Qed.

Lemma wheel_exec_app {Task} (ops1 ops2 : list (wheelOp Task)) : forall st,
  wheel_exec (ops1 ++ ops2) st =
    match wheel_exec ops1 st with
    | Ret st1 outs1 =>
        match wheel_exec ops2 st1 with
        | Ret st2 outs2 => Ret st2 (outs1 ++ outs2)
        | Panic st2 w => Panic st2 w
        end
    | Panic st1 w => Panic st1 w
    end.
Proof.
  induction ops1 as [|[now task delay|p|] ops1 IH]; intros st; cbn [app wheel_exec].
  - by destruct (wheel_exec ops2 st).
  - destruct (NewTimeout now task delay st); [apply IH|done].
  - apply IH.
  - destruct (tick st) as [st' f|]; [|done]. rewrite IH.
    destruct (wheel_exec ops1 st'); [|done]. by destruct (wheel_exec ops2 s).
Qed.

Lemma tq_exec_app {Task} W td (ops1 ops2 : list (wheelOp Task)) : forall q,
  tq_exec W td (ops1 ++ ops2) q =
    ((tq_exec W td ops2 (tq_exec W td ops1 q).1).1,
     (tq_exec W td ops1 q).2 ++ (tq_exec W td ops2 (tq_exec W td ops1 q).1).2).
Proof.
  induction ops1 as [|[now task delay|p|] ops1 IH]; intros q.
  - simpl. by destruct (tq_exec W td ops2 q).
  - apply IH.
  - apply IH.
  - cbn [app]. rewrite !tq_exec_cons_tick, IH. done.
Qed.

Lemma ops_ok_app {Task} st (ops1 ops2 : list (wheelOp Task)) :
  ops_ok st (ops1 ++ ops2) -> ops_ok st ops1.
Proof.
  intros (Hs & Hl & [Hf _]%Forall_app). rewrite length_app in *.
  split_and!; [done|lia|]. eapply Forall_impl; [exact Hf|].
  intros op. apply op_ok_mono. lia.
Qed.

Lemma ops_ok_forall {Task} st (ops : list (wheelOp Task)) :
  0 <= currentTick (hwt st) -> ops_ok st ops -> Forall (op_ok (tickDuration (hwt st)) 0) ops.
Proof.
  intros Hc (_ & _ & Hf). eapply Forall_impl; [exact Hf|]. intros op. apply op_ok_mono. lia.
Qed.

(** C1 (refinement). The hashed wheel implements the queue of deadlines: for
    every sequence of timeout creations, cancellations and ticks (within 64-bit
    range), run on a new timer, the wheel does not panic and at each tick it
    starts exactly the tasks, in the same order, that the queue says are due. *)
Theorem wheel_refines_queue {Task} (size duration : Z) (ops : list (wheelOp Task)) :
  ops_ok (fresh_timers size duration) ops ->
  let h := NewHashedWheelTimer size duration in
  exists st', wheel_exec ops (fresh_timers size duration)
              = Ret st' (tq_exec (wheelSize h) (tickDuration h) ops (mkTq 0 0 [])).2.
Proof.
  intros Hok h.
  destruct (wheel_exec_sim ops _ _ (fresh_wf size duration) (fresh_rel size duration) Hok)
    as (st' & Heq & _). by exists st'.
Qed.

(** C25 (liveness). A timeout created with a delay of [k] whole ticks runs at
    the [k]-th tick after its creation and at no other tick (when [k] is zero,
    at the tick one full revolution later), whatever happened before and
    whatever else is created or cancelled meanwhile. *)
Theorem timeout_fires_when_due {Task} (size duration : Z)
    (before after : list (wheelOp Task)) (now : Z) (task : Task) (delay : Z) :
  ops_ok (fresh_timers size duration) (before ++ OpNew now task delay :: after) ->
  let h := NewHashedWheelTimer size duration in
  exists st1 outs1, wheel_exec before (fresh_timers size duration) = Ret st1 outs1 /\
  (OpCancel (nextp st1) ∉ after ->
   exists st2 outs2, wheel_exec (OpNew now task delay :: after) st1 = Ret st2 outs2 /\
   forall j fired, outs2 !! j = Some fired ->
     (nextp st1 ∈ fired <-> Z.of_nat j + 1 = due_in (wheelSize h) (delay / tickDuration h))).
Proof.
  intros Hok h. pose proof (fresh_wf (Task:=Task) size duration) as Hwf.
  pose proof (fresh_rel (Task:=Task) size duration) as Hr.
  destruct (wheel_exec_sim _ _ _ Hwf Hr (ops_ok_app _ _ _ Hok)) as (st1 & E1 & _ & Hr1).
  destruct (wheel_exec_sim _ _ _ Hwf Hr Hok) as (st2 & E2 & _).
  pose proof (ops_ok_forall _ _ (wf_tick _ Hwf) Hok) as [Hf _]%Forall_app.
  do 2 eexists. split; [exact E1|]. intros Hno.
  rewrite wheel_exec_app, E1 in E2.
  destruct (wheel_exec (OpNew now task delay :: after) st1) as [st2' outs2|] eqn:E3; [|done].
  rewrite tq_exec_app in E2. injection E2 as _ Houts. apply app_inv_head in Houts.
  do 2 eexists. split; [done|]. intros j fired. rewrite Houts. cbn [tq_exec].
  set (q1 := (tq_exec _ _ before (mkTq 0 0 [])).1) in *.
  assert (tq_wf q1) as [Hn _].
  { apply tq_exec_wf; [apply Hwf..|done|]. by split; intros ? ? ?%elem_of_nil. }
  intros Hj. pose proof (rel_next _ _ Hr1) as Hnext. fold q1 in Hnext.
  eapply tq_exec_due with (x := Some (tq_now q1 + due_in (wheelSize h) (delay / tickDuration h))) in Hj.
  - rewrite Hj. cbn [tq_new tq_now]. 
    split; intros Hx; [apply (inj Some) in Hx; lia|f_equal; lia].
  - done.
  - cbn [tq_new tq_next]. lia.
  - intros y. cbn [tq_new tq_pending]. rewrite elem_of_app, list_elem_of_singleton, Hnext.
    split; [intros [?%Hn|[= ->]]; [lia|done]|intros [= ->]; by right].
Qed.

(** C26 (safety). Once a timeout has been cancelled it never runs again,
    whatever operations follow. *)
Theorem cancelled_never_fires {Task} (size duration : Z)
    (before after : list (wheelOp Task)) (p : tptr) :
  ops_ok (fresh_timers size duration) (before ++ OpCancel p :: after) ->
  exists st1 outs1, wheel_exec before (fresh_timers size duration) = Ret st1 outs1 /\
  ((p < nextp st1)%nat ->
   exists st2 outs2, wheel_exec (OpCancel p :: after) st1 = Ret st2 outs2 /\
   forall fired, fired ∈ outs2 -> p ∉ fired).
Proof.
  intros Hok. pose proof (fresh_wf (Task:=Task) size duration) as Hwf.
  pose proof (fresh_rel (Task:=Task) size duration) as Hr.
  destruct (wheel_exec_sim _ _ _ Hwf Hr (ops_ok_app _ _ _ Hok)) as (st1 & E1 & _ & Hr1).
  destruct (wheel_exec_sim _ _ _ Hwf Hr Hok) as (st2 & E2 & _).
  do 2 eexists. split; [exact E1|]. intros Hp.
  rewrite wheel_exec_app, E1 in E2.
  destruct (wheel_exec (OpCancel p :: after) st1) as [st2' outs2|] eqn:E3; [|done].
  rewrite tq_exec_app in E2. injection E2 as _ Houts. apply app_inv_head in Houts.
  do 2 eexists. split; [done|]. intros fired. rewrite Houts. cbn [tq_exec].
  set (q1 := (tq_exec _ _ before (mkTq 0 0 [])).1) in *.
  rewrite <- (rel_next _ _ Hr1) in Hp. fold q1 in Hp.
  apply tq_exec_never; [done|].
  intros y. cbn [tq_cancel tq_pending]. rewrite list_elem_of_filter. simpl.
  split; [tauto|done].
Qed.

(** ** Concrete runs: a wheel of 4 buckets with a tick of 100 ns *)

Definition demo_before : list (wheelOp nat) := [OpNew 0 1%nat 250; OpTick; OpNew 5 2%nat 30].
Definition demo_after : list (wheelOp nat) := [OpTick; OpCancel 0%nat; OpTick; OpTick; OpTick; OpTick].

Lemma demo_ok :
  ops_ok (fresh_timers 4 100) (demo_before ++ OpNew 7 3%nat 420 :: demo_after)
  /\ ops_ok (fresh_timers 4 100) (demo_before ++ OpCancel 1%nat :: demo_after).
Proof. unfold ops_ok, op_ok. split; (split_and!; [done|done|]); repeat constructor; done. Defined.

Lemma wheel_refines_queue_witness :
  ops_ok (fresh_timers 4 100) (demo_before ++ OpNew 7 3%nat 420 :: demo_after) /\
  exists st', wheel_exec (demo_before ++ OpNew 7 3%nat 420 :: demo_after) (fresh_timers 4 100)
              = Ret st' [[]; [0%nat]; []; []; [1%nat; 2%nat]; []].
Proof.
  split; [apply demo_ok|].
  exact (wheel_refines_queue 4 100 (demo_before ++ OpNew 7 3%nat 420 :: demo_after) (proj1 demo_ok)).
Defined.

Lemma timeout_fires_when_due_witness :
  exists st1 outs1, wheel_exec demo_before (fresh_timers 4 100) = Ret st1 outs1 /\
  (OpCancel (nextp st1) ∉ demo_after ->
   exists st2 outs2, wheel_exec (OpNew 7 3%nat 420 :: demo_after) st1 = Ret st2 outs2 /\
   forall j fired, outs2 !! j = Some fired -> (nextp st1 ∈ fired <-> Z.of_nat j + 1 = 4)).
Proof. exact (timeout_fires_when_due 4 100 demo_before demo_after 7 3%nat 420 (proj1 demo_ok)). Defined.

Lemma cancelled_never_fires_witness :
  exists st1 outs1, wheel_exec demo_before (fresh_timers 4 100) = Ret st1 outs1 /\
  ((1 < nextp st1)%nat ->
   exists st2 outs2, wheel_exec (OpCancel 1%nat :: demo_after) st1 = Ret st2 outs2 /\
   forall fired, fired ∈ outs2 -> 1%nat ∉ fired).
Proof. exact (cancelled_never_fires 4 100 demo_before demo_after 1%nat (proj2 demo_ok)). Defined.
