(* ===== verification/TimerService.v ===== *)
(** * The timer interface

    Models the interface HashedWheelTimer of
    internal/job/dispatcher/time_wheel.go, through which the time dispatcher
    uses its timer, with the laws the dispatcher relies on.  The wheel of
    WheelTimer is shown to satisfy them. *)

From S2P Require Import Prelude WheelTimer.

(** ** Operations and laws *)

(** [timer_cancel] is [Timeout.Cancel] through a pointer, [timer_tick] one step
    of the timer's goroutine, [timer_task] the task of a timeout. *)
Class TimerOps (T Task : Type) := {
  timer_new : Z -> Task -> Z -> M T (option tptr);
  timer_cancel : tptr -> T -> T;
  timer_tick : M T (list tptr);
  timer_start : Z -> T -> T;
  timer_stop : T -> outcome T unit;
  timer_task : T -> tptr -> option Task;
}.

(** [pending] lists the timeouts that are set and not cancelled; [timer_room]
    says that the clock is far from overflow. *)
Class TimerLaws (T Task : Type) `{!TimerOps T Task} := {
  timer_ok : T -> Prop;
  timer_active : T -> Prop;
  timer_room : T -> Prop;
  pending : T -> list tptr;
  pending_nodup t : timer_ok t -> NoDup (pending t);
  pending_task t p : timer_ok t -> p ∈ pending t -> is_Some (timer_task t p);
  timer_new_spec t now (task : Task) delay :
    timer_ok t -> timer_active t -> timer_room t -> 0 <= delay <= max64 ->
    exists t' p, timer_new now task delay t = Ret t' (Some p) /\
      timer_ok t' /\ timer_active t' /\ timer_room t' /\
      timer_task t p = None /\ pending t' ≡ₚ p :: pending t /\
      forall q, timer_task t' q = if decide (q = p) then Some task else timer_task t q;
  timer_cancel_spec t p :
    timer_ok t ->
    timer_ok (timer_cancel p t) /\
    (timer_active (timer_cancel p t) <-> timer_active t) /\
    (timer_room (timer_cancel p t) <-> timer_room t) /\
    pending (timer_cancel p t) = filter (fun q => q <> p) (pending t) /\
    forall q, timer_task (timer_cancel p t) q = timer_task t q;
  timer_tick_spec t :
    timer_ok t -> timer_room t ->
    exists t' fired, timer_tick t = Ret t' fired /\
      timer_ok t' /\ (timer_active t' <-> timer_active t) /\
      pending t ≡ₚ fired ++ pending t' /\
      forall q, timer_task t' q = timer_task t q;
  timer_stopped_new t now task delay :
    ~ timer_active t -> timer_new now task delay t = Ret t None;
}.

(** ** Lists of buckets *)

Lemma join_split {A} (l : list (list A)) i b :
  l !! i = Some b -> mjoin l ≡ₚ b ++ mjoin (delete i l).
Proof.
  revert i. induction l as [|x l IH]; intros [|i] Hi; simplify_eq/=; [done|].
  rewrite (IH i Hi). rewrite !app_assoc. by rewrite (Permutation_app_comm x b).
Qed.

Lemma delete_insert_eq {A} (l : list A) i x : delete i (<[i := x]> l) = delete i l.
Proof. revert i. induction l as [|y l IH]; intros [|i]; simpl; [done..|]. by rewrite IH. Qed.

Lemma alter_insert {A} (f : A -> A) (l : list A) i x :
  l !! i = Some x -> alter f i l = <[i := f x]> l.
Proof. revert i. induction l as [|y l IH]; intros [|i] Hi; simplify_eq/=; [done|]. by rewrite IH. Qed.

Lemma NoDup_join {A} (l : list (list A)) :
  (forall i b, l !! i = Some b -> NoDup b) ->
  (forall i j b c x, l !! i = Some b -> l !! j = Some c -> x ∈ b -> x ∈ c -> i = j) ->
  NoDup (mjoin l).
Proof.
  induction l as [|b l IH]; intros Hnd Hdis; simpl; [apply NoDup_nil_2|].
  apply NoDup_app. split_and!.
  - by apply (Hnd 0%nat).
  - intros x Hb (c & Hx & Hc)%list_elem_of_join.
    apply list_elem_of_lookup_1 in Hc as [j Hj].
    by specialize (Hdis 0%nat (S j) b c x eq_refl Hj Hb Hx).
  - apply IH; [intros i c Hc; by apply (Hnd (S i))|].
    intros i j c d x Hc Hd Hxc Hxd. by injection (Hdis (S i) (S j) c d x Hc Hd Hxc Hxd).
Qed.

(** ** The wheel implements the interface *)

Section Wheel.
Context {Task : Type}.
Implicit Types st : timers Task.

#[export] Instance wheel_ops : TimerOps (timers Task) Task := {
  timer_new := NewTimeout;
  timer_cancel := cancel_ptr;
  timer_tick := tick;
  timer_start now st := mkTimers (mem st) (nextp st) (hwt_Start now (hwt st));
  timer_stop st :=
    match hwt_Stop (hwt st) with
    | Ret h a => Ret (mkTimers (mem st) (nextp st) h) a
    | Panic h w => Panic (mkTimers (mem st) (nextp st) h) w
    end;
  timer_task st p := to_task <$> mem st !! p;
}.

Definition wheel_pending st : list tptr := filter (ptr_live (mem st)) (mjoin (wheel (hwt st))).

Definition wheel_active st : Prop := hwt_stopped (hwt st) = false.

(** Every delay of a time.Duration can be added to the current tick. *)
Definition wheel_room st : Prop :=
  currentTick (hwt st) + max64 / tickDuration (hwt st) + 1 <= max64.

Lemma wheel_elem st p : wheel_wf st -> p ∈ mjoin (wheel (hwt st)) ->
  exists i b, wheel (hwt st) !! i = Some b /\ p ∈ b.
Proof.
  intros _ (b & Hp & Hb)%list_elem_of_join. apply list_elem_of_lookup_1 in Hb as [i Hi]. eauto.
Qed.

Lemma wheel_join_nodup st : wheel_wf st -> NoDup (mjoin (wheel (hwt st))).
Proof.
  intros Hwf. apply NoDup_join; [apply (wf_nodup _ Hwf)|].
  intros i j b c p Hb Hc Hpb Hpc.
  destruct (wf_bucket _ Hwf _ _ _ Hb Hpb) as (t & Ht & _ & Hi & _).
  destruct (wf_bucket _ Hwf _ _ _ Hc Hpc) as (t' & Ht' & _ & Hj & _).
  rewrite Ht in Ht'. injection Ht' as <-. lia.
Qed.

Lemma delay_room st delay :
  wheel_wf st -> wheel_room st -> 0 <= delay <= max64 ->
  currentTick (hwt st) + delay / tickDuration (hwt st) <= max64.
Proof.
  intros Hwf Hr Hd. unfold wheel_room in Hr. pose proof (wf_duration _ Hwf).
  assert (delay / tickDuration (hwt st) <= max64 / tickDuration (hwt st))
    by (apply Z.div_le_mono; lia). lia.
Qed.

Lemma wheel_new_pending st now task delay :
  wheel_wf st -> wheel_active st -> wheel_room st -> 0 <= delay <= max64 ->
  wheel_pending (outcome_state (NewTimeout now task delay st)) ≡ₚ nextp st :: wheel_pending st.
Proof.
  intros Hwf Ha Hr Hd. rewrite NewTimeout_eq by (done || lia || by apply delay_room).
  set (tgt := currentTick (hwt st) + delay / tickDuration (hwt st)).
  pose proof Hwf as [Htd HW Hlen Hct _ Hf _].
  pose proof (Z.mod_pos_bound tgt _ HW).
  destruct (lookup_lt_is_Some_2 (wheel (hwt st)) (Z.to_nat (tgt mod wheelSize (hwt st)))) as [b Hb];
    [lia|].
  unfold wheel_pending. cbn [outcome_state mem hwt wheel set_wheel].
  rewrite (alter_insert _ _ _ b Hb).
  rewrite (join_split (<[_ := _]> _) (Z.to_nat (tgt mod wheelSize (hwt st))) (b ++ [nextp st]))
    by (rewrite list_lookup_insert_eq; [done|lia]).
  rewrite delete_insert_eq, <- app_assoc, (Permutation_app_comm b).
  rewrite <- app_assoc. simpl. rewrite (Permutation_app_comm _ b), <- (join_split _ _ _ Hb).
  rewrite filter_cons_True.
  2:{ unfold ptr_live. by rewrite lookup_insert_eq. }
  f_equiv. rewrite (filter_ext_in _ (ptr_live (mem st))); [done|].
  intros p (i & c & Hc & Hp)%wheel_elem; [|done].
  apply ptr_live_insert_ne. pose proof (bucket_ptr_fresh _ _ _ _ Hwf Hc Hp). lia.
Qed.

Lemma wheel_tick_pending st st' fired :
  wheel_wf st -> currentTick (hwt st) + 1 <= max64 -> tick st = Ret st' fired ->
  wheel_pending st ≡ₚ fired ++ wheel_pending st'.
Proof.
  intros Hwf Hr Ht. destruct (tick_eq st Hwf Hr) as (b & Hb & Heq). rewrite Heq in Ht.
  injection Ht as <- <-. set (ct := currentTick (hwt st) + 1) in *.
  unfold wheel_pending. cbn [mem hwt wheel set_wheel set_currentTick wheelSize].
  set (i := Z.to_nat (ct mod wheelSize (hwt st))) in *.
  rewrite (join_split (<[i := _]> _) i (filter (fun p => ptr_live (mem st) p /\ ct < ptr_wi (mem st) p) b))
    by (rewrite list_lookup_insert_eq; [done|by eapply lookup_lt_Some]).
  rewrite delete_insert_eq, (join_split _ _ _ Hb), !filter_app, !app_assoc. f_equiv.
  rewrite filter_and.
  rewrite (filter_ext_in (fun x => ptr_live (mem st) x /\ ptr_live (mem st) x /\ ct < ptr_wi (mem st) x)
    (fun x => ptr_live (mem st) x /\ ct < ptr_wi (mem st) x)) by (intros; tauto).
  clear Heq Hb. induction b as [|p b IH]; [done|]. rewrite !filter_cons.
  destruct (decide (ptr_live (mem st) p)) as [Hl|Hl].
  - destruct (decide (ptr_wi (mem st) p <= ct)) as [Hw|Hw].
    + rewrite (decide_True (P := ptr_live (mem st) p /\ ptr_wi (mem st) p <= ct)) by done.
      rewrite (decide_False (P := ptr_live (mem st) p /\ ct < ptr_wi (mem st) p)) by lia.
      simpl. by f_equiv.
    + rewrite (decide_False (P := ptr_live (mem st) p /\ ptr_wi (mem st) p <= ct)) by tauto.
      rewrite (decide_True (P := ptr_live (mem st) p /\ ct < ptr_wi (mem st) p)) by (split; [done|lia]).
      rewrite <- Permutation_middle. by f_equiv.
  - by rewrite !decide_False by tauto.
Qed.

#[export] Program Instance wheel_laws : TimerLaws (timers Task) Task := {
  timer_ok := wheel_wf;
  timer_active := wheel_active;
  timer_room := wheel_room;
  pending := wheel_pending;
}.
Next Obligation. intros st Hwf. by apply NoDup_filter, wheel_join_nodup. Qed.
Next Obligation.
  intros st p Hwf [_ (i & b & Hb & Hp)%wheel_elem]%list_elem_of_filter; [|done].
  destruct (wf_bucket _ Hwf _ _ _ Hb Hp) as (t & Ht & _). simpl. by rewrite Ht.
Qed.
Next Obligation.
  intros st now task delay Hwf Ha Hr Hd.
  pose proof (wheel_new_pending st now task delay Hwf Ha Hr Hd) as Hp.
  destruct (wheel_wf_new st now task delay Hwf Ha) as (st' & Heq & Hwf');
    [lia|by apply delay_room|].
  pose proof (new_frame st now task delay Ha) as (Hs' & _ & Htd & Hct).
  rewrite Heq in Hp, Hs', Htd, Hct. simpl in Hp, Hs', Htd, Hct.
  exists st', (nextp st). simpl. split_and!; try done.
  - unfold wheel_room in *. by rewrite Htd, Hct.
  - destruct (mem st !! nextp st) eqn:Hm; [|done].
    assert (nextp st < nextp st)%nat by (apply (wf_fresh _ Hwf); by rewrite Hm). lia.
  - intros q. rewrite NewTimeout_eq in Heq by (done || lia || by apply delay_room).
    injection Heq as <-. simpl. destruct (decide (q = nextp st)) as [->|Hne].
    + by rewrite lookup_insert_eq.
    + by rewrite lookup_insert_ne.
Qed.
Next Obligation.
  intros st p Hwf. split_and!; try done; [by apply wheel_wf_cancel| |].
  - unfold wheel_pending. rewrite filter_and. apply filter_ext_in. intros q _.
    etransitivity; [apply cancel_live|tauto].
  - intros q. change (to_task <$> mem (cancel_ptr p st) !! q = to_task <$> mem st !! q).
    rewrite cancel_lookup. case_decide; [|done].
    destruct (mem st !! q) as [t|]; [|done]. simpl. by destruct (Cancel_fields t) as (-> & _).
Qed.
Next Obligation.
  intros st Hwf Hr. unfold wheel_room in Hr. pose proof (wf_duration _ Hwf).
  assert (0 <= max64 / tickDuration (hwt st)) by (apply Z.div_pos; unfold max64; lia).
  destruct (wheel_wf_tick st Hwf) as (st' & fired & Ht & Hwf'); [lia|].
  destruct (tick_frame _ _ _ Ht) as (Hs & _ & _ & _ & Hm & _).
  exists st', fired. split_and!; try done.
  - unfold wheel_active. by rewrite Hs.
  - apply wheel_tick_pending; [done|lia|done].
  - intros q. simpl. by rewrite Hm.
Qed.
Next Obligation.
  intros st now task delay Ha. unfold wheel_active in Ha. simpl. unfold NewTimeout.
  by destruct (hwt_stopped (hwt st)).
Qed.

End Wheel.
