(* ===== verification/JobTypes.v ===== *)
(** * Jobs and metrics

    Models internal/types/job/job_types.go, metrics_types.go and the structs of
    internal/types/job/protocol.  Structs reached through a pointer, maps and
    the array behind [Job.Metrics] live in a heap, because [Clone] copies some
    of them and shares the others; a slice whose array is never shared is a
    list.  Nil and empty slices are identified: the code only guards loops and
    copies with a nil test. *)

From Stdlib Require Import Ascii String.
From S2P Require Import Prelude GoStrings GoFloat.

Open Scope string_scope.
Open Scope list_scope.
Open Scope Z_scope.

Abbreviation loc := nat (only parsing).

(** ** Values of type interface{} *)

(** What [json.Unmarshal] puts in an [interface{}], and [int].  A map is
    listed in the order in which a range statement visits it. *)
#[warnings="-register-all"]
Inductive any :=
| ANil
| ABool (b : bool)
| AInt (z : Z)
| AFloat (f : float64)
| AString (s : string)
| AList (l : list any)
| AMap (m : list (string * any)).

Definition str_leb (a b : string) : bool :=
  match String.compare a b with Gt => false | _ => true end.

Fixpoint insert_by_key {A} (x : string * A) (l : list (string * A)) : list (string * A) :=
  match l with
  | [] => [x]
  | y :: r => if str_leb (fst x) (fst y) then x :: l else y :: insert_by_key x r
  end.

(** fmt prints a map in the order of its keys. *)
Definition sort_by_key {A} (l : list (string * A)) : list (string * A) :=
  foldr insert_by_key [] l.

Fixpoint join_with (sep : string) (l : list string) : string :=
  match l with
  | [] => ""
  | [x] => x
  | x :: r => x +:+ sep +:+ join_with sep r
  end.

(** [fmt.Sprintf "%v"]. *)
Fixpoint fmt_v (v : any) : string :=
  match v with
  | ANil => "<nil>"
  | ABool b => fmt_bool b
  | AInt z => Itoa z
  | AFloat f => FormatFloat_g f
  | AString s => s
  | AList l => "[" +:+ join_with " " (map fmt_v l) +:+ "]"
  | AMap m =>
      let shown := map (fun '(k, v) => (k, fmt_v v)) m in
      "map[" +:+ join_with " " (map (fun '(k, s) => k +:+ ":" +:+ s) (sort_by_key shown)) +:+ "]"
  end.

(** ** Protocol structs *)

Record Authorization := mkAuthorization {
  auth_Type : string;
  auth_BasicAuthUsername : string;
  auth_BasicAuthPassword : string;
  auth_DigestAuthUsername : string;
  auth_DigestAuthPassword : string;
  auth_BearerTokenToken : string;
}.

Record HTTPProtocol := mkHTTPProtocol {
  http_URL : string;
  http_Method : string;
  http_Headers : option loc;
  http_Params : option loc;
  http_Body : string;
  http_ParseScript : string;
  http_ParseType : string;
  http_Keyword : string;
  http_Timeout : string;
  http_SSL : string;
  http_Authorization : option loc;
}.

Record SSHProtocol := mkSSHProtocol {
  ssh_Host : string;
  ssh_Port : string;
  ssh_Username : string;
  ssh_Password : string;
  ssh_PrivateKey : string;
  ssh_PrivateKeyPassphrase : string;
  ssh_Script : string;
  ssh_ParseType : string;
  ssh_ParseScript : string;
  ssh_Timeout : string;
  ssh_ReuseConnection : string;
  ssh_UseProxy : string;
  ssh_ProxyHost : string;
  ssh_ProxyPort : string;
  ssh_ProxyUsername : string;
  ssh_ProxyPassword : string;
  ssh_ProxyPrivateKey : string;
}.

Record SSHTunnel := mkSSHTunnel {
  tun_Enable : string;
  tun_Host : string;
  tun_Port : string;
  tun_Username : string;
  tun_Password : string;
}.

Record JDBCProtocol := mkJDBCProtocol {
  jdbc_Host : string;
  jdbc_Port : string;
  jdbc_Platform : string;
  jdbc_Username : string;
  jdbc_Password : string;
  jdbc_Database : string;
  jdbc_Timeout : string;
  jdbc_QueryType : string;
  jdbc_SQL : string;
  jdbc_URL : string;
  jdbc_ReuseConnection : string;
  jdbc_SSHTunnel : option loc;
}.

Record RedisProtocol := mkRedisProtocol {
  redis_Host : string;
  redis_Port : string;
  redis_Username : string;
  redis_Password : string;
  redis_Pattern : string;
  redis_Timeout : string;
  redis_SSHTunnel : option loc;
}.

Record SNMPProtocol := mkSNMPProtocol {
  snmp_Host : string;
  snmp_Port : Z;
  snmp_Version : string;
  snmp_Community : string;
  snmp_Username : string;
  snmp_AuthType : string;
  snmp_AuthPasswd : string;
  snmp_PrivType : string;
  snmp_PrivPasswd : string;
  snmp_ContextName : string;
  snmp_Timeout : Z;
  snmp_Operation : string;
  snmp_OIDs : string;
}.

Record JMXProtocol := mkJMXProtocol {
  jmx_Host : string;
  jmx_Port : Z;
  jmx_Username : string;
  jmx_Password : string;
  jmx_Protocol : string;
  jmx_URL : string;
  jmx_Timeout : Z;
}.

Record MongoDBProtocol := mkMongoDBProtocol {
  mongo_Host : string;
  mongo_Port : Z;
  mongo_Username : string;
  mongo_Password : string;
  mongo_Database : string;
  mongo_AuthDatabase : string;
  mongo_Command : string;
  mongo_Timeout : Z;
}.

Record MilvusProtocol := mkMilvusProtocol {
  milvus_Host : string;
  milvus_Port : string;
  milvus_Username : string;
  milvus_Password : string;
  milvus_Timeout : string;
}.

(** The validity checks of the protocol structs ([IsInvalid]). *)
Definition ErrorInvalidHost : error := "invalid host".
Definition ErrorInvalidPort : error := "invalid port".
Definition ErrorInvalidURL : error := "invalid URL".
Definition ErrorInvalidPathPrefix : error := "invalid path prefix".

Definition check_host_port (host port : string) : option error :=
  if String.eqb host "" then Some ErrorInvalidHost
  else if String.eqb port "" then Some ErrorInvalidPort
  else None.

Definition check_host_portnum (host : string) (port : Z) : option error :=
  if String.eqb host "" then Some ErrorInvalidHost
  else if port =? 0 then Some ErrorInvalidPort
  else None.

Definition http_IsInvalid (p : HTTPProtocol) : option error :=
  if String.eqb (http_URL p) "" then Some ErrorInvalidURL else None.
Definition ssh_IsInvalid (p : SSHProtocol) : option error :=
  check_host_port (ssh_Host p) (ssh_Port p).
Definition jdbc_IsInvalid (p : JDBCProtocol) : option error :=
  check_host_port (jdbc_Host p) (jdbc_Port p).
Definition redis_IsInvalid (p : RedisProtocol) : option error :=
  check_host_port (redis_Host p) (redis_Port p).
Definition milvus_IsInvalid (p : MilvusProtocol) : option error :=
  check_host_port (milvus_Host p) (milvus_Port p).
Definition tun_IsInvalid (p : SSHTunnel) : option error :=
  check_host_port (tun_Host p) (tun_Port p).
Definition snmp_IsInvalid (p : SNMPProtocol) : option error :=
  check_host_portnum (snmp_Host p) (snmp_Port p).
Definition jmx_IsInvalid (p : JMXProtocol) : option error :=
  check_host_portnum (jmx_Host p) (jmx_Port p).
Definition mongo_IsInvalid (p : MongoDBProtocol) : option error :=
  check_host_portnum (mongo_Host p) (mongo_Port p).

(** ** Metrics and jobs *)

Record Field := mkField {
  f_Field : string;
  f_Type : Z;
  f_Label : bool;
  f_Unit : string;
  f_Instance : bool;
  f_Value : any;
  f_I18n : any;
}.

Record Calculate := mkCalculate {
  calc_Field : string;
  calc_Script : string;
  calc_AliasField : string;
}.

Record Unit := mkUnit {
  unit_Field : string;
  unit_Unit : string;
}.

Record Depend := mkDepend {
  dep_Field : string;
  dep_Values : list string;
}.

Record Option := mkOption {
  opt_Label : string;
  opt_Value : string;
}.

Record ParamDefine := mkParamDefine {
  pd_ID : any;
  pd_App : any;
  pd_Field : string;
  pd_Name : any;
  pd_Type : string;
  pd_Required : bool;
  pd_DefaultValue : any;
  pd_Placeholder : string;
  pd_Range : string;
  pd_Limit : Z;
  pd_Options : list Option;
  pd_KeyAlias : any;
  pd_ValueAlias : any;
  pd_Hide : bool;
  pd_Creator : any;
  pd_Modifier : any;
  pd_GmtCreate : any;
  pd_GmtUpdate : any;
  pd_Depend : option Depend;
}.

Record Configmap := mkConfigmap {
  cm_Key : string;
  cm_Value : any;
  cm_Type : Z;
  cm_Option : list string;
}.

Record Metrics := mkMetrics {
  m_Name : string;
  m_I18n : any;
  m_Priority : Z;
  m_CollectTime : Z;
  m_Interval : Z;
  m_Visible : option bool;
  m_Fields : list Field;
  m_AliasFields : list string;
  m_Calculates : any;
  m_Filters : any;
  m_Units : any;
  m_Protocol : string;
  m_Host : string;
  m_Port : string;
  m_Timeout : string;
  m_Range : string;
  m_ConfigMap : option loc;
  m_HasSubTask : bool;
  m_HTTP : option loc;
  m_SSH : option loc;
  m_JDBC : option loc;
  m_SNMP : option loc;
  m_JMX : option loc;
  m_Redis : option loc;
  m_MongoDB : option loc;
  m_Milvus : option loc;
}.

Record ValueRow := mkValueRow { vr_Columns : list string }.

Record MetricsData := mkMetricsData {
  md_ID : Z;
  md_TenantID : Z;
  md_App : string;
  md_Metrics : string;
  md_Priority : Z;
  md_Time : Z;
  md_Code : Z;
  md_Msg : string;
  md_Fields : list Field;
  md_Values : list ValueRow;
  md_Metadata : gmap string string;
  md_Labels : gmap string string;
}.

Record CollectRepMetricsData := mkCollectRep {
  rep_ID : Z;
  rep_MonitorID : Z;
  rep_TenantID : Z;
  rep_App : string;
  rep_Metrics : string;
  rep_Priority : Z;
  rep_Time : Z;
  rep_Code : Z;
  rep_Msg : string;
  rep_Fields : list Field;
  rep_Values : list ValueRow;
  rep_Labels : gmap string string;
  rep_Metadata : gmap string string;
}.

(** A [*Metrics]: an array and an index in it. *)
Definition mptr : Type := loc * nat.

Record Job := mkJob {
  job_ID : Z;
  job_TenantID : Z;
  job_MonitorID : Z;
  job_Metadata : option loc;
  job_Labels : option loc;
  job_Annotations : option loc;
  job_Hide : bool;
  job_Category : string;
  job_App : string;
  job_Name : any;
  job_Help : any;
  job_HelpLink : any;
  job_Timestamp : Z;
  job_DefaultInterval : Z;
  job_Intervals : list Z;
  job_IsCyclic : bool;
  job_Params : list ParamDefine;
  job_Metrics : option loc;
  job_Configmap : list Configmap;
  job_IsSd : bool;
  job_Sd : bool;
  job_PrometheusProxyMode : bool;
  job_Cyclic : bool;
  job_Interval : Z;
  job_EnvConfigmaps : option (gmap string Configmap);
  job_DispatchTime : Z;
  job_PriorMetrics : list (list mptr);
  job_ResponseDataTemp : list MetricsData;
}.

(** Service discovery protocols. *)
Record ConsulSdProtocol := mkConsulSd { consul_Host : string; consul_Port : string }.
Record ZookeeperSdProtocol := mkZookeeperSd { zk_URL : string; zk_PathPrefix : string }.

Definition consul_IsInvalid (p : ConsulSdProtocol) : option error :=
  check_host_port (consul_Host p) (consul_Port p).
Definition zk_IsInvalid (p : ZookeeperSdProtocol) : option error :=
  if String.eqb (zk_URL p) "" then Some ErrorInvalidURL
  else if String.eqb (zk_PathPrefix p) "" then Some ErrorInvalidPathPrefix
  else None.

(** ** The heap *)

Inductive obj :=
| OMap (m : gmap string string)
| OAuth (a : Authorization)
| OHTTP (p : HTTPProtocol)
| OSSH (p : SSHProtocol)
| OTunnel (p : SSHTunnel)
| OJDBC (p : JDBCProtocol)
| ORedis (p : RedisProtocol)
| OSNMP (p : SNMPProtocol)
| OJMX (p : JMXProtocol)
| OMongoDB (p : MongoDBProtocol)
| OMilvus (p : MilvusProtocol)
| OMetrics (ms : list Metrics)
| OJob (j : Job).

(** [hranges] counts the range statements over maps run so far: each may visit
    its map in an order of its own. *)
Record heap := mkHeap {
  cells : gmap loc obj;
  hnext : loc;
  hranges : nat;
}.

Open Scope go_scope.

Definition alloc (o : obj) : M heap loc :=
  fun h => Ret (mkHeap (<[hnext h := o]> (cells h)) (S (hnext h)) (hranges h)) (hnext h).

Definition store (l : loc) (o : obj) : M heap unit :=
  fun h => match cells h !! l with
           | Some _ => Ret (mkHeap (<[l := o]> (cells h)) (hnext h) (hranges h)) tt
           | None => Panic h "invalid memory address"
           end.

(** A typed load: a pointer that is not one to such an object does not arise
    in well-typed code. *)
Definition load {A} (f : obj -> option A) (l : loc) : M heap A :=
  fun h => match cells h !! l ≫= f with
           | Some a => Ret h a
           | None => Panic h "invalid memory address"
           end.

Definition as_map (o : obj) := match o with OMap m => Some m | _ => None end.
Definition as_auth (o : obj) := match o with OAuth a => Some a | _ => None end.
Definition as_http (o : obj) := match o with OHTTP p => Some p | _ => None end.
Definition as_ssh (o : obj) := match o with OSSH p => Some p | _ => None end.
Definition as_tunnel (o : obj) := match o with OTunnel p => Some p | _ => None end.
Definition as_jdbc (o : obj) := match o with OJDBC p => Some p | _ => None end.
Definition as_redis (o : obj) := match o with ORedis p => Some p | _ => None end.
Definition as_metrics (o : obj) := match o with OMetrics ms => Some ms | _ => None end.
Definition as_job (o : obj) := match o with OJob j => Some j | _ => None end.

Fixpoint mmap {S A B} (f : A -> M S B) (l : list A) : M S (list B) :=
  match l with
  | [] => mret []
  | x :: r => y <-! f x ; ys <-! mmap f r ; mret (y :: ys)
  end.

(** ** Operations of Job and Metrics *)

Fixpoint assoc {A} (k : string) (m : list (string * A)) : option A :=
  match m with
  | [] => None
  | (k', v) :: r => if String.eqb k k' then Some v else assoc k r
  end.

Fixpoint first_string (m : list (string * any)) : string :=
  match m with
  | [] => "unknown"
  | (_, AString s) :: _ => s
  | _ :: r => first_string r
  end.

(** [ParamDefine.GetName]: the English name, or the first string a range over
    the map meets. *)
Definition GetName (p : ParamDefine) : string :=
  match pd_Name p with
  | AString v => v
  | AMap v =>
      match assoc "en" v with
      | Some (AString s) => s
      | _ => first_string v
      end
  | v => fmt_v v
  end.

(** [Metrics.GetInterval]. *)
Definition GetInterval (m : Metrics) : Z :=
  if 0 <? m_Interval m then wrap64 (m_Interval m * Second) else 30 * Second.

(** [Job.NextCollectMetrics]: pointers to all the metrics of the job. *)
Definition NextCollectMetrics (p : loc) : M heap (list mptr) :=
  j <-! load as_job p ;
  match job_Metrics j with
  | None => mret []
  | Some a => ms <-! load as_metrics a ; mret (pair a <$> seq 0 (length ms))
  end.

Definition set_collected (now : Z) (alias : list string) (m : Metrics) : Metrics :=
  mkMetrics (m_Name m) (m_I18n m) (m_Priority m) now (m_Interval m) (m_Visible m)
    (m_Fields m) alias (m_Calculates m) (m_Filters m) (m_Units m) (m_Protocol m)
    (m_Host m) (m_Port m) (m_Timeout m) (m_Range m) (m_ConfigMap m) (m_HasSubTask m)
    (m_HTTP m) (m_SSH m) (m_JDBC m) (m_SNMP m) (m_JMX m) (m_Redis m) (m_MongoDB m) (m_Milvus m).

Definition set_prior (prior : list (list mptr)) (env : option (gmap string Configmap)) (j : Job)
    : Job :=
  mkJob (job_ID j) (job_TenantID j) (job_MonitorID j) (job_Metadata j) (job_Labels j)
    (job_Annotations j) (job_Hide j) (job_Category j) (job_App j) (job_Name j) (job_Help j)
    (job_HelpLink j) (job_Timestamp j) (job_DefaultInterval j) (job_Intervals j)
    (job_IsCyclic j) (job_Params j) (job_Metrics j) (job_Configmap j) (job_IsSd j) (job_Sd j)
    (job_PrometheusProxyMode j) (job_Cyclic j) (job_Interval j) env
    (job_DispatchTime j) prior (job_ResponseDataTemp j).

(** The test for a metric that is due for collection. *)
Definition collect_due (now : Z) (m : Metrics) : bool :=
  wrap64 (m_CollectTime m + wrap64 (m_Interval m * 1000)) <=? now.

Definition default_alias (m : Metrics) : list string :=
  match m_AliasFields m, m_Fields m with
  | [], _ :: _ => f_Field <$> m_Fields m
  | alias, _ => alias
  end.

(** The first loop of [ConstructPriorMetrics], from index [i] of array [a]. *)
Fixpoint collect_loop (now : Z) (a : loc) (i : nat) (ms : list Metrics)
    (current : gmap Z (list mptr)) : list Metrics * gmap Z (list mptr) :=
  match ms with
  | [] => ([], current)
  | m :: rest =>
      if collect_due now m then
        let m' := set_collected now (default_alias m) m in
        let group := default [] (current !! m_Priority m) ++ [(a, i)] in
        let '(rest', current') := collect_loop now a (S i) rest (<[m_Priority m := group]> current) in
        (m' :: rest', current')
      else
        let '(rest', current') := collect_loop now a (S i) rest current in
        (m :: rest', current')
  end.

(** The second loop, run when no metric is due: the first metric of priority
    0 is collected all the same. *)
Fixpoint availability_loop (now : Z) (a : loc) (i : nat) (ms : list Metrics)
    : list Metrics * gmap Z (list mptr) :=
  match ms with
  | [] => ([], ∅)
  | m :: rest =>
      if m_Priority m =? 0 then (set_collected now (m_AliasFields m) m :: rest, {[0 := [(a, i)]]})
      else let '(rest', current) := availability_loop now a (S i) rest in (m :: rest', current)
  end.

(** The sort key of a group: the priority of its first metric. *)
Definition prior_key (ms : list Metrics) (g : list mptr) : Z :=
  match g with
  | (_, i) :: _ => match ms !! i with Some m => m_Priority m | None => max64 end
  | [] => max64
  end.

Definition prior_le (ms : list Metrics) (g1 g2 : list mptr) : Prop :=
  prior_key ms g1 <= prior_key ms g2.

#[global] Instance prior_le_dec ms : RelDecision (prior_le ms).
Proof. intros g1 g2. unfold prior_le. apply _. Defined.

Definition sort_prior (ms : list Metrics) (l : list (list mptr)) : list (list mptr) :=
  merge_sort (prior_le ms) l.

(** The metrics after [ConstructPriorMetrics] and its [PriorMetrics].  [visit]
    is the order in which a range statement visits the map of groups. *)
Definition construct_prior (visit : gmap Z (list mptr) -> list (Z * list mptr))
    (now : Z) (a : loc) (ms : list Metrics) : list Metrics * list (list mptr) :=
  let '(ms1, current1) := collect_loop now a 0 ms ∅ in
  let '(ms2, current2) :=
    if decide (current1 = ∅) then availability_loop now a 0 ms1 else (ms1, current1) in
  (ms2, sort_prior ms2 (snd <$> visit current2)).

(** [Job.ConstructPriorMetrics]. *)
Definition ConstructPriorMetrics (visit : gmap Z (list mptr) -> list (Z * list mptr))
    (now : Z) (p : loc) : M heap unit :=
  j <-! load as_job p ;
  let env := match job_EnvConfigmaps j with None => Some ∅ | Some e => Some e end in
  match job_Metrics j with
  | None => store p (OJob (set_prior [] env j))
  | Some a =>
      ms <-! load as_metrics a ;
      let '(ms', prior) := construct_prior visit now a ms in
      store a (OMetrics ms') ;!
      store p (OJob (set_prior prior env j))
  end.

(** A fresh map with the entries of an old one. *)
Definition copy_map (o : option loc) : M heap (option loc) :=
  match o with
  | None => mret None
  | Some l => m <-! load as_map l ; l' <-! alloc (OMap m) ; mret (Some l')
  end.

Definition copy_auth (o : option loc) : M heap (option loc) :=
  match o with
  | None => mret None
  | Some l => a <-! load as_auth l ; l' <-! alloc (OAuth a) ; mret (Some l')
  end.

Definition copy_http (o : option loc) : M heap (option loc) :=
  match o with
  | None => mret None
  | Some l =>
      p <-! load as_http l ;
      headers <-! copy_map (http_Headers p) ;
      params <-! copy_map (http_Params p) ;
      auth <-! copy_auth (http_Authorization p) ;
      l' <-! alloc (OHTTP (mkHTTPProtocol (http_URL p) (http_Method p) headers params
               (http_Body p) (http_ParseScript p) (http_ParseType p) (http_Keyword p)
               (http_Timeout p) (http_SSL p) auth)) ;
      mret (Some l')
  end.

(** The body of the metrics loop of [Clone]: the ConfigMap and the HTTP struct
    are copied, the other protocol structs stay shared. *)
Definition copy_metric (m : Metrics) : M heap Metrics :=
  configMap <-! copy_map (m_ConfigMap m) ;
  http <-! copy_http (m_HTTP m) ;
  mret (mkMetrics (m_Name m) (m_I18n m) (m_Priority m) (m_CollectTime m) (m_Interval m)
    (m_Visible m) (m_Fields m) (m_AliasFields m) (m_Calculates m) (m_Filters m) (m_Units m)
    (m_Protocol m) (m_Host m) (m_Port m) (m_Timeout m) (m_Range m) configMap (m_HasSubTask m)
    http (m_SSH m) (m_JDBC m) (m_SNMP m) (m_JMX m) (m_Redis m) (m_MongoDB m) (m_Milvus m)).

(** [Job.Clone].  [PriorMetrics] keeps pointing into the array of the original. *)
Definition Clone (p : option loc) : M heap (option loc) :=
  match p with
  | None => mret None
  | Some p =>
      j <-! load as_job p ;
      metadata <-! copy_map (job_Metadata j) ;
      labels <-! copy_map (job_Labels j) ;
      annotations <-! copy_map (job_Annotations j) ;
      metrics <-! match job_Metrics j with
                  | None => mret None
                  | Some a =>
                      ms <-! load as_metrics a ;
                      ms' <-! mmap copy_metric ms ;
                      a' <-! alloc (OMetrics ms') ;
                      mret (Some a')
                  end ;
      c <-! alloc (OJob (mkJob (job_ID j) (job_TenantID j) (job_MonitorID j) metadata labels
              annotations (job_Hide j) (job_Category j) (job_App j) (job_Name j) (job_Help j)
              (job_HelpLink j) (job_Timestamp j) (job_DefaultInterval j) (job_Intervals j)
              (job_IsCyclic j) (job_Params j) metrics (job_Configmap j) false false false false
              0 None 0 (job_PriorMetrics j) [])) ;
      mret (Some c)
  end.

(** ** Specification of ConstructPriorMetrics *)

(** The metrics to collect, as indices with their priorities: those that are
    due, or else the first one of priority 0. *)
Fixpoint due_from (now : Z) (i : nat) (ms : list Metrics) : list (nat * Z) :=
  match ms with
  | [] => []
  | m :: r =>
      if collect_due now m then (i, m_Priority m) :: due_from now (S i) r
      else due_from now (S i) r
  end.

Fixpoint first_available (i : nat) (ms : list Metrics) : list (nat * Z) :=
  match ms with
  | [] => []
  | m :: r => if m_Priority m =? 0 then [(i, 0)] else first_available (S i) r
  end.

Definition selection (now : Z) (ms : list Metrics) : list (nat * Z) :=
  match due_from now 0 ms with
  | [] => first_available 0 ms
  | l => l
  end.

Definition group_of (a : loc) (sel : list (nat * Z)) (p : Z) : list mptr :=
  (fun x => (a, fst x)) <$> filter (fun x => snd x = p) sel.

(** The priorities that occur, each once and in ascending order. *)
Definition priorities (sel : list (nat * Z)) : list Z :=
  merge_sort Z.le (remove_dups (snd <$> sel)).

Definition spec_prior (a : loc) (sel : list (nat * Z)) : list (list mptr) :=
  group_of a sel <$> priorities sel.

Definition spec_metric (now : Z) (sel : list (nat * Z)) (i : nat) (m : Metrics) : Metrics :=
  if decide (i ∈ sel.*1)
  then set_collected now (if collect_due now m then default_alias m else m_AliasFields m) m
  else m.

(** ** Lemmas *)

Definition nonempty_group (g : list mptr) : option (list mptr) :=
  match g with [] => None | _ => Some g end.

Definition collect1 (now : Z) (m : Metrics) : Metrics :=
  if collect_due now m then set_collected now (default_alias m) m else m.

Lemma nonempty_group_app g x : nonempty_group (g ++ [x]) = Some (g ++ [x]).
Proof. by destruct g. Qed.

Lemma collect_loop_spec now a ms : forall i cur,
  (forall p, cur !! p = nonempty_group (default [] (cur !! p))) ->
  let '(ms', cur') := collect_loop now a i ms cur in
  ms' = collect1 now <$> ms /\
  forall p, cur' !! p =
    nonempty_group (default [] (cur !! p) ++ group_of a (due_from now i ms) p).
Proof.
  unfold collect1, group_of.
  induction ms as [|m ms IH]; intros i cur Hcur; simpl.
  { split; [done|]. intros p. by rewrite app_nil_r. }
  destruct (collect_due now m) eqn:Hdue.
  - specialize (IH (S i) (<[m_Priority m := default [] (cur !! m_Priority m) ++ [(a, i)]]> cur)).
    destruct (collect_loop _ _ _ _ _) as [rest' cur'].
    destruct IH as [-> Hl].
    { intros p. destruct (decide (m_Priority m = p)) as [<-|Hne].
      - rewrite lookup_insert_eq. simpl. by rewrite nonempty_group_app.
      - rewrite lookup_insert_ne by done. apply Hcur. }
    split; [done|]. intros p. rewrite Hl, filter_cons. simpl.
    destruct (decide (m_Priority m = p)) as [<-|Hne].
    + rewrite lookup_insert_eq. simpl. by rewrite <- app_assoc.
    + by rewrite lookup_insert_ne.
  - specialize (IH (S i) cur Hcur).
    destruct (collect_loop _ _ _ _ _) as [rest' cur'].
    destruct IH as [-> Hl]. by split.
Qed.

Lemma first_available_ge ms : forall i k, k ∈ (first_available i ms).*1 -> (i <= k)%nat.
Proof.
  induction ms as [|m ms IH]; intros i k; simpl.
  - intros Hin. by apply elem_of_nil in Hin.
  - destruct (m_Priority m =? 0); simpl.
    + rewrite list_elem_of_singleton. lia.
    + intros Hin%IH. lia.
Qed.

Lemma availability_loop_spec now a ms : forall i,
  let '(ms', cur') := availability_loop now a i ms in
  (forall k m, ms !! k = Some m -> ms' !! k =
     Some (if decide (i + k ∈ (first_available i ms).*1)%nat
           then set_collected now (m_AliasFields m) m else m)) /\
  length ms' = length ms /\
  forall p, cur' !! p = nonempty_group (group_of a (first_available i ms) p).
Proof.
  unfold group_of.
  induction ms as [|m ms IH]; intros i; simpl; [done|].
  destruct (m_Priority m =? 0) eqn:Hp.
  - split_and!; [|done|].
    + intros [|k] m' Hk; simplify_eq/=.
      * rewrite decide_True; [done|]. apply list_elem_of_singleton. lia.
      * rewrite decide_False; [done|]. rewrite list_elem_of_singleton. lia.
    + intros p. rewrite filter_cons. simpl. destruct (decide (0 = p)) as [<-|].
      * by rewrite lookup_singleton_eq.
      * by rewrite lookup_singleton_ne.
  - specialize (IH (S i)). destruct (availability_loop _ _ _ _) as [rest' cur'].
    destruct IH as (Hm & Hlen & Hcur).
    split_and!; [|by f_equal/=|done].
    intros [|k] m' Hk; simplify_eq/=.
    + rewrite decide_False; [done|]. rewrite Nat.add_0_r.
      intros Hin%first_available_ge. lia.
    + rewrite (Hm k m' Hk). by replace (i + S k)%nat with (S i + k)%nat by lia.
Qed.

Lemma due_from_elem now ms : forall i k,
  k ∈ (due_from now i ms).*1 <->
  exists m, (i <= k)%nat /\ ms !! (k - i)%nat = Some m /\ collect_due now m = true.
Proof.
  induction ms as [|m ms IH]; intros i k; simpl.
  { rewrite elem_of_nil. split; [done|]. by intros (? & _ & ? & _). }
  assert ((exists m', (S i <= k)%nat /\ ms !! (k - S i)%nat = Some m' /\ collect_due now m' = true)
    \/ (k = i /\ collect_due now m = true) <->
    exists m', (i <= k)%nat /\ (m :: ms) !! (k - i)%nat = Some m' /\ collect_due now m' = true)
    as Hstep.
  { split.
    - intros [(m' & Hk & Hm & Hd)|[-> Hd]].
      + exists m'. split_and!; [lia| |done].
        by replace (k - i)%nat with (S (k - S i)) by lia.
      + exists m. by rewrite Nat.sub_diag.
    - intros (m' & Hk & Hm & Hd). destruct (decide (k = i)) as [->|Hne].
      + rewrite Nat.sub_diag in Hm. simplify_eq/=. auto.
      + left. exists m'. split_and!; [lia| |done].
        by replace (k - i)%nat with (S (k - S i)) in Hm by lia. }
  destruct (collect_due now m) eqn:Hdue; simpl; rewrite ?elem_of_cons, IH, <- Hstep.
  - tauto.
  - split; [by left|]. by intros [|[_ ?]].
Qed.

Lemma selection_due now ms l : due_from now 0 ms = l -> l <> [] -> selection now ms = l.
Proof. unfold selection. intros -> ?. by destruct l. Qed.

Lemma group_of_nonempty a sel p : group_of a sel p = [] <-> p ∉ sel.*2.
Proof.
  unfold group_of. split.
  - intros Hf%fmap_nil_inv ((i & q) & -> & Hin)%list_elem_of_fmap. simpl in *.
    assert ((i, q) ∈ filter (fun x : nat * Z => snd x = q) sel) as Hin'
      by (apply list_elem_of_filter; done).
    rewrite Hf in Hin'. by apply elem_of_nil in Hin'.
  - intros Hp. rewrite filter_none; [done|]. intros [i q] Hin <-. apply Hp.
    apply list_elem_of_fmap. by exists (i, q).
Qed.

Lemma elem_of_priorities sel p : p ∈ priorities sel <-> p ∈ sel.*2.
Proof.
  unfold priorities. rewrite (merge_sort_Permutation Z.le). by rewrite elem_of_remove_dups.
Qed.

Lemma priorities_sorted sel : StronglySorted Z.lt (priorities sel).
Proof.
  assert (StronglySorted Z.le (priorities sel)) as Hs by (apply StronglySorted_merge_sort; apply _).
  assert (NoDup (priorities sel)) as Hn.
  { unfold priorities. rewrite (merge_sort_Permutation Z.le). apply NoDup_remove_dups. }
  revert Hs Hn. generalize (priorities sel) as l. induction l as [|x l IH]; [constructor|].
  intros [Hs Hx]%StronglySorted_inv [Hnx Hn]%NoDup_cons. constructor; [auto|].
  rewrite Forall_forall in Hx |- *. intros y Hy. specialize (Hx y Hy).
  assert (x <> y) by (by intros ->). lia.
Qed.

Lemma first_available_elem ms : forall i k q,
  (k, q) ∈ first_available i ms ->
  (i <= k)%nat /\ exists m, ms !! (k - i)%nat = Some m /\ m_Priority m = q.
Proof.
  induction ms as [|m ms IH]; intros i k q; simpl.
  - intros Hin. by apply elem_of_nil in Hin.
  - destruct (m_Priority m =? 0) eqn:Hp.
    + rewrite list_elem_of_singleton. intros ?; simplify_eq. split; [lia|].
      exists m. rewrite Nat.sub_diag. bool_to_prop. done.
    + intros [Hk (m' & Hm & Hq)]%IH. split; [lia|]. exists m'.
      by replace (k - i)%nat with (S (k - S i)) by lia.
Qed.

Lemma due_from_priority now ms : forall i k q,
  (k, q) ∈ due_from now i ms ->
  (i <= k)%nat /\ exists m, ms !! (k - i)%nat = Some m /\ m_Priority m = q.
Proof.
  induction ms as [|m ms IH]; intros i k q; simpl.
  - intros Hin. by apply elem_of_nil in Hin.
  - assert ((k, q) ∈ due_from now (S i) ms ->
      (i <= k)%nat /\ exists m', (m :: ms) !! (k - i)%nat = Some m' /\ m_Priority m' = q) as Hr.
    { intros [Hk (m' & Hm & Hq)]%IH. split; [lia|]. exists m'.
      by replace (k - i)%nat with (S (k - S i)) by lia. }
    destruct (collect_due now m); [|done].
    rewrite elem_of_cons. intros [Heq|Hin]; [|by apply Hr].
    simplify_eq. split; [lia|]. exists m. by rewrite Nat.sub_diag.
Qed.

(** A selected index points to a metric of the priority it is listed with. *)
Lemma selection_priority now ms k q :
  (k, q) ∈ selection now ms -> exists m, ms !! k = Some m /\ m_Priority m = q.
Proof.
  unfold selection. destruct (due_from now 0 ms) as [|x l] eqn:Hd.
  - intros [_ Hm]%first_available_elem. by rewrite Nat.sub_0_r in Hm.
  - rewrite <- Hd. intros [_ Hm]%due_from_priority. by rewrite Nat.sub_0_r in Hm.
Qed.

Lemma spec_metric_priority now sel i m : m_Priority (spec_metric now sel i m) = m_Priority m.
Proof. unfold spec_metric. by case_decide. Qed.

Lemma group_key now a ms p :
  p ∈ (selection now ms).*2 ->
  prior_key (imap (spec_metric now (selection now ms)) ms) (group_of a (selection now ms) p) = p.
Proof.
  intros Hp. unfold group_of.
  destruct (filter (fun x : nat * Z => snd x = p) (selection now ms)) as [|[k q] l] eqn:Hf.
  { assert (group_of a (selection now ms) p = []) as Hg by (unfold group_of; by rewrite Hf).
    by apply group_of_nonempty in Hg. }
  assert ((k, q) ∈ filter (fun x : nat * Z => snd x = p) (selection now ms)) as Hin
    by (rewrite Hf; left).
  apply list_elem_of_filter in Hin as [Hq Hin]. simpl in Hq. subst q.
  destruct (selection_priority _ _ _ _ Hin) as (m & Hm & Hpm).
  simpl. rewrite list_lookup_imap, Hm. simpl. by rewrite spec_metric_priority.
Qed.

Lemma spec_prior_sorted now a ms :
  StronglySorted
    (fun g1 g2 => prior_key (imap (spec_metric now (selection now ms)) ms) g1 <
                  prior_key (imap (spec_metric now (selection now ms)) ms) g2)
    (spec_prior a (selection now ms)).
Proof.
  unfold spec_prior.
  assert (forall p, p ∈ priorities (selection now ms) -> p ∈ (selection now ms).*2) as Hin
    by (intros p; apply elem_of_priorities).
  pose proof (priorities_sorted (selection now ms)) as Hs. revert Hin Hs.
  generalize (priorities (selection now ms)) as l.
  induction l as [|x l IH]; intros Hin; [constructor|].
  intros [Hs Hx]%StronglySorted_inv. rewrite fmap_cons. constructor.
  - apply IH; [|done]. intros p Hp. apply Hin. by right.
  - rewrite Forall_fmap. rewrite Forall_forall in Hx |- *. intros y Hy. simpl.
    rewrite !group_key; [by apply Hx|apply Hin; by right|apply Hin; by left].
Qed.

Lemma due_elem now ms i m :
  ms !! i = Some m -> (i ∈ (due_from now 0 ms).*1 <-> collect_due now m = true).
Proof.
  intros Hm. rewrite due_from_elem, Nat.sub_0_r. split.
  - intros (m' & _ & Hm' & Hd). congruence.
  - intros Hd. exists m. split_and!; [lia|done|done].
Qed.

Lemma none_due now ms i m : due_from now 0 ms = [] -> ms !! i = Some m -> collect_due now m = false.
Proof.
  intros Hd Hm. pose proof (due_elem now ms i m Hm) as He. rewrite Hd in He. simpl in He.
  rewrite elem_of_nil in He. destruct (collect_due now m); [|done]. exfalso. by apply He.
Qed.

(** The metrics left by the loops, when some metric is due and when none is. *)
Lemma due_metrics now ms :
  due_from now 0 ms <> [] ->
  collect1 now <$> ms = imap (spec_metric now (selection now ms)) ms.
Proof.
  intros Hne. rewrite (selection_due now ms _ eq_refl Hne). apply list_eq. intros i.
  rewrite list_lookup_fmap, list_lookup_imap.
  destruct (ms !! i) as [m|] eqn:Hm; simpl; [|done]. f_equal.
  pose proof (due_elem now ms i m Hm) as He. unfold spec_metric, collect1.
  destruct (collect_due now m).
  - rewrite decide_True; [done|]. by apply He.
  - rewrite decide_False; [done|]. by intros Hin%He.
Qed.

Lemma available_metrics now a ms :
  due_from now 0 ms = [] ->
  fst (availability_loop now a 0 ms) = imap (spec_metric now (first_available 0 ms)) ms.
Proof.
  intros Hd. pose proof (availability_loop_spec now a ms 0) as H2.
  destruct (availability_loop now a 0 ms) as [ms2 cur2]. destruct H2 as (Hm2 & Hlen & _). simpl.
  apply list_eq. intros i. rewrite list_lookup_imap.
  destruct (ms !! i) as [m|] eqn:Hm; simpl.
  - rewrite (Hm2 i m Hm). unfold spec_metric. simpl. by rewrite (none_due now ms i m Hd Hm).
  - apply lookup_ge_None. rewrite Hlen. by apply lookup_ge_None.
Qed.

(** The loops compute the groups of the selection. *)
Lemma loops_spec now a ms :
  let '(ms1, current1) := collect_loop now a 0 ms ∅ in
  let '(ms2, current2) :=
    if decide (current1 = ∅) then availability_loop now a 0 ms1 else (ms1, current1) in
  ms2 = imap (spec_metric now (selection now ms)) ms /\
  forall p, current2 !! p = nonempty_group (group_of a (selection now ms) p).
Proof.
  pose proof (collect_loop_spec now a ms 0 ∅) as H1.
  destruct (collect_loop now a 0 ms ∅) as [ms1 cur1].
  destruct H1 as [-> Hc1]; [intros p; by rewrite lookup_empty|].
  setoid_rewrite lookup_empty in Hc1. simpl in Hc1.
  destruct (due_from now 0 ms) as [|d l] eqn:Hd.
  - assert (collect1 now <$> ms = ms) as ->.
    { transitivity (id <$> ms); [|apply list_fmap_id]. apply list_fmap_ext.
      intros i m Hm. unfold collect1. by rewrite (none_due now ms i m Hd Hm). }
    rewrite decide_True by (apply map_empty; intros p; apply Hc1).
    pose proof (available_metrics now a ms Hd) as Hms.
    pose proof (availability_loop_spec now a ms 0) as H2.
    destruct (availability_loop now a 0 ms) as [ms2 cur2]. destruct H2 as (_ & _ & Hc2).
    unfold selection. by rewrite Hd.
  - rewrite decide_False.
    + rewrite (selection_due now ms _ Hd) by done. split; [|done].
      rewrite due_metrics by (by rewrite Hd). by rewrite (selection_due now ms _ Hd) by done.
    + intros ->. specialize (Hc1 (snd d)). rewrite lookup_empty in Hc1.
      assert (group_of a (d :: l) (snd d) <> []) as Hne.
      { rewrite group_of_nonempty. intros Hn. apply Hn. rewrite fmap_cons. by left. }
      by destruct (group_of a (d :: l) (snd d)).
Qed.

Lemma nonempty_group_Some g g' : nonempty_group g = Some g' <-> g = g' /\ g <> [].
Proof. destruct g; simpl; [|split; [by intros [= <-]|by intros [<- _]]]. split; [done|tauto]. Qed.

Lemma groups_permutation a sel (cur : gmap Z (list mptr)) :
  (forall p, cur !! p = nonempty_group (group_of a sel p)) ->
  map_to_list cur ≡ₚ (fun p => (p, group_of a sel p)) <$> priorities sel.
Proof.
  intros Hcur. apply NoDup_Permutation.
  - apply NoDup_map_to_list.
  - apply NoDup_fmap_2_strong; [by intros ? ? _ _ [= ->]|].
    unfold priorities. rewrite (merge_sort_Permutation Z.le). apply NoDup_remove_dups.
  - intros [p g]. rewrite elem_of_map_to_list, Hcur, nonempty_group_Some, list_elem_of_fmap.
    setoid_rewrite elem_of_priorities. pose proof (group_of_nonempty a sel p) as Hg. split.
    + intros [<- Hne]. exists p. split; [done|].
      destruct (decide (p ∈ sel.*2)); [done|tauto].
    + intros (? & [= -> ->] & Hin). split; [done|]. tauto.
Qed.

Lemma sort_prior_unique ms l1 l2 :
  StronglySorted (fun g1 g2 => prior_key ms g1 < prior_key ms g2) l2 ->
  l1 ≡ₚ l2 -> sort_prior ms l1 = l2.
Proof.
  intros Hs Hp. unfold sort_prior.
  assert (Total (prior_le ms)) by (intros x y; unfold prior_le; lia).
  assert (Transitive (prior_le ms)) by (intros x y z; unfold prior_le; lia).
  apply (StronglySorted_unique_strong (prior_le ms)).
  - intros x y Hx Hy H1 H2. rewrite (merge_sort_Permutation (prior_le ms)), Hp in Hx.
    unfold prior_le in *. clear Hp. induction Hs as [|z l Hs IH Hz]; [by apply elem_of_nil in Hx|].
    rewrite Forall_forall in Hz. apply elem_of_cons in Hx, Hy.
    destruct Hx as [->|Hx], Hy as [->|Hy]; [done| | |by apply IH].
    + specialize (Hz y Hy). lia.
    + specialize (Hz x Hx). lia.
  - by apply StronglySorted_merge_sort.
  - eapply (@StronglySorted_ind _ _ (fun l => StronglySorted (prior_le ms) l)); [constructor| |exact Hs].
    intros z l _ IH Hz. constructor; [done|]. eapply Forall_impl; [exact Hz|].
    unfold prior_le. simpl. lia.
  - by rewrite (merge_sort_Permutation (prior_le ms)).
Qed.

Section PriorOrder.
Context (visit : gmap Z (list mptr) -> list (Z * list mptr)).
Hypothesis visit_perm : forall m, visit m ≡ₚ map_to_list m.

Lemma construct_prior_spec now a ms :
  construct_prior visit now a ms =
    (imap (spec_metric now (selection now ms)) ms, spec_prior a (selection now ms)).
Proof.
  unfold construct_prior. pose proof (loops_spec now a ms) as HL.
  destruct (collect_loop now a 0 ms ∅) as [ms1 cur1].
  destruct (if decide (cur1 = ∅) then availability_loop now a 0 ms1 else (ms1, cur1)) as [ms2 cur2].
  destruct HL as [-> Hcur]. f_equal. apply sort_prior_unique; [apply spec_prior_sorted|].
  rewrite visit_perm, (groups_permutation a (selection now ms)) by done.
  by rewrite <- list_fmap_compose.
Qed.

(** C17 (functional). [ConstructPriorMetrics] selects the metrics whose collect
    time has come, or else the first metric of priority 0, stamps them, and
    leaves in [PriorMetrics] one group per priority, each in the order of the
    job, the groups in strictly ascending order of priority.  The result does
    not depend on the order in which Go visits the map of groups. *)
Theorem ConstructPriorMetrics_correct now p a j ms h :
  cells h !! p = Some (OJob j) ->
  job_Metrics j = Some a ->
  cells h !! a = Some (OMetrics ms) ->
  let sel := selection now ms in
  let ms' := imap (spec_metric now sel) ms in
  let prior := spec_prior a sel in
  StronglySorted (fun g1 g2 => prior_key ms' g1 < prior_key ms' g2) prior /\
  ConstructPriorMetrics visit now p h =
    Ret (mkHeap (<[p := OJob (set_prior prior (Some (default ∅ (job_EnvConfigmaps j))) j)]>
                  (<[a := OMetrics ms']> (cells h))) (hnext h) (hranges h)) tt.
Proof.
  intros Hp Ha Hms sel ms' prior. split; [apply spec_prior_sorted|].
  assert (p <> a) by (intros ->; congruence).
  unfold ConstructPriorMetrics, mbind', load. rewrite Hp. simpl. rewrite Ha, Hms. simpl.
  rewrite construct_prior_spec. unfold store. rewrite Hms. simpl.
  rewrite lookup_insert_ne by done. rewrite Hp. by destruct (job_EnvConfigmaps j).
Qed.
End PriorOrder.

(** ** Examples *)

Definition ex_metric (name : string) (priority collectTime interval : Z) : Metrics :=
  mkMetrics name ANil priority collectTime interval None
    [mkField "value" 0 false "" false ANil ANil] [] ANil ANil ANil "http" "" "" "" "" None false
    None None None None None None None None.

Definition ex_job (id interval : Z) (cyclic : bool) (metrics : option loc) : Job :=
  mkJob id 0 id None None None false "" "app" ANil ANil ANil 0 interval [] cyclic [] metrics []
    false false false false 0 None 0 [] [].

Definition ex_heap : heap :=
  mkHeap {[0%nat := OJob (ex_job 7 60 true (Some 1%nat));
           1%nat := OMetrics [ex_metric "cpu" 2 0 60; ex_metric "up" 0 0 60;
                              ex_metric "late" 1 99000 60; ex_metric "mem" 2 0 30]]} 2 0.

Lemma ConstructPriorMetrics_correct_witness :
  exists j', cells (outcome_state (ConstructPriorMetrics map_to_list 100000 0 ex_heap)) !! 0%nat
             = Some (OJob j') /\
    job_PriorMetrics j' = [[(1%nat, 1%nat)]; [(1%nat, 0%nat); (1%nat, 3%nat)]].
Proof.
  destruct (ConstructPriorMetrics_correct map_to_list (fun m => reflexivity _) 100000 0 1
    (ex_job 7 60 true (Some 1%nat))
    [ex_metric "cpu" 2 0 60; ex_metric "up" 0 0 60; ex_metric "late" 1 99000 60;
     ex_metric "mem" 2 0 30] ex_heap eq_refl eq_refl eq_refl) as [_ ->].
  eexists. split; vm_compute; reflexivity.
Defined.
