(* ===== verification/Crypto.v ===== *)
(** * Password decryption

    Models internal/util/crypto/aes_util.go: AES-128 in CBC mode with the key
    as initialisation vector, PKCS#7 padding and base64, all on bytes
    ([ascii], eight bits).  Packages crypto/aes, crypto/cipher and
    encoding/base64 are modelled by FIPS 197, CBC and RFC 4648; the matching
    encoder, which runs in the HertzBeat manager, is written down as the
    specification of what [AesDecodeWithKey] inverts. *)

From Stdlib Require Import Ascii String Btauto.
From S2P Require Import Prelude GoStrings.

Open Scope string_scope.
Open Scope list_scope.
Open Scope Z_scope.

Definition bytes : Type := list ascii.

(** ** The AES block cipher *)

Definition byte_xor (a b : ascii) : ascii :=
  match a, b with
  | Ascii a0 a1 a2 a3 a4 a5 a6 a7, Ascii b0 b1 b2 b3 b4 b5 b6 b7 =>
      Ascii (xorb a0 b0) (xorb a1 b1) (xorb a2 b2) (xorb a3 b3)
            (xorb a4 b4) (xorb a5 b5) (xorb a6 b6) (xorb a7 b7)
  end.

(** Multiplication by [x] in GF(2^8). *)
Definition xtime (a : ascii) : ascii :=
  match a with
  | Ascii a0 a1 a2 a3 a4 a5 a6 a7 =>
      Ascii a7 (xorb a0 a7) a1 (xorb a2 a7) (xorb a3 a7) a4 a5 a6
  end.

Definition sbox_table : list N :=
  [99; 124; 119; 123; 242; 107; 111; 197; 48; 1; 103; 43; 254; 215; 171; 118;
   202; 130; 201; 125; 250; 89; 71; 240; 173; 212; 162; 175; 156; 164; 114; 192;
   183; 253; 147; 38; 54; 63; 247; 204; 52; 165; 229; 241; 113; 216; 49; 21;
   4; 199; 35; 195; 24; 150; 5; 154; 7; 18; 128; 226; 235; 39; 178; 117;
   9; 131; 44; 26; 27; 110; 90; 160; 82; 59; 214; 179; 41; 227; 47; 132;
   83; 209; 0; 237; 32; 252; 177; 91; 106; 203; 190; 57; 74; 76; 88; 207;
   208; 239; 170; 251; 67; 77; 51; 133; 69; 249; 2; 127; 80; 60; 159; 168;
   81; 163; 64; 143; 146; 157; 56; 245; 188; 182; 218; 33; 16; 255; 243; 210;
   205; 12; 19; 236; 95; 151; 68; 23; 196; 167; 126; 61; 100; 93; 25; 115;
   96; 129; 79; 220; 34; 42; 144; 136; 70; 238; 184; 20; 222; 94; 11; 219;
   224; 50; 58; 10; 73; 6; 36; 92; 194; 211; 172; 98; 145; 149; 228; 121;
   231; 200; 55; 109; 141; 213; 78; 169; 108; 86; 244; 234; 101; 122; 174; 8;
   186; 120; 37; 46; 28; 166; 180; 198; 232; 221; 116; 31; 75; 189; 139; 138;
   112; 62; 181; 102; 72; 3; 246; 14; 97; 53; 87; 185; 134; 193; 29; 158;
   225; 248; 152; 17; 105; 217; 142; 148; 155; 30; 135; 233; 206; 85; 40; 223;
   140; 161; 137; 13; 191; 230; 66; 104; 65; 153; 45; 15; 176; 84; 187; 22]%N.

Definition inv_sbox_table : list N :=
  [82; 9; 106; 213; 48; 54; 165; 56; 191; 64; 163; 158; 129; 243; 215; 251;
   124; 227; 57; 130; 155; 47; 255; 135; 52; 142; 67; 68; 196; 222; 233; 203;
   84; 123; 148; 50; 166; 194; 35; 61; 238; 76; 149; 11; 66; 250; 195; 78;
   8; 46; 161; 102; 40; 217; 36; 178; 118; 91; 162; 73; 109; 139; 209; 37;
   114; 248; 246; 100; 134; 104; 152; 22; 212; 164; 92; 204; 93; 101; 182; 146;
   108; 112; 72; 80; 253; 237; 185; 218; 94; 21; 70; 87; 167; 141; 157; 132;
   144; 216; 171; 0; 140; 188; 211; 10; 247; 228; 88; 5; 184; 179; 69; 6;
   208; 44; 30; 143; 202; 63; 15; 2; 193; 175; 189; 3; 1; 19; 138; 107;
   58; 145; 17; 65; 79; 103; 220; 234; 151; 242; 207; 206; 240; 180; 230; 115;
   150; 172; 116; 34; 231; 173; 53; 133; 226; 249; 55; 232; 28; 117; 223; 110;
   71; 241; 26; 113; 29; 41; 197; 137; 111; 183; 98; 14; 170; 24; 190; 27;
   252; 86; 62; 75; 198; 210; 121; 32; 154; 219; 192; 254; 120; 205; 90; 244;
   31; 221; 168; 51; 136; 7; 199; 49; 177; 18; 16; 89; 39; 128; 236; 95;
   96; 81; 127; 169; 25; 181; 74; 13; 45; 229; 122; 159; 147; 201; 156; 239;
   160; 224; 59; 77; 174; 42; 245; 176; 200; 235; 187; 60; 131; 83; 153; 97;
   23; 43; 4; 126; 186; 119; 214; 38; 225; 105; 20; 99; 85; 33; 12; 125]%N.

Definition sbox (a : ascii) : ascii :=
  ascii_of_N (nth (nat_of_ascii a) sbox_table 0%N).
Definition inv_sbox (a : ascii) : ascii :=
  ascii_of_N (nth (nat_of_ascii a) inv_sbox_table 0%N).

(** A column of four bytes and a block of four columns. *)
Inductive column := Col (a b c d : ascii).
Inductive block := Blk (c0 c1 c2 c3 : column).

Definition col_map (f : ascii -> ascii) (x : column) : column :=
  let 'Col a b c d := x in Col (f a) (f b) (f c) (f d).
Definition col_xor (x y : column) : column :=
  let 'Col a b c d := x in let 'Col a' b' c' d' := y in
  Col (byte_xor a a') (byte_xor b b') (byte_xor c c') (byte_xor d d').
Definition blk_map (f : column -> column) (s : block) : block :=
  let 'Blk c0 c1 c2 c3 := s in Blk (f c0) (f c1) (f c2) (f c3).
Definition blk_xor (s t : block) : block :=
  let 'Blk a b c d := s in let 'Blk a' b' c' d' := t in
  Blk (col_xor a a') (col_xor b b') (col_xor c c') (col_xor d d').

Definition SubBytes : block -> block := blk_map (col_map sbox).
Definition InvSubBytes : block -> block := blk_map (col_map inv_sbox).

Definition ShiftRows (s : block) : block :=
  let 'Blk (Col a0 a1 a2 a3) (Col b0 b1 b2 b3) (Col c0 c1 c2 c3) (Col d0 d1 d2 d3) := s in
  Blk (Col a0 b1 c2 d3) (Col b0 c1 d2 a3) (Col c0 d1 a2 b3) (Col d0 a1 b2 c3).
Definition InvShiftRows (s : block) : block :=
  let 'Blk (Col a0 a1 a2 a3) (Col b0 b1 b2 b3) (Col c0 c1 c2 c3) (Col d0 d1 d2 d3) := s in
  Blk (Col a0 d1 c2 b3) (Col b0 a1 d2 c3) (Col c0 b1 a2 d3) (Col d0 c1 b2 a3).

Definition xor4 (a b c d : ascii) : ascii := byte_xor (byte_xor a b) (byte_xor c d).

Definition mul2 (a : ascii) : ascii := xtime a.
Definition mul3 (a : ascii) : ascii := byte_xor (xtime a) a.
Definition mul4 (a : ascii) : ascii := xtime (xtime a).
Definition mul8 (a : ascii) : ascii := xtime (mul4 a).
Definition mul9 (a : ascii) : ascii := byte_xor (mul8 a) a.
Definition mul11 (a : ascii) : ascii := byte_xor (mul8 a) (mul3 a).
Definition mul13 (a : ascii) : ascii := byte_xor (mul8 a) (byte_xor (mul4 a) a).
Definition mul14 (a : ascii) : ascii := byte_xor (mul8 a) (byte_xor (mul4 a) (mul2 a)).

Definition mix_column (x : column) : column :=
  let 'Col a b c d := x in
  Col (xor4 (mul2 a) (mul3 b) c d) (xor4 a (mul2 b) (mul3 c) d)
      (xor4 a b (mul2 c) (mul3 d)) (xor4 (mul3 a) b c (mul2 d)).
Definition inv_mix_column (x : column) : column :=
  let 'Col a b c d := x in
  Col (xor4 (mul14 a) (mul11 b) (mul13 c) (mul9 d)) (xor4 (mul9 a) (mul14 b) (mul11 c) (mul13 d))
      (xor4 (mul13 a) (mul9 b) (mul14 c) (mul11 d)) (xor4 (mul11 a) (mul13 b) (mul9 c) (mul14 d)).

Definition MixColumns : block -> block := blk_map mix_column.
Definition InvMixColumns : block -> block := blk_map inv_mix_column.

(** One step of the key schedule of AES-128. *)
Definition next_round_key (rcon : ascii) (k : block) : block :=
  let 'Blk w0 w1 w2 w3 := k in
  let 'Col a b c d := w3 in
  let w0' := col_xor w0 (Col (byte_xor (sbox b) rcon) (sbox c) (sbox d) (sbox a)) in
  let w1' := col_xor w1 w0' in
  let w2' := col_xor w2 w1' in
  Blk w0' w1' w2' (col_xor w3 w2').

Fixpoint key_schedule (rcons : list ascii) (k : block) : list block :=
  match rcons with
  | [] => []
  | r :: rcons => let k' := next_round_key r k in k' :: key_schedule rcons k'
  end.

Definition rcons : list ascii := ascii_of_N <$> [1; 2; 4; 8; 16; 32; 64; 128; 27; 54]%N.

Fixpoint aes_rounds (ks : list block) (s : block) : block :=
  match ks with
  | [] => s
  | [k] => blk_xor (ShiftRows (SubBytes s)) k
  | k :: ks => aes_rounds ks (blk_xor (MixColumns (ShiftRows (SubBytes s))) k)
  end.

Fixpoint inv_aes_rounds (ks : list block) (s : block) : block :=
  match ks with
  | [] => s
  | [k] => InvSubBytes (InvShiftRows (blk_xor s k))
  | k :: ks => InvSubBytes (InvShiftRows (InvMixColumns (blk_xor (inv_aes_rounds ks s) k)))
  end.

Definition aes_encrypt (key s : block) : block :=
  aes_rounds (key_schedule rcons key) (blk_xor s key).
Definition aes_decrypt (key s : block) : block :=
  blk_xor (inv_aes_rounds (key_schedule rcons key) s) key.

#[global] Arguments aes_encrypt : simpl never.
#[global] Arguments aes_decrypt : simpl never.

(** ** CBC mode *)

Fixpoint cbc_encrypt (key iv : block) (l : list block) : list block :=
  match l with
  | [] => []
  | b :: r => let c := aes_encrypt key (blk_xor b iv) in c :: cbc_encrypt key c r
  end.

(** [cipher.NewCBCDecrypter] and [CryptBlocks]. *)
Fixpoint cbc_decrypt (key iv : block) (l : list block) : list block :=
  match l with
  | [] => []
  | c :: r => blk_xor (aes_decrypt key c) iv :: cbc_decrypt key c r
  end.

Definition blk_bytes (s : block) : bytes :=
  let 'Blk (Col a0 a1 a2 a3) (Col b0 b1 b2 b3) (Col c0 c1 c2 c3) (Col d0 d1 d2 d3) := s in
  [a0; a1; a2; a3; b0; b1; b2; b3; c0; c1; c2; c3; d0; d1; d2; d3].

Fixpoint to_blocks (l : bytes) : list block :=
  match l with
  | a0 :: a1 :: a2 :: a3 :: b0 :: b1 :: b2 :: b3 :: c0 :: c1 :: c2 :: c3 :: d0 :: d1 :: d2 :: d3 :: r =>
      Blk (Col a0 a1 a2 a3) (Col b0 b1 b2 b3) (Col c0 c1 c2 c3) (Col d0 d1 d2 d3) :: to_blocks r
  | _ => []
  end.

Definition from_blocks (l : list block) : bytes := concat (map blk_bytes l).

(** ** Padding *)

(** [isPrintableString] on ASCII: printable characters and white space. *)
Definition is_print (c : ascii) : bool := (32 <=? N_of_ascii c)%N && (N_of_ascii c <=? 126)%N.

Definition isPrintableString (s : string) : bool :=
  if String.eqb s "" then false else str_all (fun c => is_print c || is_space c) s.

(** [removePKCS7Padding]: the loop tests the last [n] bytes, last one first;
    data whose padding is not valid is returned as it is. *)
Definition removePKCS7Padding (data : bytes) : bytes :=
  match rev data with
  | [] => data
  | last :: _ =>
      let paddingLen := nat_of_ascii last in
      if (length data <? paddingLen)%nat || (paddingLen =? 0)%nat then data
      else if forallb (Ascii.eqb last) (take paddingLen (rev data))
      then take (length data - paddingLen) data
      else data
  end.

Definition pkcs7_pad (data : bytes) : bytes :=
  let n := (16 - length data mod 16)%nat in data ++ replicate n (ascii_of_nat n).

(** ** Base64 *)

Inductive sextet := Sx (b5 b4 b3 b2 b1 b0 : bool).

Definition b64_alphabet : bytes :=
  list_ascii_of_string "ABCDEFGHIJKLMNOPQRSTUVWXYZabcdefghijklmnopqrstuvwxyz0123456789+/".

Definition sextet_index (s : sextet) : nat :=
  let 'Sx b5 b4 b3 b2 b1 b0 := s in
  (32 * Nat.b2n b5 + 16 * Nat.b2n b4 + 8 * Nat.b2n b3 + 4 * Nat.b2n b2 + 2 * Nat.b2n b1
   + Nat.b2n b0)%nat.

Definition sextet_of_index (n : nat) : sextet :=
  Sx (Nat.testbit n 5) (Nat.testbit n 4) (Nat.testbit n 3) (Nat.testbit n 2)
     (Nat.testbit n 1) (Nat.testbit n 0).

Definition b64_char (s : sextet) : ascii := nth (sextet_index s) b64_alphabet "="%char.

Fixpoint index_of (c : ascii) (i : nat) (l : bytes) : option nat :=
  match l with
  | [] => None
  | x :: r => if Ascii.eqb c x then Some i else index_of c (S i) r
  end.

Definition b64_value (c : ascii) : option sextet := sextet_of_index <$> index_of c 0 b64_alphabet.

Definition byte1 (x y : sextet) : ascii :=
  let 'Sx a5 a4 a3 a2 a1 a0 := x in let 'Sx b5 b4 _ _ _ _ := y in
  Ascii b4 b5 a0 a1 a2 a3 a4 a5.
Definition byte2 (x y : sextet) : ascii :=
  let 'Sx _ _ a3 a2 a1 a0 := x in let 'Sx b5 b4 b3 b2 _ _ := y in
  Ascii b2 b3 b4 b5 a0 a1 a2 a3.
Definition byte3 (x y : sextet) : ascii :=
  let 'Sx _ _ _ _ a1 a0 := x in let 'Sx b5 b4 b3 b2 b1 b0 := y in
  Ascii b0 b1 b2 b3 b4 b5 a0 a1.

(** The quanta of [base64.StdEncoding]: four characters give three bytes, the
    last four may end in one or two '='. *)
Fixpoint b64_quanta (l : bytes) : option bytes :=
  match l with
  | [] => Some []
  | a :: b :: c :: d :: r =>
      match b64_value a, b64_value b with
      | Some x, Some y =>
          if Ascii.eqb c "=" then
            match Ascii.eqb d "=", r with
            | true, [] => Some [byte1 x y]
            | _, _ => None
            end
          else
            match b64_value c with
            | None => None
            | Some z =>
                if Ascii.eqb d "=" then
                  match r with [] => Some [byte1 x y; byte2 y z] | _ => None end
                else
                  match b64_value d with
                  | None => None
                  | Some w =>
                      (fun t => byte1 x y :: byte2 y z :: byte3 z w :: t) <$> b64_quanta r
                  end
            end
      | _, _ => None
      end
  | _ => None
  end.

Definition is_newline (c : ascii) : bool := Ascii.eqb c "010" || Ascii.eqb c "013".

(** [base64.StdEncoding.DecodeString]: line breaks are skipped. *)
Definition b64_decode (s : string) : option bytes :=
  b64_quanta (List.filter (fun c => negb (is_newline c)) (list_ascii_of_string s)).

Definition sextets (a b c : ascii) : sextet * sextet * sextet * sextet :=
  let 'Ascii a0 a1 a2 a3 a4 a5 a6 a7 := a in
  let 'Ascii b0 b1 b2 b3 b4 b5 b6 b7 := b in
  let 'Ascii c0 c1 c2 c3 c4 c5 c6 c7 := c in
  (Sx a7 a6 a5 a4 a3 a2, Sx a1 a0 b7 b6 b5 b4, Sx b3 b2 b1 b0 c7 c6, Sx c5 c4 c3 c2 c1 c0).

Fixpoint b64_encode_bytes (l : bytes) : bytes :=
  match l with
  | [] => []
  | [a] => let '(x, y, _, _) := sextets a "000"%char "000"%char in [b64_char x; b64_char y; "="%char; "="%char]
  | [a; b] =>
      let '(x, y, z, _) := sextets a b "000"%char in [b64_char x; b64_char y; b64_char z; "="%char]
  | a :: b :: c :: r =>
      let '(x, y, z, w) := sextets a b c in
      b64_char x :: b64_char y :: b64_char z :: b64_char w :: b64_encode_bytes r
  end.

Definition b64_encode (l : bytes) : string := string_of_list_ascii (b64_encode_bytes l).

(** ** The decoder *)

(** [AESUtil.AesDecodeWithKey].  Of the base64 error only the fact is kept. *)
Definition AesDecodeWithKey (encryptedData key : string) : res string :=
  let keyBytes := list_ascii_of_string key in
  if negb (length keyBytes =? 16)%nat
  then Err ("key must be exactly 16 bytes, got " +:+ Itoa (Z.of_nat (length keyBytes)))
  else
    match b64_decode encryptedData with
    | None => Err "failed to decode base64"
    | Some encryptedBytes =>
        if (length encryptedBytes <? 16)%nat || negb (length encryptedBytes mod 16 =? 0)%nat
        then Err ("invalid encrypted data length: " +:+ Itoa (Z.of_nat (length encryptedBytes)))
        else
          match to_blocks keyBytes with
          | [k] =>
              Ok (string_of_list_ascii
                    (removePKCS7Padding (from_blocks (cbc_decrypt k k (to_blocks encryptedBytes)))))
          | _ => Err "failed to create AES cipher"
          end
    end.

(** [AESUtil.AesDecode]; [secretKey] is the key of the instance. *)
Definition AesDecode (secretKey encryptedData : string) : res string :=
  if String.eqb secretKey "" then Err "AES secret key not set"
  else AesDecodeWithKey encryptedData secretKey.

(** [AESUtil.IsCiphertext]. *)
Definition IsCiphertext (secretKey text : string) : bool :=
  match b64_decode text with
  | None => false
  | Some _ => match AesDecode secretKey text with Ok _ => true | Err _ => false end
  end.

#[local] Open Scope go_scope.

(** The instance of the package: its key, and whether [once] has run, which puts
    a new instance in its place. *)
Record AESUtil := mkAESUtil { au_once : bool; au_secretKey : string }.

Definition GetDefaultAESUtil : M AESUtil unit :=
  mmodify (fun a => if au_once a then a else mkAESUtil true "").

Definition SetSecretKey (secretKey : string) : M AESUtil unit :=
  mmodify (fun a => mkAESUtil (au_once a) secretKey).
Definition GetSecretKey : M AESUtil string := a <-! mget ; mret (au_secretKey a).

Definition SetDefaultSecretKey (secretKey : string) : M AESUtil unit :=
  GetDefaultAESUtil ;! SetSecretKey secretKey.
Definition GetDefaultSecretKey : M AESUtil string := GetDefaultAESUtil ;! GetSecretKey.

(** [AesDecode] and [IsCiphertext] of the package. *)
Definition AesDecode_default (encryptedData : string) : M AESUtil (res string) :=
  key <-! GetDefaultSecretKey ; mret (AesDecode key encryptedData).
Definition IsCiphertext_default (text : string) : M AESUtil bool :=
  key <-! GetDefaultSecretKey ; mret (IsCiphertext key text).

Definition default_key : string := "tomSun28HaHaHaHa".

(** [Replacer.decryptPassword]: the configured key, the default key, and else
    the value as it is. *)
Definition decryptPassword (secretKey encryptedPassword : string) : string :=
  match AesDecode secretKey encryptedPassword with
  | Ok result => result
  | Err _ =>
      match AesDecodeWithKey encryptedPassword default_key with
      | Ok result => result
      | Err _ => encryptedPassword
      end
  end.

(** What the manager does to a password. *)
Definition aes_encode (plain key : string) : option string :=
  match to_blocks (list_ascii_of_string key) with
  | [k] => Some (b64_encode (from_blocks
                   (cbc_encrypt k k (to_blocks (pkcs7_pad (list_ascii_of_string plain))))))
  | _ => None
  end.

(** ** Inversion of the cipher *)

Lemma inv_sbox_sbox a : inv_sbox (sbox a) = a.
Proof. destruct a as [[] [] [] [] [] [] [] []]; vm_compute; reflexivity. Qed.

Lemma byte_xor_cancel a b : byte_xor (byte_xor a b) b = a.
Proof. destruct a, b. simpl. f_equal; btauto. Qed.

Lemma col_xor_cancel x y : col_xor (col_xor x y) y = x.
Proof. destruct x, y. simpl. by rewrite !byte_xor_cancel. Qed.

Lemma blk_xor_cancel s t : blk_xor (blk_xor s t) t = s.
Proof. destruct s, t. simpl. by rewrite !col_xor_cancel. Qed.

Lemma InvSubBytes_SubBytes s : InvSubBytes (SubBytes s) = s.
Proof. destruct s as [[] [] [] []]. simpl. by rewrite !inv_sbox_sbox. Qed.

Lemma InvShiftRows_ShiftRows s : InvShiftRows (ShiftRows s) = s.
Proof. by destruct s as [[] [] [] []]. Qed.

(** Multiplication by a constant is linear over exclusive or. *)
Class Linear (f : ascii -> ascii) :=
  linear : forall a b, f (byte_xor a b) = byte_xor (f a) (f b).

Lemma byte_xor_swap a b c d :
  byte_xor (byte_xor a b) (byte_xor c d) = byte_xor (byte_xor a c) (byte_xor b d).
Proof. destruct a, b, c, d. simpl. f_equal; btauto. Qed.

#[local] Instance linear_id : Linear (fun a => a).
Proof. done. Qed.
#[local] Instance linear_xtime : Linear xtime.
Proof. intros [] []. simpl. f_equal; btauto. Qed.
#[local] Instance linear_sum f g `{!Linear f, !Linear g} : Linear (fun a => byte_xor (f a) (g a)).
Proof. intros a b. by rewrite (linear (f := f)), (linear (f := g)), byte_xor_swap. Qed.
#[local] Instance linear_compose f g `{!Linear f, !Linear g} : Linear (fun a => f (g a)).
Proof. intros a b. by rewrite (linear (f := g)), (linear (f := f)). Qed.
#[local] Instance linear_mul4 : Linear mul4.
Proof. exact (linear_compose xtime xtime). Qed.
#[local] Instance linear_mul8 : Linear mul8.
Proof. exact (linear_compose xtime mul4). Qed.
#[local] Instance linear_mul3 : Linear mul3.
Proof. exact (linear_sum xtime (fun a => a)). Qed.
#[local] Instance linear_mul9 : Linear mul9.
Proof. exact (linear_sum mul8 (fun a => a)). Qed.
#[local] Instance linear_mul11 : Linear mul11.
Proof. exact (linear_sum mul8 mul3). Qed.
#[local] Instance linear_mul13 : Linear mul13.
Proof. exact (linear_sum mul8 (fun a => byte_xor (mul4 a) a)). Qed.
#[local] Instance linear_mul14 : Linear mul14.
Proof. exact (linear_sum mul8 (fun a => byte_xor (mul4 a) (xtime a))). Qed.

Lemma linear_xor4 f `{!Linear f} a b c d : f (xor4 a b c d) = xor4 (f a) (f b) (f c) (f d).
Proof. unfold xor4. by rewrite !(linear (f := f)). Qed.

Lemma xor4_transpose a1 b1 c1 d1 a2 b2 c2 d2 a3 b3 c3 d3 a4 b4 c4 d4 :
  xor4 (xor4 a1 b1 c1 d1) (xor4 a2 b2 c2 d2) (xor4 a3 b3 c3 d3) (xor4 a4 b4 c4 d4) =
  xor4 (xor4 a1 a2 a3 a4) (xor4 b1 b2 b3 b4) (xor4 c1 c2 c3 c4) (xor4 d1 d2 d3 d4).
Proof.
  unfold xor4.
  rewrite (byte_xor_swap (byte_xor a1 b1)), (byte_xor_swap (byte_xor a3 b3)).
  rewrite (byte_xor_swap (byte_xor (byte_xor a1 b1) (byte_xor a2 b2))).
  rewrite (byte_xor_swap a1 b1 a2 b2), (byte_xor_swap a3 b3 a4 b4),
    (byte_xor_swap c1 d1 c2 d2), (byte_xor_swap c3 d3 c4 d4).
  rewrite (byte_xor_swap (byte_xor a1 a2)), (byte_xor_swap (byte_xor c1 c2)). done.
Qed.

(** The product of the two coefficient matrices is the unit matrix; [a] stands
    for the byte of the one column in question. *)
Lemma mix_entries a :
  (xor4 (mul14 (mul2 a)) (mul11 a) (mul13 a) (mul9 (mul3 a)) = a /\
   xor4 (mul14 (mul3 a)) (mul11 (mul2 a)) (mul13 a) (mul9 a) = zero /\
   xor4 (mul14 a) (mul11 (mul3 a)) (mul13 (mul2 a)) (mul9 a) = zero /\
   xor4 (mul14 a) (mul11 a) (mul13 (mul3 a)) (mul9 (mul2 a)) = zero) /\
  (xor4 (mul9 (mul2 a)) (mul14 a) (mul11 a) (mul13 (mul3 a)) = zero /\
   xor4 (mul9 (mul3 a)) (mul14 (mul2 a)) (mul11 a) (mul13 a) = a /\
   xor4 (mul9 a) (mul14 (mul3 a)) (mul11 (mul2 a)) (mul13 a) = zero /\
   xor4 (mul9 a) (mul14 a) (mul11 (mul3 a)) (mul13 (mul2 a)) = zero) /\
  (xor4 (mul13 (mul2 a)) (mul9 a) (mul14 a) (mul11 (mul3 a)) = zero /\
   xor4 (mul13 (mul3 a)) (mul9 (mul2 a)) (mul14 a) (mul11 a) = zero /\
   xor4 (mul13 a) (mul9 (mul3 a)) (mul14 (mul2 a)) (mul11 a) = a /\
   xor4 (mul13 a) (mul9 a) (mul14 (mul3 a)) (mul11 (mul2 a)) = zero) /\
  (xor4 (mul11 (mul2 a)) (mul13 a) (mul9 a) (mul14 (mul3 a)) = zero /\
   xor4 (mul11 (mul3 a)) (mul13 (mul2 a)) (mul9 a) (mul14 a) = zero /\
   xor4 (mul11 a) (mul13 (mul3 a)) (mul9 (mul2 a)) (mul14 a) = zero /\
   xor4 (mul11 a) (mul13 a) (mul9 (mul3 a)) (mul14 (mul2 a)) = a).
Proof. destruct a as [[] [] [] [] [] [] [] []]; vm_compute; done. Qed.

Lemma xor4_zeros a :
  xor4 a zero zero zero = a /\ xor4 zero a zero zero = a /\
  xor4 zero zero a zero = a /\ xor4 zero zero zero a = a.
Proof. destruct a. unfold xor4, zero. simpl. split_and!; f_equal; btauto. Qed.

Lemma inv_mix_mix x : inv_mix_column (mix_column x) = x.
Proof.
  destruct x as [a b c d]. unfold inv_mix_column, mix_column.
  rewrite !(linear_xor4 mul9), !(linear_xor4 mul11), !(linear_xor4 mul13), !(linear_xor4 mul14).
  rewrite (xor4_transpose (mul14 (mul2 a))), (xor4_transpose (mul9 (mul2 a))),
    (xor4_transpose (mul13 (mul2 a))), (xor4_transpose (mul11 (mul2 a))).
  destruct (mix_entries a) as ((-> & _) & (-> & _) & (-> & _) & (-> & _)).
  destruct (mix_entries b) as ((_ & -> & _) & (_ & -> & _) & (_ & -> & _) & (_ & -> & _)).
  destruct (mix_entries c) as ((_ & _ & -> & _) & (_ & _ & -> & _) & (_ & _ & -> & _) & (_ & _ & -> & _)).
  destruct (mix_entries d) as ((_ & _ & _ & ->) & (_ & _ & _ & ->) & (_ & _ & _ & ->) & (_ & _ & _ & ->)).
  destruct (xor4_zeros a) as (-> & _), (xor4_zeros b) as (_ & -> & _),
    (xor4_zeros c) as (_ & _ & -> & _), (xor4_zeros d) as (_ & _ & _ & ->). done.
Qed.

Lemma InvMixColumns_MixColumns s : InvMixColumns (MixColumns s) = s.
Proof.
  destruct s. unfold InvMixColumns, MixColumns, blk_map. by rewrite !inv_mix_mix.
Qed.

Lemma inv_rounds_rounds ks : forall s, inv_aes_rounds ks (aes_rounds ks s) = s.
Proof.
  induction ks as [|k [|k' ks] IH]; intros s.
  - done.
  - simpl. by rewrite blk_xor_cancel, InvShiftRows_ShiftRows, InvSubBytes_SubBytes.
  - change (InvSubBytes (InvShiftRows (InvMixColumns (blk_xor (inv_aes_rounds (k' :: ks)
      (aes_rounds (k' :: ks) (blk_xor (MixColumns (ShiftRows (SubBytes s))) k))) k))) = s).
    by rewrite IH, blk_xor_cancel, InvMixColumns_MixColumns, InvShiftRows_ShiftRows,
      InvSubBytes_SubBytes.
Qed.

Lemma aes_decrypt_encrypt key s : aes_decrypt key (aes_encrypt key s) = s.
Proof. unfold aes_decrypt, aes_encrypt. by rewrite inv_rounds_rounds, blk_xor_cancel. Qed.

Lemma cbc_decrypt_encrypt key l : forall iv, cbc_decrypt key iv (cbc_encrypt key iv l) = l.
Proof.
  induction l as [|b l IH]; intros iv; [done|]. cbn [cbc_decrypt cbc_encrypt].
  by rewrite aes_decrypt_encrypt, blk_xor_cancel, IH.
Qed.

Lemma cbc_encrypt_length key l : forall iv, length (cbc_encrypt key iv l) = length l.
Proof.
  induction l as [|b l IH]; intros iv; [done|]. cbn [cbc_encrypt length]. by rewrite IH.
Qed.

(** ** Blocks and padding *)

Lemma to_blocks_from l : to_blocks (from_blocks l) = l.
Proof.
  induction l as [|[[] [] [] []] l IH]; [done|].
  unfold from_blocks in *. simpl. by rewrite IH.
Qed.

Lemma from_blocks_length l : length (from_blocks l) = (16 * length l)%nat.
Proof.
  induction l as [|[[] [] [] []] l IH]; [done|].
  unfold from_blocks in *. simpl. lia.
Qed.

(** A list of [16 * n] bytes is [n] blocks. *)
Lemma from_blocks_to n : forall l, length l = (16 * n)%nat -> from_blocks (to_blocks l) = l.
Proof.
  induction n as [|n IH]; intros l Hl.
  - by destruct l.
  - do 16 (destruct l as [|? l]; [simpl in Hl; lia|]).
    unfold from_blocks in *. simpl in *. rewrite IH by lia. done.
Qed.

Lemma rev_replicate {A} n (x : A) : rev (replicate n x) = replicate n x.
Proof.
  induction n as [|n IH]; [done|]. simpl. rewrite IH.
  by rewrite <- replicate_cons_app.
Qed.

Lemma pkcs7_length l : exists n, length (pkcs7_pad l) = (16 * S n)%nat.
Proof.
  exists (length l / 16)%nat. unfold pkcs7_pad. rewrite length_app, length_replicate.
  pose proof (Nat.div_mod_eq (length l) 16). pose proof (Nat.mod_upper_bound (length l) 16). lia.
Qed.

Lemma removePKCS7_pad l : removePKCS7Padding (pkcs7_pad l) = l.
Proof.
  unfold removePKCS7Padding, pkcs7_pad. set (n := (16 - length l mod 16)%nat).
  assert (1 <= n <= 16)%nat as Hn by (pose proof (Nat.mod_upper_bound (length l) 16); lia).
  rewrite rev_app_distr, rev_replicate, length_app, length_replicate.
  destruct (replicate n (ascii_of_nat n) ++ rev l) as [|last r] eqn:Hr.
  { destruct n; [lia|done]. }
  assert (last = ascii_of_nat n) as -> by (destruct n; [lia|]; by simplify_eq/=).
  rewrite nat_ascii_embedding by lia. rewrite <- Hr, take_app_length'
    by (by rewrite length_replicate).
  replace ((length l + n <? n)%nat) with false by (symmetry; apply Nat.ltb_ge; lia).
  replace ((n =? 0)%nat) with false by (symmetry; apply Nat.eqb_neq; lia). simpl.
  assert (forallb (Ascii.eqb (ascii_of_nat n)) (replicate n (ascii_of_nat n)) = true) as ->.
  { apply forallb_forall. intros x Hx%list_elem_of_In%elem_of_replicate. destruct Hx as [-> _].
    apply Ascii.eqb_refl. }
  replace (length l + n - n)%nat with (length l) by lia. apply take_app_length.
Qed.

(** ** Base64 *)

Lemma b64_value_char s : b64_value (b64_char s) = Some s.
Proof. destruct s as [[] [] [] [] [] []]; vm_compute; reflexivity. Qed.

Lemma b64_char_plain s :
  Ascii.eqb (b64_char s) "=" = false /\ is_newline (b64_char s) = false.
Proof. destruct s as [[] [] [] [] [] []]; vm_compute; done. Qed.

Lemma b64_quanta_encode n : forall l, (length l <= n)%nat -> b64_quanta (b64_encode_bytes l) = Some l.
Proof.
  induction n as [|n IH]; intros l Hl.
  { by destruct l; [|simpl in Hl; lia]. }
  destruct l as [|[] [|[] [|[] l]]]; [done| | |].
  - simpl. by rewrite !b64_value_char.
  - simpl. rewrite !b64_value_char, (proj1 (b64_char_plain _)). done.
  - simpl in Hl. simpl. rewrite !b64_value_char, !(proj1 (b64_char_plain _)), IH by lia. done.
Qed.

Lemma b64_encode_plain n : forall l, (length l <= n)%nat ->
  List.filter (fun c => negb (is_newline c)) (b64_encode_bytes l) = b64_encode_bytes l.
Proof.
  induction n as [|n IH]; intros l Hl.
  { by destruct l; [|simpl in Hl; lia]. }
  destruct l as [|[] [|[] [|[] l]]]; [done| | |]; simpl;
    rewrite !(proj2 (b64_char_plain _)); try done.
  simpl in *. by rewrite IH by lia.
Qed.

Lemma b64_decode_encode l : b64_decode (b64_encode l) = Some l.
Proof.
  unfold b64_decode, b64_encode.
  rewrite list_ascii_of_string_of_list_ascii, (b64_encode_plain (length l)) by done.
  by apply (b64_quanta_encode (length l)).
Qed.

(** ** Decoding *)

Lemma one_block (l : bytes) : length l = 16%nat -> exists k, to_blocks l = [k].
Proof.
  intros Hl. do 16 (destruct l as [|? l]; [simpl in Hl; lia|]).
  destruct l; [|simpl in Hl; lia]. by eexists.
Qed.

Lemma length_ascii_list s : length (list_ascii_of_string s) = String.length s.
Proof. induction s as [|c s IH]; simpl; [done|]. by rewrite IH. Qed.

(** Whether a decoding succeeds is settled before the cipher runs. *)
Definition decodable (encryptedData : string) : bool :=
  match b64_decode encryptedData with
  | None => false
  | Some b => negb ((length b <? 16)%nat || negb (length b mod 16 =? 0)%nat)
  end.

Lemma AesDecodeWithKey_decodable e key :
  String.length key = 16%nat ->
  match AesDecodeWithKey e key with Ok _ => decodable e = true | Err _ => decodable e = false end.
Proof.
  intros Hk. unfold AesDecodeWithKey, decodable. rewrite length_ascii_list, Hk. simpl.
  destruct (b64_decode e) as [b|]; [|done].
  destruct (_ || _); [done|].
  destruct (one_block (list_ascii_of_string key)) as [k ->]; [by rewrite length_ascii_list|done].
Qed.

(** A key that has been set is the one that the package decrypts with, also the
    first one; before, there is none and nothing can be decrypted. *)
Lemma default_instance key e a :
  (SetDefaultSecretKey key ;! AesDecode_default e) a = Ret (mkAESUtil true key) (AesDecode key e) /\
  (SetDefaultSecretKey key ;! IsCiphertext_default e) a = Ret (mkAESUtil true key) (IsCiphertext key e) /\
  (au_once a = false ->
   AesDecode_default e a = Ret (mkAESUtil true "") (Err "AES secret key not set")).
Proof. destruct a as [[] k]; split_and!; done. Qed.

(** C18 (roundtrip). Decoding what the manager encodes gives the password back,
    for every password and every key of sixteen bytes, and [decryptPassword]
    with that key does so too. *)
Theorem AesDecode_roundtrip plain key :
  String.length key = 16%nat ->
  exists e, aes_encode plain key = Some e /\
    AesDecodeWithKey e key = Ok plain /\ decryptPassword key e = plain.
Proof.
  intros Hk. unfold aes_encode.
  destruct (one_block (list_ascii_of_string key)) as [k Hkb]; [by rewrite length_ascii_list|].
  rewrite Hkb. eexists. split; [done|].
  set (cipher := cbc_encrypt k k (to_blocks (pkcs7_pad (list_ascii_of_string plain)))).
  destruct (pkcs7_length (list_ascii_of_string plain)) as [n Hn].
  assert (length cipher = S n) as Hc.
  { unfold cipher. rewrite cbc_encrypt_length.
    assert (length (from_blocks (to_blocks (pkcs7_pad (list_ascii_of_string plain)))) =
            (16 * S n)%nat) as Hf by (by rewrite (from_blocks_to (S n))).
    rewrite from_blocks_length in Hf. lia. }
  assert (AesDecodeWithKey (b64_encode (from_blocks cipher)) key = Ok plain) as Hd.
  { unfold AesDecodeWithKey. rewrite length_ascii_list, Hk, b64_decode_encode, from_blocks_length, Hc.
    rewrite (Nat.mul_comm 16), Nat.Div0.mod_mul.
    replace ((S n * 16 <? 16)%nat) with false by (symmetry; apply Nat.ltb_ge; lia).
    cbn [Nat.eqb negb orb]. rewrite Hkb, to_blocks_from. unfold cipher.
    rewrite cbc_decrypt_encrypt, (from_blocks_to (S n)), removePKCS7_pad by done.
    by rewrite string_of_list_ascii_of_string. }
  split; [done|]. unfold decryptPassword, AesDecode.
  destruct (String.eqb_spec key "") as [->|_]; [done|]. by rewrite Hd.
Qed.

Lemma AesDecode_roundtrip_witness :
  String.length "1234567890123456" = 16%nat /\
  exists e, aes_encode "hello world" "1234567890123456" = Some e /\
    AesDecodeWithKey e "1234567890123456" = Ok "hello world" /\
    decryptPassword "1234567890123456" e = "hello world".
Proof. split; [reflexivity|]. apply (AesDecode_roundtrip "hello world"). reflexivity. Defined.

(** With a secret key of sixteen bytes the default key is never
    used: invalid padding is not an error, so a decoding fails only on its
    base64 or its length, for one key as for the other.  A password encrypted
    under the default key comes out as garbage, and any base64 text of a
    multiple of sixteen bytes passes for a ciphertext. *)
Theorem default_key_unreachable secretKey e :
  String.length secretKey = 16%nat ->
  decryptPassword secretKey e =
    match AesDecodeWithKey e secretKey with Ok r => r | Err _ => e end /\
  IsCiphertext secretKey e = decodable e.
Proof.
  intros Hk. pose proof (AesDecodeWithKey_decodable e secretKey Hk) as H1.
  pose proof (AesDecodeWithKey_decodable e default_key eq_refl) as H2.
  assert (AesDecode secretKey e = AesDecodeWithKey e secretKey) as Ha.
  { unfold AesDecode. by destruct (String.eqb_spec secretKey "") as [->|_]. }
  unfold decryptPassword, IsCiphertext. rewrite Ha. split.
  - destruct (AesDecodeWithKey e secretKey); [done|].
    destruct (AesDecodeWithKey e default_key); congruence.
  - unfold decodable in *. destruct (b64_decode e); [|done].
    by destruct (AesDecodeWithKey e secretKey).
Qed.

Lemma default_key_unreachable_witness :
  String.length "1234567890123456" = 16%nat /\
  IsCiphertext "1234567890123456" "TfkdxQxVIy7dGlgXcWgzNA==" = true.
Proof.
  split; [reflexivity|].
  rewrite (proj2 (default_key_unreachable "1234567890123456" "TfkdxQxVIy7dGlgXcWgzNA==" eq_refl)).
  vm_compute. reflexivity.
Defined.
