(* ===== verification/Params.v ===== *)
(** * Parameter replacement

    Models internal/util/param/param_replacer.go.  A range over a Go map visits
    it in an arbitrary order, and each range may use another one: [order] is
    the order of the n-th range statement that the program runs.  The struct
    fields are written through the pointers of the job, so that what [Clone]
    shares with the original job is seen to change. *)

From Stdlib Require Import Ascii String.
From S2P Require Import Prelude GoStrings GoFloat JobTypes Crypto.

Open Scope string_scope.
Open Scope list_scope.
Open Scope Z_scope.
Open Scope go_scope.

Definition placeholder (name : string) : string := "^_^" +:+ name +:+ "^_^".

(** The loop of [replaceParamPlaceholders] over the parameters, in the order
    in which they are visited. *)
Fixpoint replace_params (params : list (string * string)) (result : string) : string :=
  match params with
  | [] => result
  | (name, value) :: rest =>
      if String.eqb name "" then replace_params rest result
      else replace_params rest (ReplaceAll result (placeholder name) value)
  end.

(** The text of one config entry in [createParamMapSimple]. *)
Definition config_string (c : Configmap) : string :=
  match cm_Value c with
  | ANil => ""
  | v =>
      if cm_Type c =? 0 then
        match v with
        | AFloat f => FormatFloat_f f
        | AInt z => Itoa z
        | _ => fmt_v v
        end
      else fmt_v v
  end.

Definition createParamMapSimple (configmap : list Configmap) : gmap string string :=
  foldl (fun paramMap c => <[cm_Key c := config_string c]> paramMap) ∅ configmap.

(** [PreprocessJobPasswords]: [decryptPassword] never fails, so every string
    of type 2 becomes one of type 1. *)
Definition preprocess_config (secretKey : string) (c : Configmap) : Configmap :=
  if cm_Type c =? 2 then
    match cm_Value c with
    | AString v => mkConfigmap (cm_Key c) (AString (decryptPassword secretKey v)) 1 (cm_Option c)
    | _ => c
    end
  else c.

Definition set_configmap (l : list Configmap) (j : Job) : Job :=
  mkJob (job_ID j) (job_TenantID j) (job_MonitorID j) (job_Metadata j) (job_Labels j)
    (job_Annotations j) (job_Hide j) (job_Category j) (job_App j) (job_Name j) (job_Help j)
    (job_HelpLink j) (job_Timestamp j) (job_DefaultInterval j) (job_Intervals j)
    (job_IsCyclic j) (job_Params j) (job_Metrics j) l (job_IsSd j) (job_Sd j)
    (job_PrometheusProxyMode j) (job_Cyclic j) (job_Interval j) (job_EnvConfigmaps j)
    (job_DispatchTime j) (job_PriorMetrics j) (job_ResponseDataTemp j).

Definition preprocess_job (secretKey : string) (j : Job) : Job :=
  set_configmap (preprocess_config secretKey <$> job_Configmap j) j.

Definition PreprocessJobPasswords (secretKey : string) (p : option loc) : M heap unit :=
  match p with
  | None => mret tt
  | Some p =>
      j <-! load as_job p ;
      store p (OJob (preprocess_job secretKey j))
  end.

Section Replacer.
Context (order : nat -> gmap string string -> list (string * string)).

(** A range statement over a map. *)
Definition range_map (m : gmap string string) : M heap (list (string * string)) :=
  fun h => Ret (mkHeap (cells h) (hnext h) (S (hranges h))) (order (hranges h) m).

(** [replaceParamPlaceholders]; [paramMap] is a pointer to a map. *)
Definition replaceParamPlaceholders (template : string) (paramMap : loc) : M heap string :=
  if String.eqb template "" then mret ""
  else if negb (Contains template "^_^") then mret template
  else
    m <-! load as_map paramMap ;
    params <-! range_map m ;
    mret (replace_params params template).

Abbreviation repl t pm := (replaceParamPlaceholders t pm) (only parsing).

Definition replace_tunnel (o : option loc) (pm : loc) : M heap unit :=
  match o with
  | None => mret tt
  | Some l =>
      t <-! load as_tunnel l ;
      host <-! repl (tun_Host t) pm ;
      port <-! repl (tun_Port t) pm ;
      username <-! repl (tun_Username t) pm ;
      password <-! repl (tun_Password t) pm ;
      store l (OTunnel (mkSSHTunnel (tun_Enable t) host port username password))
  end.

Definition replaceJDBCParams (l : loc) (pm : loc) : M heap unit :=
  p <-! load as_jdbc l ;
  host <-! repl (jdbc_Host p) pm ;
  port <-! repl (jdbc_Port p) pm ;
  platform <-! repl (jdbc_Platform p) pm ;
  username <-! repl (jdbc_Username p) pm ;
  password <-! repl (jdbc_Password p) pm ;
  database <-! repl (jdbc_Database p) pm ;
  timeout <-! repl (jdbc_Timeout p) pm ;
  queryType <-! repl (jdbc_QueryType p) pm ;
  sql <-! repl (jdbc_SQL p) pm ;
  url <-! repl (jdbc_URL p) pm ;
  reuse <-! repl (jdbc_ReuseConnection p) pm ;
  store l (OJDBC (mkJDBCProtocol host port platform username password database timeout
             queryType sql url reuse (jdbc_SSHTunnel p))) ;!
  replace_tunnel (jdbc_SSHTunnel p) pm.

Definition replaceSSHParams (l : loc) (pm : loc) : M heap unit :=
  p <-! load as_ssh l ;
  host <-! repl (ssh_Host p) pm ;
  port <-! repl (ssh_Port p) pm ;
  username <-! repl (ssh_Username p) pm ;
  password <-! repl (ssh_Password p) pm ;
  privateKey <-! repl (ssh_PrivateKey p) pm ;
  passphrase <-! repl (ssh_PrivateKeyPassphrase p) pm ;
  script <-! repl (ssh_Script p) pm ;
  parseType <-! repl (ssh_ParseType p) pm ;
  parseScript <-! repl (ssh_ParseScript p) pm ;
  timeout <-! repl (ssh_Timeout p) pm ;
  reuse <-! repl (ssh_ReuseConnection p) pm ;
  useProxy <-! repl (ssh_UseProxy p) pm ;
  proxyHost <-! repl (ssh_ProxyHost p) pm ;
  proxyPort <-! repl (ssh_ProxyPort p) pm ;
  proxyUsername <-! repl (ssh_ProxyUsername p) pm ;
  proxyPassword <-! repl (ssh_ProxyPassword p) pm ;
  proxyPrivateKey <-! repl (ssh_ProxyPrivateKey p) pm ;
  store l (OSSH (mkSSHProtocol host port username password privateKey passphrase script
             parseType parseScript timeout reuse useProxy proxyHost proxyPort proxyUsername
             proxyPassword proxyPrivateKey)).

Definition replaceRedisParams (l : loc) (pm : loc) : M heap unit :=
  p <-! load as_redis l ;
  host <-! repl (redis_Host p) pm ;
  port <-! repl (redis_Port p) pm ;
  username <-! repl (redis_Username p) pm ;
  password <-! repl (redis_Password p) pm ;
  pattern <-! repl (redis_Pattern p) pm ;
  timeout <-! repl (redis_Timeout p) pm ;
  store l (ORedis (mkRedisProtocol host port username password pattern timeout
             (redis_SSHTunnel p))) ;!
  replace_tunnel (redis_SSHTunnel p) pm.

(** The loops over the headers and the parameters of an HTTP request: an entry
    whose key is empty or still holds a placeholder is dropped. *)
Fixpoint replace_entries (pm : loc) (l : list (string * string)) (acc : gmap string string)
    : M heap (gmap string string) :=
  match l with
  | [] => mret acc
  | (k, v) :: rest =>
      newKey <-! repl k pm ;
      if negb (String.eqb newKey "") && negb (Contains newKey "^_^") then
        v' <-! repl v pm ;
        replace_entries pm rest (<[newKey := v']> acc)
      else replace_entries pm rest acc
  end.

Definition replace_map (o : option loc) (pm : loc) : M heap (option loc) :=
  match o with
  | None => mret None
  | Some l =>
      m <-! load as_map l ;
      entries <-! range_map m ;
      m' <-! replace_entries pm entries ∅ ;
      l' <-! alloc (OMap m') ;
      mret (Some l')
  end.

Definition replace_auth (o : option loc) (pm : loc) : M heap unit :=
  match o with
  | None => mret tt
  | Some l =>
      a <-! load as_auth l ;
      ty <-! repl (auth_Type a) pm ;
      basicUser <-! repl (auth_BasicAuthUsername a) pm ;
      basicPass <-! repl (auth_BasicAuthPassword a) pm ;
      digestUser <-! repl (auth_DigestAuthUsername a) pm ;
      digestPass <-! repl (auth_DigestAuthPassword a) pm ;
      token <-! repl (auth_BearerTokenToken a) pm ;
      store l (OAuth (mkAuthorization ty basicUser basicPass digestUser digestPass token))
  end.

Definition replaceHTTPParams (l : loc) (pm : loc) : M heap unit :=
  p <-! load as_http l ;
  url <-! repl (http_URL p) pm ;
  method <-! repl (http_Method p) pm ;
  body <-! repl (http_Body p) pm ;
  parseScript <-! repl (http_ParseScript p) pm ;
  parseType <-! repl (http_ParseType p) pm ;
  keyword <-! repl (http_Keyword p) pm ;
  timeout <-! repl (http_Timeout p) pm ;
  ssl <-! repl (http_SSL p) pm ;
  headers <-! replace_map (http_Headers p) pm ;
  params <-! replace_map (http_Params p) pm ;
  store l (OHTTP (mkHTTPProtocol url method headers params body parseScript parseType keyword
             timeout ssl (http_Authorization p))) ;!
  replace_auth (http_Authorization p) pm.

(** The loop over the ConfigMap of a metric updates the map it visits; the map
    may be [pm] itself. *)
Fixpoint replace_configMap (cm : loc) (pm : loc) (l : list (string * string)) : M heap unit :=
  match l with
  | [] => mret tt
  | (k, v) :: rest =>
      v' <-! repl v pm ;
      m <-! load as_map cm ;
      store cm (OMap (<[k := v']> m)) ;!
      replace_configMap cm pm rest
  end.

Definition set_basic (host port timeout range : string) (m : Metrics) : Metrics :=
  mkMetrics (m_Name m) (m_I18n m) (m_Priority m) (m_CollectTime m) (m_Interval m) (m_Visible m)
    (m_Fields m) (m_AliasFields m) (m_Calculates m) (m_Filters m) (m_Units m) (m_Protocol m)
    host port timeout range (m_ConfigMap m) (m_HasSubTask m)
    (m_HTTP m) (m_SSH m) (m_JDBC m) (m_SNMP m) (m_JMX m) (m_Redis m) (m_MongoDB m) (m_Milvus m).

(** Access to a [*Metrics]. *)
Definition load_metric (p : mptr) : M heap Metrics :=
  ms <-! load as_metrics (fst p) ;
  match ms !! snd p with
  | Some m => mret m
  | None => mpanic "index out of range"
  end.

Definition store_metric (p : mptr) (m : Metrics) : M heap unit :=
  ms <-! load as_metrics (fst p) ;
  store (fst p) (OMetrics (<[snd p := m]> ms)).

Definition replaceBasicMetricsParams (p : mptr) (pm : loc) : M heap unit :=
  m <-! load_metric p ;
  host <-! repl (m_Host m) pm ;
  port <-! repl (m_Port m) pm ;
  timeout <-! repl (m_Timeout m) pm ;
  range <-! repl (m_Range m) pm ;
  store_metric p (set_basic host port timeout range m) ;!
  match m_ConfigMap m with
  | None => mret tt
  | Some cm =>
      cmap <-! load as_map cm ;
      entries <-! range_map cmap ;
      replace_configMap cm pm entries
  end.

Definition when_ptr (o : option loc) (f : loc -> M heap unit) : M heap unit :=
  match o with None => mret tt | Some l => f l end.

(** [ReplaceMetricsParams]: none of its parts returns an error. *)
Definition ReplaceMetricsParams (p : mptr) (pm : loc) : M heap unit :=
  m <-! load_metric p ;
  when_ptr (m_JDBC m) (fun l => replaceJDBCParams l pm) ;!
  when_ptr (m_SSH m) (fun l => replaceSSHParams l pm) ;!
  when_ptr (m_HTTP m) (fun l => replaceHTTPParams l pm) ;!
  when_ptr (m_Redis m) (fun l => replaceRedisParams l pm) ;!
  replaceBasicMetricsParams p pm.

Fixpoint replace_all_metrics (a : loc) (pm : loc) (idx : list nat) : M heap unit :=
  match idx with
  | [] => mret tt
  | i :: rest => ReplaceMetricsParams (a, i) pm ;! replace_all_metrics a pm rest
  end.

(** [ReplaceJobParams]. *)
Definition ReplaceJobParams (p : option loc) : M heap (res loc) :=
  match p with
  | None => mret (Err "job is nil")
  | Some p =>
      j <-! load as_job p ;
      pm <-! alloc (OMap (createParamMapSimple (job_Configmap j))) ;
      clonedJob <-! Clone (Some p) ;
      match clonedJob with
      | None => mret (Err "failed to clone job")
      | Some c =>
          cj <-! load as_job c ;
          match job_Metrics cj with
          | None => mret (Ok c)
          | Some a =>
              ms <-! load as_metrics a ;
              replace_all_metrics a pm (seq 0 (length ms)) ;!
              mret (Ok c)
          end
      end
  end.

End Replacer.

(** ** Numbers with a unit *)

Record DoubleAndUnit := mkDoubleAndUnit { du_Value : float64; du_Unit : string }.

Definition unitSymbols : list string :=
  ["%"; "Gi"; "Mi"; "Ki"; "G"; "g"; "M"; "m"; "K"; "k"; "B"; "b"].

Fixpoint extract_loop (str : string) (symbols : list string) : option DoubleAndUnit :=
  match symbols with
  | [] => None
  | unitSymbol :: rest =>
      match Index str unitSymbol with
      | Some O => Some (mkDoubleAndUnit (SpecFloat.S754_zero false) (TrimSpace str))
      | Some index =>
          match ParseFloat (TrimSpace (str_take index str)) with
          | Some value => Some (mkDoubleAndUnit value (TrimSpace (str_drop index str)))
          | None => extract_loop str rest
          end
      | None => extract_loop str rest
      end
  end.

(** [ExtractDoubleAndUnitFromStr]; [None] is the nil pointer. *)
Definition ExtractDoubleAndUnitFromStr (str : string) : option DoubleAndUnit :=
  if String.eqb str "" then None
  else
    let str := TrimSpace str in
    match ParseFloat str with
    | Some value => Some (mkDoubleAndUnit value "")
    | None => extract_loop str unitSymbols
    end.

(** ** Templates

    A template is a text with placeholders; [tm_rest] lists each placeholder
    with the literal that follows it. *)
Record template := mkTemplate {
  tm_head : string;
  tm_rest : list (string * string);
}.

Fixpoint render_rest (l : list (string * string)) : string :=
  match l with
  | [] => ""
  | (k, lit) :: r => placeholder k +:+ lit +:+ render_rest r
  end.

Definition render (t : template) : string := tm_head t +:+ render_rest (tm_rest t).

(** What a template means in an environment: a placeholder whose parameter is
    not defined stays. *)
Fixpoint eval_rest (env : gmap string string) (l : list (string * string)) : string :=
  match l with
  | [] => ""
  | (k, lit) :: r => default (placeholder k) (env !! k) +:+ lit +:+ eval_rest env r
  end.

Definition eval (env : gmap string string) (t : template) : string :=
  tm_head t +:+ eval_rest env (tm_rest t).

Definition no_caret (s : string) : Prop := str_all (fun c => negb (Ascii.eqb c "^")) s = true.

Section Templates.
(** The separators: characters that occur in no parameter name. *)
Context (sep : ascii -> bool).

Definition has_sep (s : string) : Prop := str_all (fun c => negb (sep c)) s = false.

Definition name_ok (name : string) : Prop :=
  no_caret name /\ name <> "_" /\ str_all (fun c => negb (sep c)) name = true.

Definition env_ok (env : gmap string string) : Prop :=
  map_Forall (fun name value => name_ok name /\ no_caret value) env.

(** A literal between two placeholders holds a separator. *)
Fixpoint rest_ok (l : list (string * string)) : Prop :=
  match l with
  | [] => True
  | (k, lit) :: r =>
      k <> "" /\ no_caret k /\ no_caret lit /\ (r <> [] -> has_sep lit) /\ rest_ok r
  end.

Definition template_ok (t : template) : Prop := no_caret (tm_head t) /\ rest_ok (tm_rest t).

(** *** Strings *)

#[local] Arguments String.append : simpl nomatch.

Lemma no_caret_app a b : no_caret a -> no_caret b -> no_caret (a +:+ b).
Proof. unfold no_caret. rewrite str_all_app. by intros -> ->. Qed.

Lemma has_sep_app a b : has_sep a -> has_sep (a +:+ b).
Proof. unfold has_sep. rewrite str_all_app. by intros ->. Qed.

(** Texts are cut at their first caret in one way only. *)
Lemma caret_split a b x y :
  no_caret a -> no_caret b -> a +:+ String "^" x = b +:+ String "^" y -> a = b /\ x = y.
Proof.
  unfold no_caret. revert b. induction a as [|c a IH]; intros [|d b] Ha Hb Heq; simplify_eq/=.
  - done.
  - destruct (IH b) as [-> ->]; try done.
    + by apply andb_true_iff in Ha as [_ ?].
    + by apply andb_true_iff in Hb as [_ ?].
Qed.

Lemma no_caret_end a b y : no_caret a -> a = b +:+ String "^" y -> False.
Proof. unfold no_caret. intros Ha ->. rewrite str_all_app in Ha. simpl in Ha. by destruct (str_all _ b). Qed.

(** *** One replacement *)

Lemma replace_skip old new p s :
  replace_loop old new (String.length p) (p +:+ s) = replace_loop old new O s.
Proof. induction p as [|c p IH]; simpl; [by destruct s|done]. Qed.

Lemma replace_hit name new s :
  replace_loop (placeholder name) new O (placeholder name +:+ s) =
  new +:+ replace_loop (placeholder name) new O s.
Proof.
  set (old := placeholder name).
  assert (exists c p, old = String c p) as (c & p & Hold) by (by do 2 eexists).
  assert (String.prefix old (old +:+ s) = true) as Hp by (apply prefix_iff; by eexists).
  rewrite Hold in Hp |- *. simpl in Hp |- *. rewrite Hp. f_equal. apply replace_skip.
Qed.

Lemma replace_miss name new c s :
  ~ (exists r, String c s = placeholder name +:+ r) ->
  replace_loop (placeholder name) new O (String c s) =
  String c (replace_loop (placeholder name) new O s).
Proof.
  intros Hn. cbn [replace_loop].
  destruct (String.prefix (placeholder name) (String c s)) eqn:Hp; [|done].
  by apply prefix_iff in Hp.
Qed.

Lemma replace_literal name new lit s :
  no_caret lit ->
  replace_loop (placeholder name) new O (lit +:+ s) =
  lit +:+ replace_loop (placeholder name) new O s.
Proof.
  unfold no_caret. induction lit as [|c lit IH]; intros Hl; [done|].
  apply andb_true_iff in Hl as [Hc Hl].
  change (String c lit +:+ s) with (String c (lit +:+ s)).
  rewrite replace_miss; [by rewrite IH|]. intros [r Hr]. unfold placeholder in Hr.
  injection Hr as -> _. done.
Qed.

(** The text after a literal is empty or starts with a placeholder. *)
Lemma render_rest_cases r :
  (r = [] /\ render_rest r = "") \/
  (r <> [] /\ exists x, render_rest r = String "^" (String "_" (String "^" x))).
Proof. destruct r as [|[k l] r]; [by left|]. right. split; [done|]. by eexists. Qed.

Lemma literal_not_name name lit r x :
  name_ok name -> no_caret lit -> (r <> [] -> has_sep lit) ->
  lit +:+ render_rest r = name +:+ String "^" x -> False.
Proof.
  intros (Hn & _ & Hsep) Hl Hr Heq.
  destruct (render_rest_cases r) as [[-> Hrr]|[Hne [y Hrr]]]; rewrite Hrr in Heq.
  - apply (no_caret_end (lit +:+ "") name x); [|done]. by apply no_caret_app.
  - apply caret_split in Heq as [-> _]; [|done|done]. specialize (Hr Hne).
    unfold has_sep in Hr. congruence.
Qed.

Lemma no_caret_underscore : no_caret "_".
Proof. reflexivity. Qed.

Lemma replace_other name new k lit r :
  name_ok name -> no_caret k -> no_caret lit -> (r <> [] -> has_sep lit) -> k <> name ->
  replace_loop (placeholder name) new O (placeholder k +:+ lit +:+ render_rest r) =
  placeholder k +:+ lit +:+ replace_loop (placeholder name) new O (render_rest r).
Proof.
  intros Hok Hk Hl Hr Hne. pose proof Hok as (Hn & Hu & Hs). unfold placeholder at 2 3.
  rewrite !str_app_assoc.
  set (tail := lit +:+ render_rest r).
  change ("^_^" +:+ k +:+ "^_^" +:+ tail)
    with (String "^" ("_" +:+ String "^" (k +:+ String "^" ("_" +:+ String "^" tail)))).
  rewrite replace_miss.
  2:{ intros [x Hx]. injection Hx as Hx. rewrite str_app_assoc in Hx.
      by apply caret_split in Hx as [-> _]. }
  rewrite replace_literal by apply no_caret_underscore.
  rewrite replace_miss.
  2:{ intros [x Hx]. injection Hx as Hx.
      change (k +:+ String "^" ("_" +:+ String "^" tail) =
              "_" +:+ String "^" ((name +:+ "^_^") +:+ x)) in Hx.
      apply caret_split in Hx as [-> Hx]; [|done|done]. rewrite str_app_assoc in Hx.
      apply caret_split in Hx as [Heq _]; done. }
  rewrite replace_literal by done.
  rewrite replace_miss.
  2:{ intros [x Hx]. injection Hx as Hx. unfold tail in Hx. rewrite str_app_assoc in Hx.
      by eapply literal_not_name in Hx. }
  rewrite replace_literal by apply no_caret_underscore.
  rewrite replace_miss.
  2:{ intros [x Hx]. injection Hx as Hx. unfold tail in Hx.
      change (lit +:+ render_rest r = "_" +:+ String "^" ((name +:+ "^_^") +:+ x)) in Hx.
      destruct (render_rest_cases r) as [[-> Hrr]|[_ [y Hrr]]]; rewrite Hrr in Hx.
      - apply (no_caret_end (lit +:+ "") "_" ((name +:+ "^_^") +:+ x)); [|done].
        by apply no_caret_app.
      - apply caret_split in Hx as [-> Hx]; [|done|done]. rewrite str_app_assoc in Hx.
        change ("_" +:+ String "^" y = name +:+ String "^" ("_^" +:+ x)) in Hx.
        apply caret_split in Hx as [Heq _]; done. }
  unfold tail. rewrite replace_literal by done. reflexivity.
Qed.

(** ** The substitution of one parameter

    The literal before a replaced placeholder absorbs its value and the
    literal behind it. *)
Fixpoint subst_rest (name value : string) (l : list (string * string))
    : string * list (string * string) :=
  match l with
  | [] => ("", [])
  | (k, lit) :: r =>
      let '(pre, r') := subst_rest name value r in
      if String.eqb k name then (value +:+ lit +:+ pre, r') else ("", (k, lit +:+ pre) :: r')
  end.

Definition subst1 (name value : string) (t : template) : template :=
  let '(pre, r) := subst_rest name value (tm_rest t) in mkTemplate (tm_head t +:+ pre) r.

Lemma replace_rest name value l :
  name_ok name -> rest_ok l ->
  replace_loop (placeholder name) value O (render_rest l) =
  (subst_rest name value l).1 +:+ render_rest (subst_rest name value l).2.
Proof.
  intros Hok. induction l as [|[k lit] r IH]; intros Hl; [done|].
  destruct Hl as (Hke & Hk & Hlit & Hsep & Hr). specialize (IH Hr).
  cbn [render_rest subst_rest].
  destruct (subst_rest name value r) as [pre r'] eqn:Hs. cbn [fst snd] in IH.
  destruct (String.eqb_spec k name) as [->|Hne]; cbn [fst snd render_rest].
  - rewrite replace_hit, replace_literal, IH by done. by rewrite !str_app_assoc.
  - rewrite replace_other, IH by done. by rewrite !str_app_assoc.
Qed.

Lemma replace_template name value t :
  name_ok name -> template_ok t ->
  ReplaceAll (render t) (placeholder name) value = render (subst1 name value t).
Proof.
  intros Hok [Hh Hr]. unfold ReplaceAll, render, subst1.
  rewrite replace_literal, replace_rest by done.
  destruct (subst_rest name value (tm_rest t)) as [pre r]. simpl. by rewrite str_app_assoc.
Qed.

Lemma subst_rest_ok name value l :
  no_caret value -> rest_ok l ->
  no_caret (subst_rest name value l).1 /\ rest_ok (subst_rest name value l).2 /\
  (l = [] -> (subst_rest name value l).2 = []).
Proof.
  intros Hv. induction l as [|[k lit] r IH]; intros Hl; [done|].
  destruct Hl as (Hke & Hk & Hlit & Hsep & Hr). destruct (IH Hr) as (IH1 & IH2 & IH3).
  simpl. destruct (subst_rest name value r) as [pre r']. simpl in *.
  destruct (String.eqb k name); simpl; split_and!; try done; auto using no_caret_app.
  intros Hr'. apply has_sep_app, Hsep. intros ->. by apply Hr', IH3.
Qed.

Lemma subst1_ok name value t : no_caret value -> template_ok t -> template_ok (subst1 name value t).
Proof.
  intros Hv [Hh Hr]. unfold subst1. destruct (subst_rest_ok name value _ Hv Hr) as (H1 & H2 & _).
  destruct (subst_rest name value (tm_rest t)) as [pre r]. split; simpl in *; auto using no_caret_app.
Qed.

Lemma eval_subst1 env name value t :
  env !! name = Some value -> eval env (subst1 name value t) = eval env t.
Proof.
  intros He. unfold eval, subst1.
  assert (forall l, (subst_rest name value l).1 +:+ eval_rest env (subst_rest name value l).2 =
                    eval_rest env l) as Hl.
  { induction l as [|[k lit] r IH]; [done|]. simpl.
    destruct (subst_rest name value r) as [pre r']. simpl in IH.
    destruct (String.eqb_spec k name) as [->|Hne]; simpl.
    - rewrite He. simpl. by rewrite <- IH, !str_app_assoc.
    - by rewrite <- IH, !str_app_assoc. }
  specialize (Hl (tm_rest t)). destruct (subst_rest name value (tm_rest t)) as [pre r].
  simpl in *. by rewrite str_app_assoc, Hl.
Qed.

Lemma subst1_keys name value t k :
  k ∈ (tm_rest (subst1 name value t)).*1 -> k ∈ (tm_rest t).*1 /\ k <> name.
Proof.
  unfold subst1.
  assert (forall l, k ∈ (subst_rest name value l).2.*1 -> k ∈ l.*1 /\ k <> name) as Hl.
  { induction l as [|[k' lit] r IH]; simpl; [intros Hin; by apply elem_of_nil in Hin|].
    destruct (subst_rest name value r) as [pre r']. simpl in IH.
    destruct (String.eqb_spec k' name) as [->|Hne]; simpl; rewrite ?elem_of_cons; [tauto|].
    intros [->|Hin]; [auto|tauto]. }
  specialize (Hl (tm_rest t)). by destruct (subst_rest name value (tm_rest t)).
Qed.

Lemma eval_closed env t :
  (forall k, k ∈ (tm_rest t).*1 -> env !! k = None) -> eval env t = render t.
Proof.
  unfold eval, render. intros Hk. f_equal.
  induction (tm_rest t) as [|[k lit] r IH]; [done|]. simpl.
  rewrite (Hk k) by (simpl; by left). simpl. rewrite IH; [done|].
  intros k' Hk'. apply Hk. simpl. by right.
Qed.

Lemma rest_ok_nonempty l k : rest_ok l -> k ∈ l.*1 -> k <> "".
Proof.
  induction l as [|[k' lit] r IH]; simpl; [intros _ Hin; by apply elem_of_nil in Hin|].
  intros (Hk & _ & _ & _ & Hr) [->|Hin]%elem_of_cons; auto.
Qed.

(** All parameters, in any order. *)
Lemma replace_params_eval env params : forall t,
  env_ok env -> template_ok t ->
  (forall name value, (name, value) ∈ params -> env !! name = Some value) ->
  (forall k v, k ∈ (tm_rest t).*1 -> env !! k = Some v -> (k, v) ∈ params) ->
  replace_params params (render t) = eval env t.
Proof.
  induction params as [|[name value] params IH]; intros t Henv Ht Hsub Hall; simpl.
  - symmetry. apply eval_closed. intros k Hk. destruct (env !! k) eqn:He; [|done].
    specialize (Hall _ _ Hk He). by apply elem_of_nil in Hall.
  - assert (env !! name = Some value) as Hnv by (apply Hsub; by left).
    assert (forall n v, (n, v) ∈ params -> env !! n = Some v) by (intros; apply Hsub; by right).
    destruct (Henv _ _ Hnv) as [Hn Hv].
    destruct (String.eqb_spec name "") as [->|Hne].
    + apply IH; try done. intros k v Hk Hkv. specialize (Hall k v Hk Hkv).
      apply elem_of_cons in Hall as [[= -> ->]|]; [|done].
      by destruct (rest_ok_nonempty _ _ (proj2 Ht) Hk).
    + rewrite replace_template by done. rewrite IH, eval_subst1; try done.
      * by apply subst1_ok.
      * intros k v [Hk Hkn]%subst1_keys Hkv. specialize (Hall k v Hk Hkv).
        apply elem_of_cons in Hall as [[= -> ->]|]; [done|done].
Qed.

End Templates.

Lemma Contains_app a b sub : Contains (a +:+ sub +:+ b) sub = true.
Proof.
  unfold Contains. induction a as [|c a IH].
  - change ("" +:+ sub +:+ b) with (sub +:+ b).
    assert (String.prefix sub (sub +:+ b) = true) as Hp by (apply prefix_iff; by eexists).
    destruct (sub +:+ b); cbn [Index]; by rewrite Hp.
  - change (String c a +:+ sub +:+ b) with (String c (a +:+ sub +:+ b)). cbn [Index].
    destruct (String.prefix _ _); [done|]. by destruct (Index (a +:+ sub +:+ b) sub).
Qed.

Section Replacement.
Context (order : nat -> gmap string string -> list (string * string)).
Hypothesis order_perm : forall n m, order n m ≡ₚ map_to_list m.

(** C16 (functional). When no parameter name or value and no literal holds a
    caret, and every literal between two placeholders holds a character that
    occurs in no parameter name, [replaceParamPlaceholders] replaces exactly
    the placeholders of the defined parameters by their values, whatever the
    order in which Go visits the parameter map; it writes nothing. *)
Theorem replaceParamPlaceholders_correct sep t pm env h :
  cells h !! pm = Some (OMap env) ->
  env_ok sep env -> template_ok sep t ->
  exists n, replaceParamPlaceholders order (render t) pm h =
    Ret (mkHeap (cells h) (hnext h) n) (eval env t).
Proof.
  intros Hpm Henv Ht. unfold replaceParamPlaceholders, mret.
  destruct (String.eqb_spec (render t) "") as [Hempty|_].
  { exists (hranges h). destruct h. f_equal. rewrite <- Hempty. symmetry. apply eval_closed.
    intros k Hk. unfold render in Hempty.
    destruct (tm_rest t) as [|[k' l] r]; [by apply elem_of_nil in Hk|].
    by destruct (tm_head t). }
  destruct (Contains (render t) "^_^") eqn:Hc; simpl.
  - unfold mbind', load, range_map. rewrite Hpm. simpl. eexists. f_equal.
    apply (replace_params_eval sep); [done|done| |].
    + intros name value Hin. rewrite order_perm in Hin. by apply elem_of_map_to_list.
    + intros k v _ Hv. rewrite order_perm. by apply elem_of_map_to_list.
  - exists (hranges h). destruct h. f_equal. symmetry. apply eval_closed. intros k Hk.
    unfold render in Hc.
    destruct (tm_rest t) as [|[k' l] r]; [by apply elem_of_nil in Hk|].
    simpl in Hc. unfold placeholder in Hc. rewrite !str_app_assoc in Hc.
    rewrite Contains_app in Hc. done.
Qed.
End Replacement.

Definition ex_sep (c : ascii) : bool := Ascii.eqb c ":" || Ascii.eqb c "/".
Definition ex_env : gmap string string := {["host" := "db"; "port" := "3306"]}.
Definition ex_params_heap : heap := mkHeap {[0%nat := OMap ex_env]} 1 0.

Lemma replaceParamPlaceholders_correct_witness :
  exists n, replaceParamPlaceholders (fun _ m => map_to_list m)
              "jdbc:mysql://^_^host^_^:^_^port^_^/app" 0 ex_params_heap =
            Ret (mkHeap (cells ex_params_heap) 1 n) "jdbc:mysql://db:3306/app".
Proof.
  apply (replaceParamPlaceholders_correct (fun _ m => map_to_list m) (fun _ _ => reflexivity _)
    ex_sep (mkTemplate "jdbc:mysql://" [("host", ":"); ("port", "/app")]) 0 ex_env ex_params_heap
    eq_refl).
  - apply map_Forall_insert; [reflexivity|]. split; [done|].
    apply map_Forall_insert; [reflexivity|]. split; [done|]. apply map_Forall_empty.
  - split; [reflexivity|]. simpl. repeat split; done.
Defined.

(** Outside these conditions the result is not determined: when
    the literal between two placeholders is itself a parameter name, two runs
    that visit the same parameter map in different orders give different
    texts. *)
Theorem replace_params_order_dependent :
  exists (env : gmap string string) (template : string) l1 l2,
    l1 ≡ₚ map_to_list env /\ l2 ≡ₚ map_to_list env /\
    replace_params l1 template = "1b3" /\ replace_params l2 template = "^_^a2c^_^".
Proof.
  exists {["a" := "1"; "b" := "2"; "c" := "3"]}, "^_^a^_^b^_^c^_^",
    [("a", "1"); ("b", "2"); ("c", "3")], [("b", "2"); ("a", "1"); ("c", "3")].
  assert ([("a", "1"); ("b", "2"); ("c", "3")] ≡ₚ
          map_to_list ({["a" := "1"; "b" := "2"; "c" := "3"]} : gmap string string)) as Hp.
  { rewrite !map_to_list_insert, map_to_list_singleton by reflexivity. done. }
  split_and!; [done| |vm_compute; reflexivity|vm_compute; reflexivity].
  rewrite <- Hp. apply perm_swap.
Qed.

(** ** The footprint of ReplaceJobParams *)

(** What stays of an object: its type, the names and protocols of the metrics
    of an array and which configurations they have, the identity of a job and
    its array. *)
Definition metric_key (m : Metrics) : string * string := (m_Name m, m_Protocol m).

Record configs := mkConfigs {
  has_HTTP : bool;
  has_SSH : bool;
  has_JDBC : bool;
  has_Redis : bool;
  has_Milvus : bool;
}.

Definition configs_of (m : Metrics) : configs :=
  mkConfigs (bool_decide (is_Some (m_HTTP m))) (bool_decide (is_Some (m_SSH m)))
    (bool_decide (is_Some (m_JDBC m))) (bool_decide (is_Some (m_Redis m)))
    (bool_decide (is_Some (m_Milvus m))).

Definition metric_shape (m : Metrics) : (string * string) * configs := (metric_key m, configs_of m).

Definition job_key (j : Job) : Z * Z * string * bool * option loc :=
  (job_MonitorID j, job_TenantID j, job_App j, job_IsCyclic j, job_Metrics j).

Inductive tag :=
| TMap | TAuth | THTTP | TSSH | TTunnel | TJDBC | TRedis | TMilvus | TOther
| TMetrics (shapes : list ((string * string) * configs))
| TJob (key : Z * Z * string * bool * option loc).

Definition tag_of (o : obj) : tag :=
  match o with
  | OMap _ => TMap | OAuth _ => TAuth | OHTTP _ => THTTP | OSSH _ => TSSH | OTunnel _ => TTunnel
  | OJDBC _ => TJDBC | ORedis _ => TRedis | OMetrics ms => TMetrics (metric_shape <$> ms)
  | OJob j => TJob (job_key j)
  | OMilvus _ => TMilvus
  | OSNMP _ | OJMX _ | OMongoDB _ => TOther
  end.

Definition has_tag (h : heap) (l : loc) (t : tag) : Prop :=
  exists o, cells h !! l = Some o /\ tag_of o = t.
Definition opt_tag (h : heap) (o : option loc) (t : tag) : Prop :=
  match o with None => True | Some l => has_tag h l t end.

Lemma has_tag_fun h l t t' : has_tag h l t -> has_tag h l t' -> t = t'.
Proof. intros (o & Ho & <-) (o' & Ho' & <-). congruence. Qed.

(** The pointers of an object point to objects of their types. *)
Definition metric_ok (h : heap) (m : Metrics) : Prop :=
  opt_tag h (m_ConfigMap m) TMap /\ opt_tag h (m_HTTP m) THTTP /\ opt_tag h (m_SSH m) TSSH /\
  opt_tag h (m_JDBC m) TJDBC /\ opt_tag h (m_Redis m) TRedis /\ opt_tag h (m_Milvus m) TMilvus.

Definition obj_ok (h : heap) (o : obj) : Prop :=
  match o with
  | OHTTP p => opt_tag h (http_Headers p) TMap /\ opt_tag h (http_Params p) TMap /\
               opt_tag h (http_Authorization p) TAuth
  | OJDBC p => opt_tag h (jdbc_SSHTunnel p) TTunnel
  | ORedis p => opt_tag h (redis_SSHTunnel p) TTunnel
  | OMetrics ms => Forall (metric_ok h) ms
  | OJob j => opt_tag h (job_Metadata j) TMap /\ opt_tag h (job_Labels j) TMap /\
              opt_tag h (job_Annotations j) TMap /\
              match job_Metrics j with None => True | Some a => exists ks, has_tag h a (TMetrics ks) end
  | _ => True
  end.

Definition heap_ok (h : heap) : Prop :=
  (forall l, (hnext h <= l)%nat -> cells h !! l = None) /\
  map_Forall (fun _ o => obj_ok h o) (cells h).

Definition ext (h h' : heap) : Prop := forall l t, has_tag h l t -> has_tag h' l t.

#[global] Instance ext_preorder : PreOrder ext.
Proof. split; [by intros h l t|]. intros h1 h2 h3 H1 H2 l t Ht. by apply H2, H1. Qed.

Lemma opt_tag_ext h h' o t : ext h h' -> opt_tag h o t -> opt_tag h' o t.
Proof. destruct o; simpl; auto. Qed.

(** No object points to a job. *)
Lemma obj_ok_objects h h' o :
  (forall l t, (forall k, t <> TJob k) -> has_tag h l t -> has_tag h' l t) ->
  obj_ok h o -> obj_ok h' o.
Proof.
  intros H. assert (forall x t, (forall k, t <> TJob k) -> opt_tag h x t -> opt_tag h' x t) as Hopt
    by (intros [l|] t Ht; [by apply H|done]).
  destruct o; simpl; try done.
  - intros (? & ? & ?). split_and!; by apply Hopt.
  - by apply Hopt.
  - by apply Hopt.
  - intros Hms. eapply Forall_impl; [exact Hms|]. intros m (? & ? & ? & ? & ? & ?). split_and!; by apply Hopt.
  - intros (? & ? & ? & Ha). split_and!; [by apply Hopt..|].
    destruct (job_Metrics j); [|done]. destruct Ha as [ks Hks]. exists ks. by apply H.
Qed.

Lemma obj_ok_ext h h' o : ext h h' -> obj_ok h o -> obj_ok h' o.
Proof. intros He. apply obj_ok_objects. intros l t _. apply He. Qed.

(** A job may be overwritten by another one. *)
Lemma heap_ok_job h l j j' :
  heap_ok h -> cells h !! l = Some (OJob j) -> obj_ok h (OJob j') ->
  heap_ok (mkHeap (<[l := OJob j']> (cells h)) (hnext h) (hranges h)).
Proof.
  intros [Hf Hok] Hl Hj. split; cbn [cells hnext].
  - intros l' Hl'. rewrite lookup_insert_ne; [by apply Hf|]. intros ->. by rewrite Hf in Hl.
  - assert (forall l' t, (forall k, t <> TJob k) -> has_tag h l' t ->
      has_tag (mkHeap (<[l := OJob j']> (cells h)) (hnext h) (hranges h)) l' t) as Htag.
    { intros l' t Ht (o & Ho & <-). exists o. split; [|done]. cbn [cells].
      rewrite lookup_insert_ne; [done|]. intros <-. rewrite Hl in Ho. injection Ho as <-.
      by destruct (Ht (job_key j)). }
    apply map_Forall_insert_2; [by apply (obj_ok_objects h)|].
    intros l' o Ho. apply (obj_ok_objects h); [done|]. by apply (Hok l').
Qed.

#[export] Hint Resolve opt_tag_ext obj_ok_ext : collector.

(** The invariant of the whole operation: [n0] is the first location that is
    new, [shared] the old ones that may be written. *)
Section Footprint.
Context (order : nat -> gmap string string -> list (string * string)).
Context (n0 : loc) (shared : loc -> Prop) (cells0 : gmap loc obj).

Definition is_new (o : option loc) : Prop := match o with None => True | Some l => (n0 <= l)%nat end.
Definition is_shared (o : option loc) : Prop := match o with None => True | Some l => shared l end.

(** The clone's metrics own their ConfigMap and their HTTP struct. *)
Definition metric_new (m : Metrics) : Prop :=
  is_new (m_ConfigMap m) /\ is_new (m_HTTP m) /\
  is_shared (m_SSH m) /\ is_shared (m_JDBC m) /\ is_shared (m_Redis m).

Definition obj_new (o : obj) : Prop :=
  match o with
  | OHTTP p => is_new (http_Authorization p)
  | OMetrics ms => Forall metric_new ms
  | _ => True
  end.

Definition obj_shared (o : obj) : Prop :=
  match o with
  | OJDBC p => is_shared (jdbc_SSHTunnel p)
  | ORedis p => is_shared (redis_SSHTunnel p)
  | _ => True
  end.

Record inv (h : heap) : Prop := mkInv {
  inv_ok : heap_ok h;
  inv_next : (n0 <= hnext h)%nat;
  inv_frame : forall l, (l < n0)%nat -> ~ shared l -> cells h !! l = cells0 !! l;
  inv_new : forall l o, (n0 <= l)%nat -> cells h !! l = Some o -> obj_new o;
  inv_shared : forall l o, shared l -> cells h !! l = Some o -> obj_shared o;
}.

(** [m], run from [h], returns, keeps the invariant and the type of every
    object, and its result satisfies [Q]. *)
Definition returns {A} (h : heap) (m : M heap A) (Q : heap -> A -> Prop) : Prop :=
  exists h' a, m h = Ret h' a /\ inv h' /\ ext h h' /\ Q h' a.

Lemma returns_ret {A} h (a : A) (Q : heap -> A -> Prop) : inv h -> Q h a -> returns h (mret a) Q.
Proof. intros Hi HQ. exists h, a. done. Qed.

Lemma returns_bind {A B} h (m : M heap A) (k : A -> M heap B) Q R :
  returns h m Q ->
  (forall h' a, inv h' -> ext h h' -> Q h' a -> returns h' (k a) R) ->
  returns h (mbind' m k) R.
Proof.
  intros (h' & a & Hm & Hi & He & HQ) Hk.
  destruct (Hk h' a Hi He HQ) as (h'' & b & Hm' & Hi' & He' & HR).
  exists h'', b. unfold mbind'. rewrite Hm. split_and!; [done|done|by transitivity h'|done].
Qed.

Lemma returns_weaken {A} h (m : M heap A) (Q R : heap -> A -> Prop) :
  returns h m Q -> (forall h' a, Q h' a -> R h' a) -> returns h m R.
Proof. intros (h' & a & ? & ? & ? & ?) HQ. exists h', a. auto. Qed.

Lemma returns_load {A} h (f : obj -> option A) l o a :
  inv h -> cells h !! l = Some o -> f o = Some a -> returns h (load f l) (fun h' x => h' = h /\ x = a).
Proof.
  intros Hi Hl Hf. exists h, a. unfold load. rewrite Hl. simpl. by rewrite Hf.
Qed.

Lemma ext_store h l o n :
  has_tag h l (tag_of o) -> ext h (mkHeap (<[l := o]> (cells h)) n (hranges h)).
Proof.
  intros (o1 & Hl & Ht1) l' t (o' & Hl' & Ht). destruct (decide (l = l')) as [<-|Hne].
  - exists o. simpl. rewrite lookup_insert_eq. split; [done|]. congruence.
  - exists o'. simpl. by rewrite lookup_insert_ne.
Qed.

Lemma ext_alloc h o :
  cells h !! hnext h = None -> ext h (mkHeap (<[hnext h := o]> (cells h)) (S (hnext h)) (hranges h)).
Proof.
  intros Hn l' t (o' & Hl' & Ht). exists o'. simpl.
  rewrite lookup_insert_ne; [done|]. congruence.
Qed.

Lemma heap_ok_insert h l o n :
  ext h (mkHeap (<[l := o]> (cells h)) n (hranges h)) ->
  (hnext h <= n)%nat -> (l < n)%nat -> obj_ok h o -> heap_ok h ->
  heap_ok (mkHeap (<[l := o]> (cells h)) n (hranges h)).
Proof.
  intros He Hn Hl Ho [Hf Hok]. split; simpl.
  - intros l' Hl'. rewrite lookup_insert_ne by lia. apply Hf. lia.
  - intros l' o' Hl'. apply (obj_ok_ext h); [done|].
    destruct (decide (l = l')) as [<-|Hne].
    + rewrite lookup_insert_eq in Hl'. by simplify_eq.
    + rewrite lookup_insert_ne in Hl' by done. by apply (Hok l').
Qed.

Lemma returns_store h l o :
  inv h -> has_tag h l (tag_of o) -> obj_ok h o ->
  (n0 <= l)%nat \/ shared l ->
  ((n0 <= l)%nat -> obj_new o) -> (shared l -> obj_shared o) ->
  returns h (store l o) (fun _ _ => True).
Proof.
  intros [Hok Hnx Hfr Hnew Hsh] Ht Ho Hw H1 H2. pose proof (ext_store h l o (hnext h) Ht) as He.
  unfold store. destruct Ht as (o1 & Hl & Ht1).
  assert (l < hnext h)%nat as Hlt.
  { destruct (decide (l < hnext h)%nat); [done|].
    destruct Hok as [Hf _]. rewrite Hf in Hl by lia. done. }
  exists (mkHeap (<[l := o]> (cells h)) (hnext h) (hranges h)), tt. rewrite Hl.
  split_and!; [done| |done|done]. split; simpl; [by apply heap_ok_insert|done| | |].
  - intros l' Hl' Hns. rewrite lookup_insert_ne; [by apply Hfr|]. intros ->. destruct Hw; [lia|done].
  - intros l' o' Hn Hl'. destruct (decide (l = l')) as [<-|Hne].
    + rewrite lookup_insert_eq in Hl'. simplify_eq. auto.
    + rewrite lookup_insert_ne in Hl' by done. eauto.
  - intros l' o' Hn Hl'. destruct (decide (l = l')) as [<-|Hne].
    + rewrite lookup_insert_eq in Hl'. simplify_eq. auto.
    + rewrite lookup_insert_ne in Hl' by done. eauto.
Qed.

Lemma all_shared o : (forall l, shared l) -> obj_shared o.
Proof.
  intros H. destruct o; simpl; try done; unfold is_shared.
  - by destruct (jdbc_SSHTunnel p).
  - by destruct (redis_SSHTunnel p).
Qed.

Hypothesis shared_old : (forall l, shared l -> (l < n0)%nat) \/ (forall l, shared l).

Lemma returns_alloc_frame h o :
  inv h -> obj_ok h o -> obj_new o ->
  returns h (alloc o) (fun h' l => (cells h' !! l = Some o /\ (n0 <= l)%nat) /\
    forall l' o', cells h !! l' = Some o' -> cells h' !! l' = Some o').
Proof.
  intros [Hok Hnx Hfr Hnew Hsh] Ho H1. pose proof Hok as [Hf _].
  pose proof (ext_alloc h o (Hf _ (reflexivity _))) as He. unfold alloc.
  eexists _, _. split_and!; [done| |done|simpl; by rewrite lookup_insert_eq|done|].
  - split; simpl; [apply heap_ok_insert; [done|lia|lia|done|done]|lia| | |].
    + intros l Hl Hns. rewrite lookup_insert_ne by lia. auto.
    + intros l o' Hn Hl. destruct (decide (hnext h = l)) as [<-|Hne].
      * rewrite lookup_insert_eq in Hl. by simplify_eq.
      * rewrite lookup_insert_ne in Hl by done. eauto.
    + intros l o' Hs Hl. destruct shared_old as [Hold|Hall]; [|by apply all_shared].
      specialize (Hold l Hs). rewrite lookup_insert_ne in Hl by lia. eauto.
  - intros l' o' Hl'. simpl. rewrite lookup_insert_ne; [done|].
    intros <-. rewrite Hf in Hl'; [done|lia].
Qed.

Lemma returns_alloc h o :
  inv h -> obj_ok h o -> obj_new o ->
  returns h (alloc o) (fun h' l => cells h' !! l = Some o /\ (n0 <= l)%nat).
Proof.
  intros. eapply returns_weaken; [by apply returns_alloc_frame|]. by intros h' l [? _].
Qed.

Lemma inv_ranges h n : inv h -> inv (mkHeap (cells h) (hnext h) n).
Proof.
  intros [[Hf Hok] ? ? ? ?]. split; simpl; auto. split; [done|].
  intros l o Hl. apply (obj_ok_ext h); [by intros ? ?|]. by apply (Hok l).
Qed.

Lemma returns_range h m : inv h -> returns h (range_map order m) (fun _ _ => True).
Proof.
  intros Hi. exists (mkHeap (cells h) (hnext h) (S (hranges h))), (order (hranges h) m).
  split_and!; [done|by apply inv_ranges|by intros ? ?|done].
Qed.

(** The object behind a pointer of a known type. *)
Lemma inv_object h l o :
  inv h -> cells h !! l = Some o ->
  obj_ok h o /\ ((n0 <= l)%nat -> obj_new o) /\ (shared l -> obj_shared o).
Proof. intros [[_ Hok] ? ? ? ?] Hl. split; [by apply (Hok l)|]. eauto. Qed.

Ltac move_tags He :=
  let step h' :=
    repeat match goal with
    | H : has_tag ?h _ _ |- _ => lazymatch type of He with ext h _ => apply He in H end
    | H : opt_tag ?h _ _ |- _ =>
        lazymatch type of He with ext h _ => apply (opt_tag_ext _ _ _ _ He) in H end
    | H : Forall (metric_ok ?h) _ |- _ =>
        lazymatch type of He with ext h _ => apply (obj_ok_ext _ _ (OMetrics _) He) in H; simpl in H end
    end in
  lazymatch type of He with ext _ ?h' => step h' end.

Ltac load_tag H :=
  let o := fresh "o" in let Hl := fresh "Hl" in let Ht := fresh "Ht" in
  pose proof H as (o & Hl & Ht); destruct o; try discriminate Ht; clear Ht;
  eapply returns_bind; [by eapply returns_load|]; intros ? ? ? _ [-> ->].

Lemma returns_repl h t pm :
  inv h -> has_tag h pm TMap ->
  returns h (replaceParamPlaceholders order t pm) (fun _ _ => True).
Proof.
  intros Hi Hpm. unfold replaceParamPlaceholders.
  destruct (String.eqb t ""); [by apply returns_ret|].
  destruct (negb _); [by apply returns_ret|].
  load_tag Hpm.
  eapply returns_bind; [by apply returns_range|]. intros h' params Hi' He _. by apply returns_ret.
Qed.

Ltac repl_step :=
  eapply returns_bind; [by apply returns_repl|];
  let He := fresh "He" in intros ? ? ? He _; move_tags He; clear He; cbv beta.

Lemma returns_tunnel h o pm :
  inv h -> opt_tag h o TTunnel -> is_shared o -> has_tag h pm TMap ->
  returns h (replace_tunnel order o pm) (fun _ _ => True).
Proof.
  intros Hi Ho Hs Hpm. destruct o as [l|]; simpl in *; [|by apply returns_ret].
  load_tag Ho. repeat repl_step. apply returns_store; simpl; split_and?; auto.
Qed.

Lemma returns_JDBC h l pm :
  inv h -> has_tag h l TJDBC -> shared l -> has_tag h pm TMap ->
  returns h (replaceJDBCParams order l pm) (fun _ _ => True).
Proof.
  intros Hi Ho Hs Hpm. unfold replaceJDBCParams. load_tag Ho.
  destruct (inv_object _ _ _ Hi Hl) as (Hok & _ & Hsh). simpl in Hok, Hsh. clear Hl.
  repeat repl_step.
  eapply returns_bind; [apply returns_store; simpl; split_and?; auto|]. intros h2 [] Hi2 He2 _. move_tags He2.
  apply returns_tunnel; auto.
Qed.

Lemma returns_SSH h l pm :
  inv h -> has_tag h l TSSH -> shared l -> has_tag h pm TMap ->
  returns h (replaceSSHParams order l pm) (fun _ _ => True).
Proof.
  intros Hi Ho Hs Hpm. unfold replaceSSHParams. load_tag Ho. clear Hl.
  repeat repl_step. apply returns_store; simpl; split_and?; auto.
Qed.

Lemma returns_Redis h l pm :
  inv h -> has_tag h l TRedis -> shared l -> has_tag h pm TMap ->
  returns h (replaceRedisParams order l pm) (fun _ _ => True).
Proof.
  intros Hi Ho Hs Hpm. unfold replaceRedisParams. load_tag Ho.
  destruct (inv_object _ _ _ Hi Hl) as (Hok & _ & Hsh). simpl in Hok, Hsh. clear Hl.
  repeat repl_step.
  eapply returns_bind; [apply returns_store; simpl; split_and?; auto|]. intros h2 [] Hi2 He2 _. move_tags He2.
  apply returns_tunnel; auto.
Qed.

Lemma returns_entries pm l : forall h acc,
  inv h -> has_tag h pm TMap -> returns h (replace_entries order pm l acc) (fun _ _ => True).
Proof.
  induction l as [|[k v] l IH]; intros h acc Hi Hpm; simpl; [by apply returns_ret|].
  repl_step. destruct (_ && _); [|by apply IH]. repl_step. by apply IH.
Qed.

Lemma returns_map h o pm :
  inv h -> opt_tag h o TMap -> has_tag h pm TMap ->
  returns h (replace_map order o pm) (fun h' o' => opt_tag h' o' TMap).
Proof.
  intros Hi Ho Hpm. destruct o as [l|]; simpl in *; [|by apply returns_ret].
  load_tag Ho. eapply returns_bind; [by apply returns_range|].
  intros h1 es Hi1 He1 _. move_tags He1.
  eapply returns_bind; [by apply returns_entries|]. intros h2 m2 Hi2 He2 _. move_tags He2.
  eapply returns_bind; [by apply returns_alloc|]. intros h3 l3 Hi3 He3 [Hl3 _].
  apply returns_ret; [done|]. by exists (OMap m2).
Qed.

Lemma returns_auth h o pm :
  inv h -> opt_tag h o TAuth -> is_new o -> has_tag h pm TMap ->
  returns h (replace_auth order o pm) (fun _ _ => True).
Proof.
  intros Hi Ho Hs Hpm. destruct o as [l|]; simpl in *; [|by apply returns_ret].
  load_tag Ho. clear Hl. repeat repl_step. apply returns_store; simpl; split_and?; auto.
Qed.

Lemma returns_HTTP h l pm :
  inv h -> has_tag h l THTTP -> (n0 <= l)%nat -> has_tag h pm TMap ->
  returns h (replaceHTTPParams order l pm) (fun _ _ => True).
Proof.
  intros Hi Ho Hn Hpm. unfold replaceHTTPParams. load_tag Ho.
  destruct (inv_object _ _ _ Hi Hl) as ((Hh & Hp & Ha) & Hnew & _). simpl in Hnew. clear Hl.
  repeat repl_step.
  eapply returns_bind; [by apply returns_map|]. intros h1 headers Hi1 He1 Hheaders. simpl in Hheaders. move_tags He1.
  eapply returns_bind; [by apply returns_map|]. intros h2 params Hi2 He2 Hparams. simpl in Hparams. move_tags He2.
  eapply returns_bind; [apply returns_store; simpl; split_and?; auto|]. intros h3 [] Hi3 He3 _. move_tags He3.
  apply returns_auth; auto.
Qed.

Lemma returns_configMap cm pm l : forall h,
  inv h -> has_tag h cm TMap -> (n0 <= cm)%nat -> has_tag h pm TMap ->
  returns h (replace_configMap order cm pm l) (fun _ _ => True).
Proof.
  induction l as [|[k v] l IH]; intros h Hi Hcm Hn Hpm; simpl; [by apply returns_ret|].
  repl_step. load_tag Hcm. clear Hl.
  eapply returns_bind; [apply returns_store; simpl; split_and?; auto|].
  intros h2 [] Hi2 He2 _. move_tags He2. by apply IH.
Qed.

Lemma Forall_at {A} (P : A -> Prop) l i x : Forall P l -> l !! i = Some x -> P x.
Proof. rewrite Forall_lookup. eauto. Qed.

(** Access to a metric of the clone. *)
Lemma returns_load_metric h a i ks :
  inv h -> (n0 <= a)%nat -> has_tag h a (TMetrics ks) -> (i < length ks)%nat ->
  returns h (load_metric (a, i))
    (fun h' m => (metric_ok h' m /\ metric_new m) /\ ks !! i = Some (metric_shape m)).
Proof.
  intros Hi Ha Ht Hlt. unfold load_metric. cbn [fst snd].
  destruct Ht as (o & Hl & Ht). destruct o; simplify_eq/=.
  eapply returns_bind; [by eapply returns_load|]. intros ? ? ? _ [-> ->].
  destruct (inv_object _ _ _ Hi Hl) as (Hok & Hnew & _).
  rewrite length_fmap in *.
  destruct (lookup_lt_is_Some_2 ms i) as [m Hm]; [done|]. rewrite Hm.
  apply returns_ret; [done|]. split; [|by rewrite list_lookup_fmap, Hm].
  split; [by eapply Forall_at|]. eapply Forall_at; [by apply Hnew|done].
Qed.

Lemma returns_store_metric h a i ks m :
  inv h -> (n0 <= a)%nat -> has_tag h a (TMetrics ks) -> metric_ok h m -> metric_new m ->
  ks !! i = Some (metric_shape m) -> returns h (store_metric (a, i) m) (fun _ _ => True).
Proof.
  intros Hi Ha Ht Hok Hnew Hk. unfold store_metric. cbn [fst snd]. pose proof Ht as Ht'.
  destruct Ht as (o & Hl & Ht). destruct o; simplify_eq/=.
  eapply returns_bind; [by eapply returns_load|]. intros ? ? ? _ [-> ->].
  destruct (inv_object _ _ _ Hi Hl) as (Hok' & Hnew' & _).
  apply returns_store; simpl; auto.
  - by rewrite list_fmap_insert, list_insert_id.
  - by apply Forall_insert.
  - intros _. apply Forall_insert; [by apply Hnew'|done].
Qed.

Lemma returns_when h o t (f : loc -> M heap unit) :
  inv h -> opt_tag h o t ->
  (forall l, o = Some l -> has_tag h l t -> returns h (f l) (fun _ _ => True)) ->
  returns h (when_ptr o f) (fun _ _ => True).
Proof. intros Hi Ho Hf. destruct o as [l|]; simpl; [by apply Hf|by apply returns_ret]. Qed.

Lemma returns_Basic h a i ks pm :
  inv h -> (n0 <= a)%nat -> has_tag h a (TMetrics ks) -> (i < length ks)%nat -> has_tag h pm TMap ->
  returns h (replaceBasicMetricsParams order (a, i) pm) (fun _ _ => True).
Proof.
  intros Hi Ha Ht Hlt Hpm. unfold replaceBasicMetricsParams.
  eapply returns_bind; [by eapply returns_load_metric|].
  intros h1 m Hi1 He1 [[(Hc & Hh & Hs & Hj & Hr & Hmv) Hnew] Hk]. move_tags He1. repeat repl_step.
  eapply returns_bind; [by eapply returns_store_metric|]. intros h2 [] Hi2 He2 _. move_tags He2.
  destruct Hnew as (Hcn & _). destruct (m_ConfigMap m) as [cm|]; simpl in *; [|by apply returns_ret].
  load_tag Hc. clear Hl. eapply returns_bind; [by apply returns_range|].
  intros h3 es Hi3 He3 _. move_tags He3. by apply returns_configMap.
Qed.

Ltac when_step lem :=
  eapply returns_bind;
  [ eapply returns_when; [done|eassumption|]; intros ? -> ?; simpl in *; by apply lem
  | let He := fresh "He" in intros ? [] ? He _; move_tags He; clear He ].

Lemma returns_Metrics h a i ks pm :
  inv h -> (n0 <= a)%nat -> has_tag h a (TMetrics ks) -> (i < length ks)%nat -> has_tag h pm TMap ->
  returns h (ReplaceMetricsParams order (a, i) pm) (fun _ _ => True).
Proof.
  intros Hi Ha Ht Hlt Hpm. unfold ReplaceMetricsParams.
  eapply returns_bind; [by eapply returns_load_metric|].
  intros h1 [] Hi1 He1 [[(Hc & Hh & Hs & Hj & Hr & Hmv) (Hc' & Hh' & Hs' & Hj' & Hr')] _]. move_tags He1.
  simpl in *.
  when_step returns_JDBC. when_step returns_SSH. when_step returns_HTTP. when_step returns_Redis.
  by eapply returns_Basic.
Qed.

Lemma returns_all_metrics a ks pm idx : forall h,
  inv h -> (n0 <= a)%nat -> has_tag h a (TMetrics ks) -> Forall (fun i => (i < length ks)%nat) idx ->
  has_tag h pm TMap -> returns h (replace_all_metrics order a pm idx) (fun _ _ => True).
Proof.
  induction idx as [|i idx IH]; intros h Hi Ha Ht Hlt Hpm; simpl; [by apply returns_ret|].
  apply Forall_cons in Hlt as [Hlt Hrest].
  eapply returns_bind; [by eapply returns_Metrics|]. intros h1 [] Hi1 He1 _. move_tags He1.
  by apply IH.
Qed.

(** *** Clone *)

Lemma returns_copy_map h o :
  inv h -> opt_tag h o TMap ->
  returns h (copy_map o) (fun h' o' => opt_tag h' o' TMap /\ is_new o').
Proof.
  intros Hi Ho. destruct o as [l|]; simpl in *; [|by apply returns_ret].
  load_tag Ho. eapply returns_bind; [by apply returns_alloc|].
  intros h1 l1 Hi1 He1 [Hl1 Hn]. apply returns_ret; [done|]. split; [by exists (OMap m)|done].
Qed.

Lemma returns_copy_auth h o :
  inv h -> opt_tag h o TAuth ->
  returns h (copy_auth o) (fun h' o' => opt_tag h' o' TAuth /\ is_new o').
Proof.
  intros Hi Ho. destruct o as [l|]; simpl in *; [|by apply returns_ret].
  load_tag Ho. eapply returns_bind; [by apply returns_alloc|].
  intros h1 l1 Hi1 He1 [Hl1 Hn]. apply returns_ret; [done|]. split; [by exists (OAuth a)|done].
Qed.

Ltac copy_step lem :=
  eapply returns_bind; [by apply lem|];
  let He := fresh "He" in let Ht := fresh "Htag" in let Hn := fresh "Hnew" in
  intros ? ? ? He [Ht Hn]; simpl in Ht, Hn; move_tags He; clear He.

Lemma returns_copy_http h o :
  inv h -> opt_tag h o THTTP ->
  returns h (copy_http o)
    (fun h' o' => opt_tag h' o' THTTP /\ is_new o' /\
       bool_decide (is_Some o') = bool_decide (is_Some o)).
Proof.
  intros Hi Ho. destruct o as [l|]; simpl in *; [|by apply returns_ret].
  load_tag Ho. destruct (inv_object _ _ _ Hi Hl) as ((Hh & Hp & Ha) & _ & _). clear Hl.
  copy_step returns_copy_map. copy_step returns_copy_map. copy_step returns_copy_auth.
  eapply returns_bind; [by apply returns_alloc|].
  intros h1 l1 Hi1 He1 [Hl1 Hn]. apply returns_ret; [done|].
  split; [by eexists|done].
Qed.

Lemma returns_copy_metric h m :
  inv h -> metric_ok h m -> is_shared (m_SSH m) -> is_shared (m_JDBC m) -> is_shared (m_Redis m) ->
  returns h (copy_metric m)
    (fun h' m' => (metric_ok h' m' /\ metric_new m') /\ metric_shape m' = metric_shape m).
Proof.
  intros Hi (Hc & Hh & Hs & Hj & Hr & Hmv) Hss Hsj Hsr. unfold copy_metric.
  copy_step returns_copy_map. copy_step returns_copy_http. destruct Hnew0 as [Hnew0 Hhttp].
  apply returns_ret; [done|]. split; [by split_and!|].
  unfold metric_shape, configs_of. cbn. by rewrite Hhttp.
Qed.

(** The protocol structs that a clone of a metric shares with it. *)
Definition protocols_shared (m : Metrics) : Prop :=
  is_shared (m_SSH m) /\ is_shared (m_JDBC m) /\ is_shared (m_Redis m).

Lemma returns_copy_metrics ms : forall h,
  inv h -> Forall (metric_ok h) ms -> Forall protocols_shared ms ->
  returns h (mmap copy_metric ms)
    (fun h' ms' => (Forall (metric_ok h') ms' /\ Forall metric_new ms') /\
                   metric_shape <$> ms' = metric_shape <$> ms).
Proof.
  induction ms as [|m ms IH]; intros h Hi Hok Hsh; simpl.
  { apply returns_ret; [done|]. split_and!; done. }
  apply Forall_cons in Hok as [Hm Hok], Hsh as [(Hs1 & Hs2 & Hs3) Hsh].
  eapply returns_bind; [by apply returns_copy_metric|]. intros h1 m1 Hi1 He1 [[Hm1 Hn1] Hk1].
  move_tags He1. eapply returns_bind; [by apply IH|].
  intros h2 ms2 Hi2 He2 ((Hok2 & Hnew2) & Hk2). apply returns_ret; [done|].
  split; [split; [|by constructor]|by rewrite !fmap_cons, Hk1, Hk2].
  constructor; [|done]. assert (Forall (metric_ok h1) [m1]) as Hf by (by constructor).
  move_tags He2. by apply Forall_cons in Hf as [? _].
Qed.

(** The metrics of a job share nothing that may not be written. *)
Definition metrics_shared (j : Job) : Prop :=
  forall a h ms, job_Metrics j = Some a -> inv h -> cells h !! a = Some (OMetrics ms) ->
    Forall protocols_shared ms.

(** A clone of [j] in the heap [h]: its own array holds the metrics of [j]. *)
Definition clone_of (h : heap) (j cj : Job) : Prop :=
  job_MonitorID cj = job_MonitorID j /\ job_TenantID cj = job_TenantID j /\
  job_App cj = job_App j /\ (job_Metrics j = None -> job_Metrics cj = None) /\
  forall a ks, job_Metrics j = Some a -> has_tag h a (TMetrics ks) ->
    exists a', job_Metrics cj = Some a' /\ (n0 <= a')%nat /\ has_tag h a' (TMetrics ks).

Lemma clone_of_ext h h' j cj :
  ext h h' -> (forall a, job_Metrics j = Some a -> exists ks, has_tag h a (TMetrics ks)) ->
  clone_of h j cj -> clone_of h' j cj.
Proof.
  intros He Hj (H1 & H2 & H3 & H4 & H5). split_and!; [done..|]. intros a ks Ha Ht.
  destruct (Hj a Ha) as [ks' Ht']. pose proof (He _ _ Ht') as Ht2.
  pose proof (has_tag_fun _ _ _ _ Ht Ht2) as [= <-].
  destruct (H5 a ks Ha Ht') as (a' & ? & ? & ?). exists a'. split_and!; auto.
Qed.

Lemma returns_Clone h p j :
  inv h -> cells h !! p = Some (OJob j) -> metrics_shared j ->
  returns h (Clone (Some p)) (fun h' o => exists c cj, o = Some c /\ (n0 <= c)%nat /\
    cells h' !! c = Some (OJob cj) /\ clone_of h' j cj).
Proof.
  intros Hi Hp Hms. destruct (inv_object _ _ _ Hi Hp) as ((Hmd & Hlb & Han & Hmt) & _ & _).
  unfold Clone. eapply returns_bind; [by eapply returns_load|]. intros ? ? ? _ [-> ->]. clear Hp.
  destruct (job_Metrics j) as [arr|] eqn:Ej.
  - destruct Hmt as [ks Harr].
    copy_step returns_copy_map. copy_step returns_copy_map. copy_step returns_copy_map.
    eapply (returns_bind _ _ _ (fun h' o => exists a', o = Some a' /\ (n0 <= a')%nat /\
      has_tag h' a' (TMetrics ks))).
    + destruct Harr as (o & Hl & Hks). destruct o; try discriminate Hks. injection Hks as <-.
      eapply returns_bind; [by eapply returns_load|]. intros ? ? ? _ [-> ->].
      match goal with Hi' : inv ?h', Hl : cells ?h' !! arr = Some (OMetrics ms) |- _ =>
        destruct (inv_object _ _ _ Hi' Hl) as (Hok & _ & _);
        pose proof (Hms arr _ _ Ej Hi' Hl) as Hsh end. clear Hl.
      eapply returns_bind; [by apply returns_copy_metrics|].
      intros h2 ms2 Hi2 He2 ((Hok2 & Hnew2) & Hk2).
      eapply returns_bind; [by apply returns_alloc|]. intros h3 a3 Hi3 He3 [Ha3 Hn3].
      apply returns_ret; [done|]. exists a3. split_and!; [done|done|]. eexists. split; [done|].
      simpl. by rewrite Hk2.
    + intros h3 o Hi3 He3 (a3 & -> & Hn3 & Ht3). move_tags He3.
      eapply returns_bind; [apply returns_alloc; simpl; split_and?; eauto|].
      intros h4 c Hi4 He4 [Hc Hn]. move_tags He4.
      apply returns_ret; [done|]. eexists c, _. split_and!; [done|done|exact Hc|].
      split_and!; try done; simpl; [by rewrite Ej|].
      intros arr' ks' Ha Ht. rewrite Ej in Ha. simplify_eq.
      pose proof (has_tag_fun _ _ _ _ Ht Harr) as [= ->]. by exists a3.
  - copy_step returns_copy_map. copy_step returns_copy_map. copy_step returns_copy_map.
    rewrite bind_ret_l. eapply returns_bind.
    + apply returns_alloc; simpl; split_and?; eauto.
    + intros h4 c Hi4 He4 [Hc Hn]. apply returns_ret; [done|]. eexists c, _.
      split_and!; [done|done|exact Hc|]. split_and!; try done; simpl. by rewrite Ej.
Qed.

Lemma returns_Job h p j :
  inv h -> cells h !! p = Some (OJob j) -> metrics_shared j ->
  returns h (ReplaceJobParams order (Some p)) (fun h' r => exists c cj,
    r = Ok c /\ (n0 <= c)%nat /\ has_tag h' c (TJob (job_key cj)) /\ clone_of h' j cj).
Proof.
  intros Hi Hp Hms. destruct (inv_object _ _ _ Hi Hp) as ((_ & _ & _ & Hmt) & _ & _).
  assert (forall h', ext h h' ->
    forall a, job_Metrics j = Some a -> exists ks, has_tag h' a (TMetrics ks)) as Htag.
  { intros h' He a Ha. rewrite Ha in Hmt. destruct Hmt as [ks Hks]. exists ks. auto. }
  unfold ReplaceJobParams.
  eapply returns_bind; [by eapply returns_load|]. intros ? ? ? _ [-> ->].
  eapply returns_bind; [by apply returns_alloc_frame|]. intros h1 pm Hi1 He1 [[Hpm _] Hold].
  assert (has_tag h1 pm TMap) as Hpmt by (by eexists).
  eapply returns_bind; [by eapply returns_Clone; [|apply Hold|]|].
  intros h2 o Hi2 He2 (c & cj & -> & Hc & Hcj & Hcl). move_tags He2.
  eapply returns_bind; [by eapply returns_load|]. intros ? ? ? _ [-> ->].
  assert (has_tag h2 c (TJob (job_key cj))) as Hct by (by eexists).
  assert (ext h h2) as He by (by transitivity h1).
  destruct (job_Metrics cj) as [a|] eqn:Ea.
  - assert (exists ks, (n0 <= a)%nat /\ has_tag h2 a (TMetrics ks)) as (ks & Ha & Hks).
    { destruct Hcl as (_ & _ & _ & H4 & H5). destruct (job_Metrics j) as [a0|] eqn:Ej.
      - destruct (Htag _ He a0 eq_refl) as [ks Hks].
        destruct (H5 a0 ks eq_refl Hks) as (a' & ? & ? & ?). exists ks. by simplify_eq.
      - rewrite H4 in Ea by done. discriminate. }
    pose proof Hks as (oa & Hoa & Hta). destruct oa; try discriminate Hta. injection Hta as Hta.
    eapply returns_bind; [by eapply returns_load|]. intros ? ? ? _ [-> ->].
    eapply returns_bind.
    + eapply returns_all_metrics; [done|done|exact Hks| |done].
      apply Forall_forall. intros i Hin%elem_of_seq. rewrite <- Hta, length_fmap. lia.
    + intros h3 [] Hi3 He3 _. move_tags He3. apply returns_ret; [done|]. exists c, cj.
      split_and!; [done..|]. by apply (clone_of_ext h2); [|apply Htag|].
  - apply returns_ret; [done|]. by exists c, cj.
Qed.

End Footprint.

(** The structs that [Clone] does not copy: the JDBC, SSH and Redis structs of
    the metrics and their SSH tunnels. *)
Definition ptr_list (o : option loc) : list loc := match o with None => [] | Some l => [l] end.

Definition protocol_roots (m : Metrics) : list loc :=
  ptr_list (m_JDBC m) ++ ptr_list (m_SSH m) ++ ptr_list (m_Redis m).

Definition tunnels (c : gmap loc obj) (l : loc) : list loc :=
  match c !! l with
  | Some (OJDBC p) => ptr_list (jdbc_SSHTunnel p)
  | Some (ORedis p) => ptr_list (redis_SSHTunnel p)
  | _ => []
  end.

Definition shared_locs (c : gmap loc obj) (j : Job) : list loc :=
  match job_Metrics j with
  | None => []
  | Some a =>
      match c !! a with
      | Some (OMetrics ms) => ms ≫= fun m => protocol_roots m ≫= fun l => l :: tunnels c l
      | _ => []
      end
  end.

Lemma elem_of_ptr_list l o : l ∈ ptr_list o <-> o = Some l.
Proof.
  destruct o; simpl; [rewrite list_elem_of_singleton|rewrite elem_of_nil]; split; congruence || done.
Qed.

Definition is_protocol_tag (t : tag) : Prop := t = TJDBC \/ t = TSSH \/ t = TRedis.

(** A shared location is a protocol struct or the tunnel of one. *)
Lemma shared_locs_inv h p j l :
  heap_ok h -> cells h !! p = Some (OJob j) -> l ∈ shared_locs (cells h) j ->
  (exists t, is_protocol_tag t /\ has_tag h l t /\
     forall t', t' ∈ tunnels (cells h) l -> t' ∈ shared_locs (cells h) j) \/
  has_tag h l TTunnel.
Proof.
  intros [_ Hok] Hp Hin. unfold shared_locs in *. destruct (job_Metrics j) as [a|];
    [|by apply elem_of_nil in Hin].
  destruct (cells h !! a) as [[]|] eqn:Ha; try by apply elem_of_nil in Hin.
  pose proof (Hok _ _ Ha) as Hms. simpl in Hms. rewrite Forall_forall in Hms.
  apply list_elem_of_bind in Hin as (m & Hin & Hm).
  apply list_elem_of_bind in Hin as (r & Hin & Hr).
  destruct (Hms m Hm) as (_ & _ & Hs & Hj & Hre & _).
  assert (exists t, is_protocol_tag t /\ has_tag h r t) as (t & Ht & Htr).
  { unfold protocol_roots in Hr. rewrite !elem_of_app, !elem_of_ptr_list in Hr. unfold is_protocol_tag.
    destruct Hr as [Hr|[Hr|Hr]]; rewrite Hr in *; eauto. }
  apply elem_of_cons in Hin as [->|Hin].
  - left. exists t. split_and!; [done|done|]. intros t' Ht'.
    apply list_elem_of_bind. exists m. split; [|done].
    apply list_elem_of_bind. exists r. split; [by right|done].
  - right. unfold tunnels in Hin. destruct (cells h !! r) as [o|] eqn:Ho; [|by apply elem_of_nil in Hin].
    specialize (Hok _ _ Ho). destruct o; simpl in *; try by apply elem_of_nil in Hin.
    all: apply elem_of_ptr_list in Hin; by rewrite Hin in Hok.
Qed.

Lemma has_tag_lt h l t : heap_ok h -> has_tag h l t -> (l < hnext h)%nat.
Proof.
  intros [Hf _] (o & Ho & _). destruct (decide (l < hnext h)%nat); [done|].
  rewrite Hf in Ho by lia. done.
Qed.

Lemma shared_not_tag h p j l t :
  heap_ok h -> cells h !! p = Some (OJob j) -> has_tag h l t ->
  ~ is_protocol_tag t -> t <> TTunnel -> l ∉ shared_locs (cells h) j.
Proof.
  intros Hok Hp Ht Hnp Hnt Hin.
  destruct (shared_locs_inv h p j l Hok Hp Hin) as [(t' & Hp' & Ht' & _)|Ht'].
  - by rewrite (has_tag_fun _ _ _ _ Ht Ht') in Hnp.
  - by rewrite (has_tag_fun _ _ _ _ Ht Ht') in Hnt.
Qed.

(** The invariant holds at the start. *)
Lemma inv_start h p j :
  heap_ok h -> cells h !! p = Some (OJob j) ->
  inv (hnext h) (fun l => l ∈ shared_locs (cells h) j) (cells h) h.
Proof.
  intros Hok Hp. split; [done|lia|done| |].
  - intros l o Hl Ho. destruct Hok as [Hf _]. by rewrite Hf in Ho.
  - intros l o Hin Ho.
    assert (has_tag h l (tag_of o)) as Ht by (by exists o).
    destruct (shared_locs_inv h p j l Hok Hp Hin) as [(t & _ & _ & Htun)|Htt].
    + unfold tunnels in Htun. rewrite Ho in Htun.
      destruct o; simpl; try done; unfold is_shared;
        match goal with |- match ?x with _ => _ end => destruct x end; try done;
        apply Htun; by left.
    + pose proof (has_tag_fun _ _ _ _ Ht Htt). by destruct o.
Qed.

(** [ReplaceJobParams] makes a clone out of new objects and writes only what the
    clone shares. *)
Lemma returns_new_job order h p j :
  heap_ok h -> cells h !! p = Some (OJob j) ->
  returns (hnext h) (fun l => l ∈ shared_locs (cells h) j) (cells h) h (ReplaceJobParams order (Some p))
    (fun h' r => exists c cj, r = Ok c /\ (hnext h <= c)%nat /\ has_tag h' c (TJob (job_key cj)) /\
       clone_of (hnext h) h' j cj).
Proof.
  intros Hok Hp. pose proof (inv_start h p j Hok Hp) as Hi.
  apply returns_Job; [|done|done|].
  - left. intros l Hin. destruct (shared_locs_inv h p j l Hok Hp Hin) as [(t & _ & Ht & _)|Ht];
      by eapply has_tag_lt.
  - intros a h' ms Ha Hi' Hms. pose proof (proj2 Hok _ _ Hp) as (_ & _ & _ & Hm). rewrite Ha in Hm.
    destruct Hm as [ks Hks].
    rewrite (inv_frame _ _ _ _ Hi') in Hms;
      [|by eapply has_tag_lt|eapply shared_not_tag; [done|done|done|by intros [|[|]]|done]].
    apply Forall_forall. intros m Hm. unfold protocols_shared, is_shared, shared_locs. rewrite Ha, Hms.
    assert (forall l, l ∈ protocol_roots m ->
      l ∈ ms ≫= fun m => protocol_roots m ≫= fun l => l :: tunnels (cells h) l) as Hroot.
    { intros l Hl. apply list_elem_of_bind. exists m. split; [|done].
      apply list_elem_of_bind. exists l. split; [by left|done]. }
    unfold protocol_roots in Hroot. setoid_rewrite elem_of_app in Hroot.
    setoid_rewrite elem_of_app in Hroot. setoid_rewrite elem_of_ptr_list in Hroot.
    split_and!; [destruct (m_SSH m)|destruct (m_JDBC m)|destruct (m_Redis m)]; auto.
Qed.

(** C29 (safety). On a well-typed heap [ReplaceJobParams] returns a new job and
    does not panic; the objects that existed before are all left as they were,
    except the JDBC, SSH and Redis structs of the job and their tunnels, which
    [Clone] shares with the original.  A job without such metrics is
    untouched. *)
Theorem ReplaceJobParams_footprint order h p j :
  heap_ok h -> cells h !! p = Some (OJob j) ->
  exists h' c, ReplaceJobParams order (Some p) h = Ret h' (Ok c) /\
    (hnext h <= c)%nat /\ heap_ok h' /\
    forall l, (l < hnext h)%nat -> l ∉ shared_locs (cells h) j -> cells h' !! l = cells h !! l.
Proof.
  intros Hok Hp.
  destruct (returns_new_job order h p j Hok Hp)
    as (h' & r & Hr & [Hok' _ Hfr _ _] & _ & c & cj & -> & Hc & _).
  by exists h', c.
Qed.

(** ** Examples *)

Definition ex_ssh (password : string) : SSHProtocol :=
  mkSSHProtocol "db" "22" "root" password "" "" "" "" "" "" "" "" "" "" "" "" "".

Definition with_protocols (http ssh : option loc) (m : Metrics) : Metrics :=
  mkMetrics (m_Name m) (m_I18n m) (m_Priority m) (m_CollectTime m) (m_Interval m) (m_Visible m)
    (m_Fields m) (m_AliasFields m) (m_Calculates m) (m_Filters m) (m_Units m) (m_Protocol m)
    (m_Host m) (m_Port m) (m_Timeout m) (m_Range m) (m_ConfigMap m) (m_HasSubTask m)
    http ssh (m_JDBC m) (m_SNMP m) (m_JMX m) (m_Redis m) (m_MongoDB m) (m_Milvus m).

Definition ex_password_job : Job :=
  set_configmap [mkConfigmap "password" (AString "secret") 1 []] (ex_job 7 60 true (Some 1%nat)).

Definition ex_http_heap : heap :=
  mkHeap {[0%nat := OJob ex_password_job;
           1%nat := OMetrics [with_protocols (Some 2%nat) None (ex_metric "up" 0 0 60)];
           2%nat := OHTTP (mkHTTPProtocol "/^_^password^_^" "GET" None None "" "" "" "" "" "" None)]}
    3 0.

Definition ex_ssh_heap : heap :=
  mkHeap {[0%nat := OJob ex_password_job;
           1%nat := OMetrics [with_protocols None (Some 2%nat) (ex_metric "up" 0 0 60)];
           2%nat := OSSH (ex_ssh "^_^password^_^")]} 3 0.

Ltac three_cells :=
  split;
  [ intros l Hl; simpl in *; by rewrite !lookup_insert_ne, lookup_singleton_ne by lia
  | apply map_Forall_insert; [reflexivity|]; split; [|
    apply map_Forall_insert; [reflexivity|]; split; [|
    apply map_Forall_insert; [reflexivity|]; split; [|apply map_Forall_empty]]]].

Lemma ex_http_heap_ok : heap_ok ex_http_heap.
Proof.
  three_cells; [simpl; split_and!; try done|simpl|done].
  - eexists. by eexists.
  - constructor; [|done]. split_and!; simpl; try done. by eexists.
Qed.

Lemma ex_ssh_heap_ok : heap_ok ex_ssh_heap.
Proof.
  three_cells; [simpl; split_and!; try done|simpl|done].
  - eexists. by eexists.
  - constructor; [|done]. split_and!; simpl; try done. by eexists.
Qed.

Lemma ReplaceJobParams_footprint_witness :
  exists h' c, ReplaceJobParams (fun _ m => map_to_list m) (Some 0%nat) ex_http_heap = Ret h' (Ok c) /\
    (3 <= c)%nat /\ heap_ok h' /\
    forall l, (l < 3)%nat -> l ∉ shared_locs (cells ex_http_heap) ex_password_job ->
      cells h' !! l = cells ex_http_heap !! l.
Proof.
  apply (ReplaceJobParams_footprint (fun _ m => map_to_list m) ex_http_heap 0 ex_password_job
    ex_http_heap_ok eq_refl).
Defined.

(** [ReplaceJobParams] writes the replaced password into the SSH
    struct of the job it was given: the clone shares that struct with it. *)
Theorem ReplaceJobParams_mutates_original :
  exists h' c, heap_ok ex_ssh_heap /\
    ReplaceJobParams (fun _ m => map_to_list m) (Some 0%nat) ex_ssh_heap = Ret h' (Ok c) /\
    cells ex_ssh_heap !! 2%nat = Some (OSSH (ex_ssh "^_^password^_^")) /\
    cells h' !! 2%nat = Some (OSSH (ex_ssh "secret")) /\
    cells h' !! 0%nat = cells ex_ssh_heap !! 0%nat /\
    cells h' !! 1%nat = cells ex_ssh_heap !! 1%nat.
Proof.
  eexists _, _. split_and!; [apply ex_ssh_heap_ok|vm_compute; reflexivity|reflexivity|..];
    vm_compute; reflexivity.
Qed.
