(* ===== verification/TimeDispatch.v ===== *)
(** * The time dispatcher

    Models internal/job/dispatcher/time_wheel.go and wheel_timer_task.go.  The
    dispatcher owns a timer, used through the interface of TimerService, and
    maps from job ids to timeouts.  [now] is the clock reading of the
    [time.Now()] of an operation.  The fields ID, IsCyclic and DefaultInterval
    of a job are not assigned after its creation, so a task holds the job as a
    value. *)

From Stdlib Require Import Ascii String.
From S2P Require Import Prelude GoStrings WheelTimer TimerService JobTypes.

Open Scope string_scope.
Open Scope list_scope.
Open Scope Z_scope.
Open Scope go_scope.

(** ** State *)

(** [WheelTimerTask]: [None] is a nil job.  Its dispatcher and its statistics
    recorder are those of the time dispatcher that created it. *)
Record WheelTimerTask := NewWheelTimerTask { wtt_job : option Job }.

(** [ji_Timeout] may be nil; [ji_LastExecutedAt = None] is the zero time. *)
Record JobInfo := mkJobInfo {
  ji_Job : Job;
  ji_Timeout : option tptr;
  ji_CreatedAt : Z;
  ji_LastExecutedAt : option Z;
  ji_NextExecutionAt : Z;
  ji_ExecutionCount : Z;
}.

Record DispatcherStats := mkStats {
  st_StartTime : Z;
  st_TotalJobsAdded : Z;
  st_TotalJobsRemoved : Z;
  st_TotalJobsExecuted : Z;
  st_TotalJobsCompleted : Z;
  st_TotalJobsFailed : Z;
  st_LastExecutionTime : option Z;
}.

(** The maps hold [*job.Timeout] values, which may be nil pointers. *)
Record TimeDispatch (T : Type) := mkTD {
  td_wheelTimer : T;
  td_cyclicTasks : gmap Z (option tptr);
  td_tempTasks : gmap Z (option tptr);
  td_jobInfos : gmap Z JobInfo;
  td_started : bool;
  td_stats : DispatcherStats;
  td_statsLogging : bool;         (** [statsLogger] and [statsCancel] are set *)
}.
Arguments mkTD {T} _ _ _ _ _ _ _.
Arguments td_wheelTimer {T} _.
Arguments td_cyclicTasks {T} _.
Arguments td_tempTasks {T} _.
Arguments td_jobInfos {T} _.
Arguments td_started {T} _.
Arguments td_stats {T} _.
Arguments td_statsLogging {T} _.

Section Dispatcher.
Context {T : Type} `{!TimerOps T WheelTimerTask}.
Abbreviation TD := (TimeDispatch T) (only parsing).
Implicit Types s : TD.

Definition set_timer (t : T) s : TD :=
  mkTD t (td_cyclicTasks s) (td_tempTasks s) (td_jobInfos s) (td_started s) (td_stats s)
       (td_statsLogging s).
Definition set_tasks (cyclic temp : gmap Z (option tptr)) (infos : gmap Z JobInfo) s : TD :=
  mkTD (td_wheelTimer s) cyclic temp infos (td_started s) (td_stats s) (td_statsLogging s).
Definition set_stats (f : DispatcherStats -> DispatcherStats) s : TD :=
  mkTD (td_wheelTimer s) (td_cyclicTasks s) (td_tempTasks s) (td_jobInfos s) (td_started s)
       (f (td_stats s)) (td_statsLogging s).

(** Counters are [int64]. *)
Definition stats_add (added removed completed failed : Z) (x : DispatcherStats) : DispatcherStats :=
  mkStats (st_StartTime x) (wrap64 (st_TotalJobsAdded x + added))
    (wrap64 (st_TotalJobsRemoved x + removed)) (st_TotalJobsExecuted x)
    (wrap64 (st_TotalJobsCompleted x + completed)) (wrap64 (st_TotalJobsFailed x + failed))
    (st_LastExecutionTime x).

(** [NewTimeDispatch] with the timer it creates. *)
Definition NewTimeDispatch (now : Z) (timer : T) : TD :=
  mkTD timer ∅ ∅ ∅ false (mkStats now 0 0 0 0 0 None) false.

(** A call of the timer. *)
Definition with_timer {A} (m : M T A) : M TD A :=
  fun s => match m (td_wheelTimer s) with
           | Ret t a => Ret (set_timer t s) a
           | Panic t w => Panic (set_timer t s) w
           end.

(** ** Operations *)

(** The delay before the first run of a job. *)
Definition first_delay (j : Job) : Z :=
  if 0 <? job_DefaultInterval j then wrap64 (job_DefaultInterval j * Millisecond) else 10 * Second.

(** [TimeDispatch.AddJob]; the result is the error. *)
Definition AddJob (now : Z) (job : option Job) : M TD (option error) :=
  match job with
  | None => mret (Some "job cannot be nil")
  | Some j =>
      mmodify (set_stats (stats_add 1 0 0 0)) ;!
      let delay := first_delay j in
      timeout <-! with_timer (timer_new now (NewWheelTimerTask (Some j)) delay) ;
      let jobInfo := mkJobInfo j timeout now None (now + delay) 0 in
      mmodify (fun s =>
        if job_IsCyclic j
        then set_tasks (<[job_ID j := timeout]> (td_cyclicTasks s)) (td_tempTasks s)
               (<[job_ID j := jobInfo]> (td_jobInfos s)) s
        else set_tasks (td_cyclicTasks s) (<[job_ID j := timeout]> (td_tempTasks s))
               (<[job_ID j := jobInfo]> (td_jobInfos s)) s) ;!
      mret None
  end.

(** [Timeout.Cancel] on a pointer from a map: a nil pointer panics. *)
Definition cancel_timeout (p : option tptr) : M TD unit :=
  match p with
  | Some p => mmodify (fun s => set_timer (timer_cancel p (td_wheelTimer s)) s)
  | None => mpanic "nil pointer dereference"
  end.

(** [TimeDispatch.RemoveJob]. *)
Definition RemoveJob (jobID : Z) : M TD (option error) :=
  mmodify (set_stats (stats_add 0 1 0 0)) ;!
  s <-! mget ;
  match td_cyclicTasks s !! jobID with
  | Some timeout =>
      mmodify (fun s => set_tasks (delete jobID (td_cyclicTasks s)) (td_tempTasks s)
                          (td_jobInfos s) s) ;!
      cancel_timeout timeout ;!
      mmodify (fun s => set_tasks (td_cyclicTasks s) (td_tempTasks s)
                          (delete jobID (td_jobInfos s)) s) ;!
      mret None
  | None =>
      match td_tempTasks s !! jobID with
      | Some timeout =>
          mmodify (fun s => set_tasks (td_cyclicTasks s) (delete jobID (td_tempTasks s))
                              (td_jobInfos s) s) ;!
          cancel_timeout timeout ;!
          mmodify (fun s => set_tasks (td_cyclicTasks s) (td_tempTasks s)
                              (delete jobID (td_jobInfos s)) s) ;!
          mret None
      | None => mret (Some ("job not found: " +:+ Itoa jobID))
      end
  end.

Definition set_started (b logging : bool) s : TD :=
  mkTD (td_wheelTimer s) (td_cyclicTasks s) (td_tempTasks s) (td_jobInfos s) b (td_stats s) logging.

(** [TimeDispatch.Start]: the timer's [Start] returns no error. *)
Definition Start (now : Z) : M TD (option error) :=
  s <-! mget ;
  if td_started s then mret (Some "time dispatcher already started")
  else
    mmodify (fun s => set_timer (timer_start now (td_wheelTimer s)) s) ;!
    mmodify (set_started true true) ;!
    mret None.

Fixpoint cancel_all (l : list (option tptr)) : M TD unit :=
  match l with
  | [] => mret tt
  | p :: r => cancel_timeout p ;! cancel_all r
  end.

(** [TimeDispatch.Stop]. *)
Definition Stop : M TD (option error) :=
  s <-! mget ;
  if negb (td_started s) then mret None
  else
    mmodify (set_started true false) ;!
    cancel_all (snd <$> map_to_list (td_cyclicTasks s)) ;!
    cancel_all (snd <$> map_to_list (td_tempTasks s)) ;!
    mmodify (set_tasks ∅ ∅ ∅) ;!
    with_timer timer_stop ;!
    mmodify (set_started false false) ;!
    mret None.

(** [RecordJobExecution], [RecordJobCompleted] and [RecordJobFailed]. *)
Definition RecordJobExecution (now : Z) : M TD unit :=
  mmodify (set_stats (fun x =>
    mkStats (st_StartTime x) (st_TotalJobsAdded x) (st_TotalJobsRemoved x)
      (wrap64 (st_TotalJobsExecuted x + 1)) (st_TotalJobsCompleted x) (st_TotalJobsFailed x)
      (Some now))).
Definition RecordJobCompleted : M TD unit := mmodify (set_stats (stats_add 0 0 1 0)).
Definition RecordJobFailed : M TD unit := mmodify (set_stats (stats_add 0 0 0 1)).

(** The delay before the next run of a cyclic job. *)
Definition next_delay (j : Job) : Z := wrap64 (job_DefaultInterval j * Second).

(** [UpdateJobExecution]. *)
Definition UpdateJobExecution (now jobID : Z) : M TD unit :=
  mmodify (fun s =>
    set_tasks (td_cyclicTasks s) (td_tempTasks s)
      (alter (fun i =>
         mkJobInfo (ji_Job i) (ji_Timeout i) (ji_CreatedAt i) (Some now)
           (if job_IsCyclic (ji_Job i) && (0 <? job_DefaultInterval (ji_Job i))
            then now + next_delay (ji_Job i) else ji_NextExecutionAt i)
           (wrap64 (ji_ExecutionCount i + 1))) jobID (td_jobInfos s)) s).

(** [RescheduleJob]. *)
Definition RescheduleJob (now : Z) (j : Job) : M TD (option error) :=
  if negb (job_IsCyclic j) || (job_DefaultInterval j <=? 0)
  then mret (Some "job is not cyclable or has invalid interval")
  else
    timeout <-! with_timer (timer_new now (NewWheelTimerTask (Some j)) (next_delay j)) ;
    mmodify (fun s =>
      set_tasks (<[job_ID j := timeout]> (td_cyclicTasks s)) (td_tempTasks s)
        (alter (fun i => mkJobInfo (ji_Job i) timeout (ji_CreatedAt i) (ji_LastExecutedAt i)
                           (now + next_delay j) (ji_ExecutionCount i))
               (job_ID j) (td_jobInfos s)) s) ;!
    mret None.

(** The entries of [Stats] that are computed. *)
Definition cyclicJobs s : nat := size (td_cyclicTasks s).
Definition tempJobs s : nat := size (td_tempTasks s).

(** ** WheelTimerTask.Run

    The task runs in a goroutine of its own; other operations of the
    dispatcher may come between its first part, the dispatch of the job and
    its last part. *)
Definition run_begin (now : Z) (j : Job) : M TD unit :=
  RecordJobExecution now ;! UpdateJobExecution now (job_ID j).

(** [WheelTimerTask.rescheduleJob]: an error of [RescheduleJob] is logged. *)
Definition rescheduleJob (now : Z) (j : Job) : M TD unit :=
  if job_DefaultInterval j <=? 0 then mret tt
  else RescheduleJob now j ;! mret tt.

(** What follows the dispatch, given its error. *)
Definition run_end (now : Z) (j : Job) (err : option error) : M TD (option error) :=
  match err with
  | Some e => RecordJobFailed ;! mret (Some e)
  | None =>
      RecordJobCompleted ;!
      (if job_IsCyclic j && (0 <? job_DefaultInterval j) then rescheduleJob now j else mret tt) ;!
      mret None
  end.

Definition Run (now1 now2 : Z) (dispatch : Job -> M TD (option error)) (task : WheelTimerTask)
    : M TD (option error) :=
  match wtt_job task with
  | None => mret (Some "job is nil, cannot execute")
  | Some j =>
      run_begin now1 j ;!
      err <-! dispatch j ;
      run_end now2 j err
  end.

End Dispatcher.
