(* ===== verification/Scheduler.v ===== *)
(** * The scheduler as a whole

    The time dispatcher together with the goroutines that run its tasks
    (internal/job/dispatcher/time_wheel.go, wheel_timer_task.go and the
    goroutine started by hashed_wheel_timer.go for each timeout that fires).
    The operations of the dispatcher, the ticks of the timer and the two parts
    of each running task interleave in any order: a run of the scheduler is a
    sequence of events.  The theorems are proved for every timer that satisfies
    the laws of TimerService. *)

From Stdlib Require Import Ascii String.
From S2P Require Import Prelude GoStrings WheelTimer TimerService JobTypes TimeDispatch.

Open Scope list_scope.
Open Scope Z_scope.
Open Scope go_scope.

(** ** State and events *)

(** [sc_flight]: the jobs whose task has been started; the flag says that the
    first part of [Run] is done. *)
Record sched (T : Type) := mkSched {
  sc_td : TimeDispatch T;
  sc_flight : list (Job * bool);
}.
Arguments mkSched {T} _ _.
Arguments sc_td {T} _.
Arguments sc_flight {T} _.

Inductive event :=
| EAdd (now : Z) (j : Job)
| ERemove (id : Z)
| ETick
| EBegin (i : nat) (now : Z)
| EFinish (i : nat) (now : Z) (err : option error).

Section Scheduler.
Context {T : Type} `{!TimerOps T WheelTimerTask}.
Implicit Types s : sched T.

Definition on_td {A} (m : M (TimeDispatch T) A) (s : sched T) : outcome (sched T) unit :=
  match m (sc_td s) with
  | Ret td _ => Ret (mkSched td (sc_flight s)) tt
  | Panic td w => Panic (mkSched td (sc_flight s)) w
  end.

(** The job of a timeout. *)
Definition job_of (t : T) (p : tptr) : option Job := timer_task t p ≫= wtt_job.

Definition sched_step (e : event) (s : sched T) : outcome (sched T) unit :=
  match e with
  | EAdd now j => on_td (AddJob now (Some j)) s
  | ERemove id => on_td (RemoveJob id) s
  | ETick =>
      match timer_tick (td_wheelTimer (sc_td s)) with
      | Ret t fired =>
          Ret (mkSched (set_timer t (sc_td s))
                 (sc_flight s ++ ((fun j => (j, false)) <$> omap (job_of t) fired))) tt
      | Panic t w => Panic (mkSched (set_timer t (sc_td s)) (sc_flight s)) w
      end
  | EBegin i now =>
      match sc_flight s !! i with
      | Some (j, false) =>
          on_td (run_begin now j) (mkSched (sc_td s) (<[i := (j, true)]> (sc_flight s)))
      | _ => Ret s tt
      end
  | EFinish i now err =>
      match sc_flight s !! i with
      | Some (j, true) => on_td (run_end now j err) (mkSched (sc_td s) (delete i (sc_flight s)))
      | _ => Ret s tt
      end
  end.

Fixpoint sched_run (es : list event) (s : sched T) : outcome (sched T) unit :=
  match es with
  | [] => Ret s tt
  | e :: es =>
      match sched_step e s with
      | Ret s' _ => sched_run es s'
      | Panic s' w => Panic s' w
      end
  end.

(** States reached by any sequence of events. *)
Inductive steps (s0 : sched T) : sched T -> Prop :=
| steps_refl : steps s0 s0
| steps_event s s' e : steps s0 s -> sched_step e s = Ret s' tt -> steps s0 s'.

(** ** Statistics *)

Definition begun s : nat := length (filter (fun x => snd x = true) (sc_flight s)).

(** Every execution that was counted is counted again as completed or failed,
    or is still running. *)
Definition balanced s : Prop :=
  let x := td_stats (sc_td s) in
  eq64 (st_TotalJobsExecuted x)
       (st_TotalJobsCompleted x + st_TotalJobsFailed x + Z.of_nat (begun s)).

End Scheduler.

Lemma filter_insert_length {A} (P : A -> Prop) `{!forall x, Decision (P x)} (l : list A) i x y :
  l !! i = Some x -> ~ P x -> P y ->
  length (filter P (<[i := y]> l)) = S (length (filter P l)).
Proof.
  revert i. induction l as [|z l IH]; intros [|i] Hi Hx Hy; simplify_eq/=.
  - by rewrite filter_cons_True, filter_cons_False by done.
  - rewrite !filter_cons. case_decide; simpl; by rewrite (IH i).
Qed.

Lemma filter_delete_length {A} (P : A -> Prop) `{!forall x, Decision (P x)} (l : list A) i x :
  l !! i = Some x -> P x -> length (filter P l) = S (length (filter P (delete i l))).
Proof.
  revert i. induction l as [|z l IH]; intros [|i] Hi Hx; simplify_eq/=.
  - by rewrite filter_cons_True by done.
  - rewrite !filter_cons. case_decide; simpl; by rewrite (IH i).
Qed.

Section Balance.
Context {T : Type} `{!TimerOps T WheelTimerTask}.
Implicit Types s : sched T.

(** [m] adds [de] to the executions and [dc] to the completions and failures. *)
Definition counts {A} (de dc : Z) (m : M (TimeDispatch T) A) : Prop :=
  forall td td' r, m td = Ret td' r ->
    eq64 (st_TotalJobsExecuted (td_stats td')) (st_TotalJobsExecuted (td_stats td) + de) /\
    eq64 (st_TotalJobsCompleted (td_stats td') + st_TotalJobsFailed (td_stats td'))
         (st_TotalJobsCompleted (td_stats td) + st_TotalJobsFailed (td_stats td) + dc).

Lemma counts_bind {A B} de dc de' dc' (m : M (TimeDispatch T) A) (k : A -> M (TimeDispatch T) B) :
  counts de dc m -> (forall a, counts de' dc' (k a)) -> counts (de + de') (dc + dc') (mbind' m k).
Proof.
  intros Hm Hk td td' r. unfold mbind'. destruct (m td) as [td1 a|] eqn:E; [|done]. intros E'.
  destruct (Hm _ _ _ E) as [H1 H2], (Hk _ _ _ _ E') as [H3 H4].
  split; [rewrite H3, H1|rewrite H4, H2]; by rewrite !Z.add_assoc.
Qed.

Lemma counts_same {A} (m : M (TimeDispatch T) A) :
  (forall td td' r, m td = Ret td' r -> td_stats td' = td_stats td) -> counts 0 0 m.
Proof. intros Hm td td' r E. rewrite (Hm _ _ _ E), !Z.add_0_r. done. Qed.

Lemma counts_stats_add a b c d :
  counts 0 (c + d) (mmodify (S := TimeDispatch T) (set_stats (stats_add a b c d))).
Proof.
  intros td td' r [= <- <-]. simpl. rewrite Z.add_0_r. split; [done|].
  rewrite !eq64_wrap. apply reflexive_eq. lia.
Qed.

Lemma counts_timer {A} (m : M T A) : counts 0 0 (with_timer m).
Proof. apply counts_same. intros td td' r. unfold with_timer. case_match; by intros [= <- <-]. Qed.

Lemma counts_ret {A} (a : A) : counts 0 0 (mret a).
Proof. apply counts_same. by intros td td' r [= <- <-]. Qed.

Lemma counts_modify f :
  (forall td, td_stats (f td) = td_stats td) -> counts 0 0 (mmodify (S := TimeDispatch T) f).
Proof. intros Hf. apply counts_same. intros td td' r [= <- <-]. apply Hf. Qed.

Lemma counts_cancel p : counts 0 0 (cancel_timeout p).
Proof. destruct p; [by apply counts_modify|]. apply counts_same. done. Qed.

Lemma counts_get {A} (k : TimeDispatch T -> M (TimeDispatch T) A) de dc :
  (forall td, counts de dc (k td)) -> counts de dc (mbind' mget k).
Proof.
  intros Hk. apply (counts_bind 0 0 de dc mget k); [|done].
  apply counts_same. by intros td td' r [= <- <-].
Qed.

Ltac bind_counts a b c d :=
  apply (counts_bind a b c d); [|intros ?].

Lemma counts_AddJob now j : counts 0 0 (AddJob now (Some j)).
Proof.
  unfold AddJob. bind_counts 0 0 0 0; [apply counts_stats_add|].
  bind_counts 0 0 0 0; [apply counts_timer|].
  bind_counts 0 0 0 0; [|apply counts_ret].
  apply counts_modify. intros td. by destruct (job_IsCyclic j).
Qed.

Lemma counts_RemoveJob id : counts 0 0 (RemoveJob id).
Proof.
  unfold RemoveJob. bind_counts 0 0 0 0; [apply counts_stats_add|]. apply counts_get. intros td.
  destruct (td_cyclicTasks td !! id) as [p|]; [|destruct (td_tempTasks td !! id) as [p|]].
  3: apply counts_ret.
  all: bind_counts 0 0 0 0; [by apply counts_modify|].
  all: bind_counts 0 0 0 0; [apply counts_cancel|].
  all: bind_counts 0 0 0 0; [by apply counts_modify|apply counts_ret].
Qed.

Lemma counts_run_begin now j : counts 1 0 (run_begin now j).
Proof.
  unfold run_begin. bind_counts 1 0 0 0; [|by apply counts_modify].
  intros td td' r [= <- <-]. simpl. rewrite eq64_wrap, Z.add_0_r. done.
Qed.

Lemma counts_Reschedule now j : counts 0 0 (RescheduleJob now j).
Proof.
  unfold RescheduleJob. destruct (_ || _); [apply counts_ret|].
  bind_counts 0 0 0 0; [apply counts_timer|].
  bind_counts 0 0 0 0; [by apply counts_modify|apply counts_ret].
Qed.

Lemma counts_run_end now j err : counts 0 1 (run_end now j err).
Proof.
  unfold run_end. destruct err as [e|].
  - bind_counts 0 1 0 0; [apply (counts_stats_add 0 0 0 1)|apply counts_ret].
  - bind_counts 0 1 0 0; [apply (counts_stats_add 0 0 1 0)|].
    bind_counts 0 0 0 0; [|apply counts_ret].
    destruct (_ && _); [|apply counts_ret]. unfold rescheduleJob.
    destruct (_ <=? _); [apply counts_ret|].
    bind_counts 0 0 0 0; [apply counts_Reschedule|apply counts_ret].
Qed.

(** An event keeps the balance of its counters and of the running tasks. *)
Lemma balanced_on_td {A} de dc (m : M (TimeDispatch T) A) td fl s' d :
  counts de dc m -> on_td m (mkSched td fl) = Ret s' tt ->
  eq64 (st_TotalJobsExecuted (td_stats td))
       (st_TotalJobsCompleted (td_stats td) + st_TotalJobsFailed (td_stats td) + d) ->
  Z.of_nat (length (filter (fun x : Job * bool => snd x = true) fl)) = d + de - dc ->
  balanced s'.
Proof.
  intros Hc E Hb Hd. unfold on_td in E. simpl in E. destruct (m td) as [td' r|] eqn:Em; [|done].
  injection E as <-. destruct (Hc _ _ _ Em) as [H1 H2]. unfold balanced, begun. simpl.
  rewrite H1, H2, Hb, Hd. apply reflexive_eq. lia.
Qed.

Lemma balanced_step e s s' : balanced s -> sched_step e s = Ret s' tt -> balanced s'.
Proof.
  destruct s as [td fl]. unfold balanced at 1, begun. simpl. intros Hb.
  destruct e as [now j|id| |i now|i now err]; simpl; intros E.
  - eapply balanced_on_td; [apply counts_AddJob|exact E|exact Hb|lia].
  - eapply balanced_on_td; [apply counts_RemoveJob|exact E|exact Hb|lia].
  - destruct (timer_tick _) as [t fired|]; [|done]. injection E as <-. unfold balanced, begun. simpl.
    rewrite filter_app, length_app, (filter_none _ (_ <$> _)); [by rewrite Nat.add_0_r|].
    by intros [? ?] (? & [= -> ->] & _)%list_elem_of_fmap.
  - destruct (fl !! i) as [[j []]|] eqn:Hi; [by injection E as <-| |by injection E as <-].
    eapply balanced_on_td; [apply counts_run_begin|exact E|exact Hb|].
    rewrite (filter_insert_length _ _ _ _ _ Hi) by done. lia.
  - destruct (fl !! i) as [[j []]|] eqn:Hi; [|by injection E as <-..].
    eapply balanced_on_td; [apply counts_run_end|exact E|exact Hb|].
    rewrite (filter_delete_length (fun x => snd x = true) _ _ _ Hi) by done. lia.
Qed.

(** In every state that any interleaving of events reaches
    from a new dispatcher, the number of executions is the number of
    completions plus the number of failures plus the number of tasks that are
    running, modulo 2^64. *)
Theorem stats_balanced now timer s :
  steps (mkSched (NewTimeDispatch now timer) []) s -> balanced s.
Proof. induction 1 as [|s s' e _ IH E]; [done|by apply (balanced_step e s)]. Qed.

End Balance.

(** ** Exactly one run per job *)

Section ExactlyOnce.
Context {T : Type} `{!TimerOps T WheelTimerTask, !TimerLaws T WheelTimerTask}.
Implicit Types (s : sched T) (t : T).

(** The tokens of a state: a pending timeout with its job, or a task that has
    been started. *)
Definition token : Type := option tptr * Job.

Definition toks t (fl : list (Job * bool)) : list token :=
  omap (fun p => (fun j => (Some p, j)) <$> job_of t p) (pending t)
  ++ ((fun x => (None, fst x)) <$> fl).

Definition of_id (id : Z) (l : list token) : list token := filter (fun x => job_ID (snd x) = id) l.

Definition tokens_of s (id : Z) : list token :=
  of_id id (toks (td_wheelTimer (sc_td s)) (sc_flight s)).

(** The intervals of a job fit a time.Duration; a cyclic job has one. *)
Definition job_ok (j : Job) : Prop :=
  job_DefaultInterval j * Millisecond <= max64 /\
  (job_IsCyclic j = true -> 0 < job_DefaultInterval j /\ job_DefaultInterval j * Second <= max64).

(** A client that adds a job only under an id that is not registered and
    removes one only while it is not running; dispatches that do not fail; a
    clock far from overflow. *)
Definition disciplined (e : event) s : Prop :=
  timer_room (td_wheelTimer (sc_td s)) /\
  match e with
  | EAdd _ j => job_ok j /\ td_cyclicTasks (sc_td s) !! job_ID j = None
                /\ td_tempTasks (sc_td s) !! job_ID j = None
  | ERemove id => Forall (fun x => job_ID (fst x) <> id) (sc_flight s)
  | EFinish _ _ err => err = None
  | ETick | EBegin _ _ => True
  end.

Inductive reachable (s0 : sched T) : sched T -> Prop :=
| reach_refl : reachable s0 s0
| reach_event s s' e :
    reachable s0 s -> disciplined e s -> sched_step e s = Ret s' tt -> reachable s0 s'.

(** The one token of a registered job. *)
Definition owns (p : tptr) (cyclic : bool) (l : list token) : Prop :=
  exists o j, l = [(o, j)] /\ job_IsCyclic j = cyclic /\ job_ok j /\ (o = None \/ o = Some p).

Definition reg_ok (cyc temp : option (option tptr)) (l : list token) : Prop :=
  match cyc, temp with
  | Some x, None => exists p, x = Some p /\ owns p true l
  | None, Some x => exists p, x = Some p /\ (l = [] \/ owns p false l)
  | None, None => l = []
  | Some _, Some _ => False
  end.

(** The timeout registered for an id is one of a job with that id. *)
Definition pointers_ok (td : TimeDispatch T) : Prop :=
  forall id p, td_cyclicTasks td !! id = Some (Some p) \/ td_tempTasks td !! id = Some (Some p) ->
    exists j, job_of (td_wheelTimer td) p = Some j /\ job_ID j = id.

Record sched_inv s : Prop := mkSchedInv {
  si_ok : timer_ok (td_wheelTimer (sc_td s));
  si_active : timer_active (td_wheelTimer (sc_td s));
  si_jobs : forall p, p ∈ pending (td_wheelTimer (sc_td s)) ->
              is_Some (job_of (td_wheelTimer (sc_td s)) p);
  si_ptr : pointers_ok (sc_td s);
  si_reg : forall id, reg_ok (td_cyclicTasks (sc_td s) !! id) (td_tempTasks (sc_td s) !! id)
                        (tokens_of s id);
}.

(** *** Tokens under the operations of the timer *)

Lemma of_id_perm id l l' : l ≡ₚ l' -> of_id id l ≡ₚ of_id id l'.
Proof. intros Hl. unfold of_id. by rewrite Hl. Qed.

Lemma owns_perm p c l l' : l ≡ₚ l' -> owns p c l -> owns p c l'.
Proof.
  intros Hl (o & j & -> & H). exists o, j. split; [|done].
  by apply Permutation_singleton_l in Hl.
Qed.

Lemma reg_ok_perm cyc temp l l' : l ≡ₚ l' -> reg_ok cyc temp l -> reg_ok cyc temp l'.
Proof.
  intros Hl. unfold reg_ok.
  destruct cyc, temp; try done.
  - intros (p & -> & Ho). eauto using owns_perm.
  - intros (p & -> & [->|Ho]); [apply Permutation_nil_l in Hl|]; eauto using owns_perm.
  - intros ->. by apply Permutation_nil_l in Hl.
Qed.

Lemma toks_new t t' p (j : Job) fl :
  timer_ok t -> timer_task t p = None -> pending t' ≡ₚ p :: pending t ->
  (forall q, timer_task t' q =
     if decide (q = p) then Some (NewWheelTimerTask (Some j)) else timer_task t q) ->
  toks t' fl ≡ₚ (Some p, j) :: toks t fl.
Proof.
  intros Hok Hp Hpend Htask. unfold toks. rewrite Hpend. csimpl.
  unfold job_of at 1. rewrite Htask, decide_True by done. simpl.
  apply perm_skip, Permutation_app; [|done]. apply reflexive_eq, omap_ext_in.
  intros q Hq. unfold job_of. rewrite Htask, decide_False; [done|].
  intros ->. destruct (pending_task t p Hok Hq) as [x Hx]. congruence.
Qed.

Lemma filter_tokens p (f : tptr -> option Job) (l : list tptr) :
  filter (fun x : token => fst x <> Some p) (omap (fun q => (fun j => (Some q, j)) <$> f q) l) =
  omap (fun q => (fun j => (Some q, j)) <$> f q) (filter (fun q => q <> p) l).
Proof.
  induction l as [|q l IH]; [done|]. rewrite filter_cons. csimpl.
  destruct (decide (q <> p)) as [Hne|Heq]; csimpl; destruct (f q) as [j|]; csimpl; try done.
  - rewrite filter_cons_True by (simpl; congruence). f_equal. apply IH.
  - rewrite filter_cons_False; [done|]. simpl. intros Hn. apply Heq. congruence.
Qed.

Lemma toks_cancel t p fl :
  timer_ok t -> toks (timer_cancel p t) fl = filter (fun x => fst x <> Some p) (toks t fl).
Proof.
  intros Hok. destruct (timer_cancel_spec t p Hok) as (_ & _ & _ & Hpend & Htask).
  unfold toks. rewrite Hpend, filter_app, filter_tokens. f_equal.
  - apply omap_ext_in. intros q _. unfold job_of. by rewrite Htask.
  - symmetry. apply filter_all. by intros [o j] (x & [= -> ->] & _)%list_elem_of_fmap.
Qed.

(** Firing turns pending tokens into running ones. *)
Definition fire (fired : list tptr) (x : token) : token :=
  match fst x with
  | Some p => if decide (p ∈ fired) then (None, snd x) else x
  | None => x
  end.

Lemma fire_pending fired (f : tptr -> option Job) (l : list tptr) :
  (forall p, p ∈ l -> p ∈ fired) ->
  fire fired <$> omap (fun p => (fun j => (Some p, j)) <$> f p) l = pair None <$> omap f l.
Proof.
  induction l as [|p l IH]; intros Hin; [done|]. csimpl.
  assert (p ∈ fired) by (apply Hin; by left).
  assert (forall q, q ∈ l -> q ∈ fired) by (intros q Hq; apply Hin; by right).
  destruct (f p) as [j|]; csimpl; rewrite IH by done; [|done].
  f_equal. unfold fire. simpl. by rewrite decide_True.
Qed.

Lemma fire_other fired (l : list token) :
  (forall p j, (Some p, j) ∈ l -> p ∉ fired) -> fire fired <$> l = l.
Proof.
  induction l as [|[[p|] j] l IH]; intros Hin; [done|..]; rewrite fmap_cons, IH
    by (intros q k Hq; apply (Hin q k); by right); f_equal.
  unfold fire. simpl. rewrite decide_False; [done|]. apply (Hin p j). by left.
Qed.

Lemma toks_tick t t' fired fl :
  timer_ok t -> pending t ≡ₚ fired ++ pending t' ->
  (forall q, timer_task t' q = timer_task t q) ->
  toks t' (fl ++ ((fun j => (j, false)) <$> omap (job_of t') fired)) ≡ₚ fire fired <$> toks t fl.
Proof.
  intros Hok Hpend Htask. pose proof (pending_nodup t Hok) as Hnd. rewrite Hpend in Hnd.
  apply NoDup_app in Hnd as (_ & Hdis & _).
  assert (forall l, omap (job_of t') l = omap (job_of t) l) as Hj
    by (intros l; apply omap_ext_in; intros p _; unfold job_of; by rewrite Htask).
  unfold toks. rewrite Hpend, omap_app, !fmap_app, fire_pending by done.
  rewrite (fire_other _ (omap _ (pending t'))).
  2:{ intros p j (q & Hq & Hfq)%list_elem_of_omap Hf. apply (Hdis p Hf).
      destruct (job_of t q); by simplify_eq/=. }
  rewrite (fire_other _ (_ <$> fl)) by (by intros p j (x & ? & _)%list_elem_of_fmap).
  rewrite <- (list_fmap_compose _ _ (omap _ _)), Hj.
  rewrite (omap_ext_in (fun p => (fun j => (Some p, j)) <$> job_of t' p)
    (fun p => (fun j => (Some p, j)) <$> job_of t p))
    by (intros p _; unfold job_of; by rewrite Htask).
  rewrite (app_assoc (omap _ _)). rewrite Permutation_app_comm. by rewrite <- app_assoc.
Qed.

(** *** Delays *)

Lemma first_delay_ok j : job_ok j -> 0 <= first_delay j <= max64.
Proof.
  intros [Hm _]. unfold first_delay. destruct (0 <? job_DefaultInterval j) eqn:E; bool_to_prop.
  - unfold Millisecond in *. rewrite wrap64_id by (unfold_int; lia). lia.
  - unfold max64, Second, Millisecond. lia.
Qed.

Lemma next_delay_ok j : job_ok j -> job_IsCyclic j = true -> 0 <= next_delay j <= max64.
Proof.
  intros [_ Hc] Hcy. destruct (Hc Hcy) as [H1 H2]. unfold next_delay, Second, Millisecond in *.
  rewrite wrap64_id by (unfold_int; lia). lia.
Qed.

(** *** The operations of the dispatcher, when they succeed *)

Lemma with_timer_new now (task : WheelTimerTask) delay (td : TimeDispatch T) t' p :
  timer_new now task delay (td_wheelTimer td) = Ret t' p ->
  with_timer (timer_new now task delay) td = Ret (set_timer t' td) p.
Proof. intros E. unfold with_timer. by rewrite E. Qed.

Lemma AddJob_ret now j (td : TimeDispatch T) t' p :
  timer_new now (NewWheelTimerTask (Some j)) (first_delay j) (td_wheelTimer td) = Ret t' p ->
  exists td', AddJob now (Some j) td = Ret td' None /\ td_wheelTimer td' = t' /\
    td_cyclicTasks td' = (if job_IsCyclic j then <[job_ID j := p]> (td_cyclicTasks td)
                          else td_cyclicTasks td) /\
    td_tempTasks td' = (if job_IsCyclic j then td_tempTasks td
                        else <[job_ID j := p]> (td_tempTasks td)).
Proof.
  intros E. unfold AddJob, mbind', mmodify, mret.
  rewrite (with_timer_new _ _ _ (set_stats _ td) t' p) by done.
  eexists. split; [done|]. by destruct (job_IsCyclic j).
Qed.

Lemma RescheduleJob_ret now j (td : TimeDispatch T) t' p :
  job_IsCyclic j = true -> 0 < job_DefaultInterval j ->
  timer_new now (NewWheelTimerTask (Some j)) (next_delay j) (td_wheelTimer td) = Ret t' p ->
  exists td', RescheduleJob now j td = Ret td' None /\ td_wheelTimer td' = t' /\
    td_cyclicTasks td' = <[job_ID j := p]> (td_cyclicTasks td) /\
    td_tempTasks td' = td_tempTasks td.
Proof.
  intros Hc Hi E. unfold RescheduleJob. rewrite Hc.
  replace (job_DefaultInterval j <=? 0) with false by (symmetry; apply Z.leb_gt; lia). simpl.
  unfold mbind'. rewrite (with_timer_new _ _ _ td t' p) by done. eexists. by split.
Qed.

Lemma RemoveJob_cyclic id (td : TimeDispatch T) p :
  td_cyclicTasks td !! id = Some (Some p) ->
  exists td', RemoveJob id td = Ret td' None /\
    td_wheelTimer td' = timer_cancel p (td_wheelTimer td) /\
    td_cyclicTasks td' = delete id (td_cyclicTasks td) /\ td_tempTasks td' = td_tempTasks td.
Proof.
  intros E. unfold RemoveJob, mbind', mmodify, mget. cbn [td_cyclicTasks set_stats]. rewrite E.
  eexists. by split.
Qed.

Lemma RemoveJob_temp id (td : TimeDispatch T) p :
  td_cyclicTasks td !! id = None -> td_tempTasks td !! id = Some (Some p) ->
  exists td', RemoveJob id td = Ret td' None /\
    td_wheelTimer td' = timer_cancel p (td_wheelTimer td) /\
    td_cyclicTasks td' = td_cyclicTasks td /\ td_tempTasks td' = delete id (td_tempTasks td).
Proof.
  intros E1 E2. unfold RemoveJob, mbind', mmodify, mget. cbn [td_cyclicTasks td_tempTasks set_stats].
  rewrite E1, E2. eexists. by split.
Qed.

Lemma RemoveJob_none id (td : TimeDispatch T) :
  td_cyclicTasks td !! id = None -> td_tempTasks td !! id = None ->
  exists td', RemoveJob id td = Ret td' (Some ("job not found: " +:+ Itoa id)%string) /\
    td_wheelTimer td' = td_wheelTimer td /\
    td_cyclicTasks td' = td_cyclicTasks td /\ td_tempTasks td' = td_tempTasks td.
Proof.
  intros E1 E2. unfold RemoveJob, mbind', mmodify, mget. cbn [td_cyclicTasks td_tempTasks set_stats].
  rewrite E1, E2. eexists. by split.
Qed.

(** *** Preservation *)

Lemma of_id_cons id x l :
  of_id id (x :: l) = if decide (job_ID (snd x) = id) then x :: of_id id l else of_id id l.
Proof. unfold of_id. by rewrite filter_cons. Qed.

(** A new timeout for a job that has no token. *)
Lemma inv_new_token td fl td' now j delay :
  timer_ok (td_wheelTimer td) -> timer_active (td_wheelTimer td) -> timer_room (td_wheelTimer td) ->
  0 <= delay <= max64 ->
  (forall q, q ∈ pending (td_wheelTimer td) -> is_Some (job_of (td_wheelTimer td) q)) ->
  pointers_ok td -> job_ok j ->
  of_id (job_ID j) (toks (td_wheelTimer td) fl) = [] ->
  (forall id, id <> job_ID j -> reg_ok (td_cyclicTasks td !! id) (td_tempTasks td !! id)
                                  (of_id id (toks (td_wheelTimer td) fl))) ->
  (forall id, id <> job_ID j -> td_cyclicTasks td' !! id = td_cyclicTasks td !! id /\
                                td_tempTasks td' !! id = td_tempTasks td !! id) ->
  (forall t' p, timer_new now (NewWheelTimerTask (Some j)) delay (td_wheelTimer td) = Ret t' (Some p) ->
     td_wheelTimer td' = t' /\
     td_cyclicTasks td' !! job_ID j = (if job_IsCyclic j then Some (Some p) else None) /\
     td_tempTasks td' !! job_ID j = (if job_IsCyclic j then None else Some (Some p))) ->
  sched_inv (mkSched td' fl).
Proof.
  intros Hok Ha Hr Hd Hjobs Hptr Hj Hnone Hother Hmaps Hnew.
  destruct (timer_new_spec (td_wheelTimer td) now (NewWheelTimerTask (Some j)) delay)
    as (t' & p & E & Hok' & Ha' & _ & Hp & Hpend & Htask); try done.
  destruct (Hnew t' p E) as (<- & Hcy & Htm).
  pose proof (toks_new _ _ p j fl Hok Hp Hpend Htask) as Htoks.
  split; simpl; [done|done| | |].
  - intros q Hq. rewrite Hpend in Hq. unfold job_of. rewrite Htask.
    destruct (decide (q = p)) as [->|Hne]; [by eexists|].
    apply elem_of_cons in Hq as [?|Hq]; [done|]. by apply Hjobs.
  - intros id q Hq. unfold job_of. rewrite Htask. destruct (decide (id = job_ID j)) as [->|Hne].
    + exists j. rewrite decide_True; [done|]. rewrite Hcy, Htm in Hq.
      destruct (job_IsCyclic j), Hq; congruence.
    + destruct (Hmaps id Hne) as [H1 H2]. rewrite H1, H2 in Hq.
      destruct (Hptr id q Hq) as (j' & Hj' & Hid). rewrite decide_False; [by exists j'|].
      intros ->. unfold job_of in Hj'. by rewrite Hp in Hj'.
  - intros id. unfold tokens_of. simpl.
    eapply reg_ok_perm; [symmetry; apply of_id_perm, Htoks|]. rewrite of_id_cons.
    cbn [snd]. destruct (decide (job_ID j = id)) as [<-|Hne].
    + rewrite Hnone, Hcy, Htm.
      assert (owns p (job_IsCyclic j) [(Some p, j)]) as Ho by (exists (Some p), j; auto).
      destruct (job_IsCyclic j); simpl; eauto.
    + destruct (Hmaps id) as [-> ->]; [congruence|]. apply Hother. congruence.
Qed.

(** A token of a timeout carries the job of that timeout. *)
Lemma token_job td fl i p j :
  (Some p, j) ∈ tokens_of (mkSched td fl) i -> job_of (td_wheelTimer td) p = Some j /\ job_ID j = i.
Proof.
  unfold tokens_of, of_id, toks. simpl. rewrite list_elem_of_filter, elem_of_app. simpl.
  intros [<- [Hin|Hin]]; [|by apply list_elem_of_fmap in Hin as (? & ? & _)].
  apply list_elem_of_omap in Hin as (q & _ & Hq).
  destruct (job_of _ q) eqn:E; simplify_eq/=. done.
Qed.

(** A token without a timeout belongs to a running task. *)
Lemma token_flight td fl i j :
  (None, j) ∈ tokens_of (mkSched td fl) i -> exists b, (j, b) ∈ fl /\ job_ID j = i.
Proof.
  unfold tokens_of, of_id, toks. simpl. rewrite list_elem_of_filter, elem_of_app. simpl.
  intros [<- [Hin|Hin]].
  - apply list_elem_of_omap in Hin as (q & _ & Hq). by destruct (job_of _ q).
  - apply list_elem_of_fmap in Hin as ([j' b] & [= ->] & Hin). eauto.
Qed.

(** Cancelling the timeout of an id that is not running. *)
Lemma inv_cancel td fl td' p id :
  sched_inv (mkSched td fl) ->
  td_cyclicTasks td !! id = Some (Some p) \/ td_tempTasks td !! id = Some (Some p) ->
  td_wheelTimer td' = timer_cancel p (td_wheelTimer td) ->
  (forall id', id' <> id -> td_cyclicTasks td' !! id' = td_cyclicTasks td !! id' /\
                            td_tempTasks td' !! id' = td_tempTasks td !! id') ->
  td_cyclicTasks td' !! id = None -> td_tempTasks td' !! id = None ->
  Forall (fun x => job_ID (fst x) <> id) fl ->
  (tokens_of (mkSched td fl) id = [] \/ exists c, owns p c (tokens_of (mkSched td fl) id)) ->
  sched_inv (mkSched td' fl).
Proof.
  intros [Hok Ha Hjobs Hptr Hreg] Hpid Ht Hmaps Hcy0 Htm0 Hfl Hown. simpl in *.
  destruct (timer_cancel_spec (td_wheelTimer td) p Hok) as (Hok' & Ha' & _ & Hpend & Htask).
  assert (forall i, tokens_of (mkSched td' fl) i =
    filter (fun x => fst x <> Some p) (tokens_of (mkSched td fl) i)) as Htok.
  { intros i. unfold tokens_of, of_id. simpl. by rewrite Ht, toks_cancel, filter_filter_comm. }
  assert (forall q, job_of (td_wheelTimer td') q = job_of (td_wheelTimer td) q) as Hjob
    by (intros q; unfold job_of; by rewrite Ht, Htask).
  split; simpl; [by rewrite Ht|rewrite Ht; tauto| | |].
  - intros q Hq. rewrite Ht, Hpend in Hq. rewrite Hjob.
    apply list_elem_of_filter in Hq as [_ Hq]. by apply Hjobs.
  - intros i q Hq. rewrite Hjob. destruct (decide (i = id)) as [->|Hne].
    + rewrite Hcy0, Htm0 in Hq. by destruct Hq.
    + destruct (Hmaps i Hne) as [H1 H2]. rewrite H1, H2 in Hq. by apply Hptr.
  - intros i. rewrite Htok. destruct (decide (i = id)) as [->|Hne].
    + rewrite Hcy0, Htm0. simpl. destruct Hown as [->|(c & o & j & Hl & _ & _ & Ho)]; [done|].
      rewrite Hl. destruct Ho as [-> | ->].
      * exfalso. destruct (token_flight td fl id j) as (b & Hin & Hid); [rewrite Hl; by left|].
        rewrite Forall_forall in Hfl. by apply (Hfl _ Hin).
      * by rewrite filter_cons_False by (simpl; intros Hn; by apply Hn).
    + destruct (Hmaps i Hne) as [-> ->]. rewrite filter_all; [apply Hreg|].
      intros [[q|] j] Hin Hq; simplify_eq/=. apply token_job in Hin as [Hin Hid].
      destruct (Hptr id p Hpid) as (j' & Hj' & Hid'). congruence.
Qed.

Lemma step_add now j s :
  sched_inv s -> disciplined (EAdd now j) s ->
  exists s', sched_step (EAdd now j) s = Ret s' tt /\ sched_inv s'.
Proof.
  destruct s as [td fl]. intros [Hok Ha Hjobs Hptr Hreg] (Hr & Hj & Hc0 & Ht0).
  cbn [sc_td sc_flight] in Hok, Ha, Hjobs, Hptr, Hreg, Hr, Hc0, Ht0.
  pose proof (first_delay_ok j Hj) as Hd.
  destruct (timer_new_spec (td_wheelTimer td) now (NewWheelTimerTask (Some j)) (first_delay j))
    as (t' & p & E & _); try done.
  destruct (AddJob_ret now j td t' (Some p) E) as (td' & EA & Ht & Hcy & Htm).
  exists (mkSched td' fl). unfold sched_step, on_td. cbn [sc_td sc_flight]. rewrite EA.
  split; [done|].
  apply (inv_new_token td fl td' now j (first_delay j)); try done.
  - pose proof (Hreg (job_ID j)) as Hid. by rewrite Hc0, Ht0 in Hid.
  - intros id Hne. rewrite Hcy, Htm. destruct (job_IsCyclic j); by rewrite lookup_insert_ne.
  - intros t'' p' E'. rewrite E in E'. injection E' as <- <-. rewrite Hcy, Htm.
    by destruct (job_IsCyclic j); rewrite lookup_insert_eq.
Qed.

Lemma step_remove id s :
  sched_inv s -> disciplined (ERemove id) s ->
  exists s', sched_step (ERemove id) s = Ret s' tt /\ sched_inv s'.
Proof.
  destruct s as [td fl]. intros Hinv [_ Hfl]. simpl in Hfl. pose proof (si_reg _ Hinv id) as Hid.
  unfold sched_step, on_td. cbn [sc_td sc_flight] in *.
  destruct (td_cyclicTasks td !! id) as [x|] eqn:Ecy;
    [|destruct (td_tempTasks td !! id) as [x|] eqn:Etm].
  - destruct (td_tempTasks td !! id) eqn:Etm; [done|]. destruct Hid as (p & -> & Ho).
    destruct (RemoveJob_cyclic id td p Ecy) as (td' & ER & Ht & Hcy & Htm). rewrite ER.
    eexists. split; [done|]. apply (inv_cancel td fl td' p id); rewrite ?Hcy, ?Htm; eauto.
    + intros id' Hne. by rewrite lookup_delete_ne.
    + apply lookup_delete_eq.
  - destruct Hid as (p & -> & Ho).
    destruct (RemoveJob_temp id td p Ecy Etm) as (td' & ER & Ht & Hcy & Htm). rewrite ER.
    eexists. split; [done|]. apply (inv_cancel td fl td' p id); rewrite ?Hcy, ?Htm; eauto.
    + intros id' Hne. by rewrite lookup_delete_ne.
    + apply lookup_delete_eq.
    + destruct Ho; eauto.
  - destruct (RemoveJob_none id td Ecy Etm) as (td' & ER & Ht & Hcy & Htm). rewrite ER.
    eexists. split; [done|]. destruct Hinv as [Hok Ha Hjobs Hptr Hreg]. simpl in *.
    split; simpl; unfold pointers_ok, tokens_of; simpl; rewrite Ht, ?Hcy, ?Htm; done.
Qed.

Lemma fire_job fired x : snd (fire fired x) = snd x.
Proof. unfold fire. destruct x as [[p|] j]; simpl; [by case_decide|done]. Qed.

Lemma of_id_fire fired id l : of_id id (fire fired <$> l) = fire fired <$> of_id id l.
Proof.
  unfold of_id. rewrite filter_map. f_equal. apply filter_ext_in. intros x _. by rewrite fire_job.
Qed.

Lemma reg_ok_fire fired cyc temp l : reg_ok cyc temp l -> reg_ok cyc temp (fire fired <$> l).
Proof.
  assert (forall p c l, owns p c l -> owns p c (fire fired <$> l)) as Hown.
  { intros p c l' (o & j & -> & Hc & Hj & Ho). unfold fire. simpl. destruct o as [q|]; simpl.
    - case_decide; [exists None, j|exists (Some q), j]; auto.
    - exists None, j. auto. }
  unfold reg_ok. destruct cyc, temp; try done.
  - intros (p & -> & Ho). eauto.
  - intros (p & -> & [->|Ho]); eauto.
  - by intros ->.
Qed.

Lemma step_tick s :
  sched_inv s -> disciplined ETick s ->
  exists s', sched_step ETick s = Ret s' tt /\ sched_inv s'.
Proof.
  destruct s as [td fl]. intros [Hok Ha Hjobs Hptr Hreg] [Hr _]. cbn [sc_td sc_flight] in *.
  destruct (timer_tick_spec (td_wheelTimer td) Hok Hr) as (t' & fired & E & Hok' & Ha' & Hpend & Htask).
  unfold sched_step. cbn [sc_td sc_flight]. rewrite E. eexists. split; [done|].
  assert (forall q, job_of t' q = job_of (td_wheelTimer td) q) as Hjob
    by (intros q; unfold job_of; by rewrite Htask).
  split; cbn [sc_td sc_flight td_wheelTimer set_timer]; [done|tauto| | |].
  - intros p Hp. rewrite Hjob. apply Hjobs. rewrite Hpend. apply elem_of_app. by right.
  - intros id p Hp. cbn [td_wheelTimer set_timer]. rewrite Hjob. by apply Hptr.
  - intros id. unfold tokens_of. cbn [sc_td sc_flight td_wheelTimer set_timer].
    eapply reg_ok_perm; [symmetry; by apply of_id_perm, (toks_tick (td_wheelTimer td))|].
    rewrite of_id_fire. apply reg_ok_fire, Hreg.
Qed.

(** States that differ in what the invariant does not mention. *)
Lemma inv_same td td' fl fl' :
  sched_inv (mkSched td fl) -> td_wheelTimer td' = td_wheelTimer td ->
  td_cyclicTasks td' = td_cyclicTasks td -> td_tempTasks td' = td_tempTasks td ->
  fst <$> fl' = fst <$> fl -> sched_inv (mkSched td' fl').
Proof.
  intros [Hok Ha Hjobs Hptr Hreg] Ht Hcy Htm Hfl. simpl in *.
  assert (toks (td_wheelTimer td) fl' = toks (td_wheelTimer td) fl) as Htok.
  { unfold toks. f_equal. change ((fun x : Job * bool => (None, fst x)) <$> fl')
      with ((pair None ∘ fst) <$> fl' : list token).
    change ((fun x : Job * bool => (None, fst x)) <$> fl)
      with ((pair None ∘ fst) <$> fl : list token).
    by rewrite !list_fmap_compose, Hfl. }
  split; simpl; unfold pointers_ok, tokens_of; simpl; rewrite Ht, ?Hcy, ?Htm, ?Htok; done.
Qed.

Lemma step_begin i now s :
  sched_inv s -> exists s', sched_step (EBegin i now) s = Ret s' tt /\ sched_inv s'.
Proof.
  destruct s as [td fl]. intros Hinv. unfold sched_step. cbn [sc_td sc_flight].
  destruct (fl !! i) as [[j []]|] eqn:Hi; [by eauto| |by eauto].
  eexists. split; [done|]. apply (inv_same td _ fl); try done.
  cbn [sc_flight]. rewrite list_fmap_insert. apply list_insert_id. by rewrite list_lookup_fmap, Hi.
Qed.

Lemma toks_delete t fl i j b :
  fl !! i = Some (j, b) -> toks t fl ≡ₚ (None, j) :: toks t (delete i fl).
Proof.
  intros Hi. unfold toks. rewrite (delete_Permutation fl i (j, b) Hi) at 1. rewrite fmap_cons. simpl.
  by rewrite <- Permutation_middle.
Qed.

(** The token of a running task is the only one of its id. *)
Lemma running_token td fl i j b :
  sched_inv (mkSched td fl) -> fl !! i = Some (j, b) ->
  of_id (job_ID j) (toks (td_wheelTimer td) (delete i fl)) = [] /\ job_ok j /\
  (forall id, id <> job_ID j ->
     of_id id (toks (td_wheelTimer td) (delete i fl)) ≡ₚ of_id id (toks (td_wheelTimer td) fl)) /\
  exists p, if job_IsCyclic j
            then td_cyclicTasks td !! job_ID j = Some (Some p) /\ td_tempTasks td !! job_ID j = None
            else td_cyclicTasks td !! job_ID j = None /\ td_tempTasks td !! job_ID j = Some (Some p).
Proof.
  intros [Hok Ha Hjobs Hptr Hreg] Hi. specialize (Hreg (job_ID j)). unfold tokens_of in Hreg. simpl in *.
  pose proof (toks_delete (td_wheelTimer td) fl i j b Hi) as Hd.
  pose proof (of_id_perm (job_ID j) _ _ Hd) as Hid. rewrite of_id_cons in Hid. simpl in Hid.
  rewrite decide_True in Hid by done.
  assert (forall p c, owns p c (of_id (job_ID j) (toks (td_wheelTimer td) fl)) ->
    of_id (job_ID j) (toks (td_wheelTimer td) (delete i fl)) = [] /\ job_IsCyclic j = c /\ job_ok j)
    as Hown.
  { intros p c (o & j' & Hl & Hc & Hj & _). rewrite Hl in Hid.
    apply Permutation_singleton_l in Hid. by simplify_eq. }
  assert (of_id (job_ID j) (toks (td_wheelTimer td) fl) <> []) as Hne.
  { intros Hn. rewrite Hn in Hid. by apply Permutation_nil_l in Hid. }
  unfold reg_ok in Hreg.
  destruct (td_cyclicTasks td !! job_ID j) as [x|], (td_tempTasks td !! job_ID j) as [y|]; try done.
  1: destruct Hreg as (p & -> & Ho). 2: destruct Hreg as (p & -> & [?|Ho]); [done|].
  all: destruct (Hown _ _ Ho) as (Hnone & Hc & Hj); split_and!; [done|done| |exists p; by rewrite Hc].
  all: intros id Hneq; rewrite (of_id_perm id _ _ Hd), of_id_cons; by rewrite decide_False by (simpl; congruence).
Qed.

Lemma step_finish i now s :
  sched_inv s -> disciplined (EFinish i now None) s ->
  exists s', sched_step (EFinish i now None) s = Ret s' tt /\ sched_inv s'.
Proof.
  destruct s as [td fl]. intros Hinv [Hr _]. unfold sched_step. cbn [sc_td sc_flight] in *.
  destruct (fl !! i) as [[j []]|] eqn:Hi; [|by eauto..].
  destruct (running_token td fl i j true Hinv Hi) as (Hnone & Hj & Hother & p & Hreg).
  pose proof Hinv as [Hok Ha Hjobs Hptr Hall]. cbn [sc_td sc_flight] in *.
  assert (forall id, id <> job_ID j -> reg_ok (td_cyclicTasks td !! id) (td_tempTasks td !! id)
    (of_id id (toks (td_wheelTimer td) (delete i fl)))) as Hrest.
  { intros id Hne. eapply reg_ok_perm; [symmetry; by apply Hother|]. apply Hall. }
  set (td1 := set_stats (stats_add 0 0 1 0) td).
  unfold on_td, run_end, RecordJobCompleted. cbn [sc_td sc_flight].
  destruct (job_IsCyclic j) eqn:Hc.
  - destruct (proj2 Hj Hc) as [Hint _]. pose proof (next_delay_ok j Hj Hc) as Hd.
    destruct (timer_new_spec (td_wheelTimer td) now (NewWheelTimerTask (Some j)) (next_delay j))
      as (t' & q & E & _); try done.
    destruct (RescheduleJob_ret now j td1 t' (Some q) Hc Hint E) as (td' & ER & Ht & Hcy & Htm).
    exists (mkSched td' (delete i fl)). split.
    + unfold mbind', mmodify, rescheduleJob. fold td1.
      rewrite (proj2 (Z.ltb_lt 0 _) Hint), (proj2 (Z.leb_gt _ 0) Hint). simpl.
      unfold mbind'. by rewrite ER.
    + apply (inv_new_token td _ td' now j (next_delay j)); try done.
      * intros id Hne. rewrite Hcy, Htm. by rewrite lookup_insert_ne.
      * intros t'' q' E'. rewrite E in E'. injection E' as <- <-. rewrite Hcy, Htm, Hc.
        split_and!; [done|apply lookup_insert_eq|apply Hreg].
  - eexists. split; [done|]. split; cbn [sc_td sc_flight]; try done.
    intros id. destruct (decide (id = job_ID j)) as [->|Hne]; [|by apply Hrest].
    unfold tokens_of. cbn [sc_td sc_flight]. change (td_wheelTimer (set_stats _ td)) with (td_wheelTimer td).
    change (td_cyclicTasks (set_stats _ td)) with (td_cyclicTasks td).
    change (td_tempTasks (set_stats _ td)) with (td_tempTasks td).
    destruct Hreg as [-> ->]. rewrite Hnone. simpl. eauto.
Qed.

Lemma step_inv e s :
  sched_inv s -> disciplined e s -> exists s', sched_step e s = Ret s' tt /\ sched_inv s'.
Proof.
  intros Hi Hd. destruct e as [now j|id| |i now|i now err].
  - by apply step_add.
  - by apply step_remove.
  - by apply step_tick.
  - by apply step_begin.
  - pose proof Hd as [_ ->]. by apply step_finish.
Qed.

Lemma inv_init now timer :
  timer_ok timer -> timer_active timer -> pending timer = [] ->
  sched_inv (mkSched (NewTimeDispatch now timer) []).
Proof.
  intros Hok Ha Hp. split; simpl; [done|done| | |].
  - intros p Hin. rewrite Hp in Hin. by apply elem_of_nil in Hin.
  - intros id p. simpl. rewrite lookup_empty. by intros [|].
  - intros id. rewrite !lookup_empty. unfold tokens_of, toks. simpl. by rewrite Hp.
Qed.

Lemma reachable_inv s0 s : sched_inv s0 -> reachable s0 s -> sched_inv s.
Proof.
  intros H0. induction 1 as [|s s' e _ IH Hd E]; [done|].
  destruct (step_inv e s IH Hd) as (s'' & E' & Hi). by rewrite E in E'; injection E' as <-.
Qed.

(** C5 (invariant). A scheduler that starts with an idle timer and whose
    client follows the discipline never panics, and in every state it reaches
    each registered cyclic job has exactly one token: it is pending in the
    timer, or it is running, once and never twice.  A one-time job has at most
    one, and an id that is not registered has none. *)
Theorem job_runs_exactly_once now timer s :
  timer_ok timer -> timer_active timer -> pending timer = [] ->
  reachable (mkSched (NewTimeDispatch now timer) []) s ->
  (forall e, disciplined e s -> exists s', sched_step e s = Ret s' tt) /\
  forall id,
    match td_cyclicTasks (sc_td s) !! id, td_tempTasks (sc_td s) !! id with
    | Some _, None => exists o j, tokens_of s id = [(o, j)] /\ job_IsCyclic j = true
    | None, Some _ => (length (tokens_of s id) <= 1)%nat
    | None, None => tokens_of s id = []
    | Some _, Some _ => False
    end.
Proof.
  intros Hok Ha Hp Hr. pose proof (reachable_inv _ _ (inv_init now timer Hok Ha Hp) Hr) as Hi. split.
  - intros e Hd. destruct (step_inv e s Hi Hd) as (s' & E & _). eauto.
  - intros id. pose proof (si_reg _ Hi id) as Hreg. unfold reg_ok in Hreg.
    destruct (td_cyclicTasks (sc_td s) !! id), (td_tempTasks (sc_td s) !! id); try done.
    + destruct Hreg as (p & -> & tok & j & -> & Hc & _). eauto.
    + destruct Hreg as (p & -> & [->|(tok & j & -> & _)]); simpl; lia.
Qed.

End ExactlyOnce.

(** ** The scheduler on the wheel *)

Definition wheel_sched : Type := sched (timers WheelTimerTask).

(** [NewTimeDispatch] creates a wheel of 512 buckets and ticks of 100 ms. *)
Definition new_sched (now : Z) : wheel_sched :=
  mkSched (NewTimeDispatch now (fresh_timers 512 (100 * Millisecond))) [].

Definition run_state (es : list event) : wheel_sched := outcome_state (sched_run es (new_sched 0)).

Lemma steps_run {T} `{!TimerOps T WheelTimerTask} es : forall (s0 s s' : sched T),
  steps s0 s -> sched_run es s = Ret s' tt -> steps s0 s'.
Proof.
  induction es as [|e es IH]; intros s0 s s' Hs E; simpl in E; [by injection E as <-|].
  destruct (sched_step e s) as [s1 []|] eqn:E1; [|done].
  apply (IH s0 s1 s'); [|done]. by eapply steps_event.
Qed.

(** A job that fires one tick after it is added, run to its end. *)
Definition ex_run : list event :=
  [EAdd 0 (ex_job 7 100 true None); ETick; EBegin 0 5; EFinish 0 6 None].

Lemma stats_balanced_witness :
  steps (new_sched 0) (run_state ex_run) /\ balanced (run_state ex_run).
Proof.
  assert (steps (new_sched 0) (run_state ex_run)) as Hs
    by (apply (steps_run ex_run _ (new_sched 0)); [constructor|vm_compute; reflexivity]).
  split; [exact Hs|]. exact (stats_balanced 0 (fresh_timers 512 (100 * Millisecond)) _ Hs).
Defined.

Lemma ex_room : timer_room (fresh_timers 512 (100 * Millisecond) : timers WheelTimerTask).
Proof. vm_compute. discriminate. Qed.

Lemma ex_idle : pending (fresh_timers 512 (100 * Millisecond) : timers WheelTimerTask) = [].
Proof. vm_compute. reflexivity. Qed.

Lemma ex_reachable : reachable (new_sched 0) (run_state [EAdd 0 (ex_job 7 100 true None)]).
Proof.
  apply (reach_event _ (new_sched 0) _ (EAdd 0 (ex_job 7 100 true None)));
    [apply reach_refl| |vm_compute; reflexivity].
  split; [apply ex_room|]. split_and!; [|done|done]. split; [vm_compute; discriminate|].
  intros _. split; [done|vm_compute; discriminate].
Qed.

Lemma job_runs_exactly_once_witness :
  let s := run_state [EAdd 0 (ex_job 7 100 true None)] in
  reachable (new_sched 0) s /\
  match td_cyclicTasks (sc_td s) !! 7, td_tempTasks (sc_td s) !! 7 with
  | Some _, None => exists o j, tokens_of s 7 = [(o, j)] /\ job_IsCyclic j = true
  | None, Some _ => (length (tokens_of s 7) <= 1)%nat
  | None, None => tokens_of s 7 = []
  | Some _, Some _ => False
  end.
Proof.
  intros s. split; [exact ex_reachable|].
  exact (proj2 (job_runs_exactly_once 0 (fresh_timers 512 (100 * Millisecond)) s
    (fresh_wf _ _) eq_refl ex_idle ex_reachable) 7).
Defined.

(** A cyclic job runs for the first time after its interval
    in milliseconds and from then on every interval in seconds: the second
    delay is a thousand times the first.  An interval below 100 gives a first
    delay of no tick, which the wheel rounds up to a whole revolution. *)
Theorem first_delay_unit j :
  job_ok j -> job_IsCyclic j = true ->
  first_delay j = job_DefaultInterval j * Millisecond /\
  next_delay j = job_DefaultInterval j * Second /\
  next_delay j = 1000 * first_delay j /\
  (job_DefaultInterval j < 100 -> first_delay j / (100 * Millisecond) = 0).
Proof.
  intros [Hm Hc] Hcy. destruct (Hc Hcy) as [H1 H2]. unfold first_delay, next_delay.
  rewrite (proj2 (Z.ltb_lt 0 _) H1). unfold Second, Millisecond in *.
  rewrite !wrap64_id by (unfold_int; lia). split_and!; [done|done|lia|].
  intros Hlt. apply Z.div_small. lia.
Qed.

Lemma first_delay_unit_witness :
  first_delay (ex_job 7 60 true None) = 60 * Millisecond /\
  next_delay (ex_job 7 60 true None) = 60 * Second.
Proof.
  destruct (first_delay_unit (ex_job 7 60 true None)) as (H1 & H2 & _).
  - split; [vm_compute; discriminate|]. intros _. split; [done|vm_compute; discriminate].
  - reflexivity.
  - split; [exact H1|exact H2].
Defined.

(** The discipline is needed, first part: when a job is removed
    while it runs, [RemoveJob] reports success and the end of the run schedules
    the job again, so that it keeps running under an id without job info. *)
Theorem remove_while_running_resurrects :
  let s1 := run_state [EAdd 0 (ex_job 7 100 true None); ETick; EBegin 0 5] in
  let s2 := run_state [EAdd 0 (ex_job 7 100 true None); ETick; EBegin 0 5; ERemove 7;
                       EFinish 0 6 None] in
  outcome_val (RemoveJob 7 (sc_td s1)) = Some None /\
  length (tokens_of s2 7) = 1%nat /\ td_cyclicTasks (sc_td s2) !! 7 = Some (Some 1%nat) /\
  td_jobInfos (sc_td s2) !! 7 = None.
Proof. vm_compute. done. Qed.

(** Second part: adding a job twice under one id leaves two live
    timeouts, and removing it stops only the second one. *)
Theorem duplicate_add_runs_twice :
  let add := EAdd 0 (ex_job 7 100 true None) in
  length (tokens_of (run_state [add; add]) 7) = 2%nat /\
  length (tokens_of (run_state [add; add; ERemove 7]) 7) = 1%nat /\
  td_cyclicTasks (sc_td (run_state [add; add; ERemove 7])) !! 7 = None /\
  length (sc_flight (run_state [add; add; ETick])) = 2%nat.
Proof. vm_compute. done. Qed.

(** After [Stop] the dispatcher still accepts jobs: [AddJob]
    returns no error, no timeout is pending, a restart does not change that,
    and [RemoveJob] of such a job panics on its nil timeout. *)
Theorem add_after_stop :
  match (Start 0 ;! Stop ;! Start 1 ;! AddJob 2 (Some (ex_job 7 100 true None)))
          (sc_td (new_sched 0)) with
  | Ret td err =>
      err = None /\ td_started td = true /\ td_cyclicTasks td !! 7 = Some None /\
      pending (td_wheelTimer td) = [] /\
      exists td', RemoveJob 7 td = Panic td' "nil pointer dereference"
  | Panic _ _ => False
  end.
Proof. vm_compute. split_and!; try done. by eexists. Qed.
