(* ===== verification/Agenda.v ===== *)
(** * When jobs run

    The dispatcher, the goroutines of its tasks and the timer together
    (internal/job/dispatcher), against a specification of the times at which
    jobs run.  The specification is an agenda: each registered job waits for a
    tick, runs, or is done.  The scheduler implements the agenda over every
    timer with a clock, and the hashed wheel is one. *)

From Stdlib Require Import Ascii String.
From S2P Require Import Prelude GoStrings WheelTimer TimerService JobTypes TimeDispatch Scheduler.

Open Scope list_scope.
Open Scope Z_scope.
Open Scope go_scope.

(** ** Timers with a clock *)

(** [timer_now] counts the ticks, [timer_due] is the tick of a pending timeout
    and [timer_ticks] the number of ticks a delay lasts. *)
Class TimerClock (T Task : Type) `{!TimerOps T Task, !TimerLaws T Task} := {
  timer_now : T -> Z;
  timer_due : T -> tptr -> Z;
  timer_ticks : T -> Z -> Z;
  clock_ticks t d : timer_ok t -> 0 <= d -> 0 < timer_ticks t d;
  clock_room t : timer_ok t -> timer_now t + timer_ticks t max64 + 1 <= max64 -> timer_room t;
  clock_new t now (task : Task) delay t' p :
    timer_ok t -> timer_active t -> timer_room t -> 0 <= delay <= max64 ->
    timer_new now task delay t = Ret t' (Some p) ->
    timer_now t' = timer_now t /\ timer_due t' p = timer_now t + timer_ticks t delay /\
    (forall q, q ∈ pending t -> timer_due t' q = timer_due t q) /\
    (forall d, timer_ticks t' d = timer_ticks t d);
  clock_cancel t p :
    timer_now (timer_cancel p t) = timer_now t /\
    (forall q, timer_due (timer_cancel p t) q = timer_due t q) /\
    (forall d, timer_ticks (timer_cancel p t) d = timer_ticks t d);
  clock_tick t t' fired :
    timer_ok t -> timer_room t -> timer_tick t = Ret t' fired ->
    timer_now t' = timer_now t + 1 /\
    (forall p, p ∈ pending t -> (p ∈ fired <-> timer_due t p = timer_now t + 1)) /\
    (forall p, p ∈ pending t' -> timer_due t' p = timer_due t p) /\
    (forall d, timer_ticks t' d = timer_ticks t d);
}.

Section WheelClock.
Context {Task : Type}.
Implicit Types st : timers Task.

Definition wheel_now st : Z := currentTick (hwt st).
Definition wheel_due st (p : tptr) : Z :=
  due (wheelSize (hwt st)) (currentTick (hwt st)) (ptr_wi (mem st) p).
Definition wheel_ticks st (delay : Z) : Z :=
  due_in (wheelSize (hwt st)) (delay / tickDuration (hwt st)).

Lemma wheel_pending_fresh st p : wheel_wf st -> p ∈ wheel_pending st -> (p < nextp st)%nat.
Proof.
  intros Hwf [_ (i & b & Hb & Hp)%(wheel_elem st p Hwf)]%list_elem_of_filter.
  by apply (bucket_ptr_fresh st i b p).
Qed.

Lemma wheel_clock_tick st st' fired :
  wheel_wf st -> currentTick (hwt st) + 1 <= max64 -> tick st = Ret st' fired ->
  (forall p, p ∈ wheel_pending st -> (p ∈ fired <-> wheel_due st p = wheel_now st + 1)) /\
  (forall p, p ∈ wheel_pending st' -> wheel_due st' p = wheel_due st p).
Proof.
  intros Hwf Hr Ht. pose proof (wheel_tick_pending st st' fired Hwf Hr Ht) as Hperm.
  destruct (tick_eq st Hwf Hr) as (b & Hb & Heq). rewrite Heq in Ht.
  pose proof (wf_size _ Hwf) as HW. pose proof (tick_bucket_due st b Hwf Hb) as Hdue.
  pose proof (wheel_join_nodup st Hwf) as Hnd.
  assert (forall p, p ∈ wheel_pending st -> (p ∈ fired <-> wheel_due st p = wheel_now st + 1)) as Hf.
  { intros p [Hl (i & c & Hc & Hp)%(wheel_elem st p Hwf)]%list_elem_of_filter.
    unfold wheel_due, wheel_now. injection Ht as _ <-. rewrite list_elem_of_filter. split.
    - intros [[_ Hw] Hpb]. by apply Hdue.
    - intros Hd. assert (p ∈ b) as Hpb; [|split; [split; [done|by apply Hdue]|done]].
      destruct (wf_bucket _ Hwf _ _ _ Hc Hp) as (t & Hpt & _ & Hm & _).
      apply (f_equal (fun x => x mod wheelSize (hwt st))) in Hd.
      rewrite due_mod, (ptr_wi_Some _ _ _ Hpt), Hm in Hd by done.
      rewrite <- Hd, Nat2Z.id, Hc in Hb. by injection Hb as <-. }
  split; [exact Hf|]. intros p Hp.
  assert (p ∈ wheel_pending st) as Hp0 by (rewrite Hperm; apply elem_of_app; by right).
  assert (p ∉ fired) as Hnf.
  { intros Hin. assert (NoDup (wheel_pending st)) as Hnp by by apply NoDup_filter.
    rewrite Hperm in Hnp. apply NoDup_app in Hnp as (_ & Hdis & _). by apply (Hdis p). }
  rewrite (Hf p Hp0) in Hnf. unfold wheel_due, wheel_now in *. injection Ht as <- _. simpl.
  by apply due_step.
Qed.

#[export] Program Instance wheel_clock : TimerClock (timers Task) Task := {
  timer_now := wheel_now;
  timer_due := wheel_due;
  timer_ticks := wheel_ticks;
}.
Next Obligation.
  intros st d Hwf Hd. simpl in *. unfold wheel_ticks, due_in.
  pose proof (Z.div_pos d (tickDuration (hwt st)) Hd (wf_duration _ Hwf)).
  pose proof (wf_size _ Hwf). case_match; bool_to_prop; lia.
Qed.
Next Obligation.
  intros st Hwf. simpl. unfold wheel_now, wheel_ticks, wheel_room, due_in.
  pose proof (wf_size _ Hwf). case_match; bool_to_prop; lia.
Qed.
Next Obligation.
  intros st now task delay st' p Hwf Ha Hr Hd E. simpl in *.
  pose proof (delay_room st delay Hwf Hr Hd) as Hroom.
  rewrite NewTimeout_eq in E by (done || lia). injection E as <- <-.
  unfold wheel_now, wheel_due, wheel_ticks. simpl. split_and!; try done.
  - unfold ptr_wi. rewrite lookup_insert_eq. simpl. apply due_new; [apply Hwf|].
    apply Z.div_pos; [lia|apply Hwf].
  - intros q Hq%(wheel_pending_fresh st q Hwf). rewrite ptr_wi_insert_ne; [done|lia].
Qed.
Next Obligation.
  intros st p. split_and!; try done. intros q. simpl. unfold wheel_due. by rewrite cancel_wi.
Qed.
Next Obligation.
  intros st st' fired Hwf Hr E. simpl in *. unfold wheel_room in Hr.
  pose proof (wf_duration _ Hwf). pose proof (wf_tick _ Hwf).
  assert (0 <= max64 / tickDuration (hwt st)) by (apply Z.div_pos; unfold max64; lia).
  destruct (wheel_clock_tick st st' fired Hwf) as [Hf Hd]; [lia|done|].
  destruct (tick_frame _ _ _ E) as (_ & HW & Htd & Hct & _).
  split_and!; try done.
  - unfold wheel_now. rewrite Hct. apply wrap64_id. unfold_int. lia.
  - intros d. unfold wheel_ticks. by rewrite HW, Htd.
Qed.

End WheelClock.

(** ** The agenda *)

(** [Waiting d]: the job runs at tick [d].  [Done]: a one-time job that has
    run and is still registered. *)
Inductive phase :=
| Waiting (d : Z)
| Running
| Done.

#[export] Instance phase_eq_dec : EqDecision phase.
Proof. solve_decision. Defined.

Record agenda := mkAgenda {
  ag_now : Z;
  ag_jobs : gmap Z (Job * phase);
}.

Inductive agenda_op :=
| AgAdd (j : Job)
| AgRemove (id : Z)
| AgTick
| AgFinish (id : Z).

Section Specification.
(** [ticks d] is the number of ticks of a delay. *)
Context (ticks : Z -> Z).
Implicit Types a : agenda.

Definition ph_tick (now : Z) (x : Job * phase) : Job * phase :=
  if decide (snd x = Waiting now) then (fst x, Running) else x.

Definition ph_finish (now : Z) (x : Job * phase) : Job * phase :=
  if decide (snd x = Running)
  then (fst x, if job_IsCyclic (fst x) then Waiting (now + ticks (next_delay (fst x))) else Done)
  else x.

(** The jobs that start at the next tick. *)
Definition ag_due a : gset Z := dom (filter (fun x => x.2.2 = Waiting (ag_now a + 1)) (ag_jobs a)).

Definition ag_step (op : agenda_op) a : agenda :=
  match op with
  | AgAdd j =>
      mkAgenda (ag_now a) (<[job_ID j := (j, Waiting (ag_now a + ticks (first_delay j)))]> (ag_jobs a))
  | AgRemove id => mkAgenda (ag_now a) (delete id (ag_jobs a))
  | AgTick => mkAgenda (ag_now a + 1) (ph_tick (ag_now a + 1) <$> ag_jobs a)
  | AgFinish id => mkAgenda (ag_now a) (alter (ph_finish (ag_now a)) id (ag_jobs a))
  end.

(** A run; the output has the jobs started at each tick. *)
Fixpoint ag_exec (ops : list agenda_op) a : agenda * list (gset Z) :=
  match ops with
  | [] => (a, [])
  | AgTick :: ops =>
      let '(a', outs) := ag_exec ops (ag_step AgTick a) in (a', ag_due a :: outs)
  | op :: ops => ag_exec ops (ag_step op a)
  end.

(** The registered jobs change by additions and removals only. *)
Definition ag_registered a : gmap Z Job := fst <$> ag_jobs a.

Lemma ag_registered_step op a :
  ag_registered (ag_step op a) =
    match op with
    | AgAdd j => <[job_ID j := j]> (ag_registered a)
    | AgRemove id => delete id (ag_registered a)
    | AgTick | AgFinish _ => ag_registered a
    end.
Proof.
  unfold ag_registered. destruct op as [j|id| |id]; cbn [ag_step ag_jobs].
  - by rewrite fmap_insert.
  - by rewrite fmap_delete.
  - rewrite <- map_fmap_compose. apply map_fmap_ext. intros id [j ph] _. unfold compose, ph_tick.
    by case_decide.
  - apply map_eq. intros i. rewrite !lookup_fmap. destruct (decide (id = i)) as [<-|Hne].
    + rewrite lookup_alter_eq. destruct (ag_jobs a !! id) as [[k ph]|]; [|done]. cbn.
      unfold ph_finish. by case_decide.
    + by rewrite lookup_alter_ne.
Qed.

End Specification.

(** ** The runs of one job *)

Inductive mark :=
| MStart (t : Z)
| MEnd (t : Z).

(** What a cyclic job does from the moment it waits for tick [due] up to tick
    [now]: it starts at [due] exactly, and when it has ended it waits again. *)
Fixpoint periodic (period due : Z) (l : list mark) (now : Z) : Prop :=
  match l with
  | [] => now < due
  | [MStart t] => t = due /\ due <= now
  | MStart t :: MEnd e :: l => t = due /\ due <= e <= now /\ periodic period (e + period) l now
  | MEnd _ :: _ | MStart _ :: MStart _ :: _ => False
  end.

(** ** The scheduler implements the agenda *)

Section Agenda.
Context {T : Type} `{!TimerOps T WheelTimerTask, !TimerLaws T WheelTimerTask,
                     !TimerClock T WheelTimerTask}.
Implicit Types (s : sched T) (t : T) (a : agenda).

(** What an event does to the agenda.  The beginning of a run only counts. *)
Definition event_op (e : event) s : list agenda_op :=
  match e with
  | EAdd _ j => [AgAdd j]
  | ERemove id => [AgRemove id]
  | ETick => [AgTick]
  | EBegin _ _ => []
  | EFinish i _ _ =>
      match sc_flight s !! i with
      | Some (j, true) => [AgFinish (job_ID j)]
      | _ => []
      end
  end.

(** The ids of the tasks a step puts into flight. *)
Definition started_jobs s s' : list Z :=
  (fun x => job_ID (fst x)) <$> drop (length (sc_flight s)) (sc_flight s').

(** A run of the scheduler with what it does to the agenda, and the ids of the
    jobs it starts at each tick. *)
Fixpoint sched_trace (es : list event) s
    : outcome (sched T) (list agenda_op * list (list Z)) :=
  match es with
  | [] => Ret s ([], [])
  | e :: es =>
      match sched_step e s with
      | Ret s' _ =>
          match sched_trace es s' with
          | Ret s'' (ops, outs) =>
              Ret s'' (event_op e s ++ ops,
                       match e with ETick => started_jobs s s' :: outs | _ => outs end)
          | Panic s'' w => Panic s'' w
          end
      | Panic s' w => Panic s' w
      end
  end.

(** Every event follows the discipline in the state where it comes. *)
Fixpoint disciplined_run (es : list event) s : Prop :=
  match es with
  | [] => True
  | e :: es =>
      disciplined e s /\
      match sched_step e s with Ret s' _ => disciplined_run es s' | Panic _ _ => True end
  end.

(** *** Simulation *)

Definition phase_tokens (due : tptr -> Z) (l : list token) (j : Job) (ph : phase) : Prop :=
  match ph with
  | Waiting d => exists p, l = [(Some p, j)] /\ due p = d
  | Running => l = [(None, j)]
  | Done => l = [] /\ job_IsCyclic j = false
  end.

Definition job_phase (due : tptr -> Z) (cyc temp : option (option tptr)) (l : list token)
    (id : Z) (x : option (Job * phase)) : Prop :=
  match x with
  | None => cyc = None /\ temp = None
  | Some (j, ph) =>
      job_ID j = id /\ is_Some (if job_IsCyclic j then cyc else temp) /\ phase_tokens due l j ph
  end.

Definition job_phase_at s a (id : Z) : Prop :=
  job_phase (timer_due (td_wheelTimer (sc_td s))) (td_cyclicTasks (sc_td s) !! id)
    (td_tempTasks (sc_td s) !! id) (tokens_of s id) id (ag_jobs a !! id).

Record sched_sim (ticks : Z -> Z) s a : Prop := mkSim {
  sm_inv : sched_inv s;
  sm_now : ag_now a = timer_now (td_wheelTimer (sc_td s));
  sm_ticks : forall d, timer_ticks (td_wheelTimer (sc_td s)) d = ticks d;
  sm_job : forall id, job_phase_at s a id;
}.

Lemma phase_tokens_perm due due' l l' j ph :
  l ≡ₚ l' -> (forall p k, (Some p, k) ∈ l -> due' p = due p) ->
  phase_tokens due l j ph -> phase_tokens due' l' j ph.
Proof.
  intros Hl Hdue. destruct ph as [d| |]; simpl.
  - intros (p & -> & Hd). apply Permutation_singleton_l in Hl as <-.
    exists p. split; [done|]. rewrite (Hdue p j); [done|by left].
  - intros ->. by apply Permutation_singleton_l in Hl.
  - intros [-> ?]. by apply Permutation_nil_l in Hl.
Qed.

Lemma job_phase_perm due due' cyc temp l l' id x :
  l ≡ₚ l' -> (forall p k, (Some p, k) ∈ l -> due' p = due p) ->
  job_phase due cyc temp l id x -> job_phase due' cyc temp l' id x.
Proof.
  intros Hl Hdue. destruct x as [[j ph]|]; [|done]. intros (? & ? & H). split_and!; [done..|].
  by apply (phase_tokens_perm due due' l).
Qed.

(** A token with a timeout is one of a pending timeout. *)
Lemma token_pending s id p j :
  (Some p, j) ∈ tokens_of s id -> p ∈ pending (td_wheelTimer (sc_td s)).
Proof.
  unfold tokens_of, of_id, toks. rewrite list_elem_of_filter, elem_of_app.
  intros [_ [(q & Hq & Hf)%list_elem_of_omap|(? & ? & _)%list_elem_of_fmap]]; [|done].
  destruct (job_of _ q); by simplify_eq/=.
Qed.

(** The phases of the ids that an event does not touch. *)
Lemma job_phase_frame ticks s s' a a' id :
  sched_sim ticks s a ->
  tokens_of s id ≡ₚ tokens_of s' id ->
  (forall p, p ∈ pending (td_wheelTimer (sc_td s)) ->
     timer_due (td_wheelTimer (sc_td s')) p = timer_due (td_wheelTimer (sc_td s)) p) ->
  td_cyclicTasks (sc_td s') !! id = td_cyclicTasks (sc_td s) !! id ->
  td_tempTasks (sc_td s') !! id = td_tempTasks (sc_td s) !! id ->
  ag_jobs a' !! id = ag_jobs a !! id ->
  job_phase_at s' a' id.
Proof.
  intros Hs Ht Hd Hc Htm Ha. unfold job_phase_at. rewrite Hc, Htm, Ha.
  eapply job_phase_perm; [exact Ht| |apply (sm_job _ _ _ Hs)].
  intros p k Hp%token_pending. by apply Hd.
Qed.

(** The tokens after a new timeout for job [j]. *)
Lemma tokens_new td fl td' now j delay t' p :
  timer_ok (td_wheelTimer td) -> timer_active (td_wheelTimer td) -> timer_room (td_wheelTimer td) ->
  0 <= delay <= max64 ->
  timer_new now (NewWheelTimerTask (Some j)) delay (td_wheelTimer td) = Ret t' (Some p) ->
  td_wheelTimer td' = t' ->
  forall id, tokens_of (mkSched td' fl) id ≡ₚ
    (if decide (job_ID j = id) then [(Some p, j)] else []) ++ tokens_of (mkSched td fl) id.
Proof.
  intros Hok Ha Hr Hd E Ht id.
  destruct (timer_new_spec (td_wheelTimer td) now (NewWheelTimerTask (Some j)) delay)
    as (t1 & p1 & E1 & _ & _ & _ & Hp & Hpend & Htask); try done.
  rewrite E in E1. injection E1 as <- <-. unfold tokens_of. simpl. rewrite Ht.
  rewrite (of_id_perm id _ _ (toks_new _ _ p j fl Hok Hp Hpend Htask)), of_id_cons. simpl.
  by case_decide.
Qed.

Lemma sim_add ticks now j s a s' :
  sched_sim ticks s a -> disciplined (EAdd now j) s -> sched_step (EAdd now j) s = Ret s' tt ->
  sched_sim ticks s' (ag_step ticks (AgAdd j) a).
Proof.
  intros Hs Hdis E. destruct (step_add now j s (sm_inv _ _ _ Hs) Hdis) as (s1 & E1 & Hinv').
  rewrite E in E1. injection E1 as <-.
  destruct Hdis as (Hr & Hj & Hc0 & Ht0). destruct s as [td fl]. pose proof Hs as [Hinv Hnow Htk Hjobs].
  pose proof Hinv as [Hok Ha _ _ Hreg]. cbn [sc_td sc_flight] in *.
  pose proof (first_delay_ok j Hj) as Hd.
  destruct (timer_new_spec (td_wheelTimer td) now (NewWheelTimerTask (Some j)) (first_delay j))
    as (t' & p & En & _); try done.
  destruct (AddJob_ret now j td t' (Some p) En) as (td' & EA & Ht & Hcy & Htm).
  unfold sched_step, on_td in E. cbn [sc_td sc_flight] in E. rewrite EA in E. injection E as <-.
  destruct (clock_new _ _ _ _ _ _ Hok Ha Hr Hd En) as (Hnow' & Hdue & Hdues & Hticks).
  pose proof (tokens_new td fl td' now j _ t' p Hok Ha Hr Hd En Ht) as Htok.
  split; cbn [sc_td sc_flight ag_step ag_now]; [done|congruence|intros d; by rewrite Ht, Hticks|].
  intros id. destruct (decide (job_ID j = id)) as [<-|Hne].
  - unfold job_phase_at. cbn [ag_jobs ag_step]. rewrite lookup_insert_eq. cbn [sc_td].
    specialize (Htok (job_ID j)). rewrite decide_True in Htok by done.
    assert (tokens_of (mkSched td fl) (job_ID j) = []) as Hnil.
    { specialize (Hreg (job_ID j)). by rewrite Hc0, Ht0 in Hreg. }
    rewrite Hnil in Htok. symmetry in Htok. apply Permutation_singleton_l in Htok.
    split_and!; [done| |].
    + rewrite Hcy, Htm. destruct (job_IsCyclic j); rewrite lookup_insert_eq; eauto.
    + exists p. rewrite Ht, Hdue, Hnow, Htk. done.
  - apply (job_phase_frame ticks (mkSched td fl) _ a); try done.
    + rewrite Htok, decide_False by done. done.
    + intros q Hq. cbn [sc_td] in *. rewrite Ht. by apply Hdues.
    + cbn [sc_td]. rewrite Hcy. destruct (job_IsCyclic j); [by rewrite lookup_insert_ne|done].
    + cbn [sc_td]. rewrite Htm. destruct (job_IsCyclic j); [done|by rewrite lookup_insert_ne].
    + cbn [ag_jobs ag_step]. by rewrite lookup_insert_ne.
Qed.

(** Cancelling the timeout of [id] leaves the tokens of the other ids. *)
Lemma tokens_cancel td fl td' p id i :
  sched_inv (mkSched td fl) ->
  td_cyclicTasks td !! id = Some (Some p) \/ td_tempTasks td !! id = Some (Some p) ->
  td_wheelTimer td' = timer_cancel p (td_wheelTimer td) -> i <> id ->
  tokens_of (mkSched td' fl) i = tokens_of (mkSched td fl) i.
Proof.
  intros [Hok _ _ Hptr _] Hpid Ht Hne. cbn [sc_td] in *.
  assert (tokens_of (mkSched td' fl) i =
    filter (fun x => fst x <> Some p) (tokens_of (mkSched td fl) i)) as ->.
  { unfold tokens_of, of_id. simpl. by rewrite Ht, toks_cancel, filter_filter_comm. }
  apply filter_all. intros [[q|] j] Hin Hq; simplify_eq/=.
  apply token_job in Hin as [Hin Hid]. destruct (Hptr id p Hpid) as (j' & Hj' & Hid'). congruence.
Qed.

(** Any step that forgets [id] and at most cancels its timeout. *)
Lemma sim_forget ticks td fl td' a id (c : option tptr) :
  sched_sim ticks (mkSched td fl) a -> sched_inv (mkSched td' fl) ->
  match c with
  | Some p => (td_cyclicTasks td !! id = Some (Some p) \/ td_tempTasks td !! id = Some (Some p)) /\
              td_wheelTimer td' = timer_cancel p (td_wheelTimer td)
  | None => td_wheelTimer td' = td_wheelTimer td
  end ->
  td_cyclicTasks td' = delete id (td_cyclicTasks td) ->
  td_tempTasks td' = delete id (td_tempTasks td) ->
  sched_sim ticks (mkSched td' fl) (ag_step ticks (AgRemove id) a).
Proof.
  intros Hs Hinv' Hc Hcy Htm. pose proof Hs as [Hinv Hnow Htk Hjobs]. cbn [sc_td] in *.
  assert (timer_now (td_wheelTimer td') = timer_now (td_wheelTimer td) /\
    (forall q, timer_due (td_wheelTimer td') q = timer_due (td_wheelTimer td) q) /\
    (forall d, timer_ticks (td_wheelTimer td') d = timer_ticks (td_wheelTimer td) d))
    as (Hn & Hd & Hk).
  { destruct c as [p|]; [destruct Hc as [_ ->]; apply clock_cancel|by rewrite Hc]. }
  split; cbn [sc_td ag_step ag_now]; [done|congruence|intros d; by rewrite Hk|].
  intros i. destruct (decide (i = id)) as [->|Hne].
  - unfold job_phase_at. cbn [ag_step ag_jobs sc_td]. rewrite Hcy, Htm, !lookup_delete_eq. done.
  - apply (job_phase_frame ticks (mkSched td fl) _ a); cbn [sc_td ag_step ag_jobs]; try done.
    + destruct c as [p|]; [by rewrite (tokens_cancel td fl td' p id i) by (done || apply Hc)|].
      unfold tokens_of. cbn [sc_td]. by rewrite Hc.
    + by rewrite Hcy, lookup_delete_ne.
    + by rewrite Htm, lookup_delete_ne.
    + by rewrite lookup_delete_ne.
Qed.

Lemma sim_remove ticks id s a s' :
  sched_sim ticks s a -> disciplined (ERemove id) s -> sched_step (ERemove id) s = Ret s' tt ->
  sched_sim ticks s' (ag_step ticks (AgRemove id) a).
Proof.
  intros Hs Hdis E. destruct (step_remove id s (sm_inv _ _ _ Hs) Hdis) as (s1 & E1 & Hinv').
  rewrite E in E1. injection E1 as <-. destruct s as [td fl].
  pose proof (si_reg _ (sm_inv _ _ _ Hs) id) as Hid.
  unfold sched_step, on_td in E. cbn [sc_td sc_flight] in *.
  destruct (td_cyclicTasks td !! id) as [x|] eqn:Ecy;
    [|destruct (td_tempTasks td !! id) as [x|] eqn:Etm].
  - destruct (td_tempTasks td !! id) eqn:Etm; [done|]. destruct Hid as (p & -> & _).
    destruct (RemoveJob_cyclic id td p Ecy) as (td' & ER & Ht & Hcy & Htm). rewrite ER in E.
    injection E as <-. apply (sim_forget ticks td fl td' a id (Some p)); try done; [by auto|].
    by rewrite Htm, delete_id.
  - destruct Hid as (p & -> & _).
    destruct (RemoveJob_temp id td p Ecy Etm) as (td' & ER & Ht & Hcy & Htm). rewrite ER in E.
    injection E as <-. apply (sim_forget ticks td fl td' a id (Some p)); try done; [by auto|].
    by rewrite Hcy, delete_id.
  - destruct (RemoveJob_none id td Ecy Etm) as (td' & ER & Ht & Hcy & Htm). rewrite ER in E.
    injection E as <-. apply (sim_forget ticks td fl td' a id None); try done.
    + by rewrite Hcy, delete_id.
    + by rewrite Htm, delete_id.
Qed.

Lemma sim_begin ticks i now s a s' :
  sched_sim ticks s a -> sched_step (EBegin i now) s = Ret s' tt -> sched_sim ticks s' a.
Proof.
  intros Hs E. destruct (step_begin i now s (sm_inv _ _ _ Hs)) as (s1 & E1 & Hinv').
  rewrite E in E1. injection E1 as <-. destruct s as [td fl].
  unfold sched_step in E. cbn [sc_td sc_flight] in E.
  destruct (fl !! i) as [[j []]|] eqn:Hi; [by injection E as <-| |by injection E as <-].
  injection E as <-. destruct Hs as [Hinv Hnow Htk Hjobs]. split; [done..|].
  intros id. specialize (Hjobs id). unfold job_phase_at in *.
  replace (tokens_of _ id) with (tokens_of (mkSched td fl) id); [done|].
  unfold tokens_of, toks. cbn [sc_td sc_flight]. do 2 f_equal.
  change ((fun x : Job * bool => (None, fst x)) <$> ?l) with ((pair None ∘ fst) <$> l : list token).
  rewrite !list_fmap_compose, list_fmap_insert. f_equal. symmetry.
  apply list_insert_id. by rewrite list_lookup_fmap, Hi.
Qed.

Lemma ag_due_spec a id :
  id ∈ ag_due a <-> exists j, ag_jobs a !! id = Some (j, Waiting (ag_now a + 1)).
Proof.
  unfold ag_due. rewrite elem_of_dom. unfold is_Some. split.
  - intros [[j ph] [H1 H2]%map_lookup_filter_Some]. simpl in H2. subst. eauto.
  - intros [j Hj]. exists (j, Waiting (ag_now a + 1)). by apply map_lookup_filter_Some.
Qed.

Lemma phase_fire due fired now l j ph :
  (forall p k, (Some p, k) ∈ l -> (p ∈ fired <-> due p = now)) ->
  phase_tokens due l j ph ->
  phase_tokens due (fire fired <$> l) j (snd (ph_tick now (j, ph))).
Proof.
  intros Hf Hp. unfold ph_tick. cbn [fst snd]. destruct ph as [d| |]; simpl in Hp.
  - destruct Hp as (p & -> & <-). specialize (Hf p j ltac:(by left)). cbn [fmap list_fmap].
    unfold fire. cbn [fst snd]. case_decide as Hd1; case_decide as Hd2; simpl.
    + done.
    + exfalso. apply Hd2. f_equal. by apply Hf.
    + exfalso. apply Hd1, Hf. congruence.
    + by exists p.
  - rewrite decide_False by done. by subst.
  - destruct Hp as [-> ?]. rewrite decide_False by done. done.
Qed.

Lemma NoDup_fmap_omap {A B C} (f : A -> option B) (g : B -> C) (l : list A) :
  NoDup l ->
  (forall x y b c, x ∈ l -> y ∈ l -> f x = Some b -> f y = Some c -> g b = g c -> x = y) ->
  NoDup (g <$> omap f l).
Proof.
  induction 1 as [|x l Hx Hl IH]; intros Hinj; [apply NoDup_nil_2|]. csimpl.
  assert (NoDup (g <$> omap f l)) as Hnd.
  { apply IH. intros y z b c Hy Hz. apply Hinj; by right. }
  destruct (f x) as [b|] eqn:Hb; [|done]. csimpl. apply NoDup_cons_2; [|done].
  intros (c & Hg & (y & Hy & Hc)%list_elem_of_omap)%list_elem_of_fmap. apply Hx.
  by rewrite (Hinj x y b c) by (done || (by left) || (by right)).
Qed.

(** A token determines the phase of its job. *)
Lemma sim_token ticks s a id o j :
  sched_sim ticks s a -> (o, j) ∈ tokens_of s id ->
  tokens_of s id = [(o, j)] /\
  ag_jobs a !! id = Some (j, match o with
                             | Some p => Waiting (timer_due (td_wheelTimer (sc_td s)) p)
                             | None => Running
                             end).
Proof.
  intros Hs Hin. pose proof (sm_job _ _ _ Hs id) as Hp. unfold job_phase_at in Hp.
  destruct (ag_jobs a !! id) as [[i [d| |]]|].
  - destruct Hp as (_ & _ & p & Hl & Hd). rewrite Hl in Hin. apply list_elem_of_singleton in Hin.
    simplify_eq. done.
  - destruct Hp as (_ & _ & Hl). rewrite Hl in Hin. apply list_elem_of_singleton in Hin.
    by simplify_eq.
  - destruct Hp as (_ & _ & Hl & _). rewrite Hl in Hin. by apply elem_of_nil in Hin.
  - destruct Hp as [H1 H2]. pose proof (si_reg _ (sm_inv _ _ _ Hs) id) as Hl.
    rewrite H1, H2 in Hl. simpl in Hl. rewrite Hl in Hin. by apply elem_of_nil in Hin.
Qed.

Lemma pending_token td fl p j :
  p ∈ pending (td_wheelTimer td) -> job_of (td_wheelTimer td) p = Some j ->
  (Some p, j) ∈ tokens_of (mkSched td fl) (job_ID j).
Proof.
  intros Hp Hj. unfold tokens_of, of_id, toks. cbn [sc_td sc_flight].
  apply list_elem_of_filter. split; [done|]. apply elem_of_app. left.
  apply list_elem_of_omap. exists p. split; [done|]. by rewrite Hj.
Qed.

(** The tasks that a tick puts into flight are those of the jobs that are due. *)
Lemma tick_started ticks td fl a t' fired :
  sched_sim ticks (mkSched td fl) a -> timer_room (td_wheelTimer td) ->
  timer_tick (td_wheelTimer td) = Ret t' fired ->
  let ids := job_ID <$> omap (job_of (td_wheelTimer td)) fired in
  NoDup ids /\ forall id, id ∈ ids <-> id ∈ ag_due a.
Proof.
  intros Hs Hr Et ids. pose proof Hs as [[Hok _ _ _ _] Hnow _ Hjobs]. cbn [sc_td] in *.
  destruct (timer_tick_spec (td_wheelTimer td) Hok Hr) as (t1 & f1 & E1 & _ & _ & Hpend & _).
  rewrite Et in E1. injection E1 as <- <-.
  destruct (clock_tick _ _ _ Hok Hr Et) as (_ & Hf & _).
  pose proof (pending_nodup _ Hok) as Hnd. rewrite Hpend in Hnd. apply NoDup_app in Hnd as (Hnd & _).
  assert (forall p j, p ∈ fired -> job_of (td_wheelTimer td) p = Some j ->
    (Some p, j) ∈ tokens_of (mkSched td fl) (job_ID j)) as Htok.
  { intros p j Hp. apply pending_token. rewrite Hpend. apply elem_of_app. by left. }
  split.
  - apply NoDup_fmap_omap; [done|]. intros p q j k Hp Hq Hj Hk Hid.
    destruct (sim_token _ _ _ _ _ _ Hs (Htok p j Hp Hj)) as [Hl _].
    pose proof (Htok q k Hq Hk) as Hin. rewrite <- Hid, Hl in Hin.
    apply list_elem_of_singleton in Hin. congruence.
  - intros id. unfold ids. rewrite ag_due_spec, list_elem_of_fmap. split.
    + intros (j & -> & (p & Hp & Hj)%list_elem_of_omap). exists j.
      destruct (sim_token _ _ _ _ _ _ Hs (Htok p j Hp Hj)) as [_ ->]. cbn [sc_td].
      rewrite (proj1 (Hf p ltac:(rewrite Hpend; apply elem_of_app; by left)) Hp). by rewrite Hnow.
    + intros [j Hj]. specialize (Hjobs id). unfold job_phase_at in Hjobs. rewrite Hj in Hjobs.
      destruct Hjobs as (Hid & _ & p & Hl & Hd). cbn [sc_td] in Hd. exists j. split; [done|].
      assert ((Some p, j) ∈ tokens_of (mkSched td fl) id) as Hin by (rewrite Hl; by left).
      apply list_elem_of_omap. exists p. split; [|by apply token_job in Hin as [Hin _]].
      apply Hf; [by apply (token_pending (mkSched td fl) id p j)|]. by rewrite Hd, Hnow.
Qed.

Lemma sched_sim_tick ticks s a s' :
  sched_sim ticks s a -> disciplined ETick s -> sched_step ETick s = Ret s' tt ->
  sched_sim ticks s' (ag_step ticks AgTick a) /\
  NoDup (started_jobs s s') /\ forall id, id ∈ started_jobs s s' <-> id ∈ ag_due a.
Proof.
  intros Hs Hdis E. destruct (step_tick s (sm_inv _ _ _ Hs) Hdis) as (s1 & E1 & Hinv').
  rewrite E in E1. injection E1 as <-. destruct s as [td fl]. destruct Hdis as [Hr _].
  pose proof Hs as [Hinv Hnow Htk Hjobs]. pose proof Hinv as [Hok _ _ _ _]. cbn [sc_td sc_flight] in *.
  destruct (timer_tick_spec (td_wheelTimer td) Hok Hr) as (t' & fired & Et & _ & _ & Hpend & Htask).
  destruct (clock_tick _ _ _ Hok Hr Et) as (Hnow' & Hf & Hdue & Htk').
  unfold sched_step in E. cbn [sc_td sc_flight] in E. rewrite Et in E. injection E as <-.
  set (fl' := fl ++ ((fun j => (j, false)) <$> omap (job_of t') fired)) in *.
  assert (forall id, fire fired <$> tokens_of (mkSched td fl) id ≡ₚ
    tokens_of (mkSched (set_timer t' td) fl') id) as Htok.
  { intros id. unfold tokens_of. rewrite <- of_id_fire. symmetry.
    by apply of_id_perm, (toks_tick (td_wheelTimer td)). }
  split; [split|]; cbn [sc_td ag_step ag_now]; [done|by rewrite Hnow, <- Hnow'|intros d; by rewrite Htk'| |].
  - intros id. specialize (Hjobs id). unfold job_phase_at in *. cbn [ag_step ag_jobs sc_td] in *.
    rewrite lookup_fmap. destruct (ag_jobs a !! id) as [[j ph]|]; [|done].
    destruct Hjobs as (Hid & Hreg & Hp). cbn [fmap option_fmap option_map].
    assert (forall p k, (Some p, k) ∈ tokens_of (mkSched td fl) id ->
      (p ∈ fired <-> timer_due (td_wheelTimer td) p = ag_now a + 1)) as Hfd
      by (intros p k Hin%token_pending; rewrite Hnow; by apply Hf).
    pose proof (phase_fire _ _ _ _ j ph Hfd Hp) as Hp'. revert Hp'.
    assert (fst (ph_tick (ag_now a + 1) (j, ph)) = j) as Hj by (unfold ph_tick; by case_decide).
    destruct (ph_tick (ag_now a + 1) (j, ph)) as [j' ph']. cbn [fst] in Hj. subst j'. cbn [snd].
    intros Hp'. split_and!; [done|done|]. eapply phase_tokens_perm; [apply Htok| |exact Hp'].
    intros q k Hq. rewrite Htok in Hq. apply Hdue. by apply token_pending in Hq.
  - unfold started_jobs, fl'. cbn [sc_flight]. rewrite drop_app_length, <- list_fmap_compose.
    rewrite (omap_ext_in (job_of t') (job_of (td_wheelTimer td)))
      by (intros p _; unfold job_of; by rewrite Htask).
    by apply (tick_started ticks td fl a t' fired).
Qed.

Lemma flight_token td fl i j b :
  fl !! i = Some (j, b) -> (None, j) ∈ tokens_of (mkSched td fl) (job_ID j).
Proof.
  intros Hi. unfold tokens_of, of_id, toks. cbn [sc_td sc_flight].
  apply list_elem_of_filter. split; [done|]. apply elem_of_app. right.
  apply list_elem_of_fmap. exists (j, b). split; [done|]. by eapply list_elem_of_lookup_2.
Qed.

Lemma ph_finish_running ticks now j :
  ph_finish ticks now (j, Running)
  = (j, if job_IsCyclic j then Waiting (now + ticks (next_delay j)) else Done).
Proof. unfold ph_finish. cbn [fst snd]. by rewrite decide_True. Qed.

(** The end of a run that succeeded. *)
Lemma finish_effect td fl i now j s' :
  fl !! i = Some (j, true) -> job_ok j ->
  sched_step (EFinish i now None) (mkSched td fl) = Ret s' tt ->
  sc_flight s' = delete i fl /\
  if job_IsCyclic j
  then exists t' p, timer_new now (NewWheelTimerTask (Some j)) (next_delay j) (td_wheelTimer td)
                      = Ret t' p /\ td_wheelTimer (sc_td s') = t' /\
                    td_cyclicTasks (sc_td s') = <[job_ID j := p]> (td_cyclicTasks td) /\
                    td_tempTasks (sc_td s') = td_tempTasks td
  else td_wheelTimer (sc_td s') = td_wheelTimer td /\
       td_cyclicTasks (sc_td s') = td_cyclicTasks td /\ td_tempTasks (sc_td s') = td_tempTasks td.
Proof.
  intros Hi Hj. unfold sched_step. cbn [sc_td sc_flight]. rewrite Hi.
  unfold on_td, run_end, RecordJobCompleted, mbind', mmodify. cbn [sc_td sc_flight].
  destruct (job_IsCyclic j) eqn:Hc; cbn [andb].
  - destruct (proj2 Hj Hc) as [Hint _]. unfold rescheduleJob, mbind'.
    rewrite (proj2 (Z.ltb_lt 0 _) Hint), (proj2 (Z.leb_gt _ 0) Hint).
    destruct (timer_new now (NewWheelTimerTask (Some j)) (next_delay j) (td_wheelTimer td))
      as [t' p|t' w] eqn:E.
    + destruct (RescheduleJob_ret now j (set_stats (stats_add 0 0 1 0) td) t' p Hc Hint E)
        as (td' & -> & Ht & Hcy & Htm).
      cbn. intros [= <-]. split; [done|]. exists t', p. done.
    + unfold RescheduleJob, mbind', with_timer. rewrite Hc, (proj2 (Z.leb_gt _ 0) Hint).
      cbn [negb orb td_wheelTimer set_stats]. by rewrite E.
  - intros [= <-]. done.
Qed.

(** The phases after the end of a run, given the one of its job. *)
Lemma finish_phases ticks td fl td' i j a :
  sched_sim ticks (mkSched td fl) a -> fl !! i = Some (j, true) ->
  (forall p, p ∈ pending (td_wheelTimer td) ->
     timer_due (td_wheelTimer td') p = timer_due (td_wheelTimer td) p) ->
  (forall id, id <> job_ID j ->
     tokens_of (mkSched td' (delete i fl)) id ≡ₚ tokens_of (mkSched td (delete i fl)) id /\
     td_cyclicTasks td' !! id = td_cyclicTasks td !! id /\
     td_tempTasks td' !! id = td_tempTasks td !! id) ->
  job_phase (timer_due (td_wheelTimer td')) (td_cyclicTasks td' !! job_ID j)
    (td_tempTasks td' !! job_ID j) (tokens_of (mkSched td' (delete i fl)) (job_ID j)) (job_ID j)
    (Some (ph_finish ticks (ag_now a) (j, Running))) ->
  forall id, job_phase_at (mkSched td' (delete i fl)) (ag_step ticks (AgFinish (job_ID j)) a) id.
Proof.
  intros Hs Hi Hdue Hframe Hown id.
  destruct (sim_token _ _ _ _ _ _ Hs (flight_token td fl i j true Hi)) as [_ Hag].
  destruct (running_token td fl i j true (sm_inv _ _ _ Hs) Hi) as (_ & _ & Hother & _).
  destruct (decide (id = job_ID j)) as [->|Hne].
  - unfold job_phase_at. cbn [ag_step ag_jobs]. by rewrite lookup_alter_eq, Hag.
  - destruct (Hframe id Hne) as (Htok & Hcy & Htm).
    apply (job_phase_frame ticks (mkSched td fl) _ a); cbn [sc_td]; try done.
    + rewrite Htok. symmetry. by apply Hother.
    + cbn [ag_step ag_jobs]. by rewrite lookup_alter_ne.
Qed.

Lemma sim_finish ticks i now j s a s' :
  sched_sim ticks s a -> disciplined (EFinish i now None) s ->
  sc_flight s !! i = Some (j, true) -> sched_step (EFinish i now None) s = Ret s' tt ->
  sched_sim ticks s' (ag_step ticks (AgFinish (job_ID j)) a).
Proof.
  intros Hs Hdis Hi E. destruct (step_finish i now s (sm_inv _ _ _ Hs) Hdis) as (s1 & E1 & Hinv').
  rewrite E in E1. injection E1 as <-. destruct s as [td fl]. destruct Hdis as [Hr _].
  pose proof Hs as [Hinv Hnow Htk _]. pose proof Hinv as [Hok Ha _ _ _]. cbn [sc_td sc_flight] in *.
  destruct (running_token td fl i j true Hinv Hi) as (Hnone & Hj & _ & pr & Hreg).
  destruct (finish_effect td fl i now j s' Hi Hj E) as [Hfl Heff].
  destruct s' as [td' fl']. cbn [sc_td sc_flight] in *. subst fl'.
  destruct (job_IsCyclic j) eqn:Hc.
  - destruct Heff as (t' & p & En & Ht & Hcy & Htm). pose proof (next_delay_ok j Hj Hc) as Hd.
    destruct (timer_new_spec (td_wheelTimer td) now (NewWheelTimerTask (Some j)) (next_delay j))
      as (t1 & p1 & E1 & _); try done. rewrite En in E1. injection E1 as -> ->.
    destruct (clock_new _ _ _ _ _ _ Hok Ha Hr Hd En) as (Hnow' & Hdue & Hdues & Hticks).
    pose proof (tokens_new td (delete i fl) td' now j _ t1 p1 Hok Ha Hr Hd En Ht) as Htok.
    split; [done|by cbn [sc_td]; rewrite Ht, Hnow'|intros d; by cbn [sc_td]; rewrite Ht, Hticks|].
    apply (finish_phases ticks td fl td' i j a Hs Hi).
    + by rewrite Ht.
    + intros id Hne. rewrite Htok, decide_False, Htm, Hcy, lookup_insert_ne by congruence. done.
    + specialize (Htok (job_ID j)). rewrite decide_True in Htok by done.
      unfold tokens_of in Htok at 2. cbn [sc_td sc_flight] in Htok. rewrite Hnone in Htok.
      symmetry in Htok. apply Permutation_singleton_l in Htok.
      rewrite ph_finish_running, Hc. cbn [job_phase]. rewrite Hc.
      split_and!; [done|rewrite Hcy, lookup_insert_eq; eauto|].
      exists p1. split; [done|]. by rewrite Ht, Hdue, Hnow, Htk.
  - destruct Heff as (Ht & Hcy & Htm).
    split; [done|by cbn [sc_td]; rewrite Ht|intros d; by cbn [sc_td]; rewrite Ht|].
    apply (finish_phases ticks td fl td' i j a Hs Hi).
    + by rewrite Ht.
    + intros id Hne. rewrite Hcy, Htm. unfold tokens_of. cbn [sc_td]. by rewrite Ht.
    + rewrite ph_finish_running, Hc. cbn [job_phase]. rewrite Hc. destruct Hreg as [_ Htmp].
      split_and!; [done|rewrite Htm, Htmp; eauto|]. split; [|done].
      unfold tokens_of. cbn [sc_td sc_flight]. by rewrite Ht.
Qed.

(** *** Runs *)

Lemma sim_event ticks e s a :
  sched_sim ticks s a -> disciplined e s ->
  exists s', sched_step e s = Ret s' tt /\
    sched_sim ticks s' (fold_left (fun a op => ag_step ticks op a) (event_op e s) a).
Proof.
  intros Hs Hd. destruct (step_inv e s (sm_inv _ _ _ Hs) Hd) as (s' & E & _).
  exists s'. split; [done|]. destruct e as [now j|id| |i now|i now err].
  - by apply (sim_add ticks now j s).
  - by apply (sim_remove ticks id s).
  - by apply (sched_sim_tick ticks s).
  - by apply (sim_begin ticks i now s).
  - pose proof Hd as [_ ->]. cbn [event_op].
    destruct (sc_flight s !! i) as [[j []]|] eqn:Hi.
    + by apply (sim_finish ticks i now j s).
    + unfold sched_step in E. rewrite Hi in E. by injection E as <-.
    + unfold sched_step in E. rewrite Hi in E. by injection E as <-.
Qed.

(** What a tick of the scheduler starts is what the agenda says. *)
Definition same_starts (l : list Z) (x : gset Z) : Prop :=
  NoDup l /\ forall id, id ∈ l <-> id ∈ x.

Lemma ag_exec_event ticks e s ops a :
  ag_exec ticks (event_op e s ++ ops) a =
    let r := ag_exec ticks ops (fold_left (fun a op => ag_step ticks op a) (event_op e s) a) in
    (r.1, match e with ETick => ag_due a :: r.2 | _ => r.2 end).
Proof.
  destruct e as [now j|id| |i now|i now err]; cbn [event_op app fold_left].
  1-2: cbn [ag_exec]; by destruct (ag_exec ticks ops _).
  - cbn [ag_exec]. by destruct (ag_exec ticks ops _).
  - by destruct (ag_exec ticks ops a).
  - destruct (sc_flight s !! i) as [[j []]|]; cbn [app fold_left ag_exec]; by destruct (ag_exec ticks ops _).
Qed.

Lemma sched_trace_sim ticks es : forall s a,
  sched_sim ticks s a -> disciplined_run es s ->
  exists s' ops outs, sched_trace es s = Ret s' (ops, outs) /\
    sched_sim ticks s' (ag_exec ticks ops a).1 /\
    Forall2 same_starts outs (ag_exec ticks ops a).2.
Proof.
  induction es as [|e es IH]; intros s a Hs Hd; [by exists s, [], []|].
  destruct Hd as [Hd Hes]. destruct (sim_event ticks e s a Hs Hd) as (s' & E & Hs').
  rewrite E in Hes. destruct (IH s' _ Hs' Hes) as (s'' & ops & outs & Et & Hsim & Houts).
  cbn [sched_trace]. rewrite E, Et. do 3 eexists. split; [done|].
  rewrite ag_exec_event. cbn [fst snd]. split; [done|].
  destruct e; try done. constructor; [|done]. by apply (sched_sim_tick ticks s a s').
Qed.

Lemma sim_init now timer :
  timer_ok timer -> timer_active timer -> pending timer = [] ->
  sched_sim (timer_ticks timer) (mkSched (NewTimeDispatch now timer) [])
    (mkAgenda (timer_now timer) ∅).
Proof.
  intros Hok Ha Hp. split; [by apply inv_init|done|done|]. intros id.
  unfold job_phase_at. cbn. by rewrite !lookup_empty.
Qed.

(** C4 (refinement). The scheduler implements the agenda: over every sequence
    of additions, removals, ticks and parts of runs that follows the discipline,
    it does not panic, and at each tick it starts exactly the jobs, each once,
    that the agenda says are due there. *)
Theorem sched_refines_agenda now timer es :
  timer_ok timer -> timer_active timer -> pending timer = [] ->
  let s0 := mkSched (NewTimeDispatch now timer) [] in
  disciplined_run es s0 ->
  exists s ops outs,
    sched_trace es s0 = Ret s (ops, outs) /\
    Forall2 same_starts outs (ag_exec (timer_ticks timer) ops (mkAgenda (timer_now timer) ∅)).2.
Proof.
  intros Hok Ha Hp s0 Hd.
  destruct (sched_trace_sim (timer_ticks timer) es s0 _ (sim_init now timer Hok Ha Hp) Hd)
    as (s & ops & outs & E & _ & Hf). eauto.
Qed.

(** *** A cyclic job is on time *)

(** The ticks at which job [id] starts and ends in a run. *)
Definition event_marks (id : Z) (e : event) s s' : list mark :=
  match e with
  | ETick => if decide (id ∈ started_jobs s s') then [MStart (timer_now (td_wheelTimer (sc_td s')))] else []
  | EFinish i _ _ =>
      match sc_flight s !! i with
      | Some (j, true) =>
          if decide (job_ID j = id) then [MEnd (timer_now (td_wheelTimer (sc_td s)))] else []
      | _ => []
      end
  | _ => []
  end.

Fixpoint sched_marks (id : Z) (es : list event) s : list mark :=
  match es with
  | [] => []
  | e :: es =>
      match sched_step e s with
      | Ret s' _ => event_marks id e s s' ++ sched_marks id es s'
      | Panic _ _ => []
      end
  end.

Definition now_of s : Z := timer_now (td_wheelTimer (sc_td s)).

(** One event, seen from a cyclic job that stays registered. *)
Lemma event_phase ticks e s s' a j ph :
  sched_sim ticks s a -> disciplined e s -> sched_step e s = Ret s' tt ->
  e <> ERemove (job_ID j) -> job_IsCyclic j = true ->
  ag_jobs a !! job_ID j = Some (j, ph) ->
  exists a', sched_sim ticks s' a' /\
    match ph with
    | Waiting d =>
        event_marks (job_ID j) e s s' = [] /\ ag_jobs a' !! job_ID j = Some (j, ph) /\
          (now_of s < d -> now_of s' < d) \/
        event_marks (job_ID j) e s s' = [MStart d] /\ ag_jobs a' !! job_ID j = Some (j, Running) /\
          now_of s' = d
    | Running =>
        event_marks (job_ID j) e s s' = [] /\ ag_jobs a' !! job_ID j = Some (j, Running) /\
          now_of s <= now_of s' \/
        event_marks (job_ID j) e s s' = [MEnd (now_of s)] /\
          ag_jobs a' !! job_ID j = Some (j, Waiting (now_of s + ticks (next_delay j))) /\
          now_of s' = now_of s
    | Done => True
    end.
Proof.
  intros Hs Hd E Hne Hc Hj. destruct (sim_event ticks e s a Hs Hd) as (s1 & E1 & Hs').
  rewrite E in E1. injection E1 as <-. eexists. split; [exact Hs'|].
  pose proof (sm_now _ _ _ Hs) as Hn. pose proof (sm_now _ _ _ Hs') as Hn'.
  fold (now_of s) in Hn. fold (now_of s') in Hn'.
  destruct e as [now k|id| |i now|i now err]; cbn [event_op fold_left event_marks] in *.
  - assert (job_ID k <> job_ID j) as Hid.
    { intros Hid. destruct Hd as (_ & _ & H1 & H2). pose proof (sm_job _ _ _ Hs (job_ID j)) as Hp.
      unfold job_phase_at in Hp. rewrite Hj in Hp. destruct Hp as (_ & [x Hx] & _).
      rewrite Hc in Hx. rewrite Hid in H1. congruence. }
    cbn [ag_step ag_now ag_jobs] in *. rewrite lookup_insert_ne by done.
    rewrite Hn in Hn'. destruct ph; [left|left|done]; (split_and!; [done|done|lia]).
  - cbn [ag_step ag_now ag_jobs] in *. rewrite lookup_delete_ne by congruence.
    rewrite Hn in Hn'. destruct ph; [left|left|done]; (split_and!; [done|done|lia]).
  - destruct (sched_sim_tick ticks s a s' Hs Hd E) as (_ & _ & Hst). specialize (Hst (job_ID j)).
    rewrite ag_due_spec in Hst. fold (now_of s').
    cbn [ag_step ag_now ag_jobs] in *. rewrite lookup_fmap, Hj. cbn [fmap option_fmap option_map].
    unfold ph_tick. cbn [fst snd]. destruct ph as [d| |]; [| |done].
    + destruct (decide (Waiting d = Waiting (ag_now a + 1))) as [[= Hdd]|Hdd].
      * right. rewrite decide_True by (apply Hst; exists j; by rewrite Hj, Hdd).
        split_and!; [by rewrite Hdd, Hn'|done|by rewrite Hdd].
      * left. rewrite decide_False.
        2:{ rewrite Hst. intros [k Hk]. rewrite Hj in Hk. congruence. }
        split_and!; [done|done|]. intros Hlt. assert (d <> ag_now a + 1) by congruence. lia.
    + left. rewrite !decide_False by (done || (rewrite Hst; intros [k Hk]; by rewrite Hj in Hk)).
      split_and!; [done|done|lia].
  - rewrite Hn in Hn'. destruct ph; [left|left|done]; (split_and!; [done|done|lia]).
  - destruct (sc_flight s !! i) as [[k []]|] eqn:Hi; cbn [fold_left] in *.
    2,3: rewrite Hn in Hn'; destruct ph; [left|left|done]; (split_and!; [done|done|lia]).
    fold (now_of s). cbn [ag_step ag_now ag_jobs] in *. rewrite Hn in Hn'. case_decide as Hid.
    + rewrite Hid, lookup_alter_eq, Hj. cbn [fmap option_fmap option_map].
      destruct s as [td fl].
      destruct (sim_token _ _ _ _ _ _ Hs (flight_token td fl i k true Hi)) as [_ Hk].
      rewrite Hid, Hj in Hk. injection Hk as <- ->. right. rewrite ph_finish_running, Hc.
      split_and!; [done|by rewrite Hn|lia].
    + rewrite lookup_alter_ne by done. destruct ph; [left|left|done]; (split_and!; [done|done|lia]).
Qed.

Lemma event_now ticks e s s' a :
  sched_sim ticks s a -> disciplined e s -> sched_step e s = Ret s' tt -> now_of s <= now_of s'.
Proof.
  intros Hs Hd E. destruct (sim_event ticks e s a Hs Hd) as (s1 & E1 & Hs').
  rewrite E in E1. injection E1 as <-.
  pose proof (sm_now _ _ _ Hs) as Hn. pose proof (sm_now _ _ _ Hs') as Hn'.
  fold (now_of s) in Hn. fold (now_of s') in Hn'.
  destruct e as [now k|id| |i now|i now err]; cbn [event_op fold_left ag_step ag_now] in Hn'; try lia.
  destruct (sc_flight s !! i) as [[k []]|]; cbn [fold_left ag_step ag_now] in Hn'; lia.
Qed.

Lemma sched_periodic ticks j es : forall s a,
  sched_sim ticks s a -> disciplined_run es s -> ERemove (job_ID j) ∉ es ->
  job_IsCyclic j = true -> 0 < ticks (next_delay j) ->
  exists s', sched_run es s = Ret s' tt /\ now_of s <= now_of s' /\
  (forall d, ag_jobs a !! job_ID j = Some (j, Waiting d) -> now_of s < d ->
     periodic (ticks (next_delay j)) d (sched_marks (job_ID j) es s) (now_of s')) /\
  (forall d, ag_jobs a !! job_ID j = Some (j, Running) -> d <= now_of s ->
     periodic (ticks (next_delay j)) d (MStart d :: sched_marks (job_ID j) es s) (now_of s')).
Proof.
  induction es as [|e es IH]; intros s a Hs Hd Hno Hc Hp.
  - exists s. split_and!; [done|lia|by intros|]. intros d _ Hle. cbn. lia.
  - destruct Hd as [Hd Hes]. apply not_elem_of_cons in Hno as [Hne Hno].
    destruct (sim_event ticks e s a Hs Hd) as (s1 & E & Hs1). rewrite E in Hes.
    pose proof (event_now ticks e s s1 a Hs Hd E) as Hmono. apply not_eq_sym in Hne.
    cbn [sched_run sched_marks]. rewrite E.
    destruct (IH s1 _ Hs1 Hes Hno Hc Hp) as (s2 & E2 & Hle & _).
    assert (forall a', sched_sim ticks s1 a' ->
      (forall d, ag_jobs a' !! job_ID j = Some (j, Waiting d) -> now_of s1 < d ->
         periodic (ticks (next_delay j)) d (sched_marks (job_ID j) es s1) (now_of s2)) /\
      (forall d, ag_jobs a' !! job_ID j = Some (j, Running) -> d <= now_of s1 ->
         periodic (ticks (next_delay j)) d (MStart d :: sched_marks (job_ID j) es s1) (now_of s2)))
      as IHs.
    { intros a' Ha'. destruct (IH s1 a' Ha' Hes Hno Hc Hp) as (s3 & E3 & _ & H).
      rewrite E2 in E3. by injection E3 as <-. }
    exists s2. split_and!; [done|lia| |]; intros d Hj Hnow;
      destruct (event_phase ticks e s s1 a j _ Hs Hd E Hne Hc Hj) as (a' & Hs' & Hcase);
      destruct (IHs a' Hs') as [Hw Hr];
      destruct Hcase as [(-> & Hj' & Hn)|(-> & Hj' & Hn)]; cbn [app].
    + apply Hw; auto.
    + apply Hr; [done|lia].
    + apply Hr; [done|lia].
    + cbn [periodic]. split_and!; [done|lia|lia|]. apply Hw; [done|lia].
Qed.

Lemma reachable_sim ticks s0 a0 s :
  sched_sim ticks s0 a0 -> reachable s0 s -> exists a, sched_sim ticks s a.
Proof.
  intros H0. induction 1 as [|s s' e _ [a IH] Hd E]; [eauto|].
  destruct (sim_event ticks e s a IH Hd) as (s1 & E1 & Hs'). rewrite E in E1. injection E1 as <-. eauto.
Qed.

(** A job added in any reachable state. *)
Lemma added_periodic now timer s s1 u j es :
  timer_ok timer -> timer_active timer -> pending timer = [] ->
  reachable (mkSched (NewTimeDispatch now timer) []) s ->
  disciplined (EAdd u j) s -> sched_step (EAdd u j) s = Ret s1 tt -> job_IsCyclic j = true ->
  disciplined_run es s1 -> ERemove (job_ID j) ∉ es ->
  exists s2, sched_run es s1 = Ret s2 tt /\
    periodic (timer_ticks timer (next_delay j)) (now_of s1 + timer_ticks timer (first_delay j))
      (sched_marks (job_ID j) es s1) (now_of s2).
Proof.
  intros Hok Ha Hp Hreach Hd E Hc Hes Hno.
  destruct (reachable_sim _ _ _ _ (sim_init now timer Hok Ha Hp) Hreach) as [a Hs].
  pose proof (sim_add _ u j s a s1 Hs Hd E) as Hs1. destruct Hd as (_ & Hj & _).
  pose proof (first_delay_ok j Hj). pose proof (next_delay_ok j Hj Hc).
  pose proof (sm_now _ _ _ Hs1) as Hn1. fold (now_of s1) in Hn1.
  destruct (sched_periodic _ j es s1 _ Hs1 Hes Hno Hc) as (s2 & E2 & _ & Hw & _).
  { apply clock_ticks; [done|lia]. }
  exists s2. split; [done|]. apply Hw.
  - cbn [ag_step ag_jobs]. rewrite lookup_insert_eq. do 3 f_equal. cbn [ag_step ag_now] in Hn1. lia.
  - pose proof (clock_ticks timer (first_delay j) Hok). lia.
Qed.
End Agenda.

(** ** On the wheel *)

Definition new_sched_at (now : Z) : wheel_sched :=
  mkSched (NewTimeDispatch now (fresh_timers 512 (100 * Millisecond))) [].

(** The delays of a cyclic job in ticks of the dispatcher's wheel. *)
Lemma wheel_delays j :
  job_ok j -> job_IsCyclic j = true ->
  let timer : timers WheelTimerTask := fresh_timers 512 (100 * Millisecond) in
  timer_ticks timer (next_delay j) = 10 * job_DefaultInterval j /\
  timer_ticks timer (first_delay j) =
    (if job_DefaultInterval j <? 100 then 512 else job_DefaultInterval j / 100).
Proof.
  intros [Hm Hc] Hcy timer. destruct (Hc Hcy) as [H1 H2]. unfold first_delay, next_delay.
  rewrite (proj2 (Z.ltb_lt 0 _) H1). unfold Second, Millisecond in *.
  rewrite !wrap64_id by (unfold_int; lia).
  assert (forall d, timer_ticks timer d = due_in 512 (d / 100000000)) as Ht by done.
  rewrite !Ht. unfold due_in.
  replace (job_DefaultInterval j * (1000 * 1000000) / 100000000) with (10 * job_DefaultInterval j)
    by (apply Z.div_unique_exact; lia).
  replace (job_DefaultInterval j * 1000000 / 100000000) with (job_DefaultInterval j / 100)
    by (change 100000000 with (100 * 1000000); by rewrite Z.div_mul_cancel_r).
  split; [by rewrite (proj2 (Z.eqb_neq (10 * job_DefaultInterval j) 0)) by lia|].
  destruct (job_DefaultInterval j <? 100) eqn:E; bool_to_prop.
  - by rewrite (Z.div_small _ 100) by lia.
  - rewrite (proj2 (Z.eqb_neq (job_DefaultInterval j / 100) 0)); [done|].
    pose proof (Z.div_str_pos (job_DefaultInterval j) 100). lia.
Qed.

(** C6 (liveness). When a cyclic job with interval [n] starts, as long as it is
    not removed.  The first start does not wait for an interval: it is [n]
    milliseconds after the job was added, that is [n / 100] ticks of 100 ms, and
    512 ticks when [n] is below 100, a delay shorter than a tick being served
    after a revolution of the wheel.  (docs/SCHEDULING_ARCHITECTURE.md gives the
    first delay as [n] seconds.)  From then on every start is exactly [10 n]
    ticks, that is [n] seconds, after the end of the run before: none is missed,
    early or late. *)
Theorem cyclic_job_start_times now s s1 u j es :
  reachable (new_sched_at now) s ->
  disciplined (EAdd u j) s -> sched_step (EAdd u j) s = Ret s1 tt -> job_IsCyclic j = true ->
  disciplined_run es s1 -> ERemove (job_ID j) ∉ es ->
  let n := job_DefaultInterval j in
  exists s2, sched_run es s1 = Ret s2 tt /\
    periodic (10 * n) (now_of s1 + (if n <? 100 then 512 else n / 100))
      (sched_marks (job_ID j) es s1) (now_of s2).
Proof.
  intros Hr Hd E Hc Hes Hno n. pose proof Hd as (_ & Hj & _).
  destruct (wheel_delays j Hj Hc) as [Hn Hf]. fold n in Hn, Hf. rewrite <- Hn, <- Hf.
  apply (added_periodic now (fresh_timers 512 (100 * Millisecond)) s s1 u j es); try done.
  apply fresh_wf.
Qed.

(** Two runs of a job whose interval is one second. *)
Definition ex_timed : list event :=
  [ETick; EBegin 0 5; EFinish 0 6 None] ++ replicate 999 ETick ++ [ETick; EBegin 0 7; EFinish 0 8 None].

Definition ex_one : Job := ex_job 7 100 true None.

Lemma ex_add_ok : disciplined (EAdd 0 ex_one) (new_sched_at 0).
Proof.
  split; [apply ex_room|]. split_and!; [|done|done]. split; [vm_compute; discriminate|].
  intros _. split; [done|vm_compute; discriminate].
Qed.

(** The discipline of a concrete run, decided. *)
Definition room_b (s : wheel_sched) : bool :=
  let h := hwt (td_wheelTimer (sc_td s)) in
  currentTick h + max64 / tickDuration h + 1 <=? max64.

Fixpoint quiet_run (es : list event) (s : wheel_sched) : bool :=
  match es with
  | [] => true
  | e :: es =>
      room_b s &&
      match e with ETick | EBegin _ _ | EFinish _ _ None => true | _ => false end &&
      match sched_step e s with Ret s' _ => quiet_run es s' | Panic _ _ => false end
  end.

Lemma quiet_disciplined es : forall s, quiet_run es s = true -> disciplined_run es s.
Proof.
  induction es as [|e es IH]; intros s Hq; [done|]. cbn [quiet_run] in Hq.
  apply andb_true_iff in Hq as [[Hroom He]%andb_true_iff Hq]. cbn [disciplined_run].
  destruct (sched_step e s) as [s' []|] eqn:E; [|done]. split; [|by apply IH].
  split; [by apply Z.leb_le in Hroom|]. destruct e as [| | | |i now [err|]]; done.
Qed.

Lemma quiet_after e es s :
  disciplined e s -> quiet_run es (outcome_state (sched_step e s)) = true ->
  disciplined_run (e :: es) s.
Proof.
  intros Hd Hq. cbn [disciplined_run]. split; [done|].
  destruct (sched_step e s) as [s' []|]; [|done]. by apply quiet_disciplined.
Qed.

Definition ex_s1 : wheel_sched := outcome_state (sched_step (EAdd 0 ex_one) (new_sched_at 0)).

Lemma ex_timed_ok : disciplined_run ex_timed ex_s1.
Proof. apply quiet_disciplined. vm_compute. reflexivity. Qed.

Lemma ex_timed_keeps : ERemove (job_ID ex_one) ∉ ex_timed.
Proof.
  unfold ex_timed. rewrite !not_elem_of_app. split_and!.
  - repeat (apply not_elem_of_cons; split; [done|]). apply not_elem_of_nil.
  - intros [? _]%elem_of_replicate. done.
  - repeat (apply not_elem_of_cons; split; [done|]). apply not_elem_of_nil.
Qed.

Lemma cyclic_job_start_times_witness :
  exists s2, sched_run ex_timed ex_s1 = Ret s2 tt /\
    periodic 1000 1 [MStart 1; MEnd 1; MStart 1001; MEnd 1001] (now_of s2).
Proof.
  replace [MStart 1; MEnd 1; MStart 1001; MEnd 1001] with (sched_marks (job_ID ex_one) ex_timed ex_s1)
    by (vm_compute; reflexivity).
  apply (cyclic_job_start_times 0 (new_sched_at 0) ex_s1 0 ex_one ex_timed).
  - apply reach_refl.
  - exact ex_add_ok.
  - vm_compute. reflexivity.
  - reflexivity.
  - exact ex_timed_ok.
  - exact ex_timed_keeps.
Defined.

Definition ex_traced : list event := [EAdd 0 ex_one; ETick; EBegin 0 5; ETick].

Definition ex_timer : timers WheelTimerTask := fresh_timers 512 (100 * Millisecond).

Lemma sched_refines_agenda_witness :
  (snd <$> outcome_val (sched_trace ex_traced (mkSched (NewTimeDispatch 0 ex_timer) []))) = Some [[7]; []] /\
  exists s ops outs,
    sched_trace ex_traced (mkSched (NewTimeDispatch 0 ex_timer) []) = Ret s (ops, outs) /\
    Forall2 same_starts outs
      (ag_exec (timer_ticks ex_timer) ops
         (mkAgenda (timer_now ex_timer) ∅)).2.
Proof.
  split; [vm_compute; reflexivity|].
  apply (sched_refines_agenda 0 ex_timer ex_traced).
  - apply fresh_wf.
  - reflexivity.
  - exact ex_idle.
  - apply quiet_after; [exact ex_add_ok|]. vm_compute. reflexivity.
Defined.
