(* ===== verification/JobServer.v ===== *)
(** * The job service

    Models internal/job/server/job_server.go: the runner that keeps the map of
    running jobs in step with the time dispatcher, and the interface
    JobScheduler of internal/transport/processors.go through which the message
    processors use it.  The runner is shown to implement the interface: seen
    from outside it is a finite map from ids to jobs. *)

From Stdlib Require Import Ascii String.
From S2P Require Import Prelude GoStrings WheelTimer TimerService JobTypes TimeDispatch Scheduler.

Open Scope string_scope.
Open Scope list_scope.
Open Scope Z_scope.
Open Scope go_scope.

(** ** The interface JobScheduler *)

Class JobScheduler (S : Type) := {
  js_add : Z -> option Job -> M S (option error);
  js_remove : Z -> M S (option error);
}.

(** A job may replace one of its own kind under the same id. *)
Definition compatible (m : gmap Z Job) (j : Job) : Prop :=
  forall j', m !! job_ID j = Some j' -> job_IsCyclic j' = job_IsCyclic j.

Class JobSchedulerLaws (S : Type) `{!JobScheduler S} := {
  js_ok : S -> Prop;
  registry : S -> gmap Z Job;
  js_add_spec s now j :
    js_ok s -> job_ok j -> compatible (registry s) j ->
    exists s', js_add now (Some j) s = Ret s' None /\ js_ok s' /\
      registry s' = <[job_ID j := j]> (registry s);
  js_add_nil s now : exists e, js_add now None s = Ret s (Some e);
  js_remove_spec s id :
    js_ok s ->
    exists s' err, js_remove id s = Ret s' err /\ js_ok s' /\
      registry s' = delete id (registry s) /\ (err = None <-> is_Some (registry s !! id));
}.

(** ** The runner *)

Record Runner (T : Type) := mkRunner {
  rn_TimeDispatch : TimeDispatch T;
  rn_runningJobs : gmap Z Job;
}.
Arguments mkRunner {T} _ _.
Arguments rn_TimeDispatch {T} _.
Arguments rn_runningJobs {T} _.

Section Runner.
Context {T : Type} `{!TimerOps T WheelTimerTask}.
Implicit Types r : Runner T.

Definition on_dispatch {A} (m : M (TimeDispatch T) A) : M (Runner T) A :=
  fun r => match m (rn_TimeDispatch r) with
           | Ret td a => Ret (mkRunner td (rn_runningJobs r)) a
           | Panic td w => Panic (mkRunner td (rn_runningJobs r)) w
           end.

Definition on_running (f : gmap Z Job -> gmap Z Job) : M (Runner T) unit :=
  mmodify (fun r => mkRunner (rn_TimeDispatch r) (f (rn_runningJobs r))).

(** [Runner.AddAsyncCollectJob]: the job is stored first and taken out again
    when the dispatcher refuses it. *)
Definition AddAsyncCollectJob (now : Z) (job : option Job) : M (Runner T) (option error) :=
  match job with
  | None => mret (Some "job cannot be nil")
  | Some j =>
      on_running (<[job_ID j := j]>) ;!
      err <-! on_dispatch (AddJob now (Some j)) ;
      match err with
      | Some e =>
          on_running (delete (job_ID j)) ;!
          mret (Some ("failed to add job to time dispatcher: " +:+ e))
      | None => mret None
      end
  end.

(** [Runner.RemoveAsyncCollectJob]. *)
Definition RemoveAsyncCollectJob (jobID : Z) : M (Runner T) (option error) :=
  on_running (delete jobID) ;!
  err <-! on_dispatch (RemoveJob jobID) ;
  match err with
  | Some e => mret (Some ("failed to remove job from time dispatcher: " +:+ e))
  | None => mret None
  end.

Definition RunningJobs r : gmap Z Job := rn_runningJobs r.

(** The part of [Runner.Start] that precedes the wait for its context. *)
Definition runner_Start (now : Z) : M (Runner T) (option error) :=
  err <-! on_dispatch (Start now) ;
  match err with
  | Some e => mret (Some ("failed to start time dispatcher: " +:+ e))
  | None => mret None
  end.

(** [Runner.Close]. *)
Definition runner_Close : M (Runner T) (option error) :=
  on_dispatch Stop ;!
  on_running (fun _ => ∅) ;!
  mret None.

#[export] Instance runner_scheduler : JobScheduler (Runner T) := {
  js_add := AddAsyncCollectJob;
  js_remove := RemoveAsyncCollectJob;
}.

Lemma on_dispatch_ret {A} (m : M (TimeDispatch T) A) td td' run a :
  m td = Ret td' a -> on_dispatch m (mkRunner td run) = Ret (mkRunner td' run) a.
Proof. intros E. unfold on_dispatch. cbn [rn_TimeDispatch]. by rewrite E. Qed.

(** ** The runner implements the interface *)

Context `{!TimerLaws T WheelTimerTask}.

(** Where a job of the running map is found in the dispatcher. *)
Definition job_placed (td : TimeDispatch T) (id : Z) (o : option Job) : Prop :=
  match o with
  | None => td_cyclicTasks td !! id = None /\ td_tempTasks td !! id = None
  | Some j =>
      job_ID j = id /\
      if job_IsCyclic j
      then (exists p, td_cyclicTasks td !! id = Some (Some p)) /\ td_tempTasks td !! id = None
      else td_cyclicTasks td !! id = None /\ exists p, td_tempTasks td !! id = Some (Some p)
  end.

Record runner_ok r : Prop := mkRunnerOk {
  ro_ok : timer_ok (td_wheelTimer (rn_TimeDispatch r));
  ro_active : timer_active (td_wheelTimer (rn_TimeDispatch r));
  ro_room : timer_room (td_wheelTimer (rn_TimeDispatch r));
  ro_placed : forall id, job_placed (rn_TimeDispatch r) id (rn_runningJobs r !! id);
}.

Lemma runner_add r now j :
  runner_ok r -> job_ok j -> compatible (rn_runningJobs r) j ->
  exists r', AddAsyncCollectJob now (Some j) r = Ret r' None /\ runner_ok r' /\
    rn_runningJobs r' = <[job_ID j := j]> (rn_runningJobs r).
Proof.
  destruct r as [td run]. intros [Hok Ha Hr Hpl] Hj Hcomp. simpl in *.
  destruct (timer_new_spec (td_wheelTimer td) now (NewWheelTimerTask (Some j)) (first_delay j))
    as (t' & p & E & Hok' & Ha' & Hr' & _); try done; [by apply first_delay_ok|].
  destruct (AddJob_ret now j td t' (Some p) E) as (td' & EA & Ht & Hcy & Htm).
  exists (mkRunner td' (<[job_ID j := j]> run)). split_and!; [|split|done]; cbn [rn_TimeDispatch rn_runningJobs].
  - unfold AddAsyncCollectJob. erewrite bind_ret by done.
    by erewrite bind_ret by (by apply on_dispatch_ret).
  - by rewrite Ht.
  - by rewrite Ht.
  - by rewrite Ht.
  - intros id. pose proof (Hpl id) as Hid. unfold job_placed in *. rewrite Hcy, Htm.
    destruct (decide (job_ID j = id)) as [<-|Hne].
    + rewrite lookup_insert_eq. split; [done|]. specialize (Hcomp).
      assert (if job_IsCyclic j then td_tempTasks td !! job_ID j = None
              else td_cyclicTasks td !! job_ID j = None) as Hother.
      { destruct (run !! job_ID j) as [j'|] eqn:Erun.
        - rewrite (Hcomp j' Erun) in Hid. by destruct (job_IsCyclic j), Hid as (_ & ? & ?).
        - by destruct (job_IsCyclic j), Hid. }
      destruct (job_IsCyclic j); rewrite lookup_insert_eq; eauto.
    + rewrite lookup_insert_ne by done.
      destruct (job_IsCyclic j); by rewrite (lookup_insert_ne _ (job_ID j)).
Qed.

Lemma runner_remove r id :
  runner_ok r ->
  exists r' err, RemoveAsyncCollectJob id r = Ret r' err /\ runner_ok r' /\
    rn_runningJobs r' = delete id (rn_runningJobs r) /\
    (err = None <-> is_Some (rn_runningJobs r !! id)).
Proof.
  destruct r as [td run]. intros [Hok Ha Hr Hpl]. cbn [rn_TimeDispatch rn_runningJobs] in *.
  assert (exists td' err, RemoveJob id td = Ret td' err /\
    timer_ok (td_wheelTimer td') /\ timer_active (td_wheelTimer td') /\
    timer_room (td_wheelTimer td') /\
    td_cyclicTasks td' = delete id (td_cyclicTasks td) /\
    td_tempTasks td' = delete id (td_tempTasks td) /\
    (err = None <-> is_Some (run !! id))) as (td' & err & E & Hok' & Ha' & Hr' & Hcy & Htm & Herr).
  { specialize (Hpl id). unfold job_placed in Hpl. destruct (run !! id) as [j|].
    - destruct Hpl as [_ Hpl]. destruct (job_IsCyclic j).
      + destruct Hpl as [[p Hp] Hn]. destruct (RemoveJob_cyclic id td p Hp) as (td' & E & Ht & Hcy & Htm).
        destruct (timer_cancel_spec (td_wheelTimer td) p Hok) as (H1 & H2 & H3 & _).
        exists td', None. rewrite Ht, Htm, (delete_id (td_tempTasks td)) by done. split_and!; try tauto.
        split; [by eexists|done].
      + destruct Hpl as [Hn [p Hp]]. destruct (RemoveJob_temp id td p Hn Hp) as (td' & E & Ht & Hcy & Htm).
        destruct (timer_cancel_spec (td_wheelTimer td) p Hok) as (H1 & H2 & H3 & _).
        exists td', None. rewrite Ht, Hcy, (delete_id (td_cyclicTasks td)) by done. split_and!; try tauto.
        split; [by eexists|done].
    - destruct Hpl as [H1 H2]. destruct (RemoveJob_none id td H1 H2) as (td' & E & Ht & Hcy & Htm).
      eexists td', _. split; [exact E|]. rewrite Ht, Hcy, Htm, !delete_id by done.
      by split_and!. }
  exists (mkRunner td' (delete id run)),
    (match err with
     | Some e => Some ("failed to remove job from time dispatcher: " +:+ e)
     | None => None
     end).
  split_and!; [|split|done|]; cbn [rn_TimeDispatch rn_runningJobs]; try done.
  - unfold RemoveAsyncCollectJob. erewrite bind_ret by done.
    erewrite bind_ret by (by apply on_dispatch_ret). by destruct err.
  - intros id'. unfold job_placed. rewrite Hcy, Htm. destruct (decide (id = id')) as [<-|Hne].
    + by rewrite !lookup_delete_eq.
    + rewrite !lookup_delete_ne by done. apply (Hpl id').
  - rewrite <- Herr. by destruct err.
Qed.

Lemma runner_add_nil r now : exists e, AddAsyncCollectJob now None r = Ret r (Some e).
Proof. by eexists. Qed.

#[export] Instance runner_laws : JobSchedulerLaws (Runner T) := {
  js_ok := runner_ok;
  registry := rn_runningJobs;
  js_add_spec := runner_add;
  js_add_nil := runner_add_nil;
  js_remove_spec := runner_remove;
}.

Lemma runner_new now timer :
  timer_ok timer -> timer_active timer -> timer_room timer ->
  runner_ok (mkRunner (NewTimeDispatch now timer) ∅).
Proof. by split. Qed.

End Runner.

(** ** Sequences of requests *)

(** A client's requests, and what they do to a map from ids to jobs. *)
Inductive request :=
| ReqAdd (now : Z) (j : Job)
| ReqRemove (id : Z).

Fixpoint serve {S} `{!JobScheduler S} (rs : list request) (s : S) : outcome S (list (option error)) :=
  match rs with
  | [] => Ret s []
  | r :: rs =>
      match (match r with ReqAdd now j => js_add now (Some j) | ReqRemove id => js_remove id end) s with
      | Panic s' w => Panic s' w
      | Ret s' err =>
          match serve rs s' with
          | Ret s'' errs => Ret s'' (err :: errs)
          | Panic s'' w => Panic s'' w
          end
      end
  end.

(** The specification: whether each request succeeds, and the final map. *)
Fixpoint serve_spec (rs : list request) (m : gmap Z Job) : gmap Z Job * list bool :=
  match rs with
  | [] => (m, [])
  | ReqAdd _ j :: rs => let '(m', oks) := serve_spec rs (<[job_ID j := j]> m) in (m', true :: oks)
  | ReqRemove id :: rs =>
      let '(m', oks) := serve_spec rs (delete id m) in (m', bool_decide (is_Some (m !! id)) :: oks)
  end.

Fixpoint requests_ok (rs : list request) (m : gmap Z Job) : Prop :=
  match rs with
  | [] => True
  | ReqAdd _ j :: rs => job_ok j /\ compatible m j /\ requests_ok rs (<[job_ID j := j]> m)
  | ReqRemove id :: rs => requests_ok rs (delete id m)
  end.

(** For every implementation of the interface. *)
Lemma serve_refines {S} `{!JobScheduler S, !JobSchedulerLaws S} rs : forall s,
  js_ok s -> requests_ok rs (registry s) ->
  exists s' errs, serve rs s = Ret s' errs /\ js_ok s' /\
    serve_spec rs (registry s) = (registry s', (fun e => bool_decide (e = None)) <$> errs).
Proof.
  induction rs as [|[now j|id] rs IH]; intros s Hs Hrs; simpl in *.
  - by exists s, [].
  - destruct Hrs as (Hj & Hc & Hrs).
    destruct (js_add_spec s now j Hs Hj Hc) as (s1 & E & Hs1 & Hr1). rewrite E.
    rewrite <- Hr1 in Hrs |- *. destruct (IH s1 Hs1 Hrs) as (s' & errs & -> & Hs' & ->).
    by exists s', (None :: errs).
  - destruct (js_remove_spec s id Hs) as (s1 & err & E & Hs1 & Hr1 & Herr). rewrite E.
    rewrite <- Hr1 in Hrs |- *. destruct (IH s1 Hs1 Hrs) as (s' & errs & -> & Hs' & ->).
    exists s', (err :: errs). split_and!; [done|done|]. simpl. f_equal. f_equal.
    by apply bool_decide_ext.
Qed.

(** C7 (refinement). The runner, started on an idle timer, implements a finite
    map from ids to jobs, for every sequence of additions and removals in which
    every added job is well-formed ([job_ok]) and replaces only a job of its own
    kind, cyclic or not ([requests_ok]): no request panics, each fails exactly
    when the map says so, and [RunningJobs] is the map at the end.  (A job that
    replaces one of the other kind does not: [kinds_mixed].) *)
Theorem runner_refines_map {T} `{!TimerOps T WheelTimerTask, !TimerLaws T WheelTimerTask}
    now (timer : T) rs :
  timer_ok timer -> timer_active timer -> timer_room timer -> requests_ok rs ∅ ->
  exists r' errs,
    serve rs (mkRunner (NewTimeDispatch now timer) ∅) = Ret r' errs /\
    serve_spec rs ∅ = (RunningJobs r', (fun e => bool_decide (e = None)) <$> errs).
Proof.
  intros Hok Ha Hr Hrs.
  destruct (serve_refines rs (mkRunner (NewTimeDispatch now timer) ∅))
    as (r' & errs & E & _ & Hspec); [by apply runner_new|done|]. by exists r', errs.
Qed.

Definition ex_requests : list request :=
  [ReqAdd 0 (ex_job 7 60 true None); ReqAdd 1 (ex_job 8 0 false None); ReqRemove 7; ReqRemove 9].

Lemma runner_refines_map_witness :
  exists r' errs,
    serve ex_requests (mkRunner (NewTimeDispatch 0 (fresh_timers 512 (100 * Millisecond))) ∅)
      = Ret r' errs /\
    serve_spec ex_requests ∅ = (RunningJobs r', (fun e => bool_decide (e = None)) <$> errs).
Proof.
  assert (timer_ok (fresh_timers 512 (100 * Millisecond) : timers WheelTimerTask)) as Hok
    by apply fresh_wf.
  apply (runner_refines_map 0 (fresh_timers 512 (100 * Millisecond)) ex_requests Hok eq_refl ex_room).
  assert (job_ok (ex_job 7 60 true None)) as H7.
  { split; [vm_compute; discriminate|]. intros _. split; [done|vm_compute; discriminate]. }
  assert (job_ok (ex_job 8 0 false None)) as H8 by (split; [vm_compute; discriminate|done]).
  split; [exact H7|]. split; [by intros j|]. split; [exact H8|]. split; [by intros j|]. done.
Defined.

(** Without that condition: a one-time job under the id of a cyclic one leaves
    the timeout of the cyclic one in place, and a second removal finds it and
    succeeds, although the map has no such job. *)
Example kinds_mixed :
  let rs := [ReqAdd 0 (ex_job 7 60 true None); ReqAdd 1 (ex_job 7 0 false None); ReqRemove 7; ReqRemove 7] in
  (fun errs : list (option error) => (fun e => bool_decide (e = None)) <$> errs) <$>
    outcome_val (serve rs (mkRunner (NewTimeDispatch 0 (fresh_timers 512 (100 * Millisecond)) :
      TimeDispatch (timers WheelTimerTask)) ∅)) = Some [true; true; true; true] /\
  snd (serve_spec rs ∅) = [true; true; true; false].
Proof. vm_compute. split; reflexivity. Qed.
