(* ===== verification/Processors.v ===== *)
(** * The message processors

    Models internal/transport/processors.go, registry.go and the handling of a
    received message in netty_client.go and grpc_client.go
    ([processReceivedMessage], [RegisterDefaultProcessors],
    [RegisterDefaultNettyProcessors], [SendMsg], [Shutdown]).  The job scheduler
    is used through the interface of JobServer.  The JSON decoder is a
    parameter.  The goroutine that reads from the connection starts a goroutine
    of its own for the processor of a message; a client is modelled with the pool
    of the messages whose goroutines have not run yet, and each of these is one
    step, taken in any order. *)

From Stdlib Require Import Ascii String.
From S2P Require Import Prelude GoStrings WheelTimer TimerService JobTypes Crypto Params TimeDispatch Scheduler JobServer.

Open Scope string_scope.
Open Scope list_scope.
Open Scope Z_scope.
Open Scope go_scope.

(** ** Messages *)

Definition MessageTypeHeartbeat : Z := 0.
Definition MessageTypeGoOnline : Z := 1.
Definition MessageTypeGoOffline : Z := 2.
Definition MessageTypeGoClose : Z := 3.
Definition MessageTypeIssueCyclicTask : Z := 4.
Definition MessageTypeDeleteCyclicTask : Z := 5.
Definition MessageTypeIssueOneTimeTask : Z := 6.

Inductive Direction := REQUEST | RESPONSE.

#[global] Instance Direction_eq_dec : EqDecision Direction.
Proof. solve_decision. Defined.

Record Message := mkMessage {
  msg_Type : Z;
  msg_Direction : Direction;
  msg_Identity : string;
  msg_Msg : string;
}.

#[global] Instance Message_eq_dec : EqDecision Message.
Proof. solve_decision. Defined.

(** ** Registry *)

Section Registry.
Context {P : Type}.
Definition Register (msgType : Z) (processor : P) (r : gmap Z P) : gmap Z P :=
  <[msgType := processor]> r.
Definition Get (msgType : Z) (r : gmap Z P) : option P := r !! msgType.
End Registry.

(** ** Clients *)

Inductive clientKind := Grpc | Netty.

(** [cl_table] maps the identities that a [SendMsgSync] waits for to their
    futures; a future is a channel with room for one response.  [cl_sent] is what
    was written to the connection; [cl_shutdown] is set while the goroutine of a
    GO_OFFLINE message waits to shut the client down. *)
Record client (S : Type) := mkClient {
  cl_started : bool;
  cl_table : gmap string (option Message);
  cl_sent : list Message;
  cl_shutdown : bool;
  cl_secretKey : string;
  cl_scheduler : option S;
}.
Arguments mkClient {S} _ _ _ _ _ _.
Arguments cl_started {S} _.
Arguments cl_table {S} _.
Arguments cl_sent {S} _.
Arguments cl_shutdown {S} _.
Arguments cl_secretKey {S} _.
Arguments cl_scheduler {S} _.

Definition set_cyclic (b : bool) (j : Job) : Job :=
  mkJob (job_ID j) (job_TenantID j) (job_MonitorID j) (job_Metadata j) (job_Labels j)
    (job_Annotations j) (job_Hide j) (job_Category j) (job_App j) (job_Name j) (job_Help j)
    (job_HelpLink j) (job_Timestamp j) (job_DefaultInterval j) (job_Intervals j)
    b (job_Params j) (job_Metrics j) (job_Configmap j) (job_IsSd j) (job_Sd j)
    (job_PrometheusProxyMode j) (job_Cyclic j) (job_Interval j) (job_EnvConfigmaps j)
    (job_DispatchTime j) (job_PriorMetrics j) (job_ResponseDataTemp j).

Section Processors.
Context {S : Type} `{!JobScheduler S}.
(** [json.Unmarshal] into the ServerInfo struct (its aesSecret), a Job, a list
    of ids and an id. *)
Context (unmarshal_secret : string -> res string) (unmarshal_job : string -> res Job)
        (unmarshal_ids : string -> res (list Z)) (unmarshal_id : string -> res Z).
Abbreviation C := (client S) (only parsing).

Definition set_started (b : bool) (c : C) : C :=
  mkClient b (cl_table c) (cl_sent c) (cl_shutdown c) (cl_secretKey c)
    (cl_scheduler c).
Definition set_shutdown (b : bool) (c : C) : C :=
  mkClient (cl_started c) (cl_table c) (cl_sent c) b (cl_secretKey c)
    (cl_scheduler c).
Definition SetDefaultSecretKey (k : string) (c : C) : C :=
  mkClient (cl_started c) (cl_table c) (cl_sent c) (cl_shutdown c) k
    (cl_scheduler c).
Definition set_scheduler (s : S) (c : C) : C :=
  mkClient (cl_started c) (cl_table c) (cl_sent c) (cl_shutdown c)
    (cl_secretKey c) (Some s).

(** [Shutdown]; closing the connection is not represented. *)
Definition Shutdown : M C unit := mmodify (set_started false).

(** The goroutine that a GO_OFFLINE message starts, 100 ms later. *)
Definition delayed_shutdown : M C unit :=
  c <-! mget ;
  if cl_shutdown c then mmodify (set_shutdown false) ;! Shutdown else mret tt.

(** [NettyClient.SendMsg]: the result is the error. *)
Definition SendMsg (m : Message) : M C (option error) :=
  c <-! mget ;
  if cl_started c then
    mmodify (fun c => mkClient (cl_started c) (cl_table c) (cl_sent c ++ [m])
      (cl_shutdown c) (cl_secretKey c) (cl_scheduler c)) ;!
    mret None
  else mret (Some "client not started").

(** [GrpcClient.SendMsg] of a client that was connected once, with a server that
    answers the unary call; after the shutdown the call fails. *)
Definition GrpcSendMsg (m : Message) : M C (option error) :=
  c <-! mget ;
  if cl_started c then
    mmodify (fun c => mkClient (cl_started c) (cl_table c) (cl_sent c ++ [m])
      (cl_shutdown c) (cl_secretKey c) (cl_scheduler c)) ;!
    mret None
  else mret (Some "rpc error: code = Canceled desc = grpc: the client connection is closing").

(** [SendMsg] of the interface of clients. *)
Definition send_message (k : clientKind) : Message -> M C (option error) :=
  match k with Netty => SendMsg | Grpc => GrpcSendMsg end.

(** A call of the scheduler. *)
Definition with_scheduler {A} (s : S) (m : M S A) : M C A :=
  fun c => match m s with
           | Ret s' a => Ret (set_scheduler s' c) a
           | Panic s' w => Panic (set_scheduler s' c) w
           end.

Definition reply (ty : Z) (msg : Message) (text : string) : Message :=
  mkMessage ty RESPONSE (msg_Identity msg) text.

(** ** Processors: the message they return, nil or not; none returns an error *)

Definition HeartbeatProcessor (msg : Message) : M C (option Message) := mret None.

Definition GoOnlineProcessor (msg : Message) : M C (option Message) :=
  (if String.eqb (msg_Msg msg) "" then mret tt
   else match unmarshal_secret (msg_Msg msg) with
        | Err _ => mret tt
        | Ok secret =>
            if String.eqb secret "" then mret tt else mmodify (SetDefaultSecretKey secret)
        end) ;!
  mret (Some (reply MessageTypeGoOnline msg "online ack")).

(** [has_client]: the processor was given a client. *)
Definition GoOfflineProcessor (has_client : bool) (msg : Message) : M C (option Message) :=
  (if has_client then mmodify (set_shutdown true) else mret tt) ;!
  mret (Some (reply MessageTypeGoOffline msg "offline ack")).

Definition GoCloseProcessor (has_client : bool) (msg : Message) : M C (option Message) :=
  (if has_client then Shutdown else mret tt) ;!
  mret (Some (reply MessageTypeGoClose msg "close ack")).

(** The common body of the two task processors. *)
Definition issue_task (now : Z) (ty : Z) (cyclic : bool) (done : string) (msg : Message)
    : M C (option Message) :=
  c <-! mget ;
  match cl_scheduler c with
  | None => mret (Some (reply ty msg "no job scheduler available"))
  | Some s =>
      match unmarshal_job (msg_Msg msg) with
      | Err e => mret (Some (reply ty msg ("failed to parse job: " +:+ e)))
      | Ok job =>
          let job := set_cyclic cyclic (preprocess_job (cl_secretKey c) job) in
          err <-! with_scheduler s (js_add now (Some job)) ;
          match err with
          | Some e => mret (Some (reply ty msg ("failed to schedule job: " +:+ e)))
          | None => mret (Some (reply ty msg done))
          end
      end
  end.

Definition CollectCyclicDataProcessor (now : Z) : Message -> M C (option Message) :=
  issue_task now MessageTypeIssueCyclicTask true "cyclic task scheduled successfully".
Definition CollectOneTimeDataProcessor (now : Z) : Message -> M C (option Message) :=
  issue_task now MessageTypeIssueOneTimeTask false "one-time task scheduled successfully".

(** The removal loop; the result lists the errors. *)
Fixpoint remove_jobs (ids : list Z) : M S (list string) :=
  match ids with
  | [] => mret []
  | id :: rest =>
      err <-! js_remove id ;
      errors <-! remove_jobs rest ;
      mret (match err with
            | Some e => ("job " +:+ Itoa id +:+ ": " +:+ e) :: errors
            | None => errors
            end)
  end.

Definition parse_ids (body : string) : res (list Z) :=
  match unmarshal_ids body with
  | Ok ids => Ok ids
  | Err e => match unmarshal_id body with Ok id => Ok [id] | Err _ => Err e end
  end.

Definition DeleteCyclicTaskProcessor (msg : Message) : M C (option Message) :=
  c <-! mget ;
  match cl_scheduler c with
  | None => mret (Some (reply MessageTypeDeleteCyclicTask msg "no job scheduler available"))
  | Some s =>
      match parse_ids (msg_Msg msg) with
      | Err e =>
          mret (Some (reply MessageTypeDeleteCyclicTask msg ("failed to parse job IDs: " +:+ e)))
      | Ok jobIDs =>
          errors <-! with_scheduler s (remove_jobs jobIDs) ;
          mret (Some (reply MessageTypeDeleteCyclicTask msg
            (match errors with
             | [] => "all cyclic tasks removed successfully"
             | _ => "partially completed, errors: [" +:+ join_with " " errors +:+ "]"
             end)))
      end
  end.

(** The registrations of the gRPC client: GO_CLOSE gets the client. *)
Definition RegisterDefaultProcessors (now : Z) : gmap Z (Message -> M C (option Message)) :=
  Register MessageTypeIssueOneTimeTask (CollectOneTimeDataProcessor now) (
  Register MessageTypeDeleteCyclicTask DeleteCyclicTaskProcessor (
  Register MessageTypeIssueCyclicTask (CollectCyclicDataProcessor now) (
  Register MessageTypeGoClose (GoCloseProcessor true) (
  Register MessageTypeGoOffline (GoOfflineProcessor false) (
  Register MessageTypeGoOnline GoOnlineProcessor (
  Register MessageTypeHeartbeat HeartbeatProcessor ∅)))))).

(** The registrations of the Netty client: GO_OFFLINE gets the client. *)
Definition RegisterDefaultNettyProcessors (now : Z) : gmap Z (Message -> M C (option Message)) :=
  Register MessageTypeIssueOneTimeTask (CollectOneTimeDataProcessor now) (
  Register MessageTypeDeleteCyclicTask DeleteCyclicTaskProcessor (
  Register MessageTypeIssueCyclicTask (CollectCyclicDataProcessor now) (
  Register MessageTypeGoClose (GoCloseProcessor false) (
  Register MessageTypeGoOffline (GoOfflineProcessor true) (
  Register MessageTypeGoOnline GoOnlineProcessor (
  Register MessageTypeHeartbeat HeartbeatProcessor ∅)))))).

Definition default_processors (k : clientKind) (now : Z)
    : gmap Z (Message -> M C (option Message)) :=
  match k with
  | Grpc => RegisterDefaultProcessors now
  | Netty => RegisterDefaultNettyProcessors now
  end.

Definition set_table (t : gmap string (option Message)) (c : C) : C :=
  mkClient (cl_started c) t (cl_sent c) (cl_shutdown c) (cl_secretKey c) (cl_scheduler c).

(** [PutResponse] on the future of an identity.  Where it holds a response
    already, the send blocks, and with it the loop that reads from the
    connection; this is the outcome [Panic]. *)
Definition deliver (msg : Message) : M C unit :=
  c <-! mget ;
  match cl_table c !! msg_Identity msg with
  | Some (Some _) => mpanic "blocked: the future holds a response"
  | _ => mmodify (set_table (<[msg_Identity msg := Some msg]> (cl_table c)))
  end.

(** A response that a [SendMsgSync] waits for. *)
Definition awaited (table : gmap string (option Message)) (msg : Message) : bool :=
  bool_decide (msg_Direction msg = RESPONSE) && bool_decide (is_Some (table !! msg_Identity msg)).

(** [processReceivedMessage], in the goroutine that reads: the message for whose
    processor it starts a goroutine, if it does. *)
Definition processReceivedMessage (reg : gmap Z (Message -> M C (option Message))) (msg : Message)
    : M C (option Message) :=
  c <-! mget ;
  if awaited (cl_table c) msg then deliver msg ;! mret None
  else
    match Get (msg_Type msg) reg with
    | None => mret None
    | Some _ => mret (Some msg)
    end.

(** The goroutine that it starts.  The Netty client sends the response to a
    request; the gRPC client drops it. *)
Definition handle_message (k : clientKind) (reg : gmap Z (Message -> M C (option Message)))
    (msg : Message) : M C unit :=
  match Get (msg_Type msg) reg with
  | None => mret tt
  | Some fn =>
      response <-! fn msg ;
      match k, msg_Direction msg, response with
      | Netty, REQUEST, Some r => SendMsg r ;! mret tt
      | _, _, _ => mret tt
      end
  end.

(** Both, when the goroutine runs before anything else does. *)
Definition receive_message (k : clientKind) (reg : gmap Z (Message -> M C (option Message)))
    (msg : Message) : M C unit :=
  g <-! processReceivedMessage reg msg ;
  match g with Some m => handle_message k reg m | None => mret tt end.

(** ** A connection: the client and the goroutines that have not run yet *)

(** A message is read, or the [i]-th goroutine of the pool runs, at a time. *)
Inductive conn_action := Receive (now : Z) (msg : Message) | Handle (i : nat) (now : Z).

Definition conn_step (k : clientKind) (a : conn_action) : M (C * list Message) unit :=
  fun '(c, pool) =>
    match a with
    | Receive now msg =>
        match processReceivedMessage (default_processors k now) msg c with
        | Ret c g => Ret (c, pool ++ option_list g) tt
        | Panic c w => Panic (c, pool) w
        end
    | Handle i now =>
        match pool !! i with
        | None => Ret (c, pool) tt
        | Some msg =>
            match handle_message k (default_processors k now) msg c with
            | Ret c _ => Ret (c, delete i pool) tt
            | Panic c w => Panic (c, delete i pool) w
            end
        end
    end.

Fixpoint conn_run (k : clientKind) (acts : list conn_action) : M (C * list Message) unit :=
  match acts with
  | [] => mret tt
  | a :: rest => conn_step k a ;! conn_run k rest
  end.

(** ** Specification: the effect of a message on the key and the jobs *)

Definition key_effect (msg : Message) (key : string) : string :=
  if msg_Type msg =? MessageTypeGoOnline then
    match (if String.eqb (msg_Msg msg) "" then Err "" else unmarshal_secret (msg_Msg msg)) with
    | Ok secret => if String.eqb secret "" then key else secret
    | Err _ => key
    end
  else key.

(** The job that a message issues. *)
Definition issued (key : string) (msg : Message) : option Job :=
  let job b := match unmarshal_job (msg_Msg msg) with
               | Ok j => Some (set_cyclic b (preprocess_job key j))
               | Err _ => None
               end in
  if msg_Type msg =? MessageTypeIssueCyclicTask then job true
  else if msg_Type msg =? MessageTypeIssueOneTimeTask then job false
  else None.

Definition deleted (msg : Message) : list Z :=
  if msg_Type msg =? MessageTypeDeleteCyclicTask
  then match parse_ids (msg_Msg msg) with Ok ids => ids | Err _ => [] end
  else [].

(** The requests that a message makes to the job scheduler. *)
Definition requests_of (now : Z) (key : string) (msg : Message) : list request :=
  match issued key msg with
  | Some j => [ReqAdd now j]
  | None => ReqRemove <$> deleted msg
  end.

(** Whether the client is to be shut down in a while: GO_OFFLINE does that to
    a Netty client. *)
Definition offline_effect (k : clientKind) (msg : Message) (b : bool) : bool :=
  match k with Netty => (msg_Type msg =? MessageTypeGoOffline) || b | Grpc => b end.

(** Whether the client is up: GO_CLOSE shuts a gRPC client down. *)
Definition online_effect (k : clientKind) (msg : Message) (b : bool) : bool :=
  match k with Netty => b | Grpc => negb (msg_Type msg =? MessageTypeGoClose) && b end.

Definition jobs_effect (key : string) (msg : Message) (jobs : gmap Z Job) : gmap Z Job :=
  match issued key msg with
  | Some j => <[job_ID j := j]> jobs
  | None => foldl (fun m id => delete id m) jobs (deleted msg)
  end.

(** Whether a message is answered when it is a request. *)
Definition answered (msg : Message) : bool :=
  (1 <=? msg_Type msg) && (msg_Type msg <=? 6).

(** The requests that get a reply. *)
Definition replied (msg : Message) : Prop :=
  msg_Direction msg = REQUEST /\ answered msg = true.

#[export] Instance replied_dec msg : Decision (replied msg).
Proof. unfold replied. apply _. Defined.

(** The gRPC client drops the responses of its processors. *)
Definition to_reply (k : clientKind) (msg : Message) : list Message :=
  match k with Netty => filter replied [msg] | Grpc => [] end.

(** The messages of a run, as they are read. *)
Definition received (acts : list conn_action) : list Message :=
  omap (fun a => match a with Receive _ m => Some m | Handle _ _ => None end) acts.

(** Whether a message is for a processor: nobody waits for it, and its type is
    one of the seven registered ones. *)
Definition for_processor (table : gmap string (option Message)) (msg : Message) : bool :=
  negb (awaited table msg) && (0 <=? msg_Type msg) && (msg_Type msg <=? 6).

(** The messages in the order in which their goroutines run, by the choices of
    the run, from those that wait in [pool]. *)
Fixpoint handling (table : gmap string (option Message)) (pool : list Message) (acts : list conn_action)
    : list (Z * Message) :=
  match acts with
  | [] => []
  | Receive _ m :: rest => handling table (pool ++ filter (for_processor table) [m]) rest
  | Handle i now :: rest =>
      match pool !! i with
      | Some m => (now, m) :: handling table (delete i pool) rest
      | None => handling table pool rest
      end
  end.

Fixpoint messages_ok (key : string) (jobs : gmap Z Job) (l : list (Z * Message)) : Prop :=
  match l with
  | [] => True
  | (_, msg) :: rest =>
      (forall j, issued key msg = Some j -> job_ok j /\ compatible jobs j) /\
      messages_ok (key_effect msg key) (jobs_effect key msg jobs) rest
  end.

Definition spec_step (st : string * gmap Z Job) (x : Z * Message) : string * gmap Z Job :=
  (key_effect (snd x) (fst st), jobs_effect (fst st) (snd x) (snd st)).

(** The responses that are waited for, each for another future, which is empty. *)
Definition responses_ok (t : gmap string (option Message)) (l : list Message) : Prop :=
  let rs := filter (awaited t) l in
  NoDup (msg_Identity <$> rs) /\ Forall (fun m => t !! msg_Identity m = Some None) rs.

Definition put_responses (t : gmap string (option Message)) (rs : list Message)
    : gmap string (option Message) :=
  foldl (fun t m => <[msg_Identity m := Some m]> t) t rs.

(** [m] answers [req]. *)
Definition answers (req m : Message) : Prop :=
  msg_Type m = msg_Type req /\ msg_Identity m = msg_Identity req /\ msg_Direction m = RESPONSE.

End Processors.

(** ** What a message does, for every job scheduler *)

Section Serving.
Context {S : Type} `{!JobScheduler S}.
Context (unmarshal_secret : string -> res string) (unmarshal_job : string -> res Job)
        (unmarshal_ids : string -> res (list Z)) (unmarshal_id : string -> res Z).
Context (k : clientKind).
Abbreviation C := (client S) (only parsing).

Local Abbreviation key_eff := (key_effect unmarshal_secret) (only parsing).
Local Abbreviation reqs := (requests_of unmarshal_job unmarshal_ids unmarshal_id) (only parsing).
Local Abbreviation procs := (default_processors unmarshal_secret unmarshal_job unmarshal_ids unmarshal_id)
  (only parsing).

(** The parts of the client that a handler leaves alone. *)
Definition same_io (c c' : C) : Prop :=
  cl_table c' = cl_table c /\ cl_sent c' = cl_sent c.

(** From client [c] to [c'], whose scheduler is [s'], by the message [msg]. *)
Definition effect_of (msg : Message) (c c' : C) (s' : S) : Prop :=
  cl_scheduler c' = Some s' /\ cl_secretKey c' = key_eff msg (cl_secretKey c) /\
  cl_shutdown c' = offline_effect k msg (cl_shutdown c) /\
  cl_started c' = online_effect k msg (cl_started c).

Definition serves (now : Z) (fn : Message -> M C (option Message)) (msg : Message) : Prop :=
  forall c s s' errs,
  cl_scheduler c = Some s -> serve (reqs now (cl_secretKey c) msg) s = Ret s' errs ->
  exists c' r, fn msg c = Ret c' r /\ same_io c c' /\ effect_of msg c c' s' /\
    match r with
    | Some m => answers msg m /\ answered msg = true
    | None => answered msg = false
    end.

Lemma remove_jobs_serve ids : forall s s' errs,
  serve (ReqRemove <$> ids) s = Ret s' errs -> exists texts, remove_jobs ids s = Ret s' texts.
Proof.
  induction ids as [|id ids IH]; intros s s' errs E; cbn [fmap list_fmap serve remove_jobs] in *.
  - injection E as <- _. by eexists.
  - destruct (js_remove id s) as [s1 err|] eqn:E1; [|discriminate].
    destruct (serve _ s1) as [s2 errs2|] eqn:E2; [|discriminate]. injection E as <- _.
    destruct (IH _ _ _ E2) as [texts E3].
    erewrite bind_ret by exact E1. erewrite bind_ret by exact E3. by eexists.
Qed.

Lemma with_scheduler_ret {A} (s s' : S) (m : M S A) a (c : C) :
  m s = Ret s' a -> with_scheduler s m c = Ret (set_scheduler s' c) a.
Proof. intros E. unfold with_scheduler. by rewrite E. Qed.

(** A message of another type than the task types makes no request. *)
Lemma reqs_other now key msg :
  msg_Type msg <> MessageTypeIssueCyclicTask -> msg_Type msg <> MessageTypeIssueOneTimeTask ->
  msg_Type msg <> MessageTypeDeleteCyclicTask -> reqs now key msg = [].
Proof.
  intros H1 H2 H3. unfold requests_of, issued, deleted.
  by rewrite !(proj2 (Z.eqb_neq _ _)).
Qed.

Lemma key_eff_other msg key : msg_Type msg <> MessageTypeGoOnline -> key_eff msg key = key.
Proof. intros H. unfold key_effect. by rewrite (proj2 (Z.eqb_neq _ _)). Qed.

Lemma offline_other msg b : msg_Type msg <> MessageTypeGoOffline -> offline_effect k msg b = b.
Proof. intros H. unfold offline_effect. rewrite (proj2 (Z.eqb_neq _ _)) by done. by destruct k. Qed.

Lemma online_other msg b : msg_Type msg <> MessageTypeGoClose -> online_effect k msg b = b.
Proof. intros H. unfold online_effect. rewrite (proj2 (Z.eqb_neq _ _)) by done. by destruct k. Qed.

(** The types that change nothing but the scheduler. *)
Definition task_type (msg : Message) : Prop :=
  msg_Type msg <> MessageTypeGoOnline /\ msg_Type msg <> MessageTypeGoOffline /\
  msg_Type msg <> MessageTypeGoClose.

(** A task message that changes the scheduler only. *)
Lemma effect_scheduler msg (c : C) s' : task_type msg -> effect_of msg c (set_scheduler s' c) s'.
Proof.
  intros (H1 & H2 & H3). split; [done|]. by rewrite key_eff_other, offline_other, online_other.
Qed.

Lemma effect_none msg (c : C) s : task_type msg -> cl_scheduler c = Some s -> effect_of msg c c s.
Proof.
  intros (H1 & H2 & H3) Hs. split; [done|]. by rewrite key_eff_other, offline_other, online_other.
Qed.

Lemma serves_issue now ty cyclic text msg :
  msg_Type msg = ty ->
  (ty = MessageTypeIssueCyclicTask /\ cyclic = true \/
   ty = MessageTypeIssueOneTimeTask /\ cyclic = false) ->
  serves now (issue_task unmarshal_job now ty cyclic text) msg.
Proof.
  intros Hty Hcase c s s' errs Hsch. unfold requests_of, issue_task.
  assert (issued unmarshal_job (cl_secretKey c) msg =
    match unmarshal_job (msg_Msg msg) with
    | Ok j => Some (set_cyclic cyclic (preprocess_job (cl_secretKey c) j)) | Err _ => None end) as ->.
  { unfold issued. rewrite Hty. by destruct Hcase as [[-> ->]|[-> ->]]. }
  assert (answered msg = true /\ task_type msg /\ deleted unmarshal_ids unmarshal_id msg = [])
    as (Hans & Htask & ->).
  { unfold answered, deleted, task_type. rewrite Hty. by destruct Hcase as [[-> _]|[-> _]]. }
  assert (forall text', answers msg (reply ty msg text')) as Hreply by (by intros).
  erewrite (bind_ret mget) by done. rewrite Hsch.
  destruct (unmarshal_job (msg_Msg msg)) as [j|e]; cbn [serve].
  - destruct (js_add now _ s) as [s1 err|] eqn:E; [|discriminate]. intros [= <- _].
    erewrite bind_ret by (by apply with_scheduler_ret).
    destruct err; eexists _, _; (split; [done|]); (split; [done|]); (split; [by apply effect_scheduler|done]).
  - intros [= <- _]. eexists _, _. split; [done|]. split; [done|]. split; [by apply effect_none|done].
Qed.

Lemma serves_delete now msg :
  msg_Type msg = MessageTypeDeleteCyclicTask ->
  serves now (DeleteCyclicTaskProcessor unmarshal_ids unmarshal_id) msg.
Proof.
  intros Hty c s s' errs Hsch. unfold DeleteCyclicTaskProcessor.
  assert (answered msg = true /\ task_type msg) as (Hans & Htask)
    by (unfold answered, task_type; by rewrite Hty).
  assert (forall text', answers msg (reply MessageTypeDeleteCyclicTask msg text')) as Hreply
    by (by intros).
  unfold requests_of, issued, deleted. rewrite Hty. cbn [Z.eqb Pos.eqb].
  erewrite (bind_ret mget) by done. rewrite Hsch.
  destruct (parse_ids unmarshal_ids unmarshal_id (msg_Msg msg)) as [ids|e].
  - intros [texts E]%remove_jobs_serve. erewrite bind_ret by (by apply with_scheduler_ret).
    eexists _, _. split; [done|]. split; [done|]. split; [by apply effect_scheduler|done].
  - intros [= <- _]. eexists _, _. split; [done|]. split; [done|]. split; [by apply effect_none|done].
Qed.

Lemma serves_online now msg :
  msg_Type msg = MessageTypeGoOnline -> serves now (GoOnlineProcessor unmarshal_secret) msg.
Proof.
  intros Hty c s s' errs Hsch. rewrite reqs_other by (by rewrite Hty). intros [= <- _].
  unfold GoOnlineProcessor, effect_of, key_effect, offline_effect, online_effect, answered.
  rewrite Hty. simpl.
  destruct (String.eqb (msg_Msg msg) ""); [|destruct (unmarshal_secret (msg_Msg msg)) as [secret|];
    [destruct (String.eqb secret "")|]].
  all: eexists _, _; split; [done|]; split; [done|]; split; [by destruct k|done].
Qed.

(** A handler that touches neither the key nor the scheduler. *)
Lemma serves_plain now (fn : Message -> M C (option Message)) (msg : Message) :
  msg_Type msg <> MessageTypeGoOnline -> msg_Type msg <> MessageTypeIssueCyclicTask ->
  msg_Type msg <> MessageTypeIssueOneTimeTask -> msg_Type msg <> MessageTypeDeleteCyclicTask ->
  (forall c : C, exists (c' : C) (r : option Message), fn msg c = Ret c' r /\ same_io c c' /\
     cl_secretKey c' = cl_secretKey c /\ cl_scheduler c' = cl_scheduler c /\
     cl_shutdown c' = offline_effect k msg (cl_shutdown c) /\
     cl_started c' = online_effect k msg (cl_started c) /\
     match r with
     | Some m => answers msg m /\ answered msg = true
     | None => answered msg = false
     end) ->
  serves now fn msg.
Proof.
  intros H1 H4 H6 H5 Hfn c s s' errs Hsch. rewrite reqs_other by done. intros [= <- _].
  destruct (Hfn c) as (c' & r & E & Hio & Hk' & Hsch' & Hsh & Hst & Hans).
  exists c', r. split; [done|]. split; [done|]. split; [|done].
  split; [by rewrite Hsch'|]. by rewrite key_eff_other.
Qed.

Lemma default_registrations now :
  procs k now =
  Register MessageTypeIssueOneTimeTask (CollectOneTimeDataProcessor unmarshal_job now) (
  Register MessageTypeDeleteCyclicTask (DeleteCyclicTaskProcessor unmarshal_ids unmarshal_id) (
  Register MessageTypeIssueCyclicTask (CollectCyclicDataProcessor unmarshal_job now) (
  Register MessageTypeGoClose (GoCloseProcessor (match k with Grpc => true | Netty => false end)) (
  Register MessageTypeGoOffline (GoOfflineProcessor (match k with Grpc => false | Netty => true end)) (
  Register MessageTypeGoOnline (GoOnlineProcessor unmarshal_secret) (
  Register MessageTypeHeartbeat HeartbeatProcessor ∅)))))).
Proof. by destruct k. Qed.

(** Every processor of a client. *)
Lemma serves_default now msg :
  match Get (msg_Type msg) (procs k now) with
  | Some fn => serves now fn msg
  | None => answered msg = false /\ (forall key, key_eff msg key = key) /\
      (forall key, reqs now key msg = []) /\ (forall b, offline_effect k msg b = b) /\
      forall b, online_effect k msg b = b
  end.
Proof.
  rewrite default_registrations. unfold Get, Register.
  destruct (decide (MessageTypeIssueOneTimeTask = msg_Type msg)) as [He|H6].
  { rewrite <- He, lookup_insert_eq. apply serves_issue; auto. }
  rewrite lookup_insert_ne by done.
  destruct (decide (MessageTypeDeleteCyclicTask = msg_Type msg)) as [He|H5].
  { rewrite <- He, lookup_insert_eq. by apply serves_delete. }
  rewrite lookup_insert_ne by done.
  destruct (decide (MessageTypeIssueCyclicTask = msg_Type msg)) as [He|H4].
  { rewrite <- He, lookup_insert_eq. apply serves_issue; auto. }
  rewrite lookup_insert_ne by done.
  destruct (decide (MessageTypeGoClose = msg_Type msg)) as [He|H3].
  { rewrite <- He, lookup_insert_eq. apply serves_plain; [by rewrite <- He..|].
    intros c. unfold offline_effect, online_effect, answered. rewrite <- He.
    destruct k; by eexists _, _. }
  rewrite lookup_insert_ne by done.
  destruct (decide (MessageTypeGoOffline = msg_Type msg)) as [He|H2].
  { rewrite <- He, lookup_insert_eq. apply serves_plain; [by rewrite <- He..|].
    intros c. unfold offline_effect, online_effect, answered. rewrite <- He.
    destruct k; by eexists _, _. }
  rewrite lookup_insert_ne by done.
  destruct (decide (MessageTypeGoOnline = msg_Type msg)) as [He|H1].
  { rewrite <- He, lookup_insert_eq. by apply serves_online. }
  rewrite lookup_insert_ne by done.
  destruct (decide (MessageTypeHeartbeat = msg_Type msg)) as [He|H0].
  { rewrite <- He, lookup_insert_eq. apply serves_plain; [by rewrite <- He..|].
    intros c. unfold offline_effect, online_effect, answered. rewrite <- He.
    destruct k; by eexists _, _. }
  rewrite lookup_insert_ne, lookup_empty by done. split_and!.
  - unfold answered, MessageTypeIssueOneTimeTask, MessageTypeDeleteCyclicTask,
      MessageTypeIssueCyclicTask, MessageTypeGoClose, MessageTypeGoOffline, MessageTypeGoOnline in *.
    destruct (1 <=? msg_Type msg) eqn:E1, (msg_Type msg <=? 6) eqn:E2; bool_to_prop; try done. lia.
  - intros key. by apply key_eff_other.
  - intros key. by apply reqs_other.
  - intros b. by apply offline_other.
  - intros b. by apply online_other.
Qed.

Lemma SendMsg_ret m (c : C) :
  cl_started c = true ->
  SendMsg m c = Ret (mkClient (cl_started c) (cl_table c) (cl_sent c ++ [m])
    (cl_shutdown c) (cl_secretKey c) (cl_scheduler c)) None.
Proof. intros H. destruct c. cbn in H. by subst. Qed.

(** The goroutine of a message: the scheduler serves its requests, and a reply
    is sent where there is one. *)
Lemma handle_serves now msg (c : C) s s' errs :
  cl_started c = true -> cl_scheduler c = Some s ->
  serve (reqs now (cl_secretKey c) msg) s = Ret s' errs ->
  exists c' outs,
    handle_message k (procs k now) msg c = Ret c' tt /\
    cl_table c' = cl_table c /\ effect_of msg c c' s' /\
    cl_sent c' = cl_sent c ++ outs /\
    Forall2 answers (to_reply k msg) outs.
Proof.
  intros Hst Hsch E. unfold handle_message.
  pose proof (serves_default now msg) as Hp.
  destruct (Get _ _) as [fn|].
  - destruct (Hp c s s' errs Hsch E) as (c1 & r & E1 & (Htb & Hsn) & Heff & Hr).
    erewrite bind_ret by exact E1. unfold to_reply. destruct k eqn:Hkind; [by exists c1, []; rewrite app_nil_r|].
    destruct (decide (replied msg)) as [Hrep|Hrep].
    + destruct Hrep as [Hd Ha]. rewrite Hd. destruct r as [m|]; [|congruence].
      pose proof Heff as (_ & _ & _ & Hst1). unfold online_effect in Hst1. rewrite Hkind, Hst in Hst1.
      erewrite bind_ret by (apply SendMsg_ret; exact Hst1).
      eexists _, [m]. split; [done|]. cbn. rewrite Htb, Hsn. split_and!; [done|exact Heff|done|].
      rewrite decide_True by done. constructor; [apply Hr|constructor].
    + exists c1, []. rewrite app_nil_r, filter_cons_False by done.
      assert (match msg_Direction msg, r with REQUEST, Some _ => False | _, _ => True end) as Hnd.
      { destruct (msg_Direction msg) eqn:Hd, r; try done. apply Hrep. split; [done|apply Hr]. }
      split; [by destruct (msg_Direction msg), r|]. rewrite Htb. by split_and!.
  - destruct Hp as (Ha & Hkey & Hreq & Hoff & Hon). rewrite Hreq in E. injection E as <- _.
    exists c, []. rewrite app_nil_r. split_and!; [done..| |done|].
    + split; [done|]. by rewrite Hkey, Hoff, Hon.
    + unfold to_reply. destruct k; [done|]. rewrite filter_cons_False by (intros [_ H]; congruence). done.
Qed.

(** A message that nobody waits for, handled as soon as it is read. *)
Lemma receive_message_handle reg msg (c : C) :
  awaited (cl_table c) msg = false -> receive_message k reg msg c = handle_message k reg msg c.
Proof.
  intros Haw. unfold receive_message, processReceivedMessage, mbind', mget. rewrite Haw.
  unfold handle_message. destruct (Get (msg_Type msg) reg) eqn:E; cbn; [by rewrite E|done].
Qed.

Lemma receive_serves now msg (c : C) s s' errs :
  cl_started c = true -> awaited (cl_table c) msg = false -> cl_scheduler c = Some s ->
  serve (reqs now (cl_secretKey c) msg) s = Ret s' errs ->
  exists c' outs,
    receive_message k (procs k now) msg c = Ret c' tt /\
    cl_table c' = cl_table c /\ effect_of msg c c' s' /\
    cl_sent c' = cl_sent c ++ outs /\
    Forall2 answers (to_reply k msg) outs.
Proof. intros Hst Haw. rewrite receive_message_handle by done. by apply handle_serves. Qed.

(** The types that have a processor. *)
Lemma registered now ty :
  match Get ty (procs k now) with
  | Some _ => 0 <= ty <= 6
  | None => ~ 0 <= ty <= 6
  end.
Proof.
  rewrite default_registrations. unfold Get, Register.
  destruct (decide (0 <= ty <= 6)) as [Hty|Hty].
  - assert (ty = 0 \/ ty = 1 \/ ty = 2 \/ ty = 3 \/ ty = 4 \/ ty = 5 \/ ty = 6) as Hin by lia.
    destruct_or! Hin; subst ty; vm_compute; split; discriminate.
  - rewrite !lookup_insert_ne by (intros E; apply Hty; rewrite <- E; vm_compute; split; discriminate).
    by rewrite lookup_empty.
Qed.

(** What the reader does with a message that nobody waits for. *)
Lemma receive_starts now msg (c : C) :
  awaited (cl_table c) msg = false ->
  exists g, processReceivedMessage (procs k now) msg c = Ret c g /\
    option_list g = filter (for_processor (cl_table c)) [msg].
Proof.
  intros Haw. unfold processReceivedMessage, mbind', mget. rewrite Haw.
  pose proof (registered now (msg_Type msg)) as Hty.
  assert (for_processor (cl_table c) msg = (0 <=? msg_Type msg) && (msg_Type msg <=? 6)) as Hf
    by (unfold for_processor; by rewrite Haw).
  destruct (Get _ _); eexists; (split; [done|]).
  - rewrite filter_cons_True; [done|]. rewrite Hf. apply Is_true_true. rewrite andb_true_iff. lia.
  - rewrite filter_cons_False; [done|]. rewrite Hf. intros H%Is_true_true. rewrite andb_true_iff in H. lia.
Qed.

End Serving.

(** ** Proofs, for every job scheduler that keeps its promises *)

Section Proofs.
Context {S : Type} `{!JobScheduler S, !JobSchedulerLaws S}.
Context (unmarshal_secret : string -> res string) (unmarshal_job : string -> res Job)
        (unmarshal_ids : string -> res (list Z)) (unmarshal_id : string -> res Z).
Abbreviation C := (client S) (only parsing).

Local Abbreviation key_eff := (key_effect unmarshal_secret) (only parsing).
Local Abbreviation jobs_eff := (jobs_effect unmarshal_job unmarshal_ids unmarshal_id) (only parsing).
Local Abbreviation reqs := (requests_of unmarshal_job unmarshal_ids unmarshal_id) (only parsing).
Local Abbreviation procs := (default_processors unmarshal_secret unmarshal_job unmarshal_ids unmarshal_id)
  (only parsing).
Local Abbreviation msg_fits key jobs msg :=
  (forall j, issued unmarshal_job key msg = Some j -> job_ok j /\ compatible jobs j) (only parsing).

(** A client whose scheduler holds the jobs [jobs]. *)
Definition holds (c : C) (key : string) (jobs : gmap Z Job) : Prop :=
  cl_secretKey c = key /\
  exists s, cl_scheduler c = Some s /\ js_ok s /\ registry s = jobs.

Lemma removals_spec ids : forall jobs,
  requests_ok (ReqRemove <$> ids) jobs /\
  fst (serve_spec (ReqRemove <$> ids) jobs) = foldl (fun m id => delete id m) jobs ids.
Proof.
  induction ids as [|id ids IH]; intros jobs; [done|]. cbn [fmap list_fmap requests_ok serve_spec foldl].
  destruct (IH (delete id jobs)) as [H1 H2]. split; [done|].
  by destruct (serve_spec (ReqRemove <$> ids) (delete id jobs)).
Qed.

(** The requests of a message have the effect of the message. *)
Lemma requests_effect now key msg jobs :
  msg_fits key jobs msg ->
  requests_ok (reqs now key msg) jobs /\ fst (serve_spec (reqs now key msg) jobs) = jobs_eff key msg jobs.
Proof.
  intros Hfit. unfold requests_of, jobs_effect. destruct (issued _ _ _) as [j|].
  - destruct (Hfit j eq_refl). done.
  - apply removals_spec.
Qed.

(** ** One message, and a run of the reader and of the goroutines *)

Lemma receive_awaited now msg (c : C) :
  awaited (cl_table c) msg = true -> cl_table c !! msg_Identity msg = Some None ->
  processReceivedMessage (procs Netty now) msg c =
    Ret (set_table (<[msg_Identity msg := Some msg]> (cl_table c)) c) None.
Proof.
  intros H Hn. unfold processReceivedMessage. erewrite bind_ret by done. rewrite H.
  unfold deliver. erewrite bind_ret; [done|]. erewrite bind_ret by done. by rewrite Hn.
Qed.

Lemma awaited_put t (m : Message) :
  is_Some (t !! msg_Identity m) ->
  forall msg, awaited (<[msg_Identity m := Some m]> t) msg = awaited t msg.
Proof.
  intros Hm msg. unfold awaited. f_equal. apply bool_decide_ext.
  destruct (decide (msg_Identity m = msg_Identity msg)) as [He|Hne].
  - rewrite <- He, lookup_insert_eq. split; intros _; [done|by eexists].
  - by rewrite lookup_insert_ne.
Qed.

Lemma filter_true {A} (f : A -> bool) x l : f x = true -> filter f (x :: l) = x :: filter f l.
Proof. intros H. apply filter_cons_True. by rewrite H. Qed.

Lemma filter_false {A} (f : A -> bool) x l : f x = false -> filter f (x :: l) = filter f l.
Proof. intros H. apply filter_cons_False. rewrite H. by intros []. Qed.

Lemma for_processor_ext t t' :
  (forall msg, awaited t' msg = awaited t msg) -> forall msg, for_processor t' msg = for_processor t msg.
Proof. intros H msg. unfold for_processor. by rewrite H. Qed.

Lemma filter_ext t t' (l : list Message) :
  (forall msg, awaited t' msg = awaited t msg) ->
  filter (for_processor t') l = filter (for_processor t) l.
Proof. intros H. apply list_filter_iff. intros x. by rewrite (for_processor_ext t t' H). Qed.

Lemma handling_ext t t' acts : forall pool,
  (forall msg, awaited t' msg = awaited t msg) -> handling t' pool acts = handling t pool acts.
Proof.
  induction acts as [|[now m|i now] acts IH]; intros pool H; [done| |]; cbn [handling].
  - by rewrite (filter_ext t t') , IH.
  - by destruct (pool !! i); rewrite IH.
Qed.

Lemma responses_ok_put t (m : Message) l :
  awaited t m = true -> responses_ok t (m :: l) ->
  t !! msg_Identity m = Some None /\ responses_ok (<[msg_Identity m := Some m]> t) l /\
  filter (awaited (<[msg_Identity m := Some m]> t)) l = filter (awaited t) l.
Proof.
  unfold responses_ok. intros Ha [Hnd Hn].
  rewrite filter_cons_True in Hnd, Hn by (by rewrite Ha).
  rewrite fmap_cons in Hnd. apply NoDup_cons in Hnd as [Hni Hnd]. apply Forall_cons in Hn as [Hm Hn].
  assert (filter (awaited (<[msg_Identity m := Some m]> t)) l = filter (awaited t) l) as He.
  { apply list_filter_iff. intros x. by rewrite awaited_put by (by rewrite Hm). }
  split_and!; [done|by rewrite He| |done].
  rewrite He. apply Forall_forall. intros x Hx. rewrite lookup_insert_ne.
  - by apply (proj1 (Forall_forall _ _) Hn).
  - intros E. apply Hni. rewrite E. by apply list_elem_of_fmap_2.
Qed.

Lemma handle_holds now msg (c : C) key jobs :
  cl_started c = true -> holds c key jobs -> msg_fits key jobs msg ->
  exists c' outs,
    handle_message Netty (procs Netty now) msg c = Ret c' tt /\
    cl_started c' = true /\ cl_table c' = cl_table c /\
    holds c' (key_eff msg key) (jobs_eff key msg jobs) /\
    cl_sent c' = cl_sent c ++ outs /\
    Forall2 answers (filter replied [msg]) outs.
Proof.
  intros Hst (Hk & s & Hsch & Hs & Hr) Hfit.
  destruct (requests_effect now key msg jobs Hfit) as [Hrok Heff]. rewrite <- Hr in Hrok.
  destruct (serve_refines _ s Hs Hrok) as (s' & errs & E & Hs' & Hspec).
  rewrite <- Hr, Hspec in Heff. rewrite <- Hk in E.
  destruct (handle_serves unmarshal_secret unmarshal_job unmarshal_ids unmarshal_id
    Netty now msg c s s' errs Hst Hsch E) as (c' & outs & E' & Htb & (Hsch' & Hk' & _ & Hst') & Hsn & Ho).
  exists c', outs. split_and!; try done; [by rewrite Hst'|]. split; [by rewrite Hk', Hk|].
  exists s'. split_and!; [done|done|]. by rewrite <- Hr, <- Heff.
Qed.

(** What a run leaves, from a client whose key and jobs are [st]. *)
Definition run_result (acts : list conn_action) (c : C) (pool : list Message) (st : string * gmap Z Job)
    (c' : C) (pool' outs : list Message) : Prop :=
  let order := handling (cl_table c) pool acts in
  conn_run unmarshal_secret unmarshal_job unmarshal_ids unmarshal_id Netty acts (c, pool)
    = Ret (c', pool') tt /\
  (snd <$> order) ++ pool' ≡ₚ pool ++ filter (for_processor (cl_table c)) (received acts) /\
  (let st' := foldl (spec_step unmarshal_secret unmarshal_job unmarshal_ids unmarshal_id) st order in
   holds c' (fst st') (snd st')) /\
  cl_table c' = put_responses (cl_table c) (filter (awaited (cl_table c)) (received acts)) /\
  cl_sent c' = cl_sent c ++ outs /\
  Forall2 answers (filter replied (snd <$> order)) outs.

Lemma conn_run_handles acts : forall (c : C) pool key jobs,
  cl_started c = true -> holds c key jobs ->
  messages_ok unmarshal_secret unmarshal_job unmarshal_ids unmarshal_id key jobs
    (handling (cl_table c) pool acts) ->
  responses_ok (cl_table c) (received acts) ->
  exists c' pool' outs, run_result acts c pool (key, jobs) c' pool' outs.
Proof.
  unfold run_result.
  induction acts as [|a acts IH]; intros c pool key jobs Hst Hh Hok Hro.
  { exists c, pool, []. simpl. rewrite !app_nil_r. split_and!; auto using Forall2_nil. }
  cbn [conn_run]. destruct a as [now msg|i now]; cbn [handling] in Hok |- *.
  - change (received (Receive now msg :: acts)) with (msg :: received acts) in *.
    destruct (awaited (cl_table c) msg) eqn:Haw.
    + destruct (responses_ok_put _ _ _ Haw Hro) as (Hn & Hro' & He).
      set (c1 := set_table (<[msg_Identity msg := Some msg]> (cl_table c)) c).
      assert (forall m, awaited (cl_table c1) m = awaited (cl_table c) m) as Hext
        by (apply awaited_put; by rewrite Hn).
      assert (for_processor (cl_table c) msg = false) as Hfp by (unfold for_processor; by rewrite Haw).
      rewrite (filter_false _ _ _ Hfp), filter_nil, app_nil_r in Hok |- *.
      rewrite (filter_true _ _ (received acts) Haw), (filter_false _ _ (received acts) Hfp).
      destruct (IH c1 pool key jobs) as (c' & pool' & outs & E & Hp & Hh' & Hd & Hs & Ho);
        [done|exact Hh|by rewrite (handling_ext (cl_table c))|exact Hro'|].
      rewrite (handling_ext (cl_table c)) in Hp, Hh', Ho by done. rewrite (filter_ext (cl_table c)) in Hp by done.
      exists c', pool', outs. split_and!; [|done|done| |done|done].
      * erewrite bind_ret; [exact E|]. cbn [conn_step]. rewrite receive_awaited by done.
        cbn [option_list]. by rewrite app_nil_r.
      * rewrite Hd. unfold c1. cbn [set_table cl_table]. by rewrite He.
    + destruct (receive_starts unmarshal_secret unmarshal_job unmarshal_ids unmarshal_id Netty
        now msg c Haw) as (g & Eg & Hg).
      rewrite <- Hg in Hok |- *.
      assert (responses_ok (cl_table c) (received acts)) as Hro'.
      { unfold responses_ok in *. by rewrite (filter_false _ _ _ Haw) in Hro. }
      destruct (IH c (pool ++ option_list g) key jobs Hst Hh Hok Hro')
        as (c' & pool' & outs & E & Hp & Hh' & Hd & Hs & Ho).
      exists c', pool', outs. split_and!; [| |done| |done|done].
      * erewrite bind_ret; [exact E|]. cbn [conn_step]. by rewrite Eg.
      * rewrite Hp, <- (assoc_L app), Hg. f_equiv.
        by rewrite <- (filter_app _ [msg] (received acts)).
      * by rewrite (filter_false _ _ _ Haw).
  - change (received (Handle i now :: acts)) with (received acts) in *.
    destruct (pool !! i) as [msg|] eqn:Hi.
    + destruct Hok as [Hfit Hok].
      destruct (handle_holds now msg c key jobs Hst Hh Hfit) as (c1 & o1 & E1 & Hst1 & Htb1 & Hh1 & Hs1 & Ho1).
      rewrite <- Htb1 in Hok, Hro.
      destruct (IH c1 (delete i pool) _ _ Hst1 Hh1 Hok Hro) as (c' & pool' & outs & E & Hp & Hh' & Hd & Hs & Ho).
      rewrite Htb1 in *. exists c', pool', (o1 ++ outs). split_and!; [| |done|done| |].
      * erewrite bind_ret; [exact E|]. cbn [conn_step]. by rewrite Hi, E1.
      * rewrite fmap_cons. cbn [snd app]. rewrite Hp.
        by rewrite (delete_Permutation pool i msg Hi) at 2.
      * by rewrite Hs, Hs1, (assoc_L app).
      * rewrite fmap_cons. cbn [snd].
        assert (forall l', filter replied (msg :: l') = filter replied [msg] ++ filter replied l')
          as -> by (intros l'; apply (filter_app replied [msg] l')).
        by apply Forall2_app.
    + destruct (IH c pool key jobs Hst Hh Hok Hro) as (c' & pool' & outs & E & H).
      exists c', pool', outs. split; [|done]. erewrite bind_ret; [exact E|]. cbn [conn_step]. by rewrite Hi.
Qed.

End Proofs.

(** C8 (functional). The goroutine that reads from the connection of a Netty
    client starts one for the processor of every message, and these run, each in one step, in any
    order.  For every job scheduler that keeps its promises and every such run of
    a client that stays started and whose connection takes what is written,
    nothing panics or blocks, and every message that is for a processor has been
    handled exactly once or its goroutine still waits.  The secret key and the
    jobs are then those that the handled messages prescribe one after another in
    the order in which their goroutines ran (which need not be the order in which
    they arrived); every response that a caller waits for is in the future of
    that caller; and exactly the handled requests of the six answered types were
    replied to, in the order of their handling, each with a response of the same
    type and identity.  Assumed of the messages: in the order of their handling
    the jobs they issue are well-formed and each replaces only a job of its own
    kind ([messages_ok]), and no caller is answered twice ([responses_ok]). *)
Theorem netty_messages_correct {S} `{!JobScheduler S, !JobSchedulerLaws S}
    unmarshal_secret unmarshal_job unmarshal_ids unmarshal_id acts (c : client S) pool key jobs :
  cl_started c = true -> holds c key jobs ->
  messages_ok unmarshal_secret unmarshal_job unmarshal_ids unmarshal_id key jobs
    (handling (cl_table c) pool acts) ->
  responses_ok (cl_table c) (received acts) ->
  exists c' pool' outs,
    let order := handling (cl_table c) pool acts in
    conn_run unmarshal_secret unmarshal_job unmarshal_ids unmarshal_id Netty acts (c, pool)
      = Ret (c', pool') tt /\
    (snd <$> order) ++ pool' ≡ₚ pool ++ filter (for_processor (cl_table c)) (received acts) /\
    (let st := foldl (spec_step unmarshal_secret unmarshal_job unmarshal_ids unmarshal_id)
                 (key, jobs) order in
     holds c' (fst st) (snd st)) /\
    cl_table c' = put_responses (cl_table c) (filter (awaited (cl_table c)) (received acts)) /\
    cl_sent c' = cl_sent c ++ outs /\
    Forall2 answers (filter replied (snd <$> order)) outs.
Proof. intros. by apply conn_run_handles. Qed.

(** A decoder of the JSON bodies below. *)
Definition ex_secret (s : string) : res string :=
  if String.eqb s "s" then Ok "0123456789abcdef" else Err "syntax".
Definition ex_unmarshal_job (s : string) : res Job :=
  if String.eqb s "j7" then Ok (ex_job 7 60 false None)
  else if String.eqb s "j8" then Ok (ex_job 8 0 false None) else Err "syntax".
Definition ex_ids (s : string) : res (list Z) :=
  if String.eqb s "[7]" then Ok [7] else Err "syntax".
Definition ex_id (s : string) : res Z := if String.eqb s "9" then Ok 9 else Err "syntax".

Definition ex_issue : Message := mkMessage MessageTypeIssueCyclicTask REQUEST "3" "j7".
Definition ex_delete : Message := mkMessage MessageTypeDeleteCyclicTask REQUEST "5" "[7]".

Definition ex_messages : list Message :=
  [mkMessage MessageTypeHeartbeat REQUEST "1" "";
   mkMessage MessageTypeGoOnline REQUEST "2" "s";
   ex_issue;
   mkMessage MessageTypeIssueOneTimeTask REQUEST "4" "j8";
   mkMessage MessageTypeGoOnline RESPONSE "me" "";
   ex_delete;
   mkMessage MessageTypeDeleteCyclicTask REQUEST "6" "9";
   mkMessage MessageTypeGoOffline REQUEST "7" "";
   mkMessage 9 REQUEST "8" ""].

(** The goroutines of all but the last message run, the two deletions in the
    other order. *)
Definition ex_actions : list conn_action :=
  (Receive 0 <$> ex_messages) ++
  [Handle 0 1; Handle 0 2; Handle 0 3; Handle 0 4; Handle 1 5; Handle 0 6].

Definition ex_client : client (Runner (timers WheelTimerTask)) :=
  mkClient true {["me" := None]} [] false ""
    (Some (mkRunner (NewTimeDispatch 0 (fresh_timers 512 (100 * Millisecond))) ∅)).

(** Nine messages: the runner is left with the one-time job, five replies are
    sent, and one goroutine waits. *)
Lemma netty_messages_correct_witness :
  exists c' pool' outs,
    let order := handling {["me" := None]} [] ex_actions in
    conn_run ex_secret ex_unmarshal_job ex_ids ex_id Netty ex_actions (ex_client, [])
      = Ret (c', pool') tt /\
    (snd <$> order) ++ pool' ≡ₚ [] ++ filter (for_processor {["me" := None]}) (received ex_actions) /\
    (let st := foldl (spec_step ex_secret ex_unmarshal_job ex_ids ex_id) ("", ∅) order in
     holds c' (fst st) (snd st)) /\
    cl_table c' = put_responses {["me" := None]}
      (filter (awaited {["me" := None]}) (received ex_actions)) /\
    cl_sent c' = [] ++ outs /\
    Forall2 answers (filter replied (snd <$> order)) outs.
Proof.
  apply (netty_messages_correct ex_secret ex_unmarshal_job ex_ids ex_id ex_actions ex_client [] "" ∅).
  - done.
  - split; [done|]. eexists. split; [done|]. split; [|done].
    apply (runner_new 0 (fresh_timers 512 (100 * Millisecond)));
      [apply fresh_wf|done|exact ex_room].
  - assert (forall m, handling (cl_table ex_client) [] ex_actions = m ->
      messages_ok ex_secret ex_unmarshal_job ex_ids ex_id "" ∅ m) as H; [|by apply H].
    intros m <-.
    replace (handling (cl_table ex_client) [] ex_actions)
      with (zip [1; 2; 3; 4; 5; 6] (take 4 ex_messages ++ [mkMessage MessageTypeDeleteCyclicTask REQUEST "6" "9"; ex_delete]))
      by (vm_compute; reflexivity).
    do 6 (split; [intros j Hj; vm_compute in Hj; first [discriminate Hj|injection Hj as <-;
      (split; [split; [vm_compute; discriminate|]|intros j' Hj'; vm_compute in Hj'; discriminate]);
      intros H; first [discriminate H|split; [done|vm_compute; discriminate]]]|]).
    exact I.
  - assert (filter (awaited (cl_table ex_client)) (received ex_actions) =
      [mkMessage MessageTypeGoOnline RESPONSE "me" ""]) as He by (vm_compute; reflexivity).
    unfold responses_ok. rewrite He. split; [apply NoDup_singleton|by repeat constructor].
Defined.

(** The goroutine of a deletion may overtake that of the message before it: the
    manager issues a job and then deletes it, the deletion fails, and the job
    stays. *)
Example delete_overtakes :
  let run acts := match conn_run ex_secret ex_unmarshal_job ex_ids ex_id Netty
                          ([Receive 0 ex_issue; Receive 0 ex_delete] ++ acts) (ex_client, []) with
                  | Ret (c, _) _ => (map_to_list ∘ registry <$> cl_scheduler c, msg_Msg <$> cl_sent c)
                  | Panic _ _ => (None, [])
                  end in
  (fst <$> default [] (fst (run [Handle 0 1; Handle 0 2])), snd (run [Handle 0 1; Handle 0 2])) =
    ([], ["cyclic task scheduled successfully"; "all cyclic tasks removed successfully"]) /\
  fst <$> default [] (fst (run [Handle 1 1; Handle 0 2])) = [7].
Proof. vm_compute. split; reflexivity. Qed.

(** ** The gRPC client *)

Section Grpc.
Context {S : Type} `{!JobScheduler S}.
Context (unmarshal_secret : string -> res string) (unmarshal_job : string -> res Job)
        (unmarshal_ids : string -> res (list Z)) (unmarshal_id : string -> res Z).

(** A computation that writes nothing to the connection. *)
Definition silent {A} (m : M (client S) A) : Prop :=
  forall c, cl_sent (outcome_state (m c)) = cl_sent c.

Lemma silent_ret {A} (a : A) : silent (mret a).
Proof. done. Qed.

Lemma silent_bind {A B} (m : M (client S) A) (k : A -> M (client S) B) :
  silent m -> (forall a, silent (k a)) -> silent (a <-! m ; k a)%go.
Proof.
  intros Hm Hk c. specialize (Hm c). unfold mbind'. destruct (m c) as [c' a|c' w]; [|done].
  simpl in Hm. by rewrite (Hk a), Hm.
Qed.

Lemma silent_get {B} (k : client S -> M (client S) B) :
  (forall c, silent (k c)) -> silent (c <-! mget ; k c)%go.
Proof. intros H. by apply silent_bind. Qed.

Lemma silent_sched {A} (s : S) (m : M S A) : silent (with_scheduler s m).
Proof. intros c. unfold with_scheduler. by destruct (m s). Qed.

Hint Resolve silent_ret silent_bind silent_get silent_sched : core.

Lemma silent_issue now ty cyclic text msg : silent (issue_task unmarshal_job now ty cyclic text msg).
Proof.
  apply silent_get. intros c. destruct (cl_scheduler c) as [s|]; [|done].
  destruct (unmarshal_job _); [|done]. apply silent_bind; [done|]. by intros [e|].
Qed.

Lemma silent_default now msg :
  match Get (msg_Type msg)
    (default_processors unmarshal_secret unmarshal_job unmarshal_ids unmarshal_id Grpc now) with
  | Some fn => silent (fn msg)
  | None => True
  end.
Proof.
  destruct (Get _ _) as [fn|] eqn:E; [|done]. revert E.
  unfold Get, default_processors, RegisterDefaultProcessors, Register.
  repeat (rewrite lookup_insert_Some; intros [[_ <-]|[_ E]]; [|revert E]).
  - apply silent_issue.
  - apply silent_get. intros c. destruct (cl_scheduler c) as [s|]; [|done].
    destruct (parse_ids _ _ _); [|done]. by apply silent_bind.
  - apply silent_issue.
  - by apply silent_bind.
  - by apply silent_bind.
  - apply silent_bind; [|done]. destruct (String.eqb _ _); [done|].
    destruct (unmarshal_secret _); [|done]. by destruct (String.eqb _ _).
  - done.
  - by rewrite lookup_empty.
Qed.

End Grpc.

(** The gRPC client never answers: whatever messages it receives, in whatever
    state and order it handles them, that writes nothing to its stream, although
    its processors build a reply for six of the seven message types. *)
Theorem grpc_never_replies {S} `{!JobScheduler S}
    unmarshal_secret unmarshal_job unmarshal_ids unmarshal_id acts (c : client S) pool :
  cl_sent (fst (outcome_state
    (conn_run unmarshal_secret unmarshal_job unmarshal_ids unmarshal_id Grpc acts (c, pool)))) = cl_sent c.
Proof.
  revert c pool. induction acts as [|a acts IH]; intros c pool; [done|].
  assert (cl_sent (fst (outcome_state
    (conn_step unmarshal_secret unmarshal_job unmarshal_ids unmarshal_id Grpc a (c, pool)))) = cl_sent c) as H.
  { destruct a as [now msg|i now]; cbn [conn_step].
    - unfold processReceivedMessage, deliver, mbind', mget, mmodify, mret, mpanic.
      destruct (awaited _ _); [by destruct (cl_table c !! msg_Identity msg) as [[]|]|].
      by destruct (Get _ _).
    - destruct (pool !! i) as [msg|]; [|done].
      assert (forall m : M (client S) unit, silent m ->
        cl_sent (fst (outcome_state (match m c with
          | Ret c _ => Ret (c, delete i pool) tt | Panic c w => Panic (c, delete i pool) w end))) =
        cl_sent c) as Hm by (intros m Hm; rewrite <- (Hm c); by destruct (m c)).
      apply Hm. unfold handle_message.
      pose proof (silent_default unmarshal_secret unmarshal_job unmarshal_ids unmarshal_id now msg) as Hs.
      destruct (Get _ _) as [fn|]; [|done]. apply silent_bind; [apply Hs|done]. }
  cbn [conn_run]. unfold mbind'. destruct (conn_step _ _ _ _ Grpc a (c, pool)) as [[c1 pool1] []|]; [|done].
  rewrite IH. exact H.
Qed.
