(* ===== verification/Futures.v ===== *)
(** * Synchronous requests

    Models the futures of internal/transport/grpc_client.go and the two
    functions [SendMsgSync] of grpc_client.go and netty_client.go, together with
    the goroutine that receives messages.  Callers, the receiver and [Shutdown]
    interleave: a run is a sequence of actions, each of them the part of one
    goroutine between two points where it may wait.  Processors describes what
    is done with the messages that no call waits for. *)

From Stdlib Require Import Ascii String.
From S2P Require Import Prelude GoStrings WheelTimer TimerService JobTypes TimeDispatch Scheduler JobServer Processors.

Open Scope string_scope.
Open Scope list_scope.
Open Scope Z_scope.

(** ** Futures *)

(** A channel with room for one value: [None] when the send blocks. *)
Definition chan_send {A} (x : A) (c : option A) : option (option A) :=
  match c with None => Some (Some x) | Some _ => None end.

(** [ResponseFuture]: its two channels. *)
Record ResponseFuture := mkFuture {
  rf_response : option Message;
  rf_error : option error;
}.

Definition NewResponseFuture : ResponseFuture := mkFuture None None.

(** [PutResponse] and [PutError]; [None] when they block. *)
Definition PutResponse (m : Message) (f : ResponseFuture) : option ResponseFuture :=
  (fun r => mkFuture r (rf_error f)) <$> chan_send m (rf_response f).
Definition PutError (e : error) (f : ResponseFuture) : option ResponseFuture :=
  (fun r => mkFuture (rf_response f) r) <$> chan_send e (rf_error f).

Definition DeadlineExceeded : error := "context deadline exceeded".

(** The case that the [select] of [Wait] takes: one that is ready, or the
    deadline.  The result is the future and the return of [Wait]. *)
Inductive wake := WakeResponse | WakeError | WakeTimeout.

Definition Wait (w : wake) (f : ResponseFuture) : option (ResponseFuture * res (option Message)) :=
  match w with
  | WakeResponse => (fun m => (mkFuture None (rf_error f), Ok (Some m))) <$> rf_response f
  | WakeError => (fun e => (mkFuture (rf_response f) None, Err e)) <$> rf_error f
  | WakeTimeout => Some (f, Err DeadlineExceeded)
  end.

(** ** Calls of SendMsgSync

    Each call creates one future.  [CallBlocked m] is a call whose own
    [PutResponse] blocks; a call that is [CallReturning] has its result and
    still has to run its deferred function. *)
Inductive call_state :=
| CallSending
| CallBlocked (m : Message)
| CallWaiting
| CallReturning (r : res (option Message))
| CallReturned (r : res (option Message)).

Record call := mkCall {
  ca_identity : string;
  ca_future : ResponseFuture;
  ca_state : call_state;
}.

Definition call_to (x : call_state) (c : call) : call := mkCall (ca_identity c) (ca_future c) x.

(** The client: [ex_table] maps an identity to the index of a call, whose
    future the entry is.  [ex_reading] tells that the receiver has passed the
    [IsStarted] of its loop, [ex_stuck] the call into whose future the receiver
    is trying to put a message, [ex_locking] that a [Shutdown] waits for the
    lock, [ex_rest] the messages that went to the processors. *)
Record exchange := mkEx {
  ex_kind : clientKind;
  ex_started : bool;
  ex_table : gmap string nat;
  ex_calls : list call;
  ex_reading : bool;
  ex_stuck : option (nat * Message);
  ex_locking : bool;
  ex_rest : list Message;
}.

Definition new_exchange (k : clientKind) : exchange := mkEx k true ∅ [] false None false [].

Definition with_calls (t : gmap string nat) (l : list call) (x : exchange) : exchange :=
  mkEx (ex_kind x) (ex_started x) t l (ex_reading x) (ex_stuck x) (ex_locking x) (ex_rest x).
Definition with_receiver (reading : bool) (stuck : option (nat * Message)) (x : exchange) : exchange :=
  mkEx (ex_kind x) (ex_started x) (ex_table x) (ex_calls x) reading stuck (ex_locking x) (ex_rest x).
Definition with_lock (started locking : bool) (x : exchange) : exchange :=
  mkEx (ex_kind x) started (ex_table x) (ex_calls x) (ex_reading x) (ex_stuck x) locking (ex_rest x).
Definition with_rest (l : list Message) (x : exchange) : exchange :=
  mkEx (ex_kind x) (ex_started x) (ex_table x) (ex_calls x) (ex_reading x) (ex_stuck x)
    (ex_locking x) l.

Definition set_call (i : nat) (c : call) (x : exchange) : exchange :=
  with_calls (ex_table x) (<[i := c]> (ex_calls x)) x.

(** [randomString]: each byte is chosen by the nanoseconds of a clock reading. *)
Definition charset : string := "abcdefghijklmnopqrstuvwxyzABCDEFGHIJKLMNOPQRSTUVWXYZ0123456789".

Definition randomString (nanos : list Z) : string :=
  string_of_list_ascii
    ((fun n => default "a"%char (String.get (Z.to_nat (n mod 62)) charset)) <$> nanos).

(** [generateCorrelationID]; [stamp] is the formatted time. *)
Definition generateCorrelationID (stamp : string) (nanos : list Z) : string :=
  stamp +:+ "-" +:+ randomString nanos.

(** ** Actions *)

(** [ABegin id typed gen]: a call of [SendMsgSync] up to its sending, with the
    identity of its message, whether the argument is a [*pb.Message], and the
    result of [generateCorrelationID].  [ASent i r]: the message of call [i] has
    been sent; [r] is the error of [writeMessage] or the result of the unary
    call.  [AWake i w]: the wait of call [i] ends.  [ADelete i]: its deferred
    function runs.  [AHead], [AReceive m]: the receiver passes the head of its
    loop, and receives [m]. [AUnblock], [AUnblockCall i]: a send that blocked
    goes on.  [AShutdown], [ALocked]: a [Shutdown] asks for the lock and gets it. *)
Inductive action :=
| ABegin (id : string) (typed : bool) (gen : string)
| ASent (i : nat) (r : res (option Message))
| AWake (i : nat) (w : wake)
| ADelete (i : nat)
| AHead
| AReceive (m : Message)
| AUnblock
| AUnblockCall (i : nat)
| AShutdown
| ALocked.

(** A call that has not returned; in the Netty client it holds the read lock. *)
Definition active (c : call) : bool :=
  match ca_state c with CallReturned _ => false | _ => true end.

Definition holds_lock (x : exchange) : bool :=
  match ex_kind x with Netty => existsb active (ex_calls x) | Grpc => false end.

(** The first part of [SendMsgSync]. *)
Definition begin_call (id : string) (typed : bool) (gen : string) (x : exchange) : exchange :=
  let returned r := with_calls (ex_table x) (ex_calls x ++ [mkCall id NewResponseFuture (CallReturned r)]) x in
  match ex_kind x, ex_started x, typed with
  | Netty, false, _ => returned (Err "client not started")
  | Netty, true, false => returned (Err "invalid message type")
  | Grpc, _, false => returned (Ok None)
  | _, _, true =>
      let id := if String.eqb id "" then gen else id in
      with_calls (<[id := length (ex_calls x)]> (ex_table x))
        (ex_calls x ++ [mkCall id NewResponseFuture CallSending]) x
  end.

(** What follows the sending.  The response to a unary call with the identity
    of the request is put into the future and returned. *)
Definition after_send (k : clientKind) (r : res (option Message)) (c : call) : call :=
  match r with
  | Err e =>
      match PutError e (ca_future c) with
      | Some f => mkCall (ca_identity c) f (CallReturning (Err e))
      | None => c
      end
  | Ok resp =>
      match k, resp with
      | Grpc, Some m =>
          if String.eqb (msg_Identity m) (ca_identity c)
          then match PutResponse m (ca_future c) with
               | Some f => mkCall (ca_identity c) f (CallReturning (Ok (Some m)))
               | None => call_to (CallBlocked m) c
               end
          else call_to CallWaiting c
      | _, _ => call_to CallWaiting c
      end
  end.

(** The receiver with a message: [processReceivedMessage]. *)
Definition receive (m : Message) (x : exchange) : exchange :=
  let x := with_receiver false None x in
  match msg_Direction m, ex_table x !! msg_Identity m with
  | RESPONSE, Some i =>
      match ex_calls x !! i with
      | Some c =>
          match PutResponse m (ca_future c) with
          | Some f => set_call i (mkCall (ca_identity c) f (ca_state c)) x
          | None => with_receiver false (Some (i, m)) x
          end
      | None => x
      end
  | _, _ => with_rest (ex_rest x ++ [m]) x
  end.

(** An action; [None] when its goroutine cannot move. *)
Definition act (a : action) (x : exchange) : option exchange :=
  match a with
  | ABegin id typed gen =>
      match ex_kind x, ex_locking x with
      | Netty, true => None
      | _, _ => Some (begin_call id typed gen x)
      end
  | ASent i r =>
      match ex_calls x !! i with
      | Some c =>
          match ca_state c with
          | CallSending => Some (set_call i (after_send (ex_kind x) r c) x)
          | _ => None
          end
      | None => None
      end
  | AWake i w =>
      match ex_calls x !! i with
      | Some c =>
          match ca_state c, Wait w (ca_future c) with
          | CallWaiting, Some (f, r) => Some (set_call i (mkCall (ca_identity c) f (CallReturning r)) x)
          | _, _ => None
          end
      | None => None
      end
  | ADelete i =>
      match ex_calls x !! i with
      | Some c =>
          match ca_state c with
          | CallReturning r =>
              Some (with_calls (delete (ca_identity c) (ex_table x))
                      (<[i := call_to (CallReturned r) c]> (ex_calls x)) x)
          | _ => None
          end
      | None => None
      end
  | AHead =>
      match ex_stuck x with
      | None => if ex_started x && negb (ex_locking x) && negb (ex_reading x)
                then Some (with_receiver true None x) else None
      | Some _ => None
      end
  | AReceive m =>
      match ex_stuck x with
      | None => if ex_reading x then Some (receive m x) else None
      | Some _ => None
      end
  | AUnblock =>
      match ex_stuck x with
      | Some (i, m) =>
          match ex_calls x !! i with
          | Some c =>
              (fun f => set_call i (mkCall (ca_identity c) f (ca_state c)) (with_receiver false None x))
                <$> PutResponse m (ca_future c)
          | None => None
          end
      | None => None
      end
  | AUnblockCall i =>
      match ex_calls x !! i with
      | Some c =>
          match ca_state c with
          | CallBlocked m =>
              (fun f => set_call i (mkCall (ca_identity c) f (CallReturning (Ok (Some m)))) x)
                <$> PutResponse m (ca_future c)
          | _ => None
          end
      | None => None
      end
  | AShutdown => if ex_locking x then None else Some (with_lock (ex_started x) true x)
  | ALocked => if ex_locking x && negb (holds_lock x) then Some (with_lock false false x) else None
  end.

Fixpoint acts (l : list action) (x : exchange) : option exchange :=
  match l with
  | [] => Some x
  | a :: l => act a x ≫= acts l
  end.

(** ** Invariant *)

(** The messages of a call have its identity; a call that has not got its
    result has no error in its future. *)
Definition state_ok (id : string) (s : call_state) : Prop :=
  match s with
  | CallBlocked m | CallReturning (Ok (Some m)) | CallReturned (Ok (Some m)) => msg_Identity m = id
  | _ => True
  end.

Definition has_result (s : call_state) : option (res (option Message)) :=
  match s with CallReturning r | CallReturned r => Some r | _ => None end.

Record call_ok (c : call) : Prop := {
  co_response : forall m, rf_response (ca_future c) = Some m -> msg_Identity m = ca_identity c;
  co_state : state_ok (ca_identity c) (ca_state c);
  co_error : has_result (ca_state c) = None -> rf_error (ca_future c) = None;
}.

Record ex_inv (x : exchange) : Prop := {
  ei_calls : forall i c, ex_calls x !! i = Some c -> call_ok c;
  ei_table : forall id i, ex_table x !! id = Some i ->
               exists c, ex_calls x !! i = Some c /\ ca_identity c = id;
  ei_stuck : forall i m, ex_stuck x = Some (i, m) ->
               exists c, ex_calls x !! i = Some c /\ msg_Identity m = ca_identity c;
}.

(** Replacing a call by one with the same identity. *)
Lemma inv_set_call i c c' t stuck x y :
  ex_inv x -> ex_calls x !! i = Some c -> ca_identity c' = ca_identity c -> call_ok c' ->
  ex_calls y = <[i := c']> (ex_calls x) -> ex_table y = t -> ex_stuck y = stuck ->
  (forall id j, t !! id = Some j -> ex_table x !! id = Some j) ->
  (stuck = ex_stuck x \/ stuck = None) ->
  ex_inv y.
Proof.
  intros [H1 H2 H3] Hi Hid Hok Hc <- <- Ht Hs.
  assert (forall j d, ex_calls x !! j = Some d ->
    exists d', ex_calls y !! j = Some d' /\ ca_identity d' = ca_identity d) as Hcalls.
  { intros j d Hj. rewrite Hc. destruct (decide (i = j)) as [->|Hne].
    - rewrite list_lookup_insert_eq by (by eapply lookup_lt_Some). exists c'. split; congruence.
    - rewrite list_lookup_insert_ne by done. eauto. }
  split.
  - intros j d. rewrite Hc. intros [(<- & <- & _)|[_ Hj]]%list_lookup_insert_Some; [done|by eapply H1].
  - intros id j Hj. destruct (H2 id j (Ht id j Hj)) as (d & Hd & Hdi).
    destruct (Hcalls j d Hd) as (d' & ? & ?). exists d'. split; congruence.
  - intros j m Hj. destruct Hs as [Hs|Hs]; rewrite Hs in Hj; [|done].
    destruct (H3 j m Hj) as (d & Hd & Hm). destruct (Hcalls j d Hd) as (d' & ? & ?).
    exists d'. split; congruence.
Qed.

Lemma call_ok_put m c f :
  call_ok c -> msg_Identity m = ca_identity c -> PutResponse m (ca_future c) = Some f ->
  call_ok (mkCall (ca_identity c) f (ca_state c)) /\
  call_ok (mkCall (ca_identity c) f (CallReturning (Ok (Some m)))).
Proof.
  intros [H1 H2 H3] Hm. unfold PutResponse, chan_send.
  destruct (rf_response (ca_future c)) as [m'|] eqn:E; [done|]. intros [= <-].
  split; split; simpl; try done; by intros ? [= <-].
Qed.

Lemma call_ok_after_send k r c :
  call_ok c -> ca_state c = CallSending -> call_ok (after_send k r c).
Proof.
  intros Hc Hs. pose proof Hc as [H1 H2 H3]. rewrite Hs in H3. specialize (H3 eq_refl).
  assert (call_ok (call_to CallWaiting c)) as Hw by (split; simpl; auto).
  unfold after_send. destruct r as [resp|e].
  - destruct k, resp as [m|]; try done. destruct (String.eqb_spec (msg_Identity m) (ca_identity c)) as [Hm|]; [|done].
    destruct (PutResponse m (ca_future c)) as [f|] eqn:Ef; [by apply (call_ok_put m c f)|].
    split; simpl; auto.
  - unfold PutError, chan_send. rewrite H3. split; simpl; auto; done.
Qed.

Lemma call_ok_wait w c f r :
  call_ok c -> Wait w (ca_future c) = Some (f, r) ->
  call_ok (mkCall (ca_identity c) f (CallReturning r)).
Proof.
  intros [H1 H2 H3]. destruct w; simpl.
  - destruct (rf_response (ca_future c)) as [m|] eqn:E; [|done]. intros [= <- <-].
    split; simpl; [done|by apply H1|done].
  - destruct (rf_error (ca_future c)); [|done]. intros [= <- <-]. split; simpl; done.
  - intros [= <- <-]. split; simpl; done.
Qed.

(** A call that is appended, with or without an entry of the table. *)
Lemma inv_begin id typed gen x : ex_inv x -> ex_inv (begin_call id typed gen x).
Proof.
  intros [H1 H2 H3].
  assert (forall t d, call_ok d ->
    (forall i j, t !! i = Some j -> ex_table x !! i = Some j \/ j = length (ex_calls x) /\ ca_identity d = i) ->
    ex_inv (with_calls t (ex_calls x ++ [d]) x)) as Happ.
  { intros t d Hd Ht. split; simpl.
    - intros i c [Hi|[_ Hi]]%lookup_app_Some; [by eapply H1|].
      destruct (i - length (ex_calls x))%nat; simplify_eq/=. done.
    - intros i j [Hj|[-> Hj]]%Ht.
      + destruct (H2 i j Hj) as (c & Hc & ?). exists c. split; [|done]. by apply lookup_app_l_Some.
      + exists d. split; [|done]. by rewrite lookup_app_r, Nat.sub_diag by lia.
    - intros i m Hi. destruct (H3 i m Hi) as (c & Hc & ?). exists c. split; [|done].
      by apply lookup_app_l_Some. }
  assert (forall i r, state_ok i (CallReturned r) -> call_ok (mkCall i NewResponseFuture (CallReturned r))) as Hret
    by (by split).
  unfold begin_call. destruct (ex_kind x), (ex_started x), typed; apply Happ; try (by apply Hret);
    try (by split); try (by auto).
  all: intros i j [(<- & <-)|[_ Hj]]%lookup_insert_Some; auto.
Qed.

Lemma inv_receive m x : ex_inv x -> ex_stuck x = None -> ex_inv (receive m x).
Proof.
  intros Hinv Hs. pose proof Hinv as [H1 H2 H3]. unfold receive. cbn [ex_table ex_calls with_receiver].
  assert (ex_inv (with_rest (ex_rest x ++ [m]) (with_receiver false None x))) as Hrest by (by split).
  destruct (msg_Direction m); [done|]. destruct (ex_table x !! msg_Identity m) as [i|] eqn:Ht; [|done].
  destruct (H2 _ _ Ht) as (c & Hc & Hid). rewrite Hc.
  destruct (PutResponse m (ca_future c)) as [f|] eqn:Ef.
  - eapply (inv_set_call i c _ _ _ x); [done|done| | |done|done|done|done|by right]; [done|].
    apply (call_ok_put m c f); [by eapply H1|done|done].
  - split; simpl; [done|done|]. intros j m' [= <- <-]. by exists c.
Qed.

Lemma act_inv a x y : ex_inv x -> act a x = Some y -> ex_inv y.
Proof.
  intros Hinv. pose proof Hinv as [H1 H2 H3].
  destruct a as [id typed gen|i r|i w|i| |m| |i| |]; simpl.
  - destruct (ex_kind x), (ex_locking x); try done; intros [= <-]; by apply inv_begin.
  - destruct (ex_calls x !! i) as [c|] eqn:Hi; [|done]. destruct (ca_state c) eqn:Hs; try done.
    intros [= <-]. eapply (inv_set_call i c _ _ _ x); [done|done| | |done..|by left].
    + unfold after_send. repeat case_match; done.
    + apply call_ok_after_send; [by eapply H1|done].
  - destruct (ex_calls x !! i) as [c|] eqn:Hi; [|done]. destruct (ca_state c) eqn:Hs; try done.
    destruct (Wait w (ca_future c)) as [[f r]|] eqn:Hw; [|done]. intros [= <-].
    eapply (inv_set_call i c _ _ _ x); [done|done| | |done..|by left]; [done|].
    eapply call_ok_wait; [by eapply H1|done].
  - destruct (ex_calls x !! i) as [c|] eqn:Hi; [|done]. destruct (ca_state c) as [| | |r|] eqn:Hs; try done.
    intros [= <-]. eapply (inv_set_call i c _ _ _ x); [done|done| | |done|done|done| |by left]; [done| |].
    + destruct (H1 i c Hi) as [C1 C2 C3]. rewrite Hs in C2. by split.
    + intros id j. simpl. by intros [_ Hj]%lookup_delete_Some.
  - destruct (ex_stuck x); [done|]. case_match; [|done]. intros [= <-]. by split.
  - destruct (ex_stuck x) eqn:Hst; [done|]. case_match; [|done]. intros [= <-]. by apply inv_receive.
  - destruct (ex_stuck x) as [[i m]|] eqn:Hst; [|done].
    destruct (ex_calls x !! i) as [c|] eqn:Hi; [|done].
    destruct (PutResponse m (ca_future c)) as [f|] eqn:Ef; [|done]. intros [= <-].
    destruct (H3 i m eq_refl) as (c' & Hc' & Hm). rewrite Hi in Hc'. injection Hc' as <-.
    eapply (inv_set_call i c _ _ _ x); [done|done| | |done..|by right]; [done|].
    apply (call_ok_put m c f); [by eapply H1|done|done].
  - destruct (ex_calls x !! i) as [c|] eqn:Hi; [|done]. destruct (ca_state c) as [|m| | |] eqn:Hs; try done.
    destruct (PutResponse m (ca_future c)) as [f|] eqn:Ef; [|done]. intros [= <-].
    eapply (inv_set_call i c _ _ _ x); [done|done| | |done..|by left]; [done|].
    pose proof (co_state _ (H1 i c Hi)) as Hm. rewrite Hs in Hm.
    apply (call_ok_put m c f); [by eapply H1|done|done].
  - case_match; [done|]. intros [= <-]. by split.
  - case_match; [|done]. intros [= <-]. by split.
Qed.

Lemma acts_inv l : forall x y, ex_inv x -> acts l x = Some y -> ex_inv y.
Proof.
  induction l as [|a l IH]; intros x y Hx; simpl; [by intros [= <-]|].
  destruct (act a x) as [z|] eqn:E; simpl; [|done]. apply IH. by apply (act_inv a x).
Qed.

Lemma new_inv k : ex_inv (new_exchange k).
Proof. split; simpl; [done| |done]. intros id i Hi. by rewrite lookup_empty in Hi. Qed.

(** C20 (safety). Under every interleaving of calls, receptions, deadlines and
    shutdowns, the message that a call of [SendMsgSync] returns has the
    identity of its request, and no call returns through the error channel of
    its future. *)
Theorem sync_returns_own_response k l x i c m :
  acts l (new_exchange k) = Some x -> ex_calls x !! i = Some c ->
  (ca_state c = CallReturned (Ok (Some m)) -> msg_Identity m = ca_identity c) /\
  act (AWake i WakeError) x = None.
Proof.
  intros Hx Hi. pose proof (ei_calls _ (acts_inv l _ x (new_inv k) Hx) i c Hi) as [H1 H2 H3]. split.
  - intros Hs. by rewrite Hs in H2.
  - simpl. rewrite Hi. destruct (ca_state c); try done. by rewrite (H3 eq_refl).
Qed.

(** ** What becomes of a response *)

(** [P] holds of call [i]. *)
Definition call_is (P : call -> Prop) (i : nat) (x : exchange) : Prop :=
  exists c, ex_calls x !! i = Some c /\ P c.

(** What an action may do to a call. *)
Inductive call_move : call -> call -> Prop :=
| mv_same c : call_move c c
| mv_send k r c : ca_state c = CallSending -> call_move c (after_send k r c)
| mv_wait w f r c :
    ca_state c = CallWaiting -> Wait w (ca_future c) = Some (f, r) ->
    call_move c (mkCall (ca_identity c) f (CallReturning r))
| mv_delete r c : ca_state c = CallReturning r -> call_move c (call_to (CallReturned r) c)
| mv_put m f c :
    PutResponse m (ca_future c) = Some f -> call_move c (mkCall (ca_identity c) f (ca_state c))
| mv_unblock m f c :
    ca_state c = CallBlocked m -> PutResponse m (ca_future c) = Some f ->
    call_move c (mkCall (ca_identity c) f (CallReturning (Ok (Some m)))).

Lemma call_insert x i j c d d' :
  ex_calls x !! i = Some c -> ex_calls x !! j = Some d -> call_move d d' ->
  exists c', <[j := d']> (ex_calls x) !! i = Some c' /\ call_move c c'.
Proof.
  intros Hi Hj Hm. destruct (decide (j = i)) as [->|Hne].
  - rewrite list_lookup_insert_eq by (by eapply lookup_lt_Some).
    rewrite Hi in Hj. injection Hj as <-. eauto.
  - rewrite list_lookup_insert_ne by done. exists c. split; [done|constructor].
Qed.

Lemma begin_calls id typed gen x : exists d, ex_calls (begin_call id typed gen x) = ex_calls x ++ [d].
Proof. unfold begin_call. destruct (ex_kind x), (ex_started x), typed; eexists; reflexivity. Qed.

Lemma act_move a x y i c :
  act a x = Some y -> ex_calls x !! i = Some c -> exists c', ex_calls y !! i = Some c' /\ call_move c c'.
Proof.
  intros E Hi. assert (exists c', ex_calls x !! i = Some c' /\ call_move c c') as Hsame
    by (exists c; split; [done|constructor]).
  destruct a as [id typed gen|j r|j w|j| |m| |j| |]; simpl in E.
  - destruct (begin_calls id typed gen x) as [d Hd].
    destruct (ex_kind x), (ex_locking x); try done; injection E as <-; rewrite Hd;
      exists c; (split; [by apply lookup_app_l_Some|constructor]).
  - destruct (ex_calls x !! j) as [d|] eqn:Hj; [|done]. destruct (ca_state d) eqn:Hs; try done.
    injection E as <-. eapply call_insert; [done..|]. by apply mv_send.
  - destruct (ex_calls x !! j) as [d|] eqn:Hj; [|done]. destruct (ca_state d) eqn:Hs; try done.
    destruct (Wait w (ca_future d)) as [[f r]|] eqn:Hw; [|done].
    injection E as <-. eapply call_insert; [done..|]. by eapply mv_wait.
  - destruct (ex_calls x !! j) as [d|] eqn:Hj; [|done]. destruct (ca_state d) eqn:Hs; try done.
    injection E as <-. eapply call_insert; [done..|]. by apply mv_delete.
  - destruct (ex_stuck x); [done|]. case_match; [|done]. by injection E as <-.
  - destruct (ex_stuck x); [done|]. case_match; [|done]. injection E as <-.
    unfold receive. cbn [ex_table ex_calls with_receiver].
    destruct (msg_Direction m); [done|]. destruct (ex_table x !! msg_Identity m) as [j|]; [|done].
    destruct (ex_calls x !! j) as [d|] eqn:Hj; [|done].
    destruct (PutResponse m (ca_future d)) as [f|] eqn:Ef; [|done].
    eapply call_insert; [done..|]. by eapply mv_put.
  - destruct (ex_stuck x) as [[j m]|]; [|done]. destruct (ex_calls x !! j) as [d|] eqn:Hj; [|done].
    destruct (PutResponse m (ca_future d)) as [f|] eqn:Ef; [|done].
    injection E as <-. eapply call_insert; [done..|]. by eapply mv_put.
  - destruct (ex_calls x !! j) as [d|] eqn:Hj; [|done]. destruct (ca_state d) as [|m| | |] eqn:Hs; try done.
    destruct (PutResponse m (ca_future d)) as [f|] eqn:Ef; [|done].
    injection E as <-. eapply call_insert; [done..|]. by eapply mv_unblock.
  - case_match; [done|]. by injection E as <-.
  - case_match; [|done]. by injection E as <-.
Qed.

(** What every move of a call keeps is kept for ever. *)
Lemma acts_keep (P : call -> Prop) i l :
  (forall c c', call_ok c -> P c -> call_move c c' -> P c') ->
  forall x y, ex_inv x -> call_is P i x -> acts l x = Some y -> call_is P i y.
Proof.
  intros HP. induction l as [|a l IH]; intros x y Hx (c & Hc & Hp); simpl; [intros [= <-]; by exists c|].
  destruct (act a x) as [z|] eqn:E; simpl; [|done]. apply IH; [by apply (act_inv a x)|].
  destruct (act_move a x z i c E Hc) as (c' & Hc' & Hm). exists c'. split; [done|].
  apply (HP c c'); [by apply (ei_calls _ Hx i)|done|done].
Qed.

(** The response [m] has arrived for a call that waits or has ended. *)
Definition settled (id : string) (m : Message) (c : call) : Prop :=
  ca_identity c = id /\
  (ca_state c = CallWaiting /\ rf_response (ca_future c) = Some m \/
   has_result (ca_state c) = Some (Ok (Some m)) \/
   has_result (ca_state c) = Some (Err DeadlineExceeded)).

Lemma settled_keep id m c c' : call_ok c -> settled id m c -> call_move c c' -> settled id m c'.
Proof.
  intros [_ _ H3] [Hid Hc] Hm. destruct Hm as [c|k r c Hs|w f r c Hs Hw|r c Hs|m' f c Hf|m' f c Hs Hf].
  - done.
  - rewrite Hs in Hc. by destruct Hc as [[? ?]|[?|?]].
  - split; [done|]. rewrite Hs in Hc, H3. destruct Hc as [[_ Hr]|[?|?]]; [|done..]. simpl. right.
    destruct w; simpl in Hw.
    + rewrite Hr in Hw. injection Hw as <- <-. by left.
    + by rewrite (H3 eq_refl) in Hw.
    + injection Hw as <- <-. by right.
  - split; [done|]. rewrite Hs in Hc. simpl in *. destruct Hc as [[? ?]|Hc]; [done|by right].
  - split; [done|]. simpl. destruct Hc as [[Hs Hr]|Hc]; [|by right].
    unfold PutResponse, chan_send in Hf. by rewrite Hr in Hf.
  - rewrite Hs in Hc. by destruct Hc as [[? ?]|[?|?]].
Qed.

(** C11 (functional). A response that arrives for a waiting call, the one that
    the table has for its identity, is the result of that call: whatever
    happens afterwards, the call waits with the response in its future, or has
    it as its result, or its deadline came first. *)
Theorem response_reaches_call k l0 x i c m :
  acts l0 (new_exchange k) = Some x ->
  ex_reading x = true -> ex_stuck x = None ->
  ex_table x !! msg_Identity m = Some i -> ex_calls x !! i = Some c ->
  ca_state c = CallWaiting -> rf_response (ca_future c) = None -> msg_Direction m = RESPONSE ->
  exists x1, act (AReceive m) x = Some x1 /\
    (exists x2, act (AWake i WakeResponse) x1 = Some x2) /\
    forall l y, acts l x1 = Some y -> call_is (settled (ca_identity c) m) i y.
Proof.
  intros Hx Hr Hst Ht Hc Hs Hf Hd.
  assert (receive m x = set_call i (mkCall (ca_identity c) (mkFuture (Some m) (rf_error (ca_future c)))
    (ca_state c)) (with_receiver false None x)) as Hrec.
  { unfold receive. cbn [ex_table ex_calls with_receiver]. rewrite Hd, Ht, Hc.
    unfold PutResponse, chan_send. by rewrite Hf. }
  exists (receive m x). split_and!.
  - simpl. by rewrite Hst, Hr.
  - rewrite Hrec. simpl. rewrite list_lookup_insert_eq by (by eapply lookup_lt_Some).
    simpl. rewrite Hs. simpl. eauto.
  - intros l y Hy. apply (acts_keep _ i l (settled_keep _ _) (receive m x)); [| |done].
    + apply inv_receive; [|done]. by apply (acts_inv l0 _ _ (new_inv k)).
    + rewrite Hrec. eexists. split; [simpl; by rewrite list_lookup_insert_eq by (by eapply lookup_lt_Some)|].
      split; [done|]. simpl. by left.
Qed.

(** ** Sends that block for ever *)

(** A future that holds a response and that nobody will read. *)
Definition dead (c : call) : Prop :=
  is_Some (rf_response (ca_future c)) /\
  match ca_state c with CallSending | CallWaiting => False | _ => True end.

Lemma dead_keep c c' : call_ok c -> dead c -> call_move c c' -> ca_state c' = ca_state c /\ dead c' \/
  exists r, ca_state c = CallReturning r /\ ca_state c' = CallReturned r /\ dead c'.
Proof.
  intros _ [[m0 Hf] Hc] Hm. unfold PutResponse, chan_send in *.
  destruct Hm as [c|k r c Hs|w f r c Hs Hw|r c Hs|m' f c Hp|m' f c Hs Hp]; rewrite ?Hs in Hc; try done.
  - left. split; [done|]. split; [by rewrite Hf|done].
  - right. exists r. split_and!; [done..|]. split; simpl; [by rewrite Hf|done].
  - unfold PutResponse, chan_send in Hp. by rewrite Hf in Hp.
  - unfold PutResponse, chan_send in Hp. by rewrite Hf in Hp.
Qed.

Lemma stuck_act a x y i m :
  call_is dead i x -> ex_stuck x = Some (i, m) -> act a x = Some y ->
  ex_stuck y = Some (i, m) /\ ex_rest y = ex_rest x.
Proof.
  intros (c & Hc & [r Hr] & _) Hs E.
  destruct a as [id typed gen|j r'|j w|j| |m'| |j| |]; simpl in E; rewrite ?Hs in E; try done.
  - destruct (ex_kind x) eqn:Hk, (ex_locking x); try done; injection E as <-; unfold begin_call;
      rewrite Hk; destruct (ex_started x), typed; done.
  - repeat case_match; simplify_eq; done.
  - repeat case_match; simplify_eq; done.
  - repeat case_match; simplify_eq; done.
  - rewrite Hc in E. unfold PutResponse, chan_send in E. by rewrite Hr in E.
  - destruct (ex_calls x !! j) as [d|]; [|done]. destruct (ca_state d); try done.
    destruct (PutResponse _ _); [|done]. injection E as <-. done.
  - case_match; [done|]. by injection E as <-.
  - case_match; [|done]. by injection E as <-.
Qed.

(** C24 (safety). A second response for one request blocks for ever whoever puts
    it into the future, once the call no longer waits: the receiver then takes
    no further message, neither for calls nor for the processors, and a call
    that puts its own response never returns. *)
Theorem second_response_blocks k l0 x i c :
  acts l0 (new_exchange k) = Some x -> ex_calls x !! i = Some c -> dead c ->
  forall l y, acts l x = Some y ->
    (forall m, ex_stuck x = Some (i, m) -> ex_stuck y = Some (i, m) /\ ex_rest y = ex_rest x) /\
    (forall m, ca_state c = CallBlocked m -> call_is (fun d => ca_state d = CallBlocked m) i y).
Proof.
  intros Hx Hc Hd l y Hy. pose proof (acts_inv l0 _ x (new_inv k) Hx) as Hinv. split.
  - intros m. assert (call_is dead i x) as Hdead by by exists c.
    clear Hx Hc Hd. revert x Hinv Hdead Hy. induction l as [|a l IH]; intros x Hinv Hdead; simpl.
    { by intros [= <-]. }
    destruct (act a x) as [z|] eqn:E; simpl; [|done]. intros Hy Hs.
    destruct (stuck_act a x z i m Hdead Hs E) as [Hs' <-].
    apply (IH z); [by apply (act_inv a x)| |done|done].
    destruct Hdead as (d & Hdi & Hd). destruct (act_move a x z i d E Hdi) as (d' & Hd' & Hm).
    exists d'. split; [done|].
    destruct (dead_keep d d' (ei_calls _ Hinv i d Hdi) Hd Hm) as [[_ ?]|(? & _ & _ & ?)]; done.
  - intros m Hs.
    assert (call_is (fun d => dead d /\ ca_state d = CallBlocked m) i y) as (d & Hd' & _ & Hdm);
      [|by exists d].
    apply (acts_keep _ i l) with (x := x); [|done|by exists c|done].
    intros d d' Hok [Hdd Hds] Hm. destruct (dead_keep d d' Hok Hdd Hm) as [[Hst ?]|(? & ? & _)];
      [split; [done|congruence]|congruence].
Qed.

(** *** A shutdown during a call

    The Netty client holds the read lock while a call waits.  A [Shutdown] that
    asks for the lock keeps the receiver from passing the head of its loop, so
    that the call cannot get a response any more. *)
Definition starved (i : nat) (x : exchange) : Prop :=
  exists c, ex_calls x !! i = Some c /\
    (has_result (ca_state c) = Some (Err DeadlineExceeded) \/
     ca_state c = CallWaiting /\ rf_response (ca_future c) = None /\
     ex_kind x = Netty /\ ex_locking x = true /\ ex_reading x = false /\ ex_stuck x = None).

Lemma holds_lock_call x i c :
  ex_kind x = Netty -> ex_calls x !! i = Some c -> ca_state c = CallWaiting -> holds_lock x = true.
Proof.
  intros Hk Hi Hs. unfold holds_lock. rewrite Hk. apply existsb_exists. exists c.
  split; [by apply list_elem_of_In, list_elem_of_lookup_2 with i|]. unfold active. by rewrite Hs.
Qed.

Lemma starved_keep a x y i : ex_inv x -> starved i x -> act a x = Some y -> starved i y.
Proof.
  intros Hinv (c & Hi & Hc) E. destruct (act_move a x y i c E Hi) as (c' & Hi' & Hm).
  exists c'. split; [done|]. destruct Hc as [Hc|(Hs & Hf & Hk & Hl & Hr & Hst)].
  { left. destruct Hm as [c|k r c Hs|w f r c Hs Hw|r c Hs|m' f c Hp|m' f c Hs Hp];
      rewrite ?Hs in Hc; done. }
  pose proof (co_error _ (ei_calls _ Hinv i c Hi)) as He. rewrite Hs in He. specialize (He eq_refl).
  destruct a as [id typed gen|j r|j w|j| |m| |j| |]; simpl in E; rewrite ?Hk, ?Hl, ?Hr, ?Hst in E; try done.
  - destruct (ex_calls x !! j) as [d|] eqn:Hj; [|done]. destruct (ca_state d) eqn:Hd; try done.
    injection E as <-. right. simpl in *. destruct (decide (j = i)) as [->|Hne]; [congruence|].
    rewrite list_lookup_insert_ne, Hi in Hi' by done. injection Hi' as <-. done.
  - destruct (ex_calls x !! j) as [d|] eqn:Hj; [|done]. destruct (ca_state d) eqn:Hd; try done.
    destruct (Wait w (ca_future d)) as [[f r]|] eqn:Hw; [|done]. injection E as <-. simpl in *.
    destruct (decide (j = i)) as [->|Hne].
    + rewrite list_lookup_insert_eq in Hi' by (by eapply lookup_lt_Some).
      rewrite Hi in Hj. injection Hj as <-. injection Hi' as <-. left. simpl.
      destruct w; simpl in Hw; rewrite ?Hf, ?He in Hw; simplify_eq/=. done.
    + rewrite list_lookup_insert_ne, Hi in Hi' by done. injection Hi' as <-. by right.
  - destruct (ex_calls x !! j) as [d|] eqn:Hj; [|done]. destruct (ca_state d) eqn:Hd; try done.
    injection E as <-. right. simpl in *. destruct (decide (j = i)) as [->|Hne]; [congruence|].
    rewrite list_lookup_insert_ne, Hi in Hi' by done. injection Hi' as <-. done.
  - destruct (ex_started x); done.
  - destruct (ex_calls x !! j) as [d|] eqn:Hj; [|done]. destruct (ca_state d) as [|m| | |] eqn:Hd; try done.
    destruct (PutResponse m (ca_future d)) as [f|]; [|done].
    injection E as <-. right. simpl in *. destruct (decide (j = i)) as [->|Hne]; [congruence|].
    rewrite list_lookup_insert_ne, Hi in Hi' by done. injection Hi' as <-. done.
  - by rewrite (holds_lock_call x i c Hk Hi Hs) in E.
Qed.

(** In the Netty client, from the moment a [Shutdown] waits for
    the lock and the receiver is at the head of its loop, a call that waits for
    its response can only end by its deadline, and until it has the client is
    not shut down. *)
Theorem shutdown_starves_calls l0 x i c :
  acts l0 (new_exchange Netty) = Some x -> ex_kind x = Netty ->
  ex_calls x !! i = Some c -> ca_state c = CallWaiting -> rf_response (ca_future c) = None ->
  ex_locking x = true -> ex_reading x = false -> ex_stuck x = None ->
  act ALocked x = None /\
  forall l y, acts l x = Some y ->
    call_is (fun d => ca_state d = CallWaiting \/ has_result (ca_state d) = Some (Err DeadlineExceeded)) i y.
Proof.
  intros Hx Hk Hi Hs Hf Hl Hr Hst. pose proof (acts_inv l0 _ x (new_inv Netty) Hx) as Hinv. split.
  - simpl. by rewrite Hl, (holds_lock_call x i c Hk Hi Hs).
  - assert (starved i x) as Hstarved by (exists c; split; [done|right; done]).
    clear -Hinv Hstarved. intros l. revert x Hinv Hstarved.
    induction l as [|a l IH]; intros x Hinv Hstarved y; simpl.
    + intros [= <-]. destruct Hstarved as (c & Hi & [Hc|(Hc & _)]); exists c; auto.
    + destruct (act a x) as [z|] eqn:E; simpl; [|done]. apply IH; [by apply (act_inv a x)|].
      by apply (starved_keep a x).
Qed.

(** ** Examples *)

Definition ex_response : Message := mkMessage 0 RESPONSE "collector-go" "".

Definition ex_after (k : clientKind) (l : list action) : exchange :=
  default (new_exchange k) (acts l (new_exchange k)).

(** A heartbeat of the Netty client up to its wait, the receiver ready. *)
Definition ex_wait : list action := [ABegin "collector-go" true ""; ASent 0 (Ok None); AHead].

(** A heartbeat of the gRPC client whose response comes from the call and then
    from the stream as well, before the deferred function has run. *)
Definition ex_twice : list action :=
  [ABegin "collector-go" true ""; ASent 0 (Ok (Some ex_response)); AHead; AReceive ex_response].

Lemma sync_returns_own_response_witness :
  acts (ex_wait ++ [AReceive ex_response; AWake 0 WakeResponse; ADelete 0]) (new_exchange Netty)
    = Some (ex_after Netty (ex_wait ++ [AReceive ex_response; AWake 0 WakeResponse; ADelete 0])) /\
  act (AWake 0 WakeError)
    (ex_after Netty (ex_wait ++ [AReceive ex_response; AWake 0 WakeResponse; ADelete 0])) = None.
Proof.
  split; [vm_compute; reflexivity|].
  eapply (sync_returns_own_response Netty (ex_wait ++ [AReceive ex_response; AWake 0 WakeResponse; ADelete 0])
    _ 0 _ ex_response); vm_compute; reflexivity.
Defined.

Lemma response_reaches_call_witness :
  exists x1, act (AReceive ex_response) (ex_after Netty ex_wait) = Some x1 /\
    (exists x2, act (AWake 0 WakeResponse) x1 = Some x2) /\
    forall l y, acts l x1 = Some y -> call_is (settled "collector-go" ex_response) 0 y.
Proof.
  apply (response_reaches_call Netty ex_wait (ex_after Netty ex_wait) 0
    (mkCall "collector-go" NewResponseFuture CallWaiting) ex_response); vm_compute; reflexivity.
Defined.

Lemma second_response_blocks_witness :
  ex_stuck (ex_after Grpc ex_twice) = Some (0%nat, ex_response) /\
  forall l y, acts l (ex_after Grpc ex_twice) = Some y ->
    ex_stuck y = Some (0%nat, ex_response) /\ ex_rest y = [].
Proof.
  split; [reflexivity|]. intros l y Hy.
  destruct (second_response_blocks Grpc ex_twice (ex_after Grpc ex_twice) 0
    (mkCall "collector-go" (mkFuture (Some ex_response) None) (CallReturning (Ok (Some ex_response)))))
    with (l := l) (y := y) as [H _]; [reflexivity|reflexivity|split; [eexists; reflexivity|exact I]|exact Hy|].
  apply H. reflexivity.
Defined.

Lemma shutdown_starves_calls_witness :
  let x := ex_after Netty [ABegin "collector-go" true ""; ASent 0 (Ok None); AShutdown] in
  act ALocked x = None /\
  forall l y, acts l x = Some y ->
    call_is (fun d => ca_state d = CallWaiting \/ has_result (ca_state d) = Some (Err DeadlineExceeded)) 0 y.
Proof.
  exact (shutdown_starves_calls [ABegin "collector-go" true ""; ASent 0 (Ok None); AShutdown] _ 0
    (mkCall "collector-go" NewResponseFuture CallWaiting) eq_refl eq_refl eq_refl eq_refl eq_refl
    eq_refl eq_refl eq_refl).
Defined.

(** The same from the other side: the response comes from the stream first, and
    the call then blocks in its own [PutResponse]. *)
Example own_response_blocks :
  ca_state <$> ex_calls (ex_after Grpc [ABegin "collector-go" true ""; AHead; AReceive ex_response;
    ASent 0 (Ok (Some ex_response))]) = [CallBlocked ex_response].
Proof. vm_compute. reflexivity. Qed.

(** Two calls with one identity: the end of the first, by its deadline, takes
    the second out of the table, and the response goes to the processors. *)
Example shared_identity_loses_response :
  let x := ex_after Netty [ABegin "collector-go" true ""; ABegin "collector-go" true "";
    ASent 0 (Ok None); ASent 1 (Ok None); AWake 0 WakeTimeout; ADelete 0; AHead; AReceive ex_response] in
  ex_rest x = [ex_response] /\
  (rf_response ∘ ca_future <$> ex_calls x) = [None; None] /\
  (ca_state <$> ex_calls x) = [CallReturned (Err DeadlineExceeded); CallWaiting].
Proof. vm_compute. done. Qed.

(** Characters that are chosen in the same nanosecond are equal. *)
Example correlation_ids_repeat :
  generateCorrelationID "20250101000000.5" (replicate 8 500000000) = "20250101000000.5-iiiiiiii".
Proof. vm_compute. reflexivity. Qed.
