(* ===== verification/Units.v ===== *)
(** * Unit conversion

    Models internal/util/unit/converter.go: [ParseConversion] and [Convert].
    The factors are the exact float64 values of the integers in the code. *)

From Stdlib Require Import Ascii String.
From S2P Require Import Prelude GoStrings GoFloat Params.

Open Scope string_scope.
Open Scope list_scope.
Open Scope Z_scope.

Record Conversion := mkConversion {
  cv_Field : string;
  cv_OriginUnit : string;
  cv_NewUnit : string;
}.

Definition ParseConversion (unitStr : string) : res Conversion :=
  match Split unitStr "=" with
  | [p0; p1] =>
      let fieldName := TrimSpace p0 in
      let conversionPart := TrimSpace p1 in
      match Split conversionPart "->" with
      | [u0; u1] => Ok (mkConversion fieldName (TrimSpace u0) (TrimSpace u1))
      | _ => Err ("invalid unit conversion format: " +:+ conversionPart
                  +:+ ", expected 'originUnit->newUnit'")
      end
  | _ => Err ("invalid unit conversion format: " +:+ unitStr
              +:+ ", expected 'fieldName=originUnit->newUnit'")
  end.

Definition byteUnits : gmap string Z :=
  list_to_map [("B", 1); ("KB", 1024); ("MB", 1024 ^ 2); ("GB", 1024 ^ 3); ("TB", 1024 ^ 4);
    ("PB", 1024 ^ 5); ("KIB", 1024); ("MIB", 1024 ^ 2); ("GIB", 1024 ^ 3); ("TIB", 1024 ^ 4);
    ("PIB", 1024 ^ 5)].

Definition bitUnits : gmap string Z :=
  list_to_map [("B", 1); ("KB", 1000); ("MB", 1000 ^ 2); ("GB", 1000 ^ 3); ("TB", 1000 ^ 4);
    ("PB", 1000 ^ 5); ("KBIT", 1000); ("MBIT", 1000 ^ 2); ("GBIT", 1000 ^ 3); ("TBIT", 1000 ^ 4);
    ("PBIT", 1000 ^ 5)].

Definition timeUnits : gmap string Z :=
  list_to_map [("NS", 1); ("US", 1000); ("MS", 1000000); ("S", 1000000000);
    ("MIN", 60000000000); ("H", 3600000000000); ("D", 86400000000000)].

(** One of the three attempts: both units are in the table. *)
Definition try_units (table : gmap string Z) (value : float64) (originUnit newUnit : string)
    : option float64 :=
  match table !! originUnit, table !! newUnit with
  | Some originFactor, Some newFactor =>
      Some (f64_div (f64_mul value (f64_of_Z originFactor)) (f64_of_Z newFactor))
  | _, _ => None
  end.

Definition Convert (value : float64) (originUnit newUnit : string) : res float64 :=
  let originUnit := ToUpper originUnit in
  let newUnit := ToUpper newUnit in
  if String.eqb originUnit newUnit then Ok value
  else
    match try_units byteUnits value originUnit newUnit with
    | Some v => Ok v
    | None =>
        match try_units bitUnits value originUnit newUnit with
        | Some v => Ok v
        | None =>
            match try_units timeUnits value originUnit newUnit with
            | Some v => Ok v
            | None => Err ("unsupported unit conversion from " +:+ originUnit +:+ " to " +:+ newUnit)
            end
        end
    end.

(** ** Specification

    What a unit measures, and its size in the base unit of its kind. *)
Inductive dimension := Bytes | Bits | Time.

#[global] Instance dimension_eq_dec : EqDecision dimension.
Proof. solve_decision. Defined.

Definition units_of (d : dimension) : gmap string Z :=
  match d with Bytes => byteUnits | Bits => bitUnits | Time => timeUnits end.

(** The first dimension that knows both units. *)
Definition common_dimension (originUnit newUnit : string) : option dimension :=
  List.find (fun d => bool_decide (is_Some (units_of d !! originUnit))
                      && bool_decide (is_Some (units_of d !! newUnit))) [Bytes; Bits; Time].

Definition factor (d : dimension) (u : string) : Z := default 1 (units_of d !! u).

Lemma try_units_spec d v o n :
  try_units (units_of d) v o n =
  if bool_decide (is_Some (units_of d !! o)) && bool_decide (is_Some (units_of d !! n))
  then Some (f64_div (f64_mul v (f64_of_Z (factor d o))) (f64_of_Z (factor d n)))
  else None.
Proof.
  unfold try_units, factor.
  destruct (units_of d !! o) eqn:Eo, (units_of d !! n) eqn:En; try done; simpl.
  all: repeat case_bool_decide; try done.
  all: match goal with H : ~ is_Some _ |- _ => by destruct H end.
Qed.

Lemma Convert_spec v o n :
  Convert v o n =
  if String.eqb (ToUpper o) (ToUpper n) then Ok v
  else match common_dimension (ToUpper o) (ToUpper n) with
       | Some d => Ok (f64_div (f64_mul v (f64_of_Z (factor d (ToUpper o))))
                               (f64_of_Z (factor d (ToUpper n))))
       | None => Err ("unsupported unit conversion from " +:+ ToUpper o +:+ " to " +:+ ToUpper n)
       end.
Proof.
  unfold Convert, common_dimension. destruct (String.eqb _ _); [done|].
  change byteUnits with (units_of Bytes). change bitUnits with (units_of Bits).
  change timeUnits with (units_of Time). rewrite !try_units_spec. cbn [List.find].
  set (b d := bool_decide (is_Some (units_of d !! ToUpper o))
              && bool_decide (is_Some (units_of d !! ToUpper n))).
  fold (b Bytes) (b Bits) (b Time). by destruct (b Bytes), (b Bits), (b Time).
Qed.

(** The text of a conversion, and the names that can be written in one. *)
Definition render_conversion (c : Conversion) : string :=
  cv_Field c +:+ "=" +:+ cv_OriginUnit c +:+ "->" +:+ cv_NewUnit c.

Definition trimmed (s : string) : Prop := TrimSpace s = s.

Definition plain_name (s : string) : Prop := no_char "=" s /\ no_char "-" s /\ trimmed s.

(** *** Trimming *)

Lemma trim_left_length f s : (String.length (trim_left f s) <= String.length s)%nat.
Proof. induction s as [|c s IH]; simpl; [lia|]. destruct (f c); simpl; lia. Qed.

Lemma trim_right_length f s : (String.length (trim_right f s) <= String.length s)%nat.
Proof. induction s as [|c s IH]; simpl; [lia|]. destruct (f c && str_all f s); simpl; lia. Qed.

Lemma trim_left_full f s : String.length (trim_left f s) = String.length s -> trim_left f s = s.
Proof.
  destruct s as [|c s]; simpl; [done|]. destruct (f c); [|done].
  pose proof (trim_left_length f s). lia.
Qed.

Lemma trimmed_sides s : trimmed s -> trim_left is_space s = s /\ trim_right is_space s = s.
Proof.
  unfold trimmed, TrimSpace. intros H.
  assert (trim_left is_space s = s) as Hl.
  { apply trim_left_full. pose proof (trim_left_length is_space s).
    pose proof (trim_right_length is_space (trim_left is_space s)). rewrite H in *. lia. }
  split; [done|]. by rewrite Hl in H.
Qed.

Lemma trim_left_app f a b : a <> "" -> trim_left f a = a -> trim_left f (a +:+ b) = a +:+ b.
Proof.
  destruct a as [|c a]; [done|]. intros _. simpl. destruct (f c); [|done]. intros H.
  pose proof (trim_left_length f a) as Hl. rewrite H in Hl. simpl in Hl. lia.
Qed.

Lemma trim_right_app f a b : b <> "" -> trim_right f b = b -> trim_right f (a +:+ b) = a +:+ b.
Proof.
  intros Hb H. induction a as [|c a IH]; [done|].
  change (String c a +:+ b) with (String c (a +:+ b)). cbn [trim_right str_all].
  rewrite str_all_app. destruct (str_all f b) eqn:E.
  - by rewrite trim_right_all in H.
  - by rewrite !andb_false_r, IH.
Qed.

Lemma trimmed_app a x b :
  x <> "" -> trimmed a -> trimmed x -> trimmed b -> trimmed (a +:+ x +:+ b).
Proof.
  intros Hx Ha Hxt Hb.
  apply trimmed_sides in Ha as [Ha _], Hxt as [Hx1 Hx2], Hb as [_ Hb].
  assert (trim_left is_space (x +:+ b) = x +:+ b) as H1 by (by apply trim_left_app).
  assert (trim_right is_space (x +:+ b) = x +:+ b) as H2.
  { destruct (decide (b = "")) as [->|Hne]; [by rewrite str_app_nil_r|by apply trim_right_app]. }
  assert (x +:+ b <> "") as Hne by (by destruct x).
  unfold trimmed, TrimSpace.
  destruct (decide (a = "")) as [->|Ha0]; [by change ("" +:+ ?y) with y; rewrite H1|].
  rewrite trim_left_app by done. by apply trim_right_app.
Qed.

(** Parsing the text of a conversion between names without
    [=] and [-] and without outer spaces gives the conversion back. *)
Theorem ParseConversion_roundtrip (c : Conversion) :
  plain_name (cv_Field c) -> plain_name (cv_OriginUnit c) -> plain_name (cv_NewUnit c) ->
  ParseConversion (render_conversion c) = Ok c.
Proof.
  destruct c as [f o n]. unfold plain_name, render_conversion. simpl.
  intros (Hf & _ & Hft) (Ho & Hom & Hot) (Hn & Hnm & Hnt). unfold ParseConversion.
  rewrite Split_two; [|done|].
  2: { rewrite !no_char_app. split; [done|]. split; [done|done]. }
  assert (trimmed (o +:+ "->" +:+ n)) as Ht by (by apply trimmed_app).
  unfold trimmed in *. rewrite Ht, Hft, Split_two, Hot, Hnt by done. done.
Qed.

Lemma ParseConversion_roundtrip_witness :
  ParseConversion (render_conversion (mkConversion "committed" "B" "MB")) =
  Ok (mkConversion "committed" "B" "MB").
Proof. apply ParseConversion_roundtrip; done. Defined.

(** Of the symbols by which [ExtractDoubleAndUnitFromStr] finds the
    unit of a value, [B] and [b] are the only units that [Convert] knows: a
    value that ends in one of the ten others converts to no unit but its own. *)
Theorem extracted_symbols_unsupported (v : float64) (s n : string) :
  s ∈ unitSymbols -> ToUpper s <> "B" -> ToUpper n <> ToUpper s ->
  exists e, Convert v s n = Err e.
Proof.
  intros Hs HB Hn. rewrite Convert_spec.
  assert (String.eqb (ToUpper s) (ToUpper n) = false) as -> by (by apply String.eqb_neq).
  assert (common_dimension (ToUpper s) (ToUpper n) = None) as ->; [|by eexists].
  assert (forall d, units_of d !! ToUpper s = None) as Hnone.
  { unfold unitSymbols in Hs.
    repeat (apply elem_of_cons in Hs as [->|Hs]; [first [by destruct HB|by intros []]|]).
    by apply elem_of_nil in Hs. }
  unfold common_dimension. cbn [List.find].
  by rewrite !(bool_decide_eq_false_2 (is_Some (units_of _ !! ToUpper s)))
    by (rewrite Hnone; by intros []).
Qed.

Lemma extracted_symbols_unsupported_witness :
  exists e, Convert (f64_of_Z 16) "Gi" "MB" = Err e.
Proof. apply extracted_symbols_unsupported; [repeat constructor|done|done]. Defined.
