(* ===== verification/Calc.v ===== *)
(** * Field calculation

    Models the part of internal/job/collect/dispatch/metrics_collector.go that
    turns the rows a collector returns into the rows of the configured fields:
    [CalculateFields], [parseCalculates], [parseUnits] and their helpers.  The
    expression language of github.com/expr-lang/expr is a parameter: a compiler
    and an evaluator.  The map [aliasFieldUnitMap], which the code fills and
    never reads, is left out. *)

From Stdlib Require Import Ascii String.
From S2P Require Import Prelude GoStrings GoFloat JobTypes Params Units.

Open Scope string_scope.
Open Scope list_scope.
Open Scope Z_scope.

Definition NullValue : string := "&nbsp;".

Definition TypeNumber : Z := 0.
Definition TypeString : Z := 1.
Definition TypeTime : Z := 3.

(** ** Configuration

    The dynamic value of the [Calculates] and [Units] fields: a list of
    strings, a list of structs, or a value decoded from JSON. *)
Inductive config (A : Type) :=
| CStrings (l : list string)
| CStructs (l : list A)
| CValue (v : any).
Arguments CStrings {A} _.
Arguments CStructs {A} _.
Arguments CValue {A} _.

(** [splitCalculateString]: the field and the expression, if there is an [=]. *)
Definition splitCalculateString (calc : string) : list string :=
  match Index calc "=" with
  | None => [calc]
  | Some idx => [str_take idx calc; str_drop (S idx) calc]
  end.

Definition field_char (ch : ascii) : bool :=
  is_lower ch || is_upper ch || is_digit ch || Ascii.eqb ch "_".

Definition isSimpleFieldName (s : string) : bool :=
  if String.eqb s "" then false else str_all field_char s.

(** The last character of a text. *)
Fixpoint last_char (s : string) : option ascii :=
  match s with
  | EmptyString => None
  | String c EmptyString => Some c
  | String _ s => last_char s
  end.

(** [formatNumber]. *)
Definition formatNumber (value : float64) : string :=
  let formatted := FormatFloat_fp 4 value in
  match last_char formatted with
  | Some c => if Ascii.eqb c "0" || Ascii.eqb c "." then FormatFloat_f value else formatted
  | None => formatted
  end.

Section Calc.
Context {program : Type} (compile : string -> res program)
        (run : program -> gmap string any -> res any).
(** [json.Marshal] followed by [json.Unmarshal] into a list of strings, of
    calculates and of units, for a value that is not a list. *)
Context (to_strings : any -> option (list string)) (to_calculates : any -> option (list Calculate))
        (to_units : any -> option (list Unit)).

(** [fieldExpressionMap] and [fieldAliasMap]. *)
Abbreviation calcs := (gmap string program * gmap string string)%type (only parsing).

Definition add_alias (field alias : string) (c : calcs) : calcs :=
  (fst c, <[field := alias]> (snd c)).
Definition add_program (field : string) (p : program) (c : calcs) : calcs :=
  (<[field := p]> (fst c), snd c).

(** The body of the loop of [parseCalculatesFromStringArray]. *)
Definition parse_calculate_string (c : calcs) (calc : string) : calcs :=
  match splitCalculateString calc with
  | [field; expression] =>
      if String.eqb expression field || isSimpleFieldName expression
      then add_alias field expression c
      else match compile expression with
           | Err _ => add_alias field expression c
           | Ok program => add_program field program c
           end
  | _ => c
  end.

(** The body of the loop of [parseCalculatesFromStructArray]: a script that
    does not compile skips the alias too. *)
Definition parse_calculate_struct (c : calcs) (calc : Calculate) : calcs :=
  let alias c := if String.eqb (calc_AliasField calc) "" then c
                 else add_alias (calc_Field calc) (calc_AliasField calc) c in
  if String.eqb (calc_Script calc) "" then alias c
  else match compile (calc_Script calc) with
       | Err _ => c
       | Ok program => alias (add_program (calc_Field calc) program c)
       end.

(** A string entry of a decoded map, empty when it is missing or no string. *)
Definition string_entry (key : string) (m : list (string * any)) : string :=
  match assoc key m with Some (AString s) => s | _ => "" end.

(** The body of the loop over a decoded list. *)
Definition parse_calculate_item (c : calcs) (item : any) : calcs :=
  match item with
  | AString str => parse_calculate_string c str
  | AMap calcMap =>
      let calc := mkCalculate (string_entry "field" calcMap) (string_entry "script" calcMap)
                    (string_entry "aliasField" calcMap) in
      if String.eqb (calc_Field calc) "" then c else parse_calculate_struct c calc
  | _ => c
  end.

(** [parseCalculates]. *)
Definition parseCalculates (calculates : config Calculate) : calcs :=
  match calculates with
  | CValue ANil => (∅, ∅)
  | CStrings v => foldl parse_calculate_string (∅, ∅) v
  | CStructs v => foldl parse_calculate_struct (∅, ∅) v
  | CValue (AList v) => foldl parse_calculate_item (∅, ∅) v
  | CValue v =>
      match to_strings v with
      | Some l => foldl parse_calculate_string (∅, ∅) l
      | None =>
          match to_calculates v with
          | Some l => foldl parse_calculate_struct (∅, ∅) l
          | None => (∅, ∅)
          end
      end
  end.

Abbreviation conversions := (gmap string Conversion) (only parsing).

(** The body of the loop of [parseUnitsFromStringArray]. *)
Definition parse_unit_string (m : conversions) (unitStr : string) : conversions :=
  match ParseConversion unitStr with
  | Err _ => m
  | Ok conversion => <[cv_Field conversion := conversion]> m
  end.

(** The body of the loop of [parseUnitsFromStructArray]. *)
Definition parse_unit_struct (m : conversions) (u : Unit) : conversions :=
  if String.eqb (unit_Field u) "" || String.eqb (unit_Unit u) "" then m
  else parse_unit_string m (unit_Field u +:+ "=" +:+ unit_Unit u).

Definition parse_unit_item (m : conversions) (item : any) : conversions :=
  match item with
  | AString str => parse_unit_string m str
  | AMap unitMap =>
      parse_unit_struct m (mkUnit (string_entry "field" unitMap) (string_entry "unit" unitMap))
  | _ => m
  end.

(** [parseUnits]. *)
Definition parseUnits (units : config Unit) : conversions :=
  match units with
  | CValue ANil => ∅
  | CStrings v => foldl parse_unit_string ∅ v
  | CStructs v => foldl parse_unit_struct ∅ v
  | CValue (AList v) => foldl parse_unit_item ∅ v
  | CValue v =>
      match to_strings v with
      | Some l => foldl parse_unit_string ∅ l
      | None => match to_units v with
                | Some l => foldl parse_unit_struct ∅ l
                | None => ∅
                end
      end
  end.

(** ** A row *)

(** [aliasFieldValueMap], [fieldValueMap] and [stringTypeFieldValueMap]. *)
Record row_maps := mkRowMaps {
  rm_alias : gmap string string;
  rm_value : gmap string any;
  rm_string : gmap string any;
}.

(** The typed value of a text in an expression: a number where it starts with
    one. *)
Definition typed_value (s : string) : any :=
  match ExtractDoubleAndUnitFromStr s with
  | Some d => AFloat (du_Value d)
  | None => AString s
  end.

(** The body of the loop over the alias fields. *)
Definition add_column (rm : row_maps) (x : string * string) : row_maps :=
  let '(aliasField, aliasFieldValue) := x in
  if String.eqb aliasFieldValue NullValue
  then mkRowMaps (rm_alias rm) (<[aliasField := ANil]> (rm_value rm))
         (<[aliasField := ANil]> (rm_string rm))
  else mkRowMaps (<[aliasField := aliasFieldValue]> (rm_alias rm))
         (<[aliasField := typed_value aliasFieldValue]> (rm_value rm))
         (<[aliasField := AString aliasFieldValue]> (rm_string rm)).

(** The loop stops at the end of the row: the lists are zipped. *)
Definition read_row (aliasFields : list string) (row : ValueRow) : row_maps :=
  foldl add_column (mkRowMaps ∅ ∅ ∅) (zip aliasFields (vr_Columns row)).

(** The value of a field that has no expression, or whose expression fails. *)
Definition mapped_value (aliases : gmap string string) (rm : row_maps) (realField : string)
    : string :=
  let aliasField := default "" (aliases !! realField) in
  if String.eqb aliasField "" then default "" (rm_alias rm !! realField)
  else default "" (rm_alias rm !! aliasField).

Definition raw_value (c : calcs) (rm : row_maps) (field : Field) : string :=
  match fst c !! f_Field field with
  | Some program =>
      let context := if f_Type field =? TypeString then rm_string rm else rm_value rm in
      match run program context with
      | Err _ => mapped_value (snd c) rm (f_Field field)
      | Ok ANil => ""
      | Ok output => fmt_v output
      end
  | None => mapped_value (snd c) rm (f_Field field)
  end.

(** The number of a field of type number, converted to the unit configured. *)
Definition convert_number (conversion : option Conversion) (d : DoubleAndUnit) : float64 :=
  match conversion with
  | None => du_Value d
  | Some conversion =>
      let originUnit := if String.eqb (du_Unit d) "" then cv_OriginUnit conversion else du_Unit d in
      match Convert (du_Value d) originUnit (cv_NewUnit conversion) with
      | Err _ => du_Value d
      | Ok convertedValue => convertedValue
      end
  end.

Definition typed_column (units : conversions) (field : Field) (value : string) : string :=
  let value :=
    if negb (String.eqb value "") && negb (String.eqb value NullValue)
       && (f_Type field =? TypeNumber)
    then match ExtractDoubleAndUnitFromStr value with
         | Some d => formatNumber (convert_number (units !! f_Field field) d)
         | None => NullValue
         end
    else value in
  if String.eqb value "" then NullValue else value.

(** The calculated value is visible to the expressions of later fields. *)
Definition add_result (rm : row_maps) (realField value : string) : row_maps :=
  if String.eqb value NullValue
  then mkRowMaps (rm_alias rm) (<[realField := ANil]> (rm_value rm))
         (<[realField := ANil]> (rm_string rm))
  else mkRowMaps (rm_alias rm) (<[realField := typed_value value]> (rm_value rm))
         (<[realField := AString value]> (rm_string rm)).

Fixpoint field_loop (c : calcs) (units : conversions) (fields : list Field) (rm : row_maps)
    : list string :=
  match fields with
  | [] => []
  | field :: rest =>
      let value := typed_column units field (raw_value c rm field) in
      value :: field_loop c units rest (add_result rm (f_Field field) value)
  end.

Definition calculate_row (c : calcs) (units : conversions) (fields : list Field)
    (aliasFields : list string) (aliasRow : ValueRow) : ValueRow :=
  mkValueRow (field_loop c units fields (read_row aliasFields aliasRow)).

Definition set_result (priority : Z) (fields : list Field) (values : list ValueRow)
    (r : CollectRepMetricsData) : CollectRepMetricsData :=
  mkCollectRep (rep_ID r) (rep_MonitorID r) (rep_TenantID r) (rep_App r) (rep_Metrics r)
    priority (rep_Time r) (rep_Code r) (rep_Msg r) fields values (rep_Labels r) (rep_Metadata r).

(** [CalculateFields], which assigns to the struct of the result.  A metric of
    this program comes from JSON, so its [Calculates] and [Units] are decoded
    values. *)
Definition CalculateFields (m : Metrics) (result : CollectRepMetricsData)
    : CollectRepMetricsData :=
  let fields := m_Fields m in
  match rep_Values result with
  | [] => set_result (m_Priority m) fields [] result
  | aliasRowList =>
      match m_AliasFields m with
      | [] => set_result (m_Priority m) fields [] result
      | aliasFields =>
          let c := parseCalculates (CValue (m_Calculates m)) in
          let units := parseUnits (CValue (m_Units m)) in
          set_result (m_Priority m) fields
            (map (calculate_row c units fields aliasFields) aliasRowList) result
      end
  end.

End Calc.

(** ** Specification *)

(** The text of alias [a] in a row: the last of its columns that is not null. *)
Definition cell (aliasFields : list string) (row : ValueRow) (a : string) : option string :=
  last (snd <$> filter (fun x => fst x = a /\ snd x <> NullValue)
                  (zip aliasFields (vr_Columns row))).

Section Proofs.
Context {program : Type} (compile : string -> res program)
        (run : program -> gmap string any -> res any).
Context (to_strings : any -> option (list string)) (to_calculates : any -> option (list Calculate))
        (to_units : any -> option (list Unit)).

Lemma read_columns l : forall rm a,
  rm_alias (foldl add_column rm l) !! a =
  match last (snd <$> filter (fun x => fst x = a /\ snd x <> NullValue) l) with
  | Some v => Some v
  | None => rm_alias rm !! a
  end.
Proof.
  induction l as [|[a' v] l IH]; intros rm a; [done|]. cbn [foldl].
  rewrite IH. cbn [add_column].
  destruct (String.eqb v NullValue) eqn:Ev.
  - apply String.eqb_eq in Ev. rewrite filter_cons_False; [done|]. cbn. naive_solver.
  - apply String.eqb_neq in Ev. cbn [rm_alias].
    destruct (decide (a' = a)) as [->|Ha].
    + rewrite filter_cons_True, fmap_cons by done. cbn [snd].
      rewrite last_cons, lookup_insert_eq. by destruct (last _).
    + rewrite filter_cons_False by (cbn; naive_solver). by rewrite lookup_insert_ne.
Qed.

Lemma read_row_cell aliasFields row a :
  rm_alias (read_row aliasFields row) !! a = cell aliasFields row a.
Proof. unfold read_row. rewrite read_columns. unfold cell. by destruct (last _). Qed.

Lemma add_result_alias rm f v : rm_alias (add_result rm f v) = rm_alias rm.
Proof. unfold add_result. by destruct (String.eqb _ _). Qed.

Lemma mapped_value_ext aliases rm rm' f :
  rm_alias rm = rm_alias rm' -> mapped_value aliases rm f = mapped_value aliases rm' f.
Proof. unfold mapped_value. by intros ->. Qed.

Lemma typed_column_nonempty units f v : typed_column units f v <> "".
Proof.
  unfold typed_column. destruct (String.eqb _ "") eqn:E; [done|]. by apply String.eqb_neq in E.
Qed.

Lemma field_loop_shape c units fields : forall rm,
  length (field_loop run c units fields rm) = length fields /\
  Forall (fun v => v <> "") (field_loop run c units fields rm).
Proof.
  induction fields as [|f fields IH]; intros rm; simpl; [done|].
  destruct (IH (add_result rm (f_Field f) (typed_column units f (raw_value run c rm f)))) as [H1 H2].
  split; [by rewrite H1|]. constructor; [apply typed_column_nonempty|done].
Qed.

(** Whether an expression gives a value in the end. *)
Definition no_value (c : gmap string program * gmap string string) (f : Field) : Prop :=
  forall p, fst c !! f_Field f = Some p -> forall m, exists e, run p m = Err e.

Lemma raw_value_mapped c rm f :
  no_value c f -> raw_value run c rm f = mapped_value (snd c) rm (f_Field f).
Proof.
  unfold no_value, raw_value. intros H. destruct (fst c !! f_Field f) as [p|]; [|done].
  by destruct (H p eq_refl (if f_Type f =? TypeString then rm_string rm else rm_value rm))
    as [e ->].
Qed.

Lemma field_loop_mapped c units fields : forall rm,
  Forall (no_value c) fields ->
  field_loop run c units fields rm =
  map (fun f => typed_column units f (mapped_value (snd c) rm (f_Field f))) fields.
Proof.
  induction fields as [|f fields IH]; intros rm Hf; [done|]. inversion_clear Hf as [|? ? H1 H2].
  cbn [field_loop map]. rewrite raw_value_mapped by done. f_equal.
  rewrite IH by done. apply map_ext. intros g. f_equal. apply mapped_value_ext, add_result_alias.
Qed.

Lemma mapped_value_cell aliases aliasFields row f :
  mapped_value aliases (read_row aliasFields row) f =
  default "" (cell aliasFields row
    (if String.eqb (default "" (aliases !! f)) "" then f else default "" (aliases !! f))).
Proof. unfold mapped_value. rewrite !read_row_cell. by destruct (String.eqb _ _). Qed.

End Proofs.

(** C38 (type). Field calculation always gives well-formed rows, whatever the
    expressions do: a metric with alias fields keeps one row per row collected,
    every row has exactly one column per configured field, and no column is
    empty. *)
Theorem CalculateFields_shape {program} compile (run : program -> gmap string any -> res any)
    to_strings to_calculates to_units m result :
  let result' := CalculateFields compile run to_strings to_calculates to_units m result in
  rep_Fields result' = m_Fields m /\
  length (rep_Values result') =
    (if decide (m_AliasFields m = []) then 0%nat else length (rep_Values result)) /\
  Forall (fun row => length (vr_Columns row) = length (rep_Fields result') /\
                     Forall (fun v => v <> "") (vr_Columns row)) (rep_Values result').
Proof.
  unfold CalculateFields.
  destruct (rep_Values result) as [|r rows] eqn:Er.
  { split; [done|]. split; [by destruct (decide _)|constructor]. }
  destruct (m_AliasFields m) as [|a l]; [done|].
  cbn [set_result rep_Fields rep_Values]. split; [done|].
  rewrite length_map. split; [done|]. apply List.Forall_map, Forall_forall. intros row _.
  apply field_loop_shape.
Qed.

(** C37 (equivalence). Where no expression gives a value, because there is none
    or its evaluation fails, field calculation is a projection: every column
    depends on its own field and row only, and is the text of the alias of the
    field, or of its name, after the treatment of its type. *)
Theorem CalculateFields_projection {program} compile (run : program -> gmap string any -> res any)
    to_strings to_calculates to_units m result :
  let c := parseCalculates compile to_strings to_calculates (CValue (m_Calculates m)) in
  let units := parseUnits to_strings to_units (CValue (m_Units m)) in
  m_AliasFields m <> [] -> Forall (no_value run c) (m_Fields m) ->
  rep_Values (CalculateFields compile run to_strings to_calculates to_units m result) =
  (fun row => mkValueRow ((fun f =>
     let alias := default "" (snd c !! f_Field f) in
     typed_column units f
       (default "" (cell (m_AliasFields m) row
          (if String.eqb alias "" then f_Field f else alias)))) <$> m_Fields m))
  <$> rep_Values result.
Proof.
  intros c units Ha Hf. unfold CalculateFields.
  destruct (rep_Values result) as [|r rows] eqn:Er; [done|].
  destruct (m_AliasFields m) as [|a l] eqn:El; [done|]. rewrite <- El in *.
  cbn [set_result rep_Values]. fold c units. apply map_ext. intros row.
  unfold calculate_row. rewrite field_loop_mapped by done. f_equal. apply map_ext. intros f.
  by rewrite mapped_value_cell.
Qed.

(** A metric with two fields, one renamed and converted, and no expression. *)
Definition ex_field (name : string) (ty : Z) : Field := mkField name ty false "" false ANil ANil.

Definition ex_calc_metric : Metrics :=
  mkMetrics "memory" ANil 0 0 0 None [ex_field "total" TypeNumber; ex_field "name" TypeString]
    ["mem_total"; "name"; "extra"] (AList [AString "total=mem_total"]) ANil
    (AList [AString "total=KB->MB"]) "ssh" "" "" "" "" None false
    None None None None None None None None.

Definition ex_result : CollectRepMetricsData :=
  mkCollectRep 1 1 1 "linux" "memory" 0 0 0 "" [] [mkValueRow ["2048"; "ram"]; mkValueRow ["&nbsp;"]]
    ∅ ∅.

Definition no_run (p : Empty_set) (m : gmap string any) : res any := Err "".

Lemma CalculateFields_projection_witness :
  let c := parseCalculates (fun _ => Err "syntax" : res Empty_set) (fun _ => None) (fun _ => None)
             (CValue (m_Calculates ex_calc_metric)) in
  let units := parseUnits (fun _ => None) (fun _ => None) (CValue (m_Units ex_calc_metric)) in
  rep_Values (CalculateFields (fun _ => Err "syntax") no_run (fun _ => None) (fun _ => None)
    (fun _ => None) ex_calc_metric ex_result) =
  (fun row => mkValueRow ((fun f =>
     let alias := default "" (snd c !! f_Field f) in
     typed_column units f
       (default "" (cell (m_AliasFields ex_calc_metric) row
          (if String.eqb alias "" then f_Field f else alias)))) <$> m_Fields ex_calc_metric))
  <$> rep_Values ex_result.
Proof.
  apply (CalculateFields_projection (fun _ => Err "syntax") no_run (fun _ => None) (fun _ => None)
    (fun _ => None) ex_calc_metric ex_result); [done|].
  by repeat constructor.
Defined.

Example ex_calculated :
  rep_Values (CalculateFields (fun _ => Err "syntax") no_run (fun _ => None) (fun _ => None)
    (fun _ => None) ex_calc_metric ex_result) =
  [mkValueRow ["2"; "ram"]; mkValueRow ["&nbsp;"; "&nbsp;"]].
Proof. vm_compute. reflexivity. Qed.

(** [formatNumber] does not bound the number of decimals: a
    number whose fourth decimal rounds to zero is printed with all its
    decimals, where its neighbour is cut at four. *)
Theorem formatNumber_decimals :
  option_map formatNumber (ParseFloat "0.12345678") = Some "0.1235" /\
  option_map formatNumber (ParseFloat "0.12300001") = Some "0.12300001".
Proof. split; vm_compute; reflexivity. Qed.
