(* ===== verification/Collect.v ===== *)
(** * Collection of a job

    Models internal/job/collect/strategy/strategy_factory.go (the registry of
    collectors), the function [CollectMetrics] of
    internal/job/collect/dispatch/metrics_collector.go and
    internal/job/dispatcher/common_dispatcher.go, which collects all the metrics
    of a job.  A collector, the result handler and the expression language are
    parameters.  The goroutines that collect the metrics of a job run each to
    its end, in an arbitrary order; which of their results arrive before the
    deadline is arbitrary too. *)

From Stdlib Require Import Ascii String.
From S2P Require Import Prelude GoStrings JobTypes Params Calc.

Open Scope string_scope.
Open Scope list_scope.
Open Scope Z_scope.
Open Scope go_scope.

Definition CollectSuccess : Z := 0.
Definition CollectUnavailable : Z := 1.

(** ** The registry of collectors

    A factory is represented by the collector it makes. *)
Record CollectorRegistry (C : Type) := mkRegistry {
  factories : gmap string C;
  collectors : gmap string C;
  initialized : bool;
}.
Arguments mkRegistry {C} _ _ _.
Arguments factories {C} _.
Arguments collectors {C} _.
Arguments initialized {C} _.

Section Strategy.
Context {C : Type} (Protocol : C -> string).

Definition globalRegistry : CollectorRegistry C := mkRegistry ∅ ∅ false.

Definition RegisterFactory (protocol : string) (factory : C) (r : CollectorRegistry C)
    : CollectorRegistry C :=
  mkRegistry (<[protocol := factory]> (factories r)) (collectors r) (initialized r).

(** [InitializeCollectors]: the loop over the factories fills the map. *)
Definition InitializeCollectors (r : CollectorRegistry C) : CollectorRegistry C :=
  if initialized r then r
  else mkRegistry (factories r) (factories r ∪ collectors r) true.

Definition RegisterCollector (collector : C) (r : CollectorRegistry C) : CollectorRegistry C :=
  mkRegistry (factories r) (<[Protocol collector := collector]> (collectors r)) (initialized r).

Definition CollectorFor (protocol : string) (r : CollectorRegistry C) : res C :=
  match collectors r !! protocol with
  | Some collector => Ok collector
  | None => Err ("no collector found for protocol: " +:+ protocol)
  end.

Definition SupportedProtocols (r : CollectorRegistry C) : gset string := dom (collectors r).
Definition CollectorCount (r : CollectorRegistry C) : nat := size (collectors r).
End Strategy.

(** ** Collecting one metric *)

(** A collector: [Collect] gets a pointer to the metric and returns a pointer to
    a result, which may be nil. *)
Record Collector := mkCollector {
  col_Protocol : string;
  col_Collect : mptr -> M heap (option CollectRepMetricsData);
}.

Section Collect.
Context {program : Type} (compile : string -> res program)
        (run : program -> gmap string any -> res any).
Context (to_strings : any -> option (list string)) (to_calculates : any -> option (list Calculate))
        (to_units : any -> option (list Unit)).
Context (order : nat -> gmap string string -> list (string * string)).
Context (reg : CollectorRegistry Collector).

Definition set_ConfigMap (cm : option loc) (m : Metrics) : Metrics :=
  mkMetrics (m_Name m) (m_I18n m) (m_Priority m) (m_CollectTime m) (m_Interval m) (m_Visible m)
    (m_Fields m) (m_AliasFields m) (m_Calculates m) (m_Filters m) (m_Units m) (m_Protocol m)
    (m_Host m) (m_Port m) (m_Timeout m) (m_Range m) cm (m_HasSubTask m)
    (m_HTTP m) (m_SSH m) (m_JDBC m) (m_SNMP m) (m_JMX m) (m_Redis m) (m_MongoDB m) (m_Milvus m).

(** The text of a config entry, with [%v] for every type. *)
Definition config_value (c : Configmap) : string :=
  match cm_Value c with ANil => "" | v => fmt_v v end.

Definition merge_config (configmap : list Configmap) (m : gmap string string)
    : gmap string string :=
  foldl (fun m c => <[cm_Key c := config_value c]> m) m configmap.

(** [createErrorResponse]. *)
Definition createErrorResponse (now : Z) (m : Metrics) (j : Job) (code : Z) (message : string)
    : CollectRepMetricsData :=
  mkCollectRep (job_MonitorID j) (job_MonitorID j) (job_TenantID j) (job_App j) (m_Name m)
    (m_Priority m) now code message [] [] ∅ ∅.

(** A map behind a pointer that may be nil. *)
Definition load_map (o : option loc) : M heap (gmap string string) :=
  match o with None => mret ∅ | Some l => load as_map l end.

(** The job information added to a result. *)
Definition enrich (j : Job) (labels metadata : gmap string string) (r : CollectRepMetricsData)
    : CollectRepMetricsData :=
  mkCollectRep (job_MonitorID j) (job_MonitorID j) (job_TenantID j) (job_App j) (rep_Metrics r)
    (rep_Priority r) (rep_Time r) (rep_Code r) (rep_Msg r) (rep_Fields r) (rep_Values r)
    (labels ∪ rep_Labels r) (metadata ∪ rep_Metadata r).

(** The ConfigMap of a metric, created when it is nil. *)
Definition ensure_ConfigMap (p : mptr) : M heap loc :=
  m <-! load_metric p ;
  match m_ConfigMap m with
  | Some cm => mret cm
  | None => cm <-! alloc (OMap ∅) ; store_metric p (set_ConfigMap (Some cm) m) ;! mret cm
  end.

(** [MetricsCollector.CollectMetrics]: the body of its goroutine, whose result
    is what it sends.  [ReplaceMetricsParams] returns no error.  A nil result of
    the collector is dereferenced by the logging at the end. *)
Definition CollectMetrics (now : Z) (p : mptr) (job : loc) : M heap CollectRepMetricsData :=
  cm <-! ensure_ConfigMap p ;
  j <-! load as_job job ;
  m0 <-! load as_map cm ;
  store cm (OMap (merge_config (job_Configmap j) m0)) ;!
  ReplaceMetricsParams order p cm ;!
  m <-! load_metric p ;
  match CollectorFor (m_Protocol m) reg with
  | Err e => mret (createErrorResponse now m j CollectUnavailable ("Collector not found: " +:+ e))
  | Ok collector =>
      result <-! col_Collect collector p ;
      m' <-! load_metric p ;
      match result with
      | None => mpanic "nil pointer dereference"
      | Some r =>
          let r := if rep_Code r =? CollectSuccess
                   then CalculateFields compile run to_strings to_calculates to_units m' r else r in
          j' <-! load as_job job ;
          labels <-! load_map (job_Labels j') ;
          metadata <-! load_map (job_Metadata j') ;
          mret (enrich j' labels metadata r)
      end
  end.

(** ** Collecting a job *)

(** [getCollectionTimeout]; the constant is 30 seconds. *)
Definition defaultTimeout : Z := 30 * Second.

Definition getCollectionTimeout (j : Job) : Z :=
  if 0 <? job_DefaultInterval j then
    let jobTimeout := Z.quot (wrap64 (wrap64 (job_DefaultInterval j * Second) * 80)) 100 in
    if defaultTimeout <? jobTimeout then jobTimeout else defaultTimeout
  else defaultTimeout.

(** The processed metric of a name: the first one in the clone. *)
Definition find_metric (name : string) (ms : list Metrics) : option nat :=
  fst <$> list_find (fun m => m_Name m = name) ms.

(** The body of the loop that starts the collection: the metric whose collection
    is started; [None] where none is, and the channel stays nil. *)
Definition start_collection (processedJob : loc) (metrics : mptr) : M heap (option mptr) :=
  m <-! load_metric metrics ;
  pj <-! load as_job processedJob ;
  match job_Metrics pj with
  | None => mret None
  | Some a =>
      ms <-! load as_metrics a ;
      mret (pair a <$> find_metric (m_Name m) ms)
  end.

(** The goroutine of the [i]th metric runs before that of the [j]th when its turn
    is not after it. *)
Definition not_after (turn : nat -> nat) (i j : nat) : Prop := (turn i <= turn j)%nat.

#[export] Instance not_after_dec turn : RelDecision (not_after turn).
Proof. intros i j. unfold not_after. apply _. Defined.

(** The order in which [n] goroutines run. *)
Definition run_order (turn : nat -> nat) (n : nat) : list nat := merge_sort (not_after turn) (seq 0 n).

(** The goroutines run in the given order: what they send, and on which channel. *)
Fixpoint run_collections (now : Z) (processedJob : loc) (started : list (option mptr))
    (turns : list nat) : M heap (list (nat * CollectRepMetricsData)) :=
  match turns with
  | [] => mret []
  | i :: rest =>
      match started !! i with
      | Some (Some p) =>
          r <-! CollectMetrics now p processedJob ;
          sent <-! run_collections now processedJob started rest ;
          mret ((i, r) :: sent)
      | _ => run_collections now processedJob started rest
      end
  end.

(** What is in the [n] channels. *)
Definition channels_of (n : nat) (sent : list (nat * CollectRepMetricsData))
    : list (option CollectRepMetricsData) :=
  (fun i => (list_to_map sent : gmap nat CollectRepMetricsData) !! i) <$> seq 0 n.

(** The loop that receives the results: a channel is received from, or the
    deadline passes first; nothing is ever received from a nil channel. *)
Fixpoint gather (received : nat -> bool) (i : nat) (channels : list (option CollectRepMetricsData))
    : list CollectRepMetricsData * nat :=
  match channels with
  | [] => ([], O)
  | ch :: rest =>
      let '(results, errors) := gather received (S i) rest in
      match ch with
      | Some r => if received i then (r :: results, errors) else (results, S errors)
      | None => (results, S errors)
      end
  end.

Section Dispatch.
Context {W : Type} (HandleCollectData : CollectRepMetricsData -> Job -> M W (option error)).
Context (visit : gmap Z (list mptr) -> list (Z * list mptr)).

Definition on_heap {A} (m : M heap A) : M (heap * W) A :=
  fun s => match m (fst s) with
           | Ret h a => Ret (h, snd s) a
           | Panic h w => Panic (h, snd s) w
           end.

Definition on_sink {A} (m : M W A) : M (heap * W) A :=
  fun s => match m (snd s) with
           | Ret w a => Ret (fst s, w) a
           | Panic w why => Panic (fst s, w) why
           end.

(** [handleResults]: an error of the handler is logged; the evaluation of the
    next actions only logs. *)
Fixpoint handleResults (results : list CollectRepMetricsData) (j : Job) : M W (option error) :=
  match results with
  | [] => mret None
  | r :: rest => HandleCollectData r j ;! handleResults rest j
  end.

(** [CommonDispatcherImpl.DispatchMetricsTask]. *)
Definition DispatchMetricsTask (now : Z) (turn : nat -> nat) (received : nat -> bool) (job : option loc)
    : M (heap * W) (option error) :=
  match job with
  | None => mret (Some "job cannot be nil")
  | Some p =>
      on_heap (ConstructPriorMetrics visit now p) ;!
      metricsToCollect <-! on_heap (NextCollectMetrics p) ;
      match metricsToCollect with
      | [] => mret None
      | _ =>
          processed <-! on_heap (ReplaceJobParams order (Some p)) ;
          match processed with
          | Err e => mret (Some ("parameter replacement failed: " +:+ e))
          | Ok processedJob =>
              started <-! on_heap (mmap (start_collection processedJob) metricsToCollect) ;
              let n := length started in
              sent <-! on_heap (run_collections now processedJob started (run_order turn n)) ;
              let '(results, errors) := gather received 0 (channels_of n sent) in
              j <-! on_heap (load as_job p) ;
              on_sink (handleResults results j)
          end
      end
  end.
End Dispatch.
End Collect.

(** ** Well-typed heaps

    Every operation, run in a well-typed heap, returns, keeps the heap
    well-typed and the identity of every object: the [returns] of Params where
    everything may be written. *)

Section Total.
Abbreviation tinv := (inv 0 (fun _ => True) ∅) (only parsing).
Abbreviation total := (returns 0 (fun _ => True) ∅) (only parsing).

Lemma all_new (o : option loc) : is_new 0 o.
Proof. destruct o; simpl; [lia|done]. Qed.

Lemma all_is_shared (o : option loc) : is_shared (fun _ => True) o.
Proof. by destruct o. Qed.

Lemma all_metric_new m : metric_new 0 (fun _ => True) m.
Proof. split_and!; auto using all_new, all_is_shared. Qed.

Lemma all_obj_new o : obj_new 0 (fun _ => True) o.
Proof.
  destruct o; simpl; try done; [apply all_new|].
  apply Forall_forall. intros m _. apply all_metric_new.
Qed.

Lemma all_obj_shared o : obj_shared (fun _ => True) o.
Proof. by apply all_shared. Qed.

Lemma tinv_ok h : tinv h <-> heap_ok h.
Proof.
  split; [by intros []|]. intros Hok.
  split; [done|lia|intros l Hl; lia|intros; apply all_obj_new|intros; apply all_obj_shared].
Qed.

Lemma all_protocols_shared j : metrics_shared 0 (fun _ => True) ∅ j.
Proof.
  intros a h ms _ _ _. apply Forall_forall. intros m _.
  split_and!; apply all_is_shared.
Qed.

Lemma total_ok {A} h (m : M heap A) Q :
  total h m Q <-> exists h' a, m h = Ret h' a /\ heap_ok h' /\ ext h h' /\ Q h' a.
Proof.
  unfold returns. split; intros (h' & a & E & Hi & ?); exists h', a; by rewrite tinv_ok in *.
Qed.

Lemma total_store h l o :
  tinv h -> has_tag h l (tag_of o) -> obj_ok h o -> total h (store l o) (fun _ _ => True).
Proof.
  intros. apply returns_store; auto using all_obj_new, all_obj_shared.
Qed.

Lemma total_load_job h l key :
  tinv h -> has_tag h l (TJob key) ->
  total h (load as_job l) (fun h' j => h' = h /\ job_key j = key /\ obj_ok h (OJob j)).
Proof.
  intros Hi (o & Hl & Ht). destruct o; try discriminate Ht. injection Ht as Ht.
  eapply returns_weaken; [by eapply returns_load|]. intros h' j' [-> ->]. split_and!; [done|done|].
  apply tinv_ok in Hi as [_ Hok]. by apply (Hok l).
Qed.

Lemma total_load_map h l :
  tinv h -> has_tag h l TMap -> total h (load as_map l) (fun h' _ => h' = h).
Proof.
  intros Hi (o & Hl & Ht). destruct o; try discriminate Ht.
  eapply returns_weaken; [by eapply returns_load|]. by intros h' m' [-> ->].
Qed.

Lemma total_load_metrics h l ks :
  tinv h -> has_tag h l (TMetrics ks) ->
  total h (load as_metrics l) (fun h' ms => h' = h /\ metric_shape <$> ms = ks).
Proof.
  intros Hi (o & Hl & Ht). destruct o; try discriminate Ht. injection Ht as Ht.
  eapply returns_weaken; [by eapply returns_load|]. by intros h' ms' [-> ->].
Qed.

Lemma total_load_optmap h o :
  tinv h -> opt_tag h o TMap -> total h (load_map o) (fun h' _ => h' = h).
Proof. intros Hi Ho. destruct o; simpl; [by apply total_load_map|by apply returns_ret]. Qed.

Lemma total_load_metric h a i ks key :
  tinv h -> has_tag h a (TMetrics ks) -> ks !! i = Some key ->
  total h (load_metric (a, i)) (fun h' m => h' = h /\ metric_ok h m /\ metric_shape m = key).
Proof.
  intros Hi Ht Hk. destruct Ht as (o & Hl & Ht). destruct o; try discriminate Ht. injection Ht as <-.
  unfold load_metric. cbn [fst snd].
  eapply returns_bind; [by eapply returns_load|]. intros ? ? ? _ [-> ->].
  rewrite list_lookup_fmap in Hk. destruct (ms !! i) as [m|] eqn:Hm; [|discriminate Hk].
  apply returns_ret; [done|]. split_and!; [done| |by injection Hk].
  apply tinv_ok in Hi as [_ Hok]. pose proof (Hok a _ Hl : Forall (metric_ok h) ms) as Hf.
  exact (Forall_at _ _ _ _ Hf Hm).
Qed.

Lemma total_ConfigMap h a i ks :
  tinv h -> has_tag h a (TMetrics ks) -> (i < length ks)%nat ->
  total h (ensure_ConfigMap (a, i)) (fun h' cm => has_tag h' cm TMap).
Proof.
  intros Hi Ha Hlt. destruct (lookup_lt_is_Some_2 ks i Hlt) as [key Hk]. unfold ensure_ConfigMap.
  eapply returns_bind; [by eapply total_load_metric|]. intros ? m _ _ (-> & Hm & Hkey).
  destruct (m_ConfigMap m) as [cm|] eqn:Ec.
  - apply returns_ret; [done|]. destruct Hm as [Hc _]. by rewrite Ec in Hc.
  - eapply returns_bind; [apply returns_alloc; [by right|done|done|done]|].
    intros h1 cm Hi1 He1 [Hcm _].
    assert (has_tag h1 cm TMap) as Hct by (by eexists).
    eapply returns_bind.
    + eapply returns_store_metric; [done|lia|by apply He1| |apply all_metric_new|].
      * destruct Hm as (_ & ? & ? & ? & ? & ?). split_and!; simpl; eauto using opt_tag_ext.
      * by rewrite Hk, <- Hkey.
    + intros h2 [] Hi2 He2 _. apply returns_ret; [done|]. by apply He2.
Qed.


Section Run.
Context {program : Type} (compile : string -> res program)
        (run : program -> gmap string any -> res any).
Context (to_strings : any -> option (list string)) (to_calculates : any -> option (list Calculate))
        (to_units : any -> option (list Unit)).
Context (order : nat -> gmap string string -> list (string * string)).
Context (reg : CollectorRegistry Collector).

(** What the collection relies on of a collector: on a metric of a well-typed
    heap that has the configurations it wants, it returns a result that names
    the metric, and keeps the heap well-typed. *)
Definition collector_ok (wanted : configs -> bool) (c : Collector) : Prop :=
  forall h a i ks shape, heap_ok h -> has_tag h a (TMetrics ks) -> ks !! i = Some shape ->
  wanted (snd shape) = true ->
  exists h' r, col_Collect c (a, i) h = Ret h' (Some r) /\ heap_ok h' /\ ext h h' /\
    rep_Metrics r = fst (fst shape).

(** [wants p]: the configurations that the collector of the protocol [p] wants. *)
Context (wants : string -> configs -> bool).

Definition collectors_ok : Prop := map_Forall (fun p c => collector_ok (wants p) c) (collectors reg).

(** A metric that its collector can take. *)
Definition served_shape (shape : (string * string) * configs) : Prop :=
  wants (snd (fst shape)) (snd shape) = true.
Definition served (m : Metrics) : Prop := served_shape (metric_shape m).

(** The result [r] of a metric with key [key] for a job with key [jk]. *)
Definition result_of (jk : Z * Z * string * bool * option loc) (key : string * string)
    (r : CollectRepMetricsData) : Prop :=
  let '(monitor, tenant, app, _, _) := jk in
  rep_ID r = monitor /\ rep_MonitorID r = monitor /\ rep_TenantID r = tenant /\ rep_App r = app /\
  rep_Metrics r = fst key /\
  (collectors reg !! snd key = None -> rep_Code r = CollectUnavailable).

(** *** What is collected

    The metric before its collector sees it: the configuration of the job is in
    its ConfigMap and its placeholders are replaced. *)
Definition prepare (p : mptr) (job : loc) : M heap (Job * Metrics) :=
  cm <-! ensure_ConfigMap p ;
  j <-! load as_job job ;
  m0 <-! load as_map cm ;
  store cm (OMap (merge_config (job_Configmap j) m0)) ;!
  ReplaceMetricsParams order p cm ;!
  m <-! load_metric p ;
  mret (j, m).

(** The result of a metric from the answer [r] of its collector, which left the
    heap [h]: the calculated fields where the answer is a success, with the job
    information. *)
Definition result_from (p : mptr) (job : loc) (h : heap) (r0 r : CollectRepMetricsData) : Prop :=
  exists m j labels metadata,
    load_metric p h = Ret h m /\ load as_job job h = Ret h j /\
    load_map (job_Labels j) h = Ret h labels /\ load_map (job_Metadata j) h = Ret h metadata /\
    r = enrich j labels metadata
          (if rep_Code r0 =? CollectSuccess
           then CalculateFields compile run to_strings to_calculates to_units m r0 else r0).

(** The metric at [p], of the given shape, is collected once for the job at
    [job], from the heap [h] to the heap [h']: the collector of its protocol is
    called on it, and its answer makes the result.  Without a collector of the
    protocol the result is the error, and nothing is called. *)
Definition collected_once (now : Z) (p : mptr) (job : loc) (shape : (string * string) * configs)
    (h : heap) (r : CollectRepMetricsData) (h' : heap) : Prop :=
  exists h1 j m, prepare p job h = Ret h1 (j, m) /\ metric_shape m = shape /\
    match collectors reg !! snd (fst shape) with
    | Some c => exists r0, col_Collect c p h1 = Ret h' (Some r0) /\ result_from p job h' r0 r
    | None => h' = h1 /\ r = createErrorResponse now m j CollectUnavailable
                ("Collector not found: no collector found for protocol: " +:+ snd (fst shape))
    end.

(** The metrics of an array of these shapes are collected one after another,
    each at its index and with its result. *)
Fixpoint collected_all (now : Z) (a : loc) (job : loc) (shapes : list ((string * string) * configs))
    (sent : list (nat * CollectRepMetricsData)) (h h' : heap) : Prop :=
  match sent with
  | [] => h' = h
  | (i, r) :: rest =>
      exists shape h1, shapes !! i = Some shape /\ collected_once now (a, i) job shape h r h1 /\
                       collected_all now a job shapes rest h1 h'
  end.

(** What arrives before the deadline, in order. *)
Fixpoint arrived {A} (received : nat -> bool) (i : nat) (l : list A) : list A :=
  match l with
  | [] => []
  | x :: rest => if received i then x :: arrived received (S i) rest else arrived received (S i) rest
  end.

(** The collection of the metrics of the job at [p], with the results [rs] that
    arrive: every metric is collected once, at whatever turn, from the array of a
    clone of the job, with the replaced parameters, that is made of new objects. *)
Definition dispatched (visit : gmap Z (list mptr) -> list (Z * list mptr)) (now : Z)
    (received : nat -> bool) (p : loc) (shapes : list ((string * string) * configs))
    (h : heap) (rs : list CollectRepMetricsData) (h' : heap) : Prop :=
  exists h1, ConstructPriorMetrics visit now p h = Ret h1 tt /\
    match shapes with
    | [] => h' = h1 /\ rs = []
    | _ => exists h2 clone cj a sent all,
        ReplaceJobParams order (Some p) h1 = Ret h2 (Ok clone) /\
        cells h1 !! clone = None /\ cells h2 !! clone = Some (OJob cj) /\
        job_Metrics cj = Some a /\ cells h1 !! a = None /\
        sent.*1 ≡ₚ seq 0 (length shapes) /\ collected_all now a clone shapes sent h2 h' /\
        length all = length shapes /\ (forall i r, (i, r) ∈ sent -> all !! i = Some r) /\
        rs = arrived received 0 all
    end.

Hypothesis reg_ok : collectors_ok.

Lemma calculate_metrics m r :
  rep_Metrics (CalculateFields compile run to_strings to_calculates to_units m r) = rep_Metrics r.
Proof. unfold CalculateFields. by destruct (rep_Values r), (m_AliasFields m). Qed.

Local Abbreviation collect :=
  (CollectMetrics compile run to_strings to_calculates to_units order reg) (only parsing).

Lemma collect_prepare now p job h :
  collect now p job h =
  (j_m <-! prepare p job ;
   match CollectorFor (m_Protocol (snd j_m)) reg with
   | Err e => mret (createErrorResponse now (snd j_m) (fst j_m) CollectUnavailable ("Collector not found: " +:+ e))
   | Ok collector =>
       result <-! col_Collect collector p ;
       m' <-! load_metric p ;
       match result with
       | None => mpanic "nil pointer dereference"
       | Some r =>
           let r := if rep_Code r =? CollectSuccess
                    then CalculateFields compile run to_strings to_calculates to_units m' r else r in
           j' <-! load as_job job ;
           labels <-! load_map (job_Labels j') ;
           metadata <-! load_map (job_Metadata j') ;
           mret (enrich j' labels metadata r)
       end
   end) h.
Proof.
  unfold CollectMetrics, prepare, mbind'.
  destruct (ensure_ConfigMap p h) as [h1 cm|]; [|done].
  destruct (load as_job job h1) as [h2 j|]; [|done].
  destruct (load as_map cm h2) as [h3 m0|]; [|done].
  destruct (store cm _ h3) as [h4 []|]; [|done].
  destruct (ReplaceMetricsParams order p cm h4) as [h5 []|]; [|done].
  by destruct (load_metric p h5) as [h6 m|].
Qed.

Lemma total_prepare h a i ks shape job jk :
  tinv h -> has_tag h a (TMetrics ks) -> ks !! i = Some shape -> has_tag h job (TJob jk) ->
  total h (prepare (a, i) job) (fun _ j_m => job_key (fst j_m) = jk /\ metric_shape (snd j_m) = shape).
Proof.
  intros Hi Ha Hk Hj. pose proof (lookup_lt_Some _ _ _ Hk) as Hlt. unfold prepare.
  eapply returns_bind; [by eapply total_ConfigMap|]. intros h1 cm Hi1 He1 Hcm. apply He1 in Ha, Hj.
  eapply returns_bind; [by eapply total_load_job|]. intros ? j _ _ (-> & Hjk & _).
  eapply returns_bind; [by eapply total_load_map|]. intros ? m0 _ _ ->.
  eapply returns_bind; [by apply total_store|]. intros h2 [] Hi2 He2 _. apply He2 in Ha, Hj, Hcm.
  eapply returns_bind.
  { eapply returns_Metrics; [by right|done|lia|done|done|done]. }
  intros h3 [] Hi3 He3 _. apply He3 in Ha, Hj.
  eapply returns_bind; [by eapply total_load_metric|]. intros ? m _ _ (-> & _ & Hm).
  by apply returns_ret.
Qed.

(** What is read after the collector has answered. *)
Lemma total_answered h a i ks shape job jk r0 :
  tinv h -> has_tag h a (TMetrics ks) -> ks !! i = Some shape -> has_tag h job (TJob jk) ->
  exists m j labels metadata,
    load_metric (a, i) h = Ret h m /\ load as_job job h = Ret h j /\ job_key j = jk /\
    load_map (job_Labels j) h = Ret h labels /\ load_map (job_Metadata j) h = Ret h metadata /\
    result_from (a, i) job h r0 (enrich j labels metadata
      (if rep_Code r0 =? CollectSuccess
       then CalculateFields compile run to_strings to_calculates to_units m r0 else r0)).
Proof.
  intros Hi Ha Hk Hj.
  destruct (total_load_metric h a i ks shape Hi Ha Hk) as (? & m & Em & _ & _ & -> & _).
  destruct (total_load_job h job jk Hi Hj) as (? & j & Ej & _ & _ & -> & Hjk & Hmd & Hl & _).
  destruct (total_load_optmap h _ Hi Hl) as (? & labels & El & _ & _ & ->).
  destruct (total_load_optmap h _ Hi Hmd) as (? & metadata & Emd & _ & _ & ->).
  exists m, j, labels, metadata. split_and!; try done. by exists m, j, labels, metadata.
Qed.

Lemma total_CollectMetrics now h a i ks key job jk :
  tinv h -> has_tag h a (TMetrics ks) -> ks !! i = Some key -> served_shape key ->
  has_tag h job (TJob jk) ->
  total h (collect now (a, i) job)
    (fun h' r => result_of jk (fst key) r /\ collected_once now (a, i) job key h r h').
Proof.
  intros Hi Ha Hk Hw Hj.
  destruct (total_prepare h a i ks key job jk Hi Ha Hk Hj) as (h1 & [j m] & E1 & Hi1 & He1 & Hjk & Hm).
  cbn [fst snd] in *. apply He1 in Ha, Hj. subst key. destruct jk as [[[[monitor tenant] app] cyclic] arr].
  unfold returns. rewrite collect_prepare. unfold mbind'. rewrite E1. cbn [fst snd]. unfold CollectorFor.
  destruct (collectors reg !! m_Protocol m) as [c|] eqn:Ec.
  - apply tinv_ok in Hi1 as Hok1.
    pose proof (map_Forall_lookup_1 _ _ _ _ reg_ok Ec) as Hcol. cbn beta in Hcol.
    destruct (Hcol h1 a i ks _ Hok1 Ha Hk Hw) as (h2 & r & E & Hok2 & He2 & Hr).
    rewrite E. apply tinv_ok in Hok2. apply He2 in Ha, Hj.
    destruct (total_answered h2 a i ks _ job _ r Hok2 Ha Hk Hj)
      as (m' & j' & labels & metadata & Em & Ej & Hj' & El & Emd & Hans).
    rewrite Em, Ej, El, Emd. do 2 eexists. split; [reflexivity|].
    split_and!; [done|by transitivity h1| |].
    + injection Hj' as <- <- <- _ _. split_and!; simpl; try done.
      * by destruct (_ =? _); rewrite ?calculate_metrics.
      * by rewrite Ec.
    + exists h1, j, m. split_and!; [done|done|]. cbn [metric_shape metric_key fst snd]. rewrite Ec.
      by exists r.
  - do 2 eexists. split; [reflexivity|]. split_and!; [done|done| |].
    + injection Hjk as <- <- <- _ _. by split_and!.
    + exists h1, j, m. split_and!; [done|done|]. cbn [metric_shape metric_key fst snd]. by rewrite Ec.
Qed.

Local Abbreviation run_all :=
  (run_collections compile run to_strings to_calculates to_units order reg) (only parsing).

Definition shape_name (shape : (string * string) * configs) : string := fst (fst shape).

Lemma find_metric_nodup ks ms i key :
  metric_shape <$> ms = ks -> NoDup (shape_name <$> ks) -> ks !! i = Some key ->
  find_metric (shape_name key) ms = Some i.
Proof.
  intros <- Hnd Hk. rewrite list_lookup_fmap in Hk. unfold find_metric.
  destruct (ms !! i) as [m|] eqn:Hm; [|discriminate Hk]. injection Hk as <-. cbn [shape_name metric_shape metric_key fst].
  assert (list_find (fun m0 => m_Name m0 = m_Name m) ms = Some (i, m)) as Hf; [|by rewrite Hf].
  apply list_find_Some. split_and!; [done|done|]. intros k m2 Hm2 Hlt Heq.
  rewrite <- list_fmap_compose in Hnd.
  assert (k = i); [|lia]. eapply (NoDup_lookup _ k i (m_Name m) Hnd);
    rewrite list_lookup_fmap; [by rewrite Hm2; simpl; f_equal|by rewrite Hm].
Qed.

(** The pointers that [NextCollectMetrics] returns, for an array of keys. *)
Definition pointers (a : loc) (i n : nat) : list mptr := pair a <$> seq i n.

Lemma total_start a ks pj jk a' i key h :
  tinv h -> has_tag h a (TMetrics ks) -> has_tag h pj (TJob (jk, Some a')) ->
  has_tag h a' (TMetrics ks) -> NoDup (shape_name <$> ks) -> ks !! i = Some key ->
  start_collection pj (a, i) h = Ret h (Some (a', i)).
Proof.
  intros Hi Ha Hpj Ha' Hnd Hk. unfold start_collection, mbind'.
  destruct (total_load_metric h a i ks key Hi Ha Hk) as (? & m & -> & _ & _ & -> & _ & Hm).
  destruct (total_load_job h pj _ Hi Hpj) as (? & j & -> & _ & _ & -> & Hjk & _).
  assert (job_Metrics j = Some a') as -> by (unfold job_key in Hjk; congruence).
  destruct (total_load_metrics h a' ks Hi Ha') as (? & ms & -> & _ & _ & -> & Hms).
  change (m_Name m) with (shape_name (metric_shape m)). by rewrite Hm, (find_metric_nodup ks ms i key).
Qed.

Lemma total_start_all a ks pj jk a' h n : forall i,
  tinv h -> has_tag h a (TMetrics ks) -> has_tag h pj (TJob (jk, Some a')) ->
  has_tag h a' (TMetrics ks) -> NoDup (shape_name <$> ks) -> (i + n <= length ks)%nat ->
  mmap (start_collection pj) (pointers a i n) h = Ret h (Some <$> pointers a' i n).
Proof.
  induction n as [|n IH]; intros i Hi Ha Hpj Ha' Hnd Hlen; [done|].
  destruct (lookup_lt_is_Some_2 ks i) as [key Hk]; [lia|].
  unfold pointers in *. cbn [seq fmap list_fmap mmap]. unfold mbind' at 1.
  rewrite (total_start a ks pj jk a' i key h) by done.
  unfold mbind'. by rewrite IH by (done || lia).
Qed.

Lemma pointers_lookup a n i : (i < n)%nat -> (Some <$> pointers a 0 n) !! i = Some (Some (a, i)).
Proof. intros Hi. unfold pointers. by rewrite !list_lookup_fmap, lookup_seq_lt by done. Qed.

Lemma total_run_all now ks pj jk a' turns : forall h,
  tinv h -> has_tag h pj (TJob (jk, Some a')) -> has_tag h a' (TMetrics ks) ->
  Forall served_shape ks -> Forall (fun i => i < length ks)%nat turns ->
  total h (run_all now pj (Some <$> pointers a' 0 (length ks)) turns) (fun h' sent =>
    sent.*1 = turns /\
    Forall (fun x => exists shape, ks !! fst x = Some shape /\
                                   result_of (jk, Some a') (fst shape) (snd x)) sent /\
    collected_all now a' pj ks sent h h').
Proof.
  induction turns as [|i turns IH]; intros h Hi Hpj Ha' Hw Hlt.
  { apply returns_ret; [done|]. by split_and!. }
  apply Forall_cons in Hlt as [Hlt Hrest]. destruct (lookup_lt_is_Some_2 ks i Hlt) as [shape Hk].
  cbn [run_collections]. rewrite pointers_lookup by done.
  destruct (total_CollectMetrics now h a' i ks shape pj _ Hi Ha' Hk (Forall_at _ _ _ _ Hw Hk) Hpj)
    as (h1 & r & E1 & Hi1 & He1 & Hr & Hc). apply He1 in Hpj, Ha'.
  destruct (IH h1 Hi1 Hpj Ha' Hw Hrest) as (h2 & sent & E2 & Hi2 & He2 & Hs & Hrs & Hcs).
  exists h2, ((i, r) :: sent). split_and!; [|done|by transitivity h1|by rewrite fmap_cons, Hs| |by exists shape, h1].
  - unfold mbind'. by rewrite E1, E2.
  - constructor; [by exists shape|done].
Qed.

Lemma pointers_length a i n : length (pointers a i n) = n.
Proof. unfold pointers. by rewrite length_fmap, length_seq. Qed.

(** Every channel gets its result. *)
Lemma channels_full (R : (string * string) * configs -> CollectRepMetricsData -> Prop)
    (ks : list ((string * string) * configs)) sent :
  sent.*1 ≡ₚ seq 0 (length ks) ->
  Forall (fun x => exists shape, ks !! fst x = Some shape /\ R shape (snd x)) sent ->
  exists all, channels_of (length ks) sent = Some <$> all /\ Forall2 R ks all /\
    forall i r, (i, r) ∈ sent -> all !! i = Some r.
Proof.
  intros Hs HR. assert (NoDup sent.*1) as Hnd by (rewrite Hs; apply NoDup_seq).
  set (m := list_to_map sent : gmap nat CollectRepMetricsData).
  assert (forall i, (i < length ks)%nat -> exists r, m !! i = Some r /\ (i, r) ∈ sent) as Hm.
  { intros i Hi. assert (i ∈ sent.*1) as ([? r] & -> & Hin)%list_elem_of_fmap
      by (rewrite Hs; apply elem_of_seq; lia). exists r. split; [by apply elem_of_list_to_map_1|done]. }
  destruct (mapM_is_Some_2 (fun i => m !! i) (seq 0 (length ks))) as [all Hall].
  { apply Forall_forall. intros i Hi%elem_of_seq. destruct (Hm i) as (r & Hr & _); [lia|]. by exists r. }
  apply mapM_Some_1 in Hall. pose proof (Forall2_length _ _ _ Hall) as Hlen. rewrite length_seq in Hlen.
  assert (forall i r, all !! i = Some r -> m !! i = Some r) as Hat.
  { intros i r Hr. pose proof (lookup_lt_Some _ _ _ Hr) as Hlt.
    exact (Forall2_lookup_lr _ _ _ _ _ _ Hall (lookup_seq_lt 0 (length ks) i ltac:(lia)) Hr). }
  exists all. split_and!.
  - unfold channels_of. fold m. clear -Hall.
    induction Hall as [|i r l all Hir _ IH]; [done|]. cbn [fmap list_fmap]. by rewrite Hir, IH.
  - apply Forall2_same_length_lookup. split; [done|]. intros i shape r Hk Hr.
    assert ((i, r) ∈ sent) as Hin by (apply elem_of_list_to_map_2, Hat, Hr).
    rewrite Forall_forall in HR. destruct (HR _ Hin) as (shape' & Hk' & HRr). cbn in *. congruence.
  - intros i r Hin. assert (i < length all)%nat as Hlt.
    { rewrite <- Hlen. apply (list_elem_of_fmap_2 fst) in Hin. cbn in Hin. rewrite Hs in Hin.
      apply elem_of_seq in Hin. lia. }
    destruct (lookup_lt_is_Some_2 _ _ Hlt) as [r' Hr']. pose proof (Hat _ _ Hr') as Hmr.
    apply (elem_of_list_to_map_1 sent i r Hnd) in Hin. fold m in Hin. congruence.
Qed.

(** *** ConstructPriorMetrics *)

Definition stamped (now : Z) (m m' : Metrics) : Prop :=
  m' = m \/ exists alias, m' = set_collected now alias m.

Lemma stamped_refl now ms : Forall2 (stamped now) ms ms.
Proof. induction ms; constructor; [by left|done]. Qed.

Lemma stamped_collect now a ms : forall i cur,
  Forall2 (stamped now) ms (fst (collect_loop now a i ms cur)).
Proof.
  induction ms as [|m ms IH]; intros i cur; simpl; [done|].
  destruct (collect_due now m).
  - match goal with |- context [collect_loop now a (S i) ms ?c] =>
      specialize (IH (S i) c); destruct (collect_loop now a (S i) ms c) end.
    constructor; [right; by eexists|done].
  - specialize (IH (S i) cur). destruct (collect_loop now a (S i) ms cur).
    constructor; [by left|done].
Qed.

Lemma stamped_available now a ms : forall i,
  Forall2 (stamped now) ms (fst (availability_loop now a i ms)).
Proof.
  induction ms as [|m ms IH]; intros i; simpl; [done|].
  destruct (m_Priority m =? 0); [constructor; [right; by eexists|apply stamped_refl]|].
  specialize (IH (S i)). destruct (availability_loop now a (S i) ms). constructor; [by left|done].
Qed.

Lemma stamped_trans now l1 l2 l3 :
  Forall2 (stamped now) l1 l2 -> Forall2 (stamped now) l2 l3 -> Forall2 (stamped now) l1 l3.
Proof.
  intros H1. revert l3. induction H1 as [|x y l1 l2 Hxy H12 IH]; intros l3 H2.
  - by inversion H2.
  - inversion_clear H2 as [|? z ? l3' Hyz H23]. constructor; [|by apply IH].
    destruct Hxy as [->|[al ->]]; [done|]. destruct Hyz as [->|[al' ->]]; right; by eexists.
Qed.

Lemma construct_prior_stamped visit now a ms :
  Forall2 (stamped now) ms (fst (construct_prior visit now a ms)).
Proof.
  unfold construct_prior. pose proof (stamped_collect now a ms 0 ∅) as H1.
  destruct (collect_loop now a 0 ms ∅) as [ms1 cur1]. simpl in H1.
  destruct (decide (cur1 = ∅)); [|done].
  pose proof (stamped_available now a ms1 0) as H2.
  destruct (availability_loop now a 0 ms1) as [ms2 cur2]. by eapply stamped_trans.
Qed.

Lemma stamped_keys now ms ms' : Forall2 (stamped now) ms ms' -> metric_shape <$> ms' = metric_shape <$> ms.
Proof.
  induction 1 as [|m m' ms ms' Hm Hms IH]; [done|]. rewrite !fmap_cons, IH. f_equal.
  by destruct Hm as [->|[al ->]].
Qed.

Lemma stamped_ok now h ms ms' :
  Forall2 (stamped now) ms ms' -> Forall (metric_ok h) ms -> Forall (metric_ok h) ms'.
Proof.
  induction 1 as [|m m' ms ms' Hm Hms IH]; [done|]. rewrite !Forall_cons. intros [H1 H2].
  split; [|by apply IH]. by destruct Hm as [->|[al ->]].
Qed.

Lemma total_Prior visit now h p j a ks :
  tinv h -> cells h !! p = Some (OJob j) -> job_Metrics j = Some a -> has_tag h a (TMetrics ks) ->
  total h (ConstructPriorMetrics visit now p) (fun _ _ => True).
Proof.
  intros Hi Hp Ha Ht. unfold ConstructPriorMetrics.
  eapply returns_bind; [by eapply returns_load|]. intros ? ? _ _ [-> ->]. rewrite Ha.
  pose proof Ht as (o & Hl & Hks). destruct o; try discriminate Hks. injection Hks as Hks.
  eapply returns_bind; [by eapply returns_load|]. intros ? ? _ _ [-> ->].
  pose proof (construct_prior_stamped visit now a ms) as Hst.
  destruct (construct_prior visit now a ms) as [ms' prior]. simpl in Hst.
  apply tinv_ok in Hi as Hok. destruct Hok as [_ Hok].
  eapply returns_bind.
  - apply total_store; [done| |].
    + simpl. by rewrite (stamped_keys _ _ _ Hst), Hks.
    + eapply (stamped_ok now h ms ms'); [done|]. exact (Hok a _ Hl).
  - intros h1 [] Hi1 He1 _. apply total_store; [done| |].
    + apply He1. by exists (OJob j).
    + pose proof (Hok p _ Hp) as (H1 & H2 & H3 & H4). rewrite Ha in H4.
      destruct H4 as [ks' H4]. split_and!; simpl; eauto using opt_tag_ext. rewrite Ha. eauto.
Qed.

(** *** The whole dispatch *)

Context {W : Type} (handle : CollectRepMetricsData -> Job -> W -> W * option error).
Context (visit : gmap Z (list mptr) -> list (Z * list mptr)).

(** A result handler that always returns. *)
Definition handler (r : CollectRepMetricsData) (j : Job) : M W (option error) :=
  fun w => let '(w', e) := handle r j w in Ret w' e.

Definition handle_spec (j : Job) (w : W) (r : CollectRepMetricsData) : W := fst (handle r j w).

Lemma handleResults_spec rs j : forall w,
  handleResults handler rs j w = Ret (foldl (handle_spec j) w rs) None.
Proof.
  induction rs as [|r rs IH]; intros w; [done|]. cbn [handleResults foldl].
  unfold handle_spec at 2. destruct (handle r j w) as [w' e] eqn:E.
  erewrite bind_ret by (unfold handler; by rewrite E). apply IH.
Qed.

Lemma gather_results received rs : forall i,
  fst (gather received i (Some <$> rs)) = arrived received i rs.
Proof.
  induction rs as [|r rs IH]; intros i; [done|]. cbn [fmap list_fmap gather arrived].
  specialize (IH (S i)). destruct (gather received (S i) _). cbn [fst] in IH. subst.
  by destruct (received i).
Qed.

Lemma arrived_Forall2 {A B} (R : A -> B -> Prop) received xs ys :
  Forall2 R xs ys -> forall i, Forall2 R (arrived received i xs) (arrived received i ys).
Proof.
  induction 1 as [|x y xs ys Hxy H IH]; intros i; [constructor|]. simpl.
  destruct (received i); [by constructor|done].
Qed.

Lemma arrived_fmap {A B} (f : A -> B) received xs : forall i,
  arrived received i (f <$> xs) = f <$> arrived received i xs.
Proof.
  induction xs as [|x xs IH]; intros i; [done|]. cbn [fmap list_fmap arrived].
  destruct (received i); cbn [fmap list_fmap]; by rewrite <- IH.
Qed.

Lemma on_heap_ret {A} (m : M heap A) h h' (w : W) a :
  m h = Ret h' a -> on_heap m (h, w) = Ret (h', w) a.
Proof. intros E. unfold on_heap. cbn. by rewrite E. Qed.

(** The clone that [ReplaceJobParams] makes. *)
Lemma total_clone h p j a ks :
  heap_ok h -> cells h !! p = Some (OJob j) -> job_Metrics j = Some a -> has_tag h a (TMetrics ks) ->
  exists h' c cj a', ReplaceJobParams order (Some p) h = Ret h' (Ok c) /\ tinv h' /\ ext h h' /\
    cells h !! c = None /\ cells h' !! c = Some (OJob cj) /\ job_Metrics cj = Some a' /\
    cells h !! a' = None /\ has_tag h' a' (TMetrics ks) /\
    job_key cj = (job_MonitorID j, job_TenantID j, job_App j, job_IsCyclic cj, Some a').
Proof.
  intros Hok Hp Ha Ht.
  destruct (returns_new_job order h p j Hok Hp)
    as (h' & ? & E & [Hok' _ _ _ _] & He & c & cj & -> & Hc & (o & Ho & Hto) & Hc1 & Hc2 & Hc3 & _ & Hc5).
  destruct (Hc5 a ks Ha ltac:(by apply He)) as (a' & Ea' & Hn & Ha').
  destruct o as [| | | | | | | | | | | |cj']; try discriminate Hto.
  assert (job_key cj' = job_key cj) as Hk by (unfold tag_of in Hto; congruence).
  unfold job_key in Hk. injection Hk as Hk1 Hk2 Hk3 Hk4 Hk5. destruct Hok as [Hfree _].
  exists h', c, cj', a'. split_and!; try done; [by apply tinv_ok|by apply Hfree|congruence|by apply Hfree|].
  unfold job_key. congruence.
Qed.

Lemma total_Next h p j a ks :
  tinv h -> has_tag h p (TJob (job_key j)) -> job_Metrics j = Some a -> has_tag h a (TMetrics ks) ->
  exists j1, cells h !! p = Some (OJob j1) /\ job_key j1 = job_key j /\ job_Metrics j1 = Some a /\
    NextCollectMetrics p h = Ret h (pointers a 0 (length ks)).
Proof.
  intros Hi (o & Hp & Hk) Ha Hat. destruct o as [| | | | | | | | | | | |j1]; try discriminate Hk.
  assert (job_key j1 = job_key j) as Hk1 by (cbn [tag_of] in Hk; congruence).
  assert (job_Metrics j1 = Some a) as Ha1 by (unfold job_key in Hk1; congruence).
  destruct (total_load_metrics h a ks Hi Hat) as (? & ms & El & _ & _ & -> & Hms).
  exists j1. split_and!; try done. unfold NextCollectMetrics.
  erewrite bind_ret by (unfold load; by rewrite Hp).
  rewrite Ha1. erewrite bind_ret by exact El. by rewrite <- Hms, length_fmap.
Qed.

(** From the clone to the results that arrive. *)
Lemma total_collection now turn received a ks c jk a' h :
  tinv h -> has_tag h a (TMetrics ks) -> has_tag h c (TJob (jk, Some a')) ->
  has_tag h a' (TMetrics ks) -> NoDup (shape_name <$> ks) -> Forall served_shape ks ->
  let ptrs := Some <$> pointers a' 0 (length ks) in
  exists h' sent all errs,
    mmap (start_collection c) (pointers a 0 (length ks)) h = Ret h ptrs /\ length ptrs = length ks /\
    run_all now c ptrs (run_order turn (length ks)) h = Ret h' sent /\ tinv h' /\ ext h h' /\
    sent.*1 ≡ₚ seq 0 (length ks) /\ collected_all now a' c ks sent h h' /\
    gather received 0 (channels_of (length ks) sent) = (arrived received 0 all, errs) /\
    (forall i r, (i, r) ∈ sent -> all !! i = Some r) /\
    Forall2 (fun shape => result_of (jk, Some a') (fst shape)) ks all.
Proof.
  intros Hi Ha Hc Ha' Hnd Hw ptrs.
  assert (run_order turn (length ks) ≡ₚ seq 0 (length ks)) as Hperm by apply merge_sort_Permutation.
  destruct (total_run_all now ks c jk a' (run_order turn (length ks)) h Hi Hc Ha' Hw)
    as (h' & sent & E & Hi' & He & Hs & Hrs & Hcs).
  { rewrite Hperm. apply Forall_forall. intros i Hin%elem_of_seq. lia. }
  rewrite <- Hs in Hperm.
  destruct (channels_full (fun shape => result_of (jk, Some a') (fst shape)) _ _ Hperm Hrs)
    as (all & Hch & Hall & Hsent).
  pose proof (gather_results received all 0) as Hg. rewrite <- Hch in Hg.
  destruct (gather received 0 (channels_of (length ks) sent)) as [rs errs] eqn:Eg. cbn [fst] in Hg. subst rs.
  exists h', sent, all, errs. split_and!; try done.
  - by apply (total_start_all a ks c jk).
  - unfold ptrs. by rewrite length_fmap, pointers_length.
Qed.

Lemma dispatch_returns now turn received h (w : W) p j a ms :
  heap_ok h -> cells h !! p = Some (OJob j) -> job_Metrics j = Some a ->
  cells h !! a = Some (OMetrics ms) -> NoDup (m_Name <$> ms) -> Forall served ms ->
  exists h' j' rs,
    DispatchMetricsTask compile run to_strings to_calculates to_units order reg handler visit
      now turn received (Some p) (h, w) = Ret (h', foldl (handle_spec j') w rs) None /\
    heap_ok h' /\ ext h h' /\ job_key j' = job_key j /\
    dispatched visit now received p (metric_shape <$> ms) h rs h' /\
    Forall2 (result_of (job_key j)) (arrived received 0 (metric_key <$> ms)) rs.
Proof.
  intros Hok Hp Ha Hms Hnd Hw. apply tinv_ok in Hok as Hi. unfold dispatched.
  set (ks := metric_shape <$> ms).
  assert (has_tag h a (TMetrics ks)) as Hat by (by exists (OMetrics ms)).
  assert (has_tag h p (TJob (job_key j))) as Hpt by (by exists (OJob j)).
  assert (NoDup (shape_name <$> ks)) as Hnd' by (unfold ks; by rewrite <- list_fmap_compose).
  assert (Forall served_shape ks) as Hw' by by apply Forall_fmap.
  assert (fst <$> ks = metric_key <$> ms) as Hks by (unfold ks; by rewrite <- list_fmap_compose).
  destruct (total_Prior visit now h p j a ks Hi Hp Ha Hat) as (h1 & [] & E1 & Hi1 & He1 & _).
  apply He1 in Hat, Hpt. unfold DispatchMetricsTask.
  erewrite bind_ret by (apply on_heap_ret; exact E1).
  destruct (total_Next h1 p j a ks Hi1 Hpt Ha Hat) as (j1 & Hp1 & Hk & Ha1 & E2).
  erewrite bind_ret by (apply on_heap_ret; exact E2).
  clearbody ks. rewrite <- Hks. clear Hks.
  destruct ks as [|key ks'] eqn:Eks.
  { exists h1, j1, []. rewrite <- tinv_ok. split_and!; try done. by exists h1. }
  destruct (total_clone h1 p j1 a _ (proj1 (tinv_ok h1) Hi1) Hp1 Ha1 Hat)
    as (h2 & c & cj & a' & E3 & Hi2 & He2 & Hfc & Hcj & Ea' & Hfa & Ha' & Hck).
  assert (pointers a 0 (length (key :: ks')) <> []) as Hne by done.
  destruct (pointers a 0 (length (key :: ks'))) as [|ptr ptrs] eqn:Eptr; [done|]. clear Hne.
  erewrite bind_ret by (apply on_heap_ret; exact E3). cbn beta iota.
  apply He2 in Hat as Hat2. apply He2 in Hpt as Hpt2.
  assert (has_tag h2 c (TJob (job_key cj))) as Hct by (by exists (OJob cj)). rewrite Hck in Hct.
  destruct (total_collection now turn received a _ c _ a' h2 Hi2 Hat2 Hct Ha' Hnd' Hw')
    as (h3 & sent & all & errs & E4 & Hlen & E6 & Hi3 & He3 & Hperm & Hcs & Hg & Hsent & Hall).
  rewrite Eptr in E4. erewrite bind_ret by (apply on_heap_ret; exact E4).
  rewrite Hlen. erewrite bind_ret by (apply on_heap_ret; exact E6). rewrite Hg.
  apply He3 in Hpt2.
  destruct (total_load_job h3 p _ Hi3 Hpt2) as (? & j2 & E5 & _ & _ & -> & Hj2 & _).
  erewrite bind_ret by (apply on_heap_ret; exact E5).
  exists h3, j2, (arrived received 0 all). rewrite <- tinv_ok.
  split_and!; [|done|by do 2 (etransitivity; [eassumption|])|done| |].
  - unfold on_sink. cbn [fst snd]. by rewrite handleResults_spec.
  - exists h1. split; [done|]. exists h2, c, cj, a', sent, all. split_and!; try done.
    by rewrite (Forall2_length _ _ _ Hall).
  - apply arrived_Forall2. change (Forall2 (result_of (job_key j)) (fst <$> key :: ks') all).
    apply Forall2_fmap_l. eapply Forall2_impl; [exact Hall|]. intros shape r Hr.
    unfold result_of, job_key in *. injection Hk as H1 H2 H3 _ _. by rewrite H1, H2, H3 in Hr.
Qed.

End Run.
End Total.

(** ** Properties *)

(** C9 (functional). The dispatch of a job never fails and never panics, on a
    well-typed heap with the job, whose metrics have distinct names and the
    configurations that their collectors want, and with collectors that keep
    their interface.  Every metric is collected once, the goroutines that do this
    running one after another in any order: the parameters of the job are
    replaced in a clone of new objects, whose metric is prepared and handed to
    the collector of its protocol in one call, and the answer, with the
    calculated fields and the job information, is the result.  Without a
    collector of the protocol the result is the error, marked unavailable.
    The results that arrive before the deadline are handed to the result handler
    in the order of the metrics, each with the identity of the job and the name
    of its metric.  In particular a timer task is never recorded as failed. *)
Theorem DispatchMetricsTask_collects {program} compile
    (run : program -> gmap string any -> res any) to_strings to_calculates to_units order reg wants
    {W} (handle : CollectRepMetricsData -> Job -> W -> W * option error) visit
    now turn received h (w : W) p j a ms :
  collectors_ok reg wants -> heap_ok h -> cells h !! p = Some (OJob j) -> job_Metrics j = Some a ->
  cells h !! a = Some (OMetrics ms) -> NoDup (m_Name <$> ms) -> Forall (served wants) ms ->
  exists h' j' rs,
    DispatchMetricsTask compile run to_strings to_calculates to_units order reg (handler handle)
      visit now turn received (Some p) (h, w) = Ret (h', foldl (handle_spec handle j') w rs) None /\
    heap_ok h' /\ job_key j' = job_key j /\
    dispatched compile run to_strings to_calculates to_units order reg visit
      now received p (metric_shape <$> ms) h rs h' /\
    Forall2 (result_of reg (job_key j)) (arrived received 0 (metric_key <$> ms)) rs.
Proof.
  intros Hreg Hok Hp Ha Hms Hnd Hw.
  destruct (dispatch_returns compile run to_strings to_calculates to_units order reg wants Hreg
    handle visit now turn received h w p j a ms Hok Hp Ha Hms Hnd Hw)
    as (h' & j' & rs & E & Hok' & _ & Hk & Hd & Hrs).
  by exists h', j', rs.
Qed.

(** A collector that answers with the host of the metric. *)
Definition echo_collector (protocol : string) : Collector :=
  mkCollector protocol (fun p =>
    m <-! load_metric p ;
    mret (Some (mkCollectRep 0 0 0 "" (m_Name m) 0 0 0 (m_Host m) [] [] ∅ ∅))).

Lemma echo_ok wanted protocol : collector_ok wanted (echo_collector protocol).
Proof.
  intros h a i ks key Hok Ha Hk _. apply tinv_ok in Hok as Hi.
  destruct (total_load_metric h a i ks key Hi Ha Hk) as (? & m & E & _ & _ & -> & _ & Hm).
  exists h. eexists. cbn [col_Collect echo_collector]. erewrite bind_ret by exact E.
  split; [done|]. split_and!; [done|done|]. by rewrite <- Hm.
Qed.

Definition ex_registry : CollectorRegistry Collector :=
  InitializeCollectors (RegisterFactory "http" (echo_collector "http") globalRegistry).

(** A collector that wants nothing. *)
Definition no_wants (protocol : string) (c : configs) : bool := true.

Lemma ex_registry_ok : collectors_ok ex_registry no_wants.
Proof.
  assert (collectors ex_registry = {["http" := echo_collector "http"]}) as Hr
    by (vm_compute; reflexivity).
  unfold collectors_ok. rewrite Hr. apply map_Forall_singleton, echo_ok.
Qed.

Lemma ex_heap_ok : heap_ok ex_heap.
Proof.
  split.
  - intros l Hl. simpl in *. by rewrite lookup_insert_ne, lookup_singleton_ne by lia.
  - apply map_Forall_insert; [reflexivity|]. split; [|apply map_Forall_singleton].
    + simpl. split_and!; try done. eexists. by eexists.
    + repeat constructor.
Qed.

(** The results are the sink. *)
Definition keep (r : CollectRepMetricsData) (j : Job) (w : list CollectRepMetricsData)
    : list CollectRepMetricsData * option error := (w ++ [r], None).

Definition no_program (s : string) : res Empty_set := Err "syntax".
Definition no_json {A} (v : any) : option A := None.
Definition in_key_order (n : nat) (m : gmap string string) : list (string * string) := map_to_list m.

Lemma DispatchMetricsTask_collects_witness :
  exists h' j' rs,
    DispatchMetricsTask no_program no_run no_json no_json no_json in_key_order ex_registry
      (handler keep) map_to_list 100000 (Nat.sub 3) (fun i => Nat.even i) (Some 0%nat) (ex_heap, [])
      = Ret (h', foldl (handle_spec keep j') [] rs) None /\
    heap_ok h' /\ job_key j' = job_key (ex_job 7 60 true (Some 1%nat)) /\
    dispatched no_program no_run no_json no_json no_json in_key_order ex_registry map_to_list
      100000 (fun i => Nat.even i) 0 (metric_shape <$>
      [ex_metric "cpu" 2 0 60; ex_metric "up" 0 0 60; ex_metric "late" 1 99000 60; ex_metric "mem" 2 0 30]) ex_heap rs h' /\
    Forall2 (result_of ex_registry (job_key (ex_job 7 60 true (Some 1%nat))))
      [("cpu", "http"); ("late", "http")] rs.
Proof.
  apply (DispatchMetricsTask_collects no_program no_run no_json no_json no_json in_key_order
    ex_registry no_wants keep map_to_list 100000 (Nat.sub 3) (fun i => Nat.even i) ex_heap [] 0 _ 1 _
    ex_registry_ok ex_heap_ok eq_refl eq_refl eq_refl).
  - apply (bool_decide_unpack (NoDup _)). vm_compute. exact I.
  - by repeat constructor.
Defined.

(** C40 (bounds). The deadline of a collection is at least 30 seconds for every
    value of the interval, overflow included, and up to 115,292,150 seconds it
    is the longer of 30 seconds and four fifths of the interval. *)
Theorem getCollectionTimeout_bounds j :
  in64 (job_DefaultInterval j) ->
  defaultTimeout <= getCollectionTimeout j <= max64 /\
  (0 < job_DefaultInterval j <= 115292150 ->
   getCollectionTimeout j = Z.max defaultTimeout (job_DefaultInterval j * (800 * Millisecond))).
Proof.
  intros _. unfold getCollectionTimeout, defaultTimeout, Second, Millisecond.
  set (i := job_DefaultInterval j). clearbody i.
  pose proof (wrap64_range (wrap64 (i * (1000 * 1000000)) * 80)) as Hw.
  set (w := wrap64 (wrap64 (i * (1000 * 1000000)) * 80)) in *. split.
  - unfold_int. destruct (0 <? i); [|lia]. destruct (_ <? Z.quot w 100) eqn:E; bool_to_prop; [|lia].
    split; [lia|]. apply Z.quot_le_upper_bound; lia.
  - intros Hi. assert (w = i * (1000 * 1000000) * 80) as ->.
    { unfold w. rewrite (wrap64_id (i * (1000 * 1000000))), wrap64_id; unfold_int; lia. }
    rewrite go_quot_nonneg by lia.
    replace (i * (1000 * 1000000) * 80 / 100) with (i * (800 * 1000000))
      by (apply Z.div_unique_exact; lia).
    destruct (0 <? i) eqn:E0; bool_to_prop; [|lia].
    destruct (_ <? i * (800 * 1000000)) eqn:E; bool_to_prop; lia.
Qed.

Lemma getCollectionTimeout_bounds_witness :
  defaultTimeout <= getCollectionTimeout (ex_job 7 60 true None) <= max64 /\
  (0 < 60 <= 115292150 ->
   getCollectionTimeout (ex_job 7 60 true None) = Z.max defaultTimeout (60 * (800 * Millisecond))).
Proof. apply getCollectionTimeout_bounds. unfold_int. simpl. lia. Defined.

Definition with_host (host : string) (m : Metrics) : Metrics :=
  set_basic host (m_Port m) (m_Timeout m) (m_Range m) m.

Definition ex_twin_heap : heap :=
  mkHeap {[0%nat := OJob (ex_job 7 60 true (Some 1%nat));
           1%nat := OMetrics [with_host "a" (ex_metric "up" 0 0 60);
                              with_host "b" (ex_metric "up" 1 0 60)]]} 2 0.

Definition ex_dispatch (reg : CollectorRegistry Collector) (h : heap)
    : outcome (heap * list CollectRepMetricsData) (option error) :=
  DispatchMetricsTask no_program no_run no_json no_json no_json in_key_order reg
    (handler keep) map_to_list 100000 id (fun _ => true) (Some 0%nat) (h, []).

(** Two metrics of the same name are not told apart: the first
    one is collected twice and the second one never. *)
Theorem twin_metrics_collected_once :
  outcome_val (ex_dispatch ex_registry ex_twin_heap) = Some None /\
  rep_Msg <$> snd (outcome_state (ex_dispatch ex_registry ex_twin_heap)) = ["a"; "a"].
Proof. split; vm_compute; reflexivity. Qed.

Definition nil_registry : CollectorRegistry Collector :=
  InitializeCollectors
    (RegisterFactory "http" (mkCollector "http" (fun _ => mret None)) globalRegistry).

(** A collector that returns a nil result panics the goroutine of
    the collection, where nothing recovers, although the result is tested for
    nil before. *)
Theorem nil_result_panics :
  outcome_val (ex_dispatch nil_registry ex_heap) = None /\
  outcome_val (ex_dispatch globalRegistry ex_heap) = Some None /\
  rep_Code <$> snd (outcome_state (ex_dispatch globalRegistry ex_heap)) =
    [CollectUnavailable; CollectUnavailable; CollectUnavailable; CollectUnavailable].
Proof. split_and!; vm_compute; reflexivity. Qed.

(** *** The registry of collectors *)

Lemma register_all {C} (l : list (string * C)) : forall r,
  collectors (foldl (fun r x => RegisterFactory (fst x) (snd x) r) r l) = collectors r /\
  initialized (foldl (fun r x => RegisterFactory (fst x) (snd x) r) r l) = initialized r /\
  forall p, factories (foldl (fun r x => RegisterFactory (fst x) (snd x) r) r l) !! p =
    match last (snd <$> filter (fun x => fst x = p) l) with
    | Some c => Some c
    | None => factories r !! p
    end.
Proof.
  induction l as [|[q c] l IH]; intros r; [done|]. cbn [foldl fst snd].
  destruct (IH (RegisterFactory q c r)) as (H1 & H2 & H3). split_and!; [done|done|].
  intros p. rewrite H3. cbn [RegisterFactory factories].
  destruct (decide (q = p)) as [->|Hne].
  - rewrite filter_cons_True, fmap_cons, last_cons, lookup_insert_eq by done. by destruct (last _).
  - by rewrite filter_cons_False, lookup_insert_ne by done.
Qed.

(** After the initialisation a protocol has the collector
    that was registered for it last, and an error where there is none; another
    initialisation, and factories registered later, change nothing. *)
Theorem CollectorFor_last {C} (l later : list (string * C)) p :
  let register := foldl (fun r x => RegisterFactory (fst x) (snd x) r) in
  let r := InitializeCollectors (register globalRegistry l) in
  CollectorFor p r =
    match last (snd <$> filter (fun x => fst x = p) l) with
    | Some c => Ok c
    | None => Err ("no collector found for protocol: " +:+ p)
    end /\
  CollectorFor p (InitializeCollectors (register r later)) = CollectorFor p r.
Proof.
  intros register r. destruct (register_all l globalRegistry) as (H1 & H2 & H3).
  destruct (register_all later r) as (H4 & H5 & _).
  fold register in H1, H2, H3, H4, H5. split.
  - unfold r, InitializeCollectors, CollectorFor. rewrite H2. cbn [initialized globalRegistry collectors].
    rewrite H1, lookup_union_l by done. rewrite H3.
    by destruct (last _).
  - assert (initialized r = true) as Hr by (unfold r, InitializeCollectors; by rewrite H2).
    unfold InitializeCollectors at 1. rewrite H5, Hr. unfold CollectorFor. by rewrite H4.
Qed.
