(* ===== verification/MessageRouter.v ===== *)
(** * The message router of the job package

    Models internal/job/router/message_router.go: three processors that hand
    the jobs in messages to the job runner, and the sending of results through
    a client of the transport.  The runner is any job scheduler, the client
    anything that implements the interface [TransportClient] of
    internal/transport/registry.go.  Decoding and encoding of JSON are
    parameters. *)

From Stdlib Require Import Ascii String.
From S2P Require Import Prelude GoStrings WheelTimer TimerService JobTypes TimeDispatch Scheduler JobServer Processors Calc Collect.

Open Scope string_scope.
Open Scope list_scope.
Open Scope Z_scope.
Open Scope go_scope.

Definition MessageTypeResponseOneTimeTaskData : Z := 7.
Definition MessageTypeResponseCyclicTaskData : Z := 8.

(** ** The interface of clients *)

(** [P] is the type of processors. *)
Class TransportClient (C P : Type) := {
  tc_IsStarted : C -> bool;
  tc_SendMsg : Message -> M C (option error);
  tc_RegisterProcessor : Z -> P -> C -> C;
}.

(** [tc_sent] lists what the client has sent; a started client sends. *)
Class TransportClientLaws (C P : Type) `{!TransportClient C P} := {
  tc_sent : C -> list Message;
  tc_processors : C -> gmap Z P;
  tc_send_spec c m :
    tc_IsStarted c = true ->
    exists c' err, tc_SendMsg m c = Ret c' err /\
      tc_sent c' = tc_sent c ++ (match err with None => [m] | Some _ => [] end);
  tc_register_spec c ty p :
    tc_processors (tc_RegisterProcessor ty p c) = <[ty := p]> (tc_processors c);
}.

(** ** The router *)

(** [ProcessorFunc]: its argument is [None] when it is not a [*pb.Message]. *)
Definition ProcessorFunc (S : Type) : Type := option Message -> M S (res Message).

Section Router.
Context {S : Type} `{!JobScheduler S}.
Context (unmarshal_job : string -> res Job) (unmarshal_ids : string -> res (list Z)).
(** [r.identity]. *)
Context (identity : string).

Definition router_reply (ty : Z) (text : string) : Message := mkMessage ty RESPONSE identity text.

(** The three handlers: the message they return; their error is always nil. *)
Definition handleIssueCyclicTask (now : Z) (msg : Message) : M S Message :=
  match unmarshal_job (msg_Msg msg) with
  | Err _ => mret (router_reply MessageTypeIssueCyclicTask "failed to unmarshal job")
  | Ok job =>
      err <-! js_add now (Some job) ;
      match err with
      | Some e => mret (router_reply MessageTypeIssueCyclicTask ("failed to add job: " +:+ e))
      | None => mret (router_reply MessageTypeIssueCyclicTask "job added successfully")
      end
  end.

Fixpoint remove_all (ids : list Z) : M S unit :=
  match ids with
  | [] => mret tt
  | id :: rest => js_remove id ;! remove_all rest
  end.

Definition handleDeleteCyclicTask (msg : Message) : M S Message :=
  match unmarshal_ids (msg_Msg msg) with
  | Err _ => mret (router_reply MessageTypeDeleteCyclicTask "failed to unmarshal job IDs")
  | Ok jobIDs =>
      remove_all jobIDs ;!
      mret (router_reply MessageTypeDeleteCyclicTask "jobs removed successfully")
  end.

Definition handleIssueOneTimeTask (now : Z) (msg : Message) : M S Message :=
  match unmarshal_job (msg_Msg msg) with
  | Err _ => mret (router_reply MessageTypeIssueOneTimeTask "failed to unmarshal job")
  | Ok job =>
      err <-! js_add now (Some (set_cyclic false job)) ;
      match err with
      | Some e => mret (router_reply MessageTypeIssueOneTimeTask ("failed to add one-time job: " +:+ e))
      | None => mret (router_reply MessageTypeIssueOneTimeTask "one-time job added successfully")
      end
  end.

(** The function literal around a handler. *)
Definition processor (handle : Message -> M S Message) : ProcessorFunc S :=
  fun msg =>
    match msg with
    | Some pbMsg => r <-! handle pbMsg ; mret (Ok r)
    | None => mret (Err "invalid message type")
    end.

(** [RegisterProcessors] with the clock reading of the additions; nothing is
    registered when the client is nil. *)
Definition RegisterProcessors {C} `{!TransportClient C (ProcessorFunc S)} (now : Z) (client : option C)
    : option C :=
  match client with
  | None => None
  | Some c =>
      let c := tc_RegisterProcessor MessageTypeIssueCyclicTask (processor (handleIssueCyclicTask now)) c in
      let c := tc_RegisterProcessor MessageTypeDeleteCyclicTask (processor handleDeleteCyclicTask) c in
      Some (tc_RegisterProcessor MessageTypeIssueOneTimeTask (processor (handleIssueOneTimeTask now)) c)
  end.

(** [SendResult]; [marshal] is [json.Marshal] of a list of results. *)
Definition SendResult {C} `{!TransportClient C (ProcessorFunc S)}
    (marshal : list CollectRepMetricsData -> res string) (data : CollectRepMetricsData) (j : Job)
    : M (option C) (option error) :=
  fun client =>
    match client with
    | None => Ret client (Some "transport client not started")
    | Some c =>
        if negb (tc_IsStarted c) then Ret client (Some "transport client not started")
        else
          let msgType := if job_IsCyclic j then MessageTypeResponseCyclicTaskData
                         else MessageTypeResponseOneTimeTaskData in
          match marshal [data] with
          | Err e => Ret client (Some ("failed to marshal metrics data: " +:+ e))
          | Ok dataBytes =>
              match tc_SendMsg (mkMessage msgType RESPONSE identity dataBytes) c with
              | Ret c' (Some e) => Ret (Some c') (Some ("failed to send metrics data: " +:+ e))
              | Ret c' None => Ret (Some c') None
              | Panic c' w => Panic (Some c') w
              end
          end
    end.

(** ** What the processors do to the jobs *)

(** The specification: the job that a message adds, the ids it deletes, the
    map afterwards, and the text of the answer. *)
Definition routed_job (msg : Message) : option Job :=
  match unmarshal_job (msg_Msg msg) with
  | Ok j => if msg_Type msg =? MessageTypeIssueCyclicTask then Some j
            else if msg_Type msg =? MessageTypeIssueOneTimeTask then Some (set_cyclic false j)
            else None
  | Err _ => None
  end.

Definition routed_ids (msg : Message) : list Z :=
  if msg_Type msg =? MessageTypeDeleteCyclicTask
  then match unmarshal_ids (msg_Msg msg) with Ok ids => ids | Err _ => [] end
  else [].

Definition route_effect (msg : Message) (jobs : gmap Z Job) : gmap Z Job :=
  match routed_job msg with
  | Some j => <[job_ID j := j]> jobs
  | None => foldl (fun m id => delete id m) jobs (routed_ids msg)
  end.

Definition route_text (msg : Message) : string :=
  let parsed {A} (r : res A) (ok bad : string) := match r with Ok _ => ok | Err _ => bad end in
  if msg_Type msg =? MessageTypeIssueCyclicTask
  then parsed (unmarshal_job (msg_Msg msg)) "job added successfully" "failed to unmarshal job"
  else if msg_Type msg =? MessageTypeDeleteCyclicTask
  then parsed (unmarshal_ids (msg_Msg msg)) "jobs removed successfully" "failed to unmarshal job IDs"
  else parsed (unmarshal_job (msg_Msg msg)) "one-time job added successfully" "failed to unmarshal job".

(** The types that the router has a processor for. *)
Definition routed_types : list Z :=
  [MessageTypeIssueCyclicTask; MessageTypeDeleteCyclicTask; MessageTypeIssueOneTimeTask].

(** The processors that [RegisterProcessors] leaves in a client. *)
Definition registered (now : Z) (procs : gmap Z (ProcessorFunc S)) : gmap Z (ProcessorFunc S) :=
  <[MessageTypeIssueOneTimeTask := processor (handleIssueOneTimeTask now)]>
  (<[MessageTypeDeleteCyclicTask := processor handleDeleteCyclicTask]>
  (<[MessageTypeIssueCyclicTask := processor (handleIssueCyclicTask now)]> procs)).

Lemma RegisterProcessors_registered {C} `{!TransportClient C (ProcessorFunc S),
    !TransportClientLaws C (ProcessorFunc S)} now c :
  tc_processors <$> RegisterProcessors now (Some c) = Some (registered now (tc_processors c)).
Proof. unfold RegisterProcessors. simpl. by rewrite !tc_register_spec. Qed.

Context `{!JobSchedulerLaws S}.

Lemma remove_all_spec ids : forall s,
  js_ok s -> exists s', remove_all ids s = Ret s' tt /\ js_ok s' /\
    registry s' = foldl (fun m id => delete id m) (registry s) ids.
Proof.
  induction ids as [|id ids IH]; intros s Hs; [by exists s|].
  destruct (js_remove_spec s id Hs) as (s1 & err & E & Hs1 & Hr1 & _).
  destruct (IH s1 Hs1) as (s2 & E2 & Hs2 & Hr2). exists s2. split_and!; [|done|].
  - cbn [remove_all]. by erewrite bind_ret by exact E.
  - cbn [foldl]. by rewrite Hr2, Hr1.
Qed.

Lemma add_spec now j s ty ok bad :
  js_ok s -> job_ok j -> compatible (registry s) j ->
  exists s', (err <-! js_add now (Some j) ;
              match err with
              | Some e => mret (router_reply ty (bad +:+ e))
              | None => mret (router_reply ty ok)
              end) s = Ret s' (router_reply ty ok) /\ js_ok s' /\
    registry s' = <[job_ID j := j]> (registry s).
Proof.
  intros Hs Hj Hc. destruct (js_add_spec s now j Hs Hj Hc) as (s' & E & Hs' & Hr).
  exists s'. split_and!; [|done|done]. by erewrite bind_ret by exact E.
Qed.

Lemma ex_and_comm {A} (P : Prop) (Q : A -> Prop) : P /\ (exists x, Q x) -> exists x, P /\ Q x.
Proof. intros (? & x & ?). by exists x. Qed.

(** A call of the processor of a message. *)
Lemma registered_call now procs msg s :
  msg_Type msg ∈ routed_types -> js_ok s ->
  (forall j, routed_job msg = Some j -> job_ok j /\ compatible (registry s) j) ->
  exists handle s', registered now procs !! msg_Type msg = Some (processor handle) /\
    processor handle (Some msg) s = Ret s' (Ok (router_reply (msg_Type msg) (route_text msg))) /\
    js_ok s' /\ registry s' = route_effect msg (registry s).
Proof.
  intros Hin Hs Hj. unfold registered, route_text, route_effect, routed_job, routed_ids in *.
  unfold routed_types in Hin. rewrite !elem_of_cons in Hin.
  destruct Hin as [Ht|[Ht|[Ht|Hin]]]; [..|by apply not_elem_of_nil in Hin]; rewrite Ht in *;
    unfold processor; cbn in Hj |- *.
  - rewrite !lookup_insert_ne, lookup_insert_eq by done. exists (handleIssueCyclicTask now).
    apply ex_and_comm. split; [done|]. unfold handleIssueCyclicTask.
    destruct (unmarshal_job (msg_Msg msg)) as [j|e]; [|by exists s].
    destruct (Hj _ eq_refl) as [Hok Hc].
    destruct (add_spec now j s MessageTypeIssueCyclicTask
      "job added successfully" "failed to add job: " Hs Hok Hc) as (s' & E & Hs' & Hr).
    exists s'. split_and!; [|done|done]. by erewrite bind_ret by exact E.
  - rewrite lookup_insert_ne, lookup_insert_eq by done. exists handleDeleteCyclicTask.
    apply ex_and_comm. split; [done|]. unfold handleDeleteCyclicTask.
    assert (match unmarshal_job (msg_Msg msg) with Ok _ | _ => None end = @None Job) as ->
      by by destruct (unmarshal_job (msg_Msg msg)).
    destruct (unmarshal_ids (msg_Msg msg)) as [ids|e]; [|by exists s].
    destruct (remove_all_spec ids s Hs) as (s' & E & Hs' & Hr). exists s'. split_and!; [|done|done].
    erewrite bind_ret by (erewrite bind_ret by exact E; reflexivity). done.
  - rewrite lookup_insert_eq. exists (handleIssueOneTimeTask now).
    apply ex_and_comm. split; [done|]. unfold handleIssueOneTimeTask.
    destruct (unmarshal_job (msg_Msg msg)) as [j|e]; [|by exists s].
    destruct (Hj _ eq_refl) as [Hok Hc].
    destruct (add_spec now (set_cyclic false j) s MessageTypeIssueOneTimeTask
      "one-time job added successfully" "failed to add one-time job: " Hs Hok Hc) as (s' & E & Hs' & Hr).
    exists s'. split_and!; [|done|done]. by erewrite bind_ret by exact E.
Qed.

Lemma registered_others now procs ty : ty ∉ routed_types -> registered now procs !! ty = procs !! ty.
Proof.
  unfold routed_types, registered. rewrite !not_elem_of_cons. intros (H1 & H2 & H3 & _).
  by rewrite !lookup_insert_ne by congruence.
Qed.

(** C28 (functional). Over every job scheduler and every client:
    [RegisterProcessors] gives the client a processor for each of the three types
    of task messages and leaves its others alone.  A call of such a processor, at
    whatever time the goroutine that the client starts for a message gets to it,
    does not panic: it adds the job that the message holds (for a one-time task
    not a cyclic one), or removes the ids that it lists, and nothing when the
    message cannot be decoded; and it returns an answer of the type of the
    message with the identity of the router, which tells of the decoding.
    Assumed: the job is well-formed and replaces only one of its own kind.
    Called with anything but a message it returns an error and changes
    nothing. *)
Theorem router_processors_correct {C} `{!TransportClient C (ProcessorFunc S),
    !TransportClientLaws C (ProcessorFunc S)} now (c : C) :
  exists c', RegisterProcessors now (Some c) = Some c' /\
    (forall ty, ty ∉ routed_types -> tc_processors c' !! ty = tc_processors c !! ty) /\
    (forall ty, ty ∈ routed_types -> exists fn : ProcessorFunc S, tc_processors c' !! ty = Some fn /\
       forall s, fn None s = Ret s (Err "invalid message type")) /\
    (forall msg s, msg_Type msg ∈ routed_types -> js_ok s ->
       (forall j, routed_job msg = Some j -> job_ok j /\ compatible (registry s) j) ->
       exists (fn : ProcessorFunc S) s', tc_processors c' !! msg_Type msg = Some fn /\
         fn (Some msg) s = Ret s' (Ok (router_reply (msg_Type msg) (route_text msg))) /\
         js_ok s' /\ registry s' = route_effect msg (registry s)).
Proof.
  pose proof (RegisterProcessors_registered now c) as Hreg.
  destruct (RegisterProcessors now (Some c)) as [c'|]; [|done]. injection Hreg as Hreg.
  exists c'. rewrite Hreg. split_and!; [done| | |].
  - intros ty. apply registered_others.
  - intros ty Hty. unfold routed_types in Hty. rewrite !elem_of_cons in Hty. unfold registered.
    destruct Hty as [->|[->|[->|Hty]]]; [..|by apply not_elem_of_nil in Hty].
    + exists (processor (handleIssueCyclicTask now)). split; [|done].
      by rewrite !lookup_insert_ne, lookup_insert_eq by done.
    + exists (processor handleDeleteCyclicTask). split; [|done].
      by rewrite lookup_insert_ne, lookup_insert_eq by done.
    + exists (processor (handleIssueOneTimeTask now)). split; [|done]. by rewrite lookup_insert_eq.
  - intros msg s Hin Hs Hj.
    destruct (registered_call now (tc_processors c) msg s Hin Hs Hj) as (h & s' & ? & ? & ? & ?).
    by exists (processor h), s'.
Qed.

End Router.

(** [SendResult] of the message router on every branch: without
    a started client, or when the result cannot be encoded, nothing is sent and
    the error says so; otherwise one message goes to the client, with the type
    of the job, the identity of the router and the encoding of the one result,
    and the error of the client is passed on. *)
Theorem SendResult_branches {S C} `{!JobScheduler S, !TransportClient C (ProcessorFunc S),
    !TransportClientLaws C (ProcessorFunc S)} identity marshal data j (client : option C) :
  exists client' err, SendResult (S := S) identity marshal data j client = Ret client' err /\
    match client with
    | None => client' = None /\ err = Some "transport client not started"
    | Some c =>
        if tc_IsStarted c then
          match marshal [data] with
          | Err e => client' = Some c /\ err = Some ("failed to marshal metrics data: " +:+ e)
          | Ok bytes =>
              exists c', client' = Some c' /\
                (err = None /\
                 tc_sent c' = tc_sent c ++ [mkMessage (if job_IsCyclic j then 8 else 7) RESPONSE identity bytes] \/
                 (exists e, err = Some ("failed to send metrics data: " +:+ e)) /\ tc_sent c' = tc_sent c)
          end
        else client' = Some c /\ err = Some "transport client not started"
    end.
Proof.
  unfold SendResult. destruct client as [c|]; [|by do 2 eexists].
  destruct (tc_IsStarted c) eqn:Hst; cbn [negb]; [|by do 2 eexists].
  destruct (marshal [data]) as [bytes|e]; [|by do 2 eexists].
  set (m := mkMessage _ _ _ _).
  destruct (tc_send_spec c m Hst) as (c' & err & E & Hsent).
  rewrite E. destruct err as [e|]; (do 2 eexists; split; [done|]); exists c'; (split; [done|]).
  - right. split; [by exists e|]. by rewrite Hsent, app_nil_r.
  - left. split; [done|]. rewrite Hsent. unfold m. by destruct (job_IsCyclic j).
Qed.

(** ** The Netty client as a client of the router *)

(** The client of Processors with its registry. *)
Record nettyClient (S : Type) := mkNetty {
  nt_client : client S;
  nt_registry : gmap Z (ProcessorFunc S);
}.
Arguments mkNetty {S} _ _.
Arguments nt_client {S} _.
Arguments nt_registry {S} _.

Section Netty.
Context {S : Type} `{!JobScheduler S}.

#[export] Instance netty_client : TransportClient (nettyClient S) (ProcessorFunc S) := {
  tc_IsStarted c := cl_started (nt_client c);
  tc_SendMsg m c :=
    match SendMsg m (nt_client c) with
    | Ret c' err => Ret (mkNetty c' (nt_registry c)) err
    | Panic c' w => Panic (mkNetty c' (nt_registry c)) w
    end;
  tc_RegisterProcessor ty p c := mkNetty (nt_client c) (Register ty p (nt_registry c));
}.

#[export] Program Instance netty_client_laws : TransportClientLaws (nettyClient S) (ProcessorFunc S) := {
  tc_sent c := cl_sent (nt_client c);
  tc_processors := nt_registry;
}.
Next Obligation.
  intros c m Hst. simpl in *. unfold SendMsg, mbind', mget, mmodify. rewrite Hst.
  do 2 eexists. split; [done|]. done.
Qed.
Next Obligation. done. Qed.

End Netty.

Abbreviation ex_S := (Runner (timers WheelTimerTask)) (only parsing).

Definition ex_netty : nettyClient ex_S := mkNetty (mkClient true ∅ [] false "" None) ∅.

Definition ex_routed : Message := mkMessage MessageTypeIssueOneTimeTask REQUEST "2" "j8".

Definition ex_runner : ex_S := mkRunner (NewTimeDispatch 0 (fresh_timers 512 (100 * Millisecond))) ∅.

Lemma router_processors_correct_witness :
  exists c' (fn : ProcessorFunc ex_S) (s' : ex_S),
    RegisterProcessors ex_unmarshal_job ex_ids "go" 0 (Some ex_netty) = Some c' /\
    tc_processors c' !! MessageTypeIssueOneTimeTask = Some fn /\
    fn (Some ex_routed) ex_runner =
      Ret s' (Ok (mkMessage MessageTypeIssueOneTimeTask RESPONSE "go" "one-time job added successfully")) /\
    registry s' = {[8 := ex_job 8 0 false None]}.
Proof.
  destruct (router_processors_correct ex_unmarshal_job ex_ids "go" 0 ex_netty) as (c' & Hc & _ & _ & H).
  destruct (H ex_routed ex_runner) as (fn & s' & H1 & H2 & _ & H3).
  - apply (bool_decide_unpack _). vm_compute. exact I.
  - apply runner_new; [apply fresh_wf|reflexivity|apply ex_room].
  - intros j [= <-]. split; [split; [vm_compute; discriminate|done]|]. intros j' [= <-].
  - exists c', fn, s'. split; [exact Hc|]. split; [exact H1|]. split; [exact H2|]. exact H3.
Defined.

(** A message of the transport's own processors becomes a cyclic job whatever
    its body says; here the body decides. *)
Example router_keeps_cyclic :
  job_IsCyclic <$> routed_job ex_unmarshal_job (mkMessage MessageTypeIssueCyclicTask REQUEST "1" "j7")
    = Some false /\
  job_IsCyclic <$> issued ex_unmarshal_job "" (mkMessage MessageTypeIssueCyclicTask REQUEST "1" "j7")
    = Some true.
Proof. vm_compute. done. Qed.
