(* ===== verification/NettyFrame.v ===== *)
(** * The framing of the Netty transport

    Models [writeMessage], [readMessage] and [readLoop] of
    internal/transport/netty_client.go: a message is marshalled, prefixed with
    its length as a varint, and compressed.  The protobuf codec and gzip are
    parameters; the functions PutUvarint and Uvarint of encoding/binary are
    written out.  Bytes are integers from 0 to 255.

    The reader is that of compress/gzip over the connection.  What it will give
    is a [gz_stream]: the decompressed bytes that can be read, the error that
    ends them, of the connection or of the format, and whether that error comes
    with the last byte, as [io.Reader] allows and as compress/gzip does when the
    connection ends after a member.  The errors of the codec and of the
    connection in [writeMessage], and when the bytes arrive, are not part of the
    model. *)

From Stdlib Require Import Ascii String.
From S2P Require Import Prelude GoStrings.

Open Scope string_scope.
Open Scope list_scope.
Open Scope Z_scope.

(** ** Package encoding/binary *)

Definition MaxVarintLen32 : nat := 5.
Definition MaxVarintLen64 : Z := 10.

(** [binary.PutUvarint] into a buffer with [room] bytes left; [None] is the
    panic of an index out of range. *)
Fixpoint PutUvarint (room : nat) (x : Z) : option (list Z) :=
  match room with
  | O => None
  | S room =>
      if x <? 128 then Some [x]
      else cons (Z.lor (x mod 256) 128) <$> PutUvarint room (Z.shiftr x 7)
  end.

(** [binary.Uvarint]: the value and the number of bytes read, 0 when the buffer
    is too small and negative on overflow. *)
Fixpoint uvarint_loop (i x s : Z) (buf : list Z) : Z * Z :=
  match buf with
  | [] => (0, 0)
  | b :: rest =>
      if i =? MaxVarintLen64 then (0, - (i + 1))
      else if b <? 128 then
        if (i =? MaxVarintLen64 - 1) && (1 <? b) then (0, - (i + 1))
        else (Z.lor x (Z.shiftl b s) mod 2 ^ 64, i + 1)
      else uvarint_loop (i + 1) (Z.lor x (Z.shiftl (Z.land b 127) s) mod 2 ^ 64) (s + 7) rest
  end.

Definition Uvarint (buf : list Z) : Z * Z := uvarint_loop 0 0 0 buf.

(** ** Package compress/gzip, as seen by its reader *)

Record gz_stream := GzStream {
  gz_data : list Z;
  gz_joined : bool;
  gz_err : error;
}.

(** [c.gzipReader]: [nil] until the first read, which creates it (or gives the
    error of a header that cannot be read), and then the reader. *)
Inductive gz_source :=
  | Fresh (r : res gz_stream)
  | Open (r : gz_stream).

Definition gz_left (c : gz_source) : list Z :=
  match c with
  | Fresh (Ok r) | Open r => gz_data r
  | Fresh (Err _) => []
  end.

(** [Read] into a buffer of one byte: the byte (0 if there is none), the error
    and the reader. *)
Definition gz_ReadByte (r : gz_stream) : Z * option error * gz_stream :=
  match gz_data r with
  | [] => (0, Some (gz_err r), r)
  | b :: data =>
      (b, (match data with [] => if gz_joined r then Some (gz_err r) else None | _ => None end),
       GzStream data (gz_joined r) (gz_err r))
  end.

(** [io.ReadFull] into a buffer of [len] bytes: an error that comes with enough
    bytes is dropped, and the end of the data after some of them is
    unexpected. *)
Definition gz_ReadFull (len : Z) (r : gz_stream) : res (list Z) * gz_stream :=
  if len <=? Z.of_nat (length (gz_data r))
  then (Ok (take (Z.to_nat len) (gz_data r)),
        GzStream (drop (Z.to_nat len) (gz_data r)) (gz_joined r) (gz_err r))
  else (Err (match gz_data r with
             | [] => gz_err r
             | _ => if String.eqb (gz_err r) "EOF" then "unexpected EOF" else gz_err r
             end),
        GzStream [] (gz_joined r) (gz_err r)).

(** ** Frames *)

Section Frame.
Context {Msg : Type} (marshal : Msg -> list Z) (unmarshal : list Z -> res Msg).
Context (gzip : list Z -> list Z).

(** The length prefix and the data: the length is converted to [uint32]. *)
Definition inner_message (msg : Msg) : option (list Z) :=
  let data := marshal msg in
  let length := uwrap32 (Z.of_nat (length data)) in
  (fun prefix => prefix ++ data) <$> PutUvarint MaxVarintLen32 length.

(** [writeMessage]: what is written to the connection; [None] is a panic. *)
Definition writeMessage (msg : Msg) : option (list Z) := gzip <$> inner_message msg.

(** The loop of [readMessage] that reads the length prefix byte by byte;
    [lengthBuf] holds the bytes read so far.  A byte that comes with an error is
    not looked at. *)
Fixpoint read_length (fuel : nat) (lengthBuf : list Z) (r : gz_stream) : res Z * gz_stream :=
  match fuel with
  | O => (Err "unreachable", r)
  | S fuel =>
      match gz_ReadByte r with
      | (_, Some e, r) => (Err ("failed to read length prefix: " +:+ e), r)
      | (oneByte, None, r) =>
          let lengthBuf := lengthBuf ++ [oneByte] in
          let '(len, n) := Uvarint lengthBuf in
          if 0 <? n then (Ok len, r)
          else if n <? 0 then (Err "invalid length encoding", r)
          else if (MaxVarintLen32 <=? length lengthBuf)%nat
               then (Err "length prefix too long", r)
               else read_length fuel lengthBuf r
      end
  end.

(** [readMessage]: the message or the error, and the reader as it is left. *)
Definition readMessage (c : gz_source) : res Msg * gz_source :=
  match (match c with Fresh r => r | Open r => Ok r end) with
  | Err e => (Err ("failed to create gzip reader: " +:+ e), c)
  | Ok r =>
      match read_length MaxVarintLen32 [] r with
      | (Err e, r) => (Err e, Open r)
      | (Ok len, r) =>
          match gz_ReadFull len r with
          | (Err e, r) => (Err ("failed to read protobuf data: " +:+ e), Open r)
          | (Ok protobufData, r) =>
              match unmarshal protobufData with
              | Err e => (Err ("failed to unmarshal message: " +:+ e), Open r)
              | Ok msg => (Ok msg, Open r)
              end
          end
      end
  end.

(** [readLoop] on a started client: the messages read before the error that
    ends it. *)
Fixpoint readLoop (fuel : nat) (c : gz_source) : list Msg * error :=
  match fuel with
  | O => ([], "out of fuel")
  | S fuel =>
      match readMessage c with
      | (Err e, _) => ([], e)
      | (Ok msg, c) => let '(msgs, e) := readLoop fuel c in (msg :: msgs, e)
      end
  end.

End Frame.

(** ** Proofs *)

Lemma cont_byte b : 0 <= b < 256 -> Z.lor b 128 = 128 + b mod 128.
Proof.
  intros Hb.
  assert (forallb (fun n => Z.lor (Z.of_nat n) 128 =? 128 + Z.of_nat n mod 128) (seq 0 256) = true)
    as H by (vm_compute; reflexivity).
  rewrite forallb_forall in H. specialize (H (Z.to_nat b)).
  rewrite Z2Nat.id in H by lia. apply Z.eqb_eq, H, List.in_seq. lia.
Qed.

Lemma lor_shiftl a b s : 0 <= s -> 0 <= a < 2 ^ s -> Z.lor a (Z.shiftl b s) = a + b * 2 ^ s.
Proof.
  intros Hs Ha. rewrite <- (Z.shiftl_mul_pow2 b s) by done.
  assert (Z.land a (Z.shiftl b s) = 0) as H.
  { apply Z.bits_inj'. intros n Hn. rewrite Z.land_spec, Z.bits_0.
    destruct (decide (n < s)).
    - rewrite Z.shiftl_spec_low by lia. apply andb_false_r.
    - rewrite <- (Z.mod_small a (2 ^ s)) by lia. by rewrite Z.mod_pow2_bits_high by lia. }
  by rewrite Z.add_nocarry_lxor, Z.lxor_lor.
Qed.

Lemma PutUvarint_range room : forall x bs,
  0 <= x -> PutUvarint room x = Some bs ->
  (1 <= length bs <= room)%nat /\ Forall (fun b => 0 <= b < 256) bs.
Proof.
  induction room as [|room IH]; intros x bs Hx H; simpl in H; [done|].
  destruct (x <? 128) eqn:E; bool_to_prop.
  - simplify_eq. simpl. split; [lia|]. repeat constructor; lia.
  - destruct (PutUvarint room (Z.shiftr x 7)) as [bs'|] eqn:E2; simplify_eq/=.
    destruct (IH _ _ (proj2 (Z.shiftr_nonneg x 7) Hx) E2) as [Hl Hf]. split; [lia|].
    constructor; [|done]. rewrite cont_byte; pose proof (Z.mod_pos_bound x 256);
      pose proof (Z.mod_pos_bound (x mod 256) 128); lia.
Qed.

(** The decoder on a byte with and without continuation. *)
Lemma pow7_succ i : 0 <= i -> 2 ^ (7 * (i + 1)) = 128 * 2 ^ (7 * i).
Proof. intros Hi. replace (7 * (i + 1)) with (7 + 7 * i) by lia. by rewrite Z.pow_add_r by lia. Qed.

Lemma uvarint_last x i acc rest :
  0 <= i <= 8 -> 0 <= x < 128 -> 0 <= acc < 2 ^ (7 * i) ->
  uvarint_loop i acc (7 * i) (x :: rest) = (acc + x * 2 ^ (7 * i), i + 1).
Proof.
  intros Hi Hx Hacc. pose proof (pow7_succ i) as Hp.
  assert (2 ^ (7 * (i + 1)) <= 2 ^ 63) as Hp63 by (apply Z.pow_le_mono_r; lia).
  cbn [uvarint_loop]. unfold MaxVarintLen64.
  rewrite (proj2 (Z.eqb_neq i 10)), (proj2 (Z.ltb_lt x 128)), (proj2 (Z.eqb_neq i (10 - 1))) by lia.
  cbn [andb]. by rewrite lor_shiftl, Z.mod_small by nia.
Qed.

Lemma uvarint_cont x i acc rest :
  0 <= i <= 8 -> 0 <= x < 128 -> 0 <= acc < 2 ^ (7 * i) ->
  uvarint_loop i acc (7 * i) ((128 + x) :: rest) =
    uvarint_loop (i + 1) (acc + x * 2 ^ (7 * i)) (7 * (i + 1)) rest.
Proof.
  intros Hi Hx Hacc. pose proof (pow7_succ i) as Hp.
  assert (2 ^ (7 * (i + 1)) <= 2 ^ 63) as Hp63 by (apply Z.pow_le_mono_r; lia).
  cbn [uvarint_loop]. unfold MaxVarintLen64.
  rewrite (proj2 (Z.eqb_neq i 10)), (proj2 (Z.ltb_ge (128 + x) 128)) by lia.
  change 127 with (Z.ones 7). rewrite Z.land_ones by lia. change (2 ^ 7) with 128.
  assert ((128 + x) mod 128 = x) as ->.
  { symmetry. apply (Z.mod_unique_pos _ _ 1); lia. }
  rewrite lor_shiftl, Z.mod_small by nia. f_equal. lia.
Qed.

(** The decoder on the bytes of the encoder, and on a proper prefix of them. *)
Lemma uvarint_put room : forall x i acc,
  0 <= i -> 0 <= x < 2 ^ (7 * Z.of_nat (S room)) -> i + Z.of_nat (S room) <= 9 ->
  0 <= acc < 2 ^ (7 * i) ->
  exists bs, PutUvarint (S room) x = Some bs /\
    (forall rest, uvarint_loop i acc (7 * i) (bs ++ rest) =
       (acc + x * 2 ^ (7 * i), i + Z.of_nat (length bs))) /\
    (forall k, (k < length bs)%nat -> uvarint_loop i acc (7 * i) (take k bs) = (0, 0)).
Proof.
  induction room as [|room IH]; intros x i acc Hi Hx Hr Hacc;
    cbn [PutUvarint]; (destruct (x <? 128) eqn:E; bool_to_prop;
    [ exists [x]; split; [done|split]; [intros rest; cbn [app]; by rewrite uvarint_last by lia|];
      intros k Hk; simpl in Hk; by replace k with 0%nat by lia | ]).
  { change (2 ^ (7 * Z.of_nat 1)) with 128 in Hx. lia. }
  rewrite Z.shiftr_div_pow2 by lia. change (2 ^ 7) with 128.
  pose proof (Z.mod_pos_bound x 128 ltac:(lia)) as Hm. pose proof (Z.div_mod x 128 ltac:(lia)) as Hd.
  pose proof (pow7_succ i Hi) as Hp.
  assert (0 < 2 ^ (7 * i)) as Hp0 by (apply Z.pow_pos_nonneg; lia).
  assert (Z.lor (x mod 256) 128 = 128 + x mod 128) as Hc.
  { rewrite cont_byte by (apply Z.mod_pos_bound; lia). f_equal.
    rewrite <- (Z.mod_mod_divide x 256 128); [done|by exists 2]. }
  destruct (IH (x / 128) (i + 1) (acc + (x mod 128) * 2 ^ (7 * i))) as (bs & Hput & Hdec & Hpre);
    [lia| |lia|nia|].
  { split; [apply Z.div_pos; lia|]. apply Z.div_lt_upper_bound; [lia|].
    replace (7 * Z.of_nat (S (S room))) with (7 + 7 * Z.of_nat (S room)) in Hx by lia.
    rewrite Z.pow_add_r in Hx by lia. change (2 ^ 7) with 128 in Hx. lia. }
  cbn [PutUvarint] in Hput. rewrite Hput, Hc. exists ((128 + x mod 128) :: bs). split; [done|]. split.
  - intros rest. cbn [app]. rewrite uvarint_cont, Hdec by lia. cbn [length]. f_equal; [|lia]. nia.
  - intros k Hk. destruct k as [|k]; [done|]. cbn [take]. rewrite uvarint_cont by lia. apply Hpre.
    cbn [length] in Hk. lia.
Qed.

(** A byte that does not come with the end. *)
Lemma gz_ReadByte_cons b data joined err :
  data <> [] \/ joined = false ->
  gz_ReadByte (GzStream (b :: data) joined err) = (b, None, GzStream data joined err).
Proof. unfold gz_ReadByte. by destruct data; intros [?| ->]. Qed.

(** A prefix that the encoder wrote is read back, if the end does not come with
    its last byte. *)
Lemma read_prefix x bs rest joined err :
  Uvarint bs = (x, Z.of_nat (length bs)) ->
  (forall k, (k < length bs)%nat -> Uvarint (take k bs) = (0, 0)) ->
  (length bs <= MaxVarintLen32)%nat -> rest <> [] \/ joined = false ->
  forall l buf fuel, bs = buf ++ l -> l <> [] -> (fuel + length buf)%nat = MaxVarintLen32 ->
  read_length fuel buf (GzStream (l ++ rest) joined err) = (Ok x, GzStream rest joined err).
Proof.
  intros Hfull Hpre Hlen Hrest l. induction l as [|b l IH]; intros buf fuel Hbs Hne Hfuel; [done|].
  assert (length bs = length buf + S (length l))%nat as Hl by (by rewrite Hbs, length_app).
  destruct fuel as [|fuel]; [lia|]. cbn [app read_length].
  rewrite gz_ReadByte_cons by (destruct l; simpl; [tauto|by left]).
  destruct (decide (l = [])) as [->|Hl0].
  - rewrite <- Hbs, Hfull. rewrite (proj2 (Z.ltb_lt 0 _)) by lia. done.
  - assert (0 < length l)%nat by (destruct l; simpl; [done|lia]).
    assert (buf ++ [b] = take (S (length buf)) bs) as Ht.
    { rewrite Hbs. change (b :: l) with ([b] ++ l). rewrite app_assoc. symmetry.
      apply take_app_length'. rewrite length_app. simpl. lia. }
    rewrite Ht, Hpre by lia. cbn [Z.ltb Z.compare]. rewrite <- Ht.
    assert ((MaxVarintLen32 <=? length (buf ++ [b]))%nat = false) as ->.
    { apply Nat.leb_gt. rewrite length_app. simpl. lia. }
    apply IH; [by rewrite <- app_assoc|done|]. rewrite length_app. simpl. lia.
Qed.

(** The encoding of 0 is one byte: if the end comes with it, it is lost. *)
Lemma put_zero_lost err :
  PutUvarint MaxVarintLen32 0 = Some [0] /\
  read_length MaxVarintLen32 [] (GzStream [0] true err) =
    (Err ("failed to read length prefix: " +:+ err), GzStream [] true err).
Proof. done. Qed.

Lemma put_read x :
  0 <= x < 2 ^ 32 ->
  exists bs, PutUvarint MaxVarintLen32 x = Some bs /\ bs <> [] /\
    forall rest joined err, rest <> [] \/ joined = false ->
      read_length MaxVarintLen32 [] (GzStream (bs ++ rest) joined err) =
        (Ok x, GzStream rest joined err).
Proof.
  intros Hx. destruct (uvarint_put 4 x 0 0) as (bs & Hput & Hdec & Hpre); [lia| |lia|by rewrite Z.mul_0_r|].
  { change (7 * Z.of_nat 5) with 35. assert (2 ^ 32 < 2 ^ 35) by (vm_compute; done). lia. }
  change (7 * 0) with 0 in *. rewrite Z.pow_0_r in *.
  pose proof (PutUvarint_range 5 x bs ltac:(lia) Hput) as [Hl _].
  assert (bs <> []) as Hne by (intros ->; cbn [length] in Hl; lia).
  exists bs. split; [done|]. split; [done|]. intros rest joined err Hrest.
  eapply (read_prefix x bs rest); [| |unfold MaxVarintLen32; lia|done..].
  - unfold Uvarint. specialize (Hdec []). rewrite app_nil_r in Hdec. rewrite Hdec. f_equal; lia.
  - exact Hpre.
Qed.

(** The varint of a 32-bit length takes one to five bytes,
    never overruns its buffer, and is decoded to the same length by a decoder
    that sees only the bytes read so far. *)
Theorem PutUvarint_roundtrip x rest joined err :
  0 <= x < 2 ^ 32 -> rest <> [] \/ joined = false ->
  exists bs, PutUvarint MaxVarintLen32 x = Some bs /\
    (1 <= length bs <= MaxVarintLen32)%nat /\ Forall (fun b => 0 <= b < 256) bs /\
    Uvarint bs = (x, Z.of_nat (length bs)) /\
    read_length MaxVarintLen32 [] (GzStream (bs ++ rest) joined err) =
      (Ok x, GzStream rest joined err).
Proof.
  intros Hx Hrest. destruct (put_read x Hx) as (bs & Hput & _ & Hread).
  destruct (PutUvarint_range _ x bs ltac:(lia) Hput) as [Hl Hf].
  exists bs. split_and!; [done|lia|lia|done| |by apply Hread].
  destruct (uvarint_put 4 x 0 0) as (bs' & Hput' & Hdec & _); [lia| |lia|by rewrite Z.mul_0_r|].
  { change (7 * Z.of_nat 5) with 35. assert (2 ^ 32 < 2 ^ 35) by (vm_compute; done). lia. }
  change (7 * 0) with 0 in *. rewrite Z.pow_0_r in *. unfold MaxVarintLen32 in Hput.
  rewrite Hput in Hput'. simplify_eq.
  unfold Uvarint. specialize (Hdec []). rewrite app_nil_r in Hdec. rewrite Hdec. f_equal; lia.
Qed.

Lemma PutUvarint_roundtrip_witness :
  exists bs, PutUvarint MaxVarintLen32 300 = Some bs /\
    (1 <= length bs <= MaxVarintLen32)%nat /\ Forall (fun b => 0 <= b < 256) bs /\
    Uvarint bs = (300, Z.of_nat (length bs)) /\
    read_length MaxVarintLen32 [] (GzStream (bs ++ [7]) true "EOF") = (Ok 300, GzStream [7] true "EOF").
Proof. apply PutUvarint_roundtrip; [lia|by left]. Defined.

Section Stream.
Context {Msg : Type} (marshal : Msg -> list Z) (unmarshal : list Z -> res Msg).

(** A message that the codec restores, and whose size fits its length field. *)
Definition sendable (m : Msg) : Prop :=
  unmarshal (marshal m) = Ok m /\ Z.of_nat (length (marshal m)) < 2 ^ 32.

Lemma inner_of m : sendable m ->
  exists bs, inner_message marshal m = Some (bs ++ marshal m) /\ bs <> [] /\
    PutUvarint MaxVarintLen32 (Z.of_nat (length (marshal m))) = Some bs /\
    forall rest joined err, marshal m ++ rest <> [] \/ joined = false ->
      readMessage unmarshal (Open (GzStream (bs ++ marshal m ++ rest) joined err)) =
        (Ok m, Open (GzStream rest joined err)).
Proof.
  intros [Hc Hlen]. unfold inner_message, uwrap32. rewrite Z.mod_small by lia.
  destruct (put_read (Z.of_nat (length (marshal m)))) as (bs & Hput & Hne & Hread); [lia|].
  rewrite Hput. exists bs. split_and!; [done..|]. intros rest joined err Hrest.
  unfold readMessage. rewrite Hread by done. unfold gz_ReadFull. cbn [gz_data gz_joined gz_err].
  rewrite (proj2 (Z.leb_le _ _)) by (rewrite length_app; lia).
  by rewrite Nat2Z.id, take_app_length, drop_app_length, Hc.
Qed.

Lemma last_lost bs m err :
  PutUvarint MaxVarintLen32 (Z.of_nat (length (marshal m))) = Some bs -> marshal m = [] ->
  readMessage unmarshal (Open (GzStream (bs ++ marshal m ++ []) true err)) =
    (Err ("failed to read length prefix: " +:+ err), Open (GzStream [] true err)).
Proof.
  intros Hput E. rewrite E in *. destruct (put_zero_lost err) as [H0 Hr].
  change (PutUvarint MaxVarintLen32 0 = Some bs) in Hput. rewrite H0 in Hput. injection Hput as <-.
  unfold readMessage. change ([0] ++ [] ++ []) with [0]. by rewrite Hr.
Qed.

(** The messages that the reader delivers of those written: all of them, except
    that the last one is lost when its encoding is empty and the end of the
    stream comes with its only byte. *)
Definition delivered (joined : bool) (msgs : list Msg) : list Msg :=
  match last msgs with
  | Some m => if joined && bool_decide (marshal m = []) then removelast msgs else msgs
  | None => []
  end.

Lemma delivered_cons joined m m' msgs :
  delivered joined (m :: m' :: msgs) = m :: delivered joined (m' :: msgs).
Proof.
  unfold delivered. change (last (m :: m' :: msgs)) with (last (m' :: msgs)).
  destruct (last (m' :: msgs)) eqn:E; [|by apply last_None in E]. by destruct (joined && _).
Qed.

Lemma mapM_write (gzip : list Z -> list Z) msgs :
  mapM (writeMessage marshal gzip) msgs = fmap gzip <$> mapM (inner_message marshal) msgs.
Proof.
  induction msgs as [|m msgs IH]; [done|]. cbn [mapM]. rewrite IH. unfold writeMessage at 1.
  destruct (inner_message marshal m); [|done]. cbn. by destruct (mapM (inner_message marshal) msgs).
Qed.

Lemma mapM_inner msgs : Forall sendable msgs ->
  exists ds, mapM (inner_message marshal) msgs = Some ds /\ (msgs <> [] -> mjoin ds <> []) /\
    forall joined, msgs <> [] ->
      readLoop unmarshal (S (length msgs)) (Open (GzStream (mjoin ds) joined "EOF")) =
        (delivered joined msgs, "failed to read length prefix: EOF").
Proof.
  induction 1 as [|m msgs Hm Hms IH]; [by exists []|].
  destruct IH as (ds & Hds & Hne & Hr).
  destruct (inner_of m Hm) as (bs & Hi & Hbs & Hput & Hrd).
  exists ((bs ++ marshal m) :: ds). split; [simpl; rewrite Hi; simpl; by rewrite Hds|].
  split; [intros _ H; by apply app_eq_nil in H as [[? _]%app_eq_nil _]|]. intros joined _.
  change (mjoin ((bs ++ marshal m) :: ds)) with ((bs ++ marshal m) ++ mjoin ds).
  rewrite <- app_assoc. cbn [length]. remember (S (length msgs)) as n eqn:En. cbn [readLoop].
  destruct msgs as [|m' msgs].
  - cbn in Hds. injection Hds as <-. cbn [length] in En. subst n. change (mjoin []) with (@nil Z).
    destruct (decide (joined = true /\ marshal m = [])) as [[-> E]|E].
    + rewrite (last_lost bs m _ Hput E). cbv [delivered last].
      by rewrite (bool_decide_eq_true_2 _ E).
    + rewrite Hrd by (rewrite app_nil_r; destruct joined; [left; by intros ?; apply E|by right]).
      destruct joined; cbv [delivered last andb]; [|done].
      by rewrite bool_decide_eq_false_2 by (intros ?; by apply E).
  - rewrite Hrd; [rewrite Hr, delivered_cons by done; done|].
    left. intros [_ H]%app_eq_nil. by apply Hne.
Qed.

End Stream.

(** C15 (roundtrip). Whatever messages are written, one after another, no write
    panics, and when the connection has ended the reader has delivered exactly
    these messages, in order, and ended with the read error of the end; except
    that it loses the last message when its encoding is empty and the end of the
    stream comes with its last byte.  Assumed of the libraries: the codec
    restores the messages, and the gzip reader of consecutive gzip members gives
    their contents one after another and then the end of file, with the last
    byte or after it ([joined]), and cannot be created over no data. *)
Theorem stream_roundtrip {Msg} (marshal : Msg -> list Z) unmarshal gzip
    (gunzip : list Z -> res gz_stream) (joined : list (list Z) -> bool) (msgs : list Msg) :
  (forall ds, ds <> [] ->
     gunzip (mjoin (gzip <$> ds)) = Ok (GzStream (mjoin ds) (joined ds) "EOF")) ->
  gunzip [] = Err "EOF" ->
  Forall (sendable marshal unmarshal) msgs ->
  exists ds frames, mapM (inner_message marshal) msgs = Some ds /\
    mapM (writeMessage marshal gzip) msgs = Some frames /\
    readLoop unmarshal (S (length msgs)) (Fresh (gunzip (mjoin frames))) =
      (delivered marshal (joined ds) msgs,
       match msgs with
       | [] => "failed to create gzip reader: EOF"
       | _ => "failed to read length prefix: EOF"
       end).
Proof.
  intros Hz Hz0 Hm. destruct (mapM_inner marshal unmarshal msgs Hm) as (ds & Hds & Hne & Hr).
  exists ds, (gzip <$> ds). split; [done|]. split.
  - by rewrite mapM_write, Hds.
  - destruct msgs as [|m msgs].
    + cbn in Hds. injection Hds as <-. change (mjoin (gzip <$> [])) with (@nil Z).
      cbn [length readLoop]. unfold readMessage. by rewrite Hz0.
    + rewrite Hz by (intros ->; by apply Hne). specialize (Hr (joined ds) ltac:(done)).
      cbn [length] in *. cbn [readLoop] in Hr |- *. exact Hr.
Qed.

(** A codec for messages that are lists of bytes, and a container with a
    two-byte header and a length, whose reader gives the end with the last
    byte. *)
Definition ex_gzip (d : list Z) : list Z := 31 :: 139 :: Z.of_nat (length d) :: d.

Fixpoint ex_gunzip_loop (fuel : nat) (l : list Z) : list Z :=
  match fuel, l with
  | S fuel, 31 :: 139 :: n :: l =>
      take (Z.to_nat n) l ++ ex_gunzip_loop fuel (drop (Z.to_nat n) l)
  | _, _ => []
  end.

Definition ex_gunzip (l : list Z) : res gz_stream :=
  match l with
  | [] => Err "EOF"
  | _ => Ok (GzStream (ex_gunzip_loop (length l) l) true "EOF")
  end.

Lemma ex_gunzip_all ds fuel :
  (length (mjoin (ex_gzip <$> ds)) <= fuel)%nat -> ex_gunzip_loop fuel (mjoin (ex_gzip <$> ds)) = mjoin ds.
Proof.
  revert fuel. induction ds as [|d ds IH]; intros fuel Hf; [by destruct fuel|].
  change (mjoin (ex_gzip <$> d :: ds)) with (ex_gzip d ++ mjoin (ex_gzip <$> ds)) in *.
  change (mjoin (d :: ds)) with (d ++ mjoin ds). unfold ex_gzip at 1. cbn [app].
  rewrite length_app in Hf. unfold ex_gzip at 1 in Hf. cbn [length] in Hf.
  destruct fuel as [|fuel]; [lia|]. cbn [ex_gunzip_loop].
  rewrite Nat2Z.id, take_app_length, drop_app_length. f_equal. apply IH. lia.
Qed.

(** The last message of this run, with its empty encoding, is lost. *)
Lemma stream_roundtrip_witness :
  let msgs := [[1; 2; 3]; []; [200]; []] in
  exists ds frames, mapM (inner_message (fun m => m)) msgs = Some ds /\
    mapM (writeMessage (fun m => m) ex_gzip) msgs = Some frames /\
    readLoop (fun d => Ok d) 5 (Fresh (ex_gunzip (mjoin frames))) =
      ([[1; 2; 3]; []; [200]], "failed to read length prefix: EOF").
Proof.
  intros msgs.
  apply (stream_roundtrip (fun m => m) (fun d => Ok d) ex_gzip ex_gunzip (fun _ => true) msgs);
    [|done|by repeat constructor].
  intros [|d ds] Hne; [done|].
  unfold ex_gunzip. rewrite ex_gunzip_all by done. done.
Defined.

(** *** Errors *)

Lemma uvarint_short l : forall i acc,
  0 <= i -> Forall (fun b => 0 <= b < 256) l -> i + Z.of_nat (length l) <= 5 ->
  0 <= acc < 2 ^ (7 * i) ->
  0 <= snd (uvarint_loop i acc (7 * i) l) <= 5 /\
  0 <= fst (uvarint_loop i acc (7 * i) l) < 2 ^ 35.
Proof.
  induction l as [|b l IH]; intros i acc Hi Hf Hl Hacc; [simpl; lia|].
  apply Forall_cons in Hf as [Hb Hf]. cbn [length] in Hl.
  pose proof (pow7_succ i Hi) as Hp.
  assert (2 ^ (7 * (i + 1)) <= 2 ^ 35) as Hp35 by (apply Z.pow_le_mono_r; lia).
  destruct (decide (b < 128)).
  - rewrite uvarint_last by lia. simpl. nia.
  - replace b with (128 + (b - 128)) by lia. rewrite uvarint_cont by lia.
    apply IH; [lia|done|lia|nia].
Qed.

(** The bytes that a reader will give. *)
Definition bytes_ok (c : gz_source) : Prop := Forall (fun b => 0 <= b < 256) (gz_left c).

Lemma read_length_total fuel : forall buf r,
  Forall (fun b => 0 <= b < 256) (buf ++ gz_data r) -> (fuel + length buf)%nat = MaxVarintLen32 ->
  (0 < fuel)%nat ->
  match read_length fuel buf r with
  | (Ok len, r') => 0 <= len < 2 ^ 35 /\ (length (gz_data r') < length (gz_data r))%nat /\
                    Forall (fun b => 0 <= b < 256) (gz_data r') /\ gz_err r' = gz_err r
  | (Err e, _) => e = "failed to read length prefix: " +:+ gz_err r \/ e = "length prefix too long"
  end.
Proof.
  induction fuel as [|fuel IH]; intros buf [data joined err] Hf Hfuel Hpos; [lia|].
  destruct data as [|b data]; [by left|]. cbn [read_length gz_ReadByte gz_data gz_joined gz_err] in *.
  destruct (match data with [] => _ | _ => _ end) as [e|] eqn:Ej.
  { left. destruct data, joined; by simplify_eq. }
  clear Ej.
  assert (Forall (fun b => 0 <= b < 256) (buf ++ [b])) as Hfb.
  { rewrite (cons_middle b buf data), app_assoc in Hf. by apply Forall_app in Hf as [? _]. }
  destruct (uvarint_short (buf ++ [b]) 0 0) as [Hn Hv]; [lia|done| |by rewrite Z.mul_0_r|].
  { unfold MaxVarintLen32 in Hfuel. rewrite length_app. cbn [length]. lia. }
  change (7 * 0) with 0 in *. fold (Uvarint (buf ++ [b])) in Hn, Hv.
  destruct (Uvarint (buf ++ [b])) as [len n]. cbn [fst snd] in Hn, Hv.
  destruct (0 <? n).
  { cbn [gz_data gz_err]. split_and!; [lia|lia|simpl; lia| |done].
    by apply Forall_app in Hf as [_ [_ Hf]%Forall_cons]. }
  rewrite (proj2 (Z.ltb_ge n 0)) by lia.
  destruct (MaxVarintLen32 <=? length (buf ++ [b]))%nat eqn:E; [by right|].
  apply Nat.leb_gt in E. rewrite length_app in E. cbn [length] in E.
  specialize (IH (buf ++ [b]) (GzStream data joined err)). cbn [gz_data gz_err] in IH.
  rewrite <- app_assoc, length_app in IH. cbn [length app] in IH.
  specialize (IH Hf ltac:(lia) ltac:(unfold MaxVarintLen32 in *; lia)).
  destruct (read_length fuel (buf ++ [b]) _) as [[len'|e] r']; [|done].
  destruct IH as (? & ? & ? & ?). split_and!; [lia|lia|simpl; lia|done..].
Qed.

(** The errors of [readMessage] on a reader. *)
Definition read_errors {Msg} (unmarshal : list Z -> res Msg) (c : gz_source) (e : error) : Prop :=
  match c with
  | Fresh (Err e') => e = "failed to create gzip reader: " +:+ e'
  | Fresh (Ok r) | Open r =>
      e = "failed to read length prefix: " +:+ gz_err r \/
      e = "length prefix too long" \/
      e = "failed to read protobuf data: " +:+ gz_err r \/
      e = "failed to read protobuf data: unexpected EOF" /\ gz_err r = "EOF" \/
      exists bytes e', unmarshal bytes = Err e' /\ e = "failed to unmarshal message: " +:+ e'
  end.

Lemma readMessage_cases {Msg} (unmarshal : list Z -> res Msg) c :
  bytes_ok c ->
  match readMessage unmarshal c with
  | (Ok _, c') => (length (gz_left c') < length (gz_left c))%nat /\ bytes_ok c'
  | (Err e, _) => read_errors unmarshal c e
  end.
Proof.
  intros Hf.
  assert (forall r, Forall (fun b => 0 <= b < 256) (gz_data r) ->
    match readMessage unmarshal (Open r) with
    | (Ok _, c') => (length (gz_left c') < length (gz_data r))%nat /\ bytes_ok c'
    | (Err e, _) => read_errors unmarshal (Open r) e
    end) as H; [|destruct c as [[r|e]|r]; [exact (H r Hf)|done|exact (H r Hf)]].
  clear c Hf. intros r Hf. unfold readMessage.
  pose proof (read_length_total MaxVarintLen32 [] r Hf eq_refl ltac:(unfold MaxVarintLen32; lia)) as H.
  destruct (read_length _ _ r) as [[len|e] r']; [|cbn [read_errors]; tauto].
  destruct H as (Hlen & Hrest & Hfr & Hee). unfold gz_ReadFull.
  destruct (_ <=? _) eqn:El.
  - destruct (unmarshal _) as [m|e] eqn:E; [|cbn [read_errors]; do 4 right; by eexists _, _].
    cbn [gz_left gz_data]. rewrite length_drop. split; [lia|]. by apply Forall_drop.
  - cbn [read_errors]. rewrite Hee. destruct (gz_data r'); [tauto|].
    destruct (String.eqb_spec (gz_err r) "EOF") as [->|_]; tauto.
Qed.

Lemma read_errors_fuel {Msg} (unmarshal : list Z -> res Msg) c e :
  read_errors unmarshal c e -> e <> "out of fuel".
Proof.
  destruct c as [[r|e']|r]; cbn [read_errors]; try (intros ->; done);
    by intros [->|[->|[->|[[-> _]|(? & ? & _ & ->)]]]].
Qed.

Lemma readLoop_ends {Msg} (unmarshal : list Z -> res Msg) fuel : forall c,
  bytes_ok c -> (length (gz_left c) < fuel)%nat ->
  snd (readLoop unmarshal fuel c) <> "out of fuel".
Proof.
  induction fuel as [|fuel IH]; intros c Hf Hlt; [lia|]. cbn [readLoop].
  pose proof (readMessage_cases unmarshal c Hf) as H.
  destruct (readMessage unmarshal c) as [[m|e] c'].
  - destruct H as [Hl Hfr]. specialize (IH c' Hfr ltac:(lia)).
    by destruct (readLoop unmarshal fuel c').
  - simpl. by eapply read_errors_fuel.
Qed.

(** C39 (termination). Whatever bytes a connection gives before it ends, and
    whatever error of the connection or of the compression ends them, reading a
    message ends: it gives a message and leaves less data; or one of six errors,
    which say whether the reader could not be created, the length or the data
    could not be read (with the error of the stream, or an end of file in the
    middle of the data), the length is longer than five bytes, or the codec
    refused the data.  The error for an invalid encoding of the length never
    occurs.  The loop that reads messages therefore ends on every stream, within
    one round more than it has bytes. *)
Theorem readMessage_total {Msg} (unmarshal : list Z -> res Msg) c :
  bytes_ok c ->
  match readMessage unmarshal c with
  | (Ok _, c') => (length (gz_left c') < length (gz_left c))%nat
  | (Err e, _) => read_errors unmarshal c e
  end /\
  snd (readLoop unmarshal (S (length (gz_left c))) c) <> "out of fuel".
Proof.
  intros Hf. split; [|apply readLoop_ends; [done|lia]].
  pose proof (readMessage_cases unmarshal c Hf) as H.
  destruct (readMessage unmarshal c) as [[m|e] c']; [|done]. apply H.
Qed.

Lemma readMessage_total_witness :
  let c := Fresh (Ok (GzStream [3; 1; 2] true "connection reset by peer")) in
  match readMessage (fun d : list Z => Ok d) c with
  | (Ok _, c') => (length (gz_left c') < length (gz_left c))%nat
  | (Err e, _) => read_errors (fun d : list Z => Ok d) c e
  end /\
  snd (readLoop (fun d => Ok d) (S (length (gz_left c))) c) <> "out of fuel".
Proof. intros c. apply readMessage_total. by repeat constructor. Defined.
