(* ===== verification/Router.v ===== *)
(** * Sending the results

    Models internal/job/collect/result_handler.go and lazy_message_router.go:
    a result becomes an Arrow record batch, which is sent to the manager through
    the client of the transport, of either kind.  The writer of the Arrow
    stream format is a parameter; a record batch is the data it is given.  The
    state is the client that the transport runner returns, which may be nil. *)

From Stdlib Require Import Ascii String.
From S2P Require Import Prelude GoStrings WheelTimer TimerService JobTypes Crypto Params TimeDispatch Scheduler JobServer Processors Calc Collect.

Open Scope string_scope.
Open Scope list_scope.
Open Scope Z_scope.
Open Scope go_scope.

Definition MessageTypeResponseOneTimeTaskData : Z := 7.
Definition MessageTypeResponseCyclicTaskData : Z := 8.

(** ** Record batches *)

Record arrow_field := mkArrowField { af_name : string; af_metadata : gmap string string }.

(** All columns are nullable strings. *)
Record arrow_record := mkArrowRecord {
  ar_fields : list arrow_field;
  ar_metadata : gmap string string;
  ar_columns : list (list string);
  ar_rows : nat;
}.

Definition arrow_field_of (f : Field) : arrow_field :=
  mkArrowField (f_Field f)
    {["type" := Itoa (f_Type f); "label" := fmt_bool (f_Label f); "unit" := f_Unit f]}.

Definition schema_metadata (data : CollectRepMetricsData) : gmap string string :=
  {["id" := Itoa (rep_ID data); "tenantId" := Itoa (rep_TenantID data); "app" := rep_App data;
    "metrics" := rep_Metrics data; "priority" := Itoa (rep_Priority data);
    "time" := Itoa (rep_Time data); "labels" := ""; "annotations" := ""]}.

(** One row is appended to the builders of the columns: a missing column is
    empty. *)
Definition append_row (builders : list (list string)) (row : list string) : list (list string) :=
  imap (fun i builder => builder ++ [default "" (row !! i)]) builders.

(** [createArrowRecordBatch]: without values there is one row of empty
    strings. *)
Definition createArrowRecordBatch (data : CollectRepMetricsData) : arrow_record :=
  let builders := (fun _ => []) <$> rep_Fields data in
  let rows := match rep_Values data with [] => [[]] | values => vr_Columns <$> values end in
  mkArrowRecord (arrow_field_of <$> rep_Fields data) (schema_metadata data)
    (foldl append_row builders rows) (length rows).

(** A 32-bit integer in big-endian order. *)
Definition byte_char (z : Z) : ascii := ascii_of_N (Z.to_N (z mod 256)).

Definition be32 (n : Z) : string :=
  String (byte_char (Z.shiftr n 24)) (String (byte_char (Z.shiftr n 16))
    (String (byte_char (Z.shiftr n 8)) (String (byte_char n) ""))).

(** What the writer of an Arrow stream does with one record batch: [Write] may
    fail, then [Close] may. *)
Inductive ipc_outcome : Type :=
| IpcStream (bytes : string)
| IpcWriteFailed (e : error)
| IpcCloseFailed (e : error).

Section Router.
Context {S : Type} `{!JobScheduler S}.
Context (ipc_write : arrow_record -> ipc_outcome).

(** The loop of [serializeToArrow], from index [i]. *)
Fixpoint write_streams (i : Z) (dataList : list CollectRepMetricsData) : res string :=
  match dataList with
  | [] => Ok ""
  | data :: rest =>
      match ipc_write (createArrowRecordBatch data) with
      | IpcWriteFailed e => Err ("failed to write record batch " +:+ Itoa i +:+ ": " +:+ e)
      | IpcCloseFailed e => Err ("failed to close writer for batch " +:+ Itoa i +:+ ": " +:+ e)
      | IpcStream stream =>
          match write_streams (i + 1) rest with
          | Err e => Err e
          | Ok streams => Ok (stream +:+ streams)
          end
      end
  end.

(** [serializeToArrow]: the number of streams and the streams. *)
Definition serializeToArrow (dataList : list CollectRepMetricsData) : res string :=
  match write_streams 0 dataList with
  | Err e => Err e
  | Ok streams => Ok (be32 (Z.of_nat (length dataList)) +:+ streams)
  end.

(** [NewLazyMessageRouter]: the identity it keeps. *)
Definition router_identity (identity : string) : string :=
  if String.eqb identity "" then "collector-go" else identity.

Definition result_message (identity : string) (j : Job) (dataBytes : string) : Message :=
  mkMessage (if job_IsCyclic j then MessageTypeResponseCyclicTaskData
             else MessageTypeResponseOneTimeTaskData)
    RESPONSE identity dataBytes.

(** The kind of the client. *)
Context (k : clientKind).

(** [sendResultDirectly]. *)
Definition sendResultDirectly (identity : string) (data : CollectRepMetricsData) (j : Job)
    : M (client S) (option error) :=
  match serializeToArrow [data] with
  | Err e => mret (Some ("failed to create arrow format: " +:+ e))
  | Ok dataBytes =>
      err <-! send_message k (result_message identity j dataBytes) ;
      mret (match err with
            | Some e => Some ("failed to send metrics data: " +:+ e)
            | None => None
            end)
  end.

(** A call of a client that is not nil. *)
Definition on_client {A} (c : client S) (m : M (client S) A) : M (option (client S)) A :=
  fun _ => match m c with
           | Ret c' a => Ret (Some c') a
           | Panic c' w => Panic (Some c') w
           end.

(** [LazyMessageRouter.SendResult]. *)
Definition SendResult (identity : string) (data : CollectRepMetricsData) (j : Job)
    : M (option (client S)) (option error) :=
  s <-! mget ;
  match s with
  | None => mret (Some "transport client not ready")
  | Some c =>
      if negb (cl_started c) then mret (Some "transport client not ready")
      else on_client c (sendResultDirectly identity data j)
  end.

(** [ResultHandlerImpl.HandleCollectData]; [has_router] tells whether the
    router is not nil. *)
Definition HandleCollectData (has_router : bool) (identity : string)
    (data : option CollectRepMetricsData) (j : Job) : M (option (client S)) (option error) :=
  match data with
  | None => mret (Some "collect data is nil")
  | Some data =>
      if has_router then
        err <-! SendResult identity data j ;
        mret (match err with
              | Some e => Some ("failed to send result to Manager: " +:+ e)
              | None => None
              end)
      else mret (Some "messageRouter is nil")
  end.

End Router.

(** ** Proofs *)

(** *** The record batch *)

(** A row as the manager sees it: cut or filled up to the number of fields. *)
Definition pad (n : nat) (row : list string) : list string :=
  (fun i => default "" (row !! i)) <$> seq 0 n.

Definition shown_rows (d : CollectRepMetricsData) : list (list string) :=
  pad (length (rep_Fields d)) <$> match rep_Values d with [] => [[]] | vs => vr_Columns <$> vs end.

(** The rows that a reader of a batch gets. *)
Definition read_rows (r : arrow_record) : list (list string) :=
  (fun k => (fun col => col !!! k) <$> ar_columns r) <$> seq 0 (ar_rows r).

Lemma append_rows rows : forall builders,
  foldl append_row builders rows =
  imap (fun i b => b ++ ((fun row => default "" (row !! i)) <$> rows)) builders.
Proof.
  induction rows as [|row rows IH]; intros bs; cbn [foldl].
  - apply list_eq. intros i. rewrite list_lookup_imap.
    destruct (bs !! i); [simpl; by rewrite app_nil_r|done].
  - rewrite IH. apply list_eq. intros i. unfold append_row. rewrite !list_lookup_imap.
    destruct (bs !! i); [simpl; by rewrite <- (assoc_L app)|done].
Qed.

Lemma pad_id row : pad (length row) row = row.
Proof.
  apply list_eq. intros i. unfold pad. rewrite list_lookup_fmap.
  destruct (decide (i < length row)%nat) as [Hlt|Hge].
  - rewrite lookup_seq_lt by done. simpl. by destruct (lookup_lt_is_Some_2 row i Hlt) as [x ->].
  - rewrite lookup_seq_ge by lia. simpl. by rewrite lookup_ge_None_2 by lia.
Qed.

Lemma pad_lookup n row i : (i < n)%nat -> pad n row !!! i = default "" (row !! i).
Proof.
  intros Hi. unfold pad. rewrite list_lookup_total_alt, list_lookup_fmap, lookup_seq_lt by done. done.
Qed.

Lemma batch_rows d : ar_rows (createArrowRecordBatch d) = length (shown_rows d).
Proof. unfold shown_rows. rewrite length_fmap. done. Qed.

(** The columns of the batch are the transposed rows. *)
Lemma batch_columns d :
  ar_columns (createArrowRecordBatch d) =
  (fun i => (fun row => row !!! i) <$> shown_rows d) <$> seq 0 (length (rep_Fields d)).
Proof.
  unfold createArrowRecordBatch, shown_rows. cbn [ar_columns]. rewrite append_rows.
  set (rows := match rep_Values d with [] => _ | _ => _ end). set (fs := rep_Fields d).
  apply list_eq. intros i. rewrite list_lookup_imap, !list_lookup_fmap.
  destruct (decide (i < length fs)%nat) as [Hlt|Hge].
  - rewrite lookup_seq_lt by done. destruct (lookup_lt_is_Some_2 fs i Hlt) as [f ->]. simpl. f_equal.
    rewrite <- list_fmap_compose. apply list_fmap_ext. intros ? row _. simpl.
    by rewrite pad_lookup.
  - rewrite lookup_seq_ge by lia. by rewrite (lookup_ge_None_2 fs) by lia.
Qed.

Lemma read_batch d : read_rows (createArrowRecordBatch d) = shown_rows d.
Proof.
  unfold read_rows. rewrite batch_rows, batch_columns. apply list_eq. intros k.
  rewrite list_lookup_fmap. destruct (decide (k < length (shown_rows d))%nat) as [Hlt|Hge].
  - rewrite lookup_seq_lt by done. destruct (lookup_lt_is_Some_2 _ k Hlt) as [row Hrow].
    rewrite Hrow. simpl. f_equal. rewrite <- list_fmap_compose.
    pose proof Hrow as Hrow'. unfold shown_rows in Hrow'.
    apply list_lookup_fmap_Some in Hrow' as (row0 & -> & _).
    unfold pad. apply list_fmap_ext. intros i x Hi. apply lookup_seq in Hi as [-> Hi]. simpl.
    rewrite list_lookup_total_alt, list_lookup_fmap, Hrow. simpl. by apply pad_lookup.
  - rewrite lookup_seq_ge by lia. by rewrite lookup_ge_None_2 by lia.
Qed.

Definition shown_field (f : Field) : string * Z * bool * string :=
  (f_Field f, f_Type f, f_Label f, f_Unit f).

(** All that the manager is told of a result. *)
Definition shown (d : CollectRepMetricsData) :=
  (rep_ID d, rep_TenantID d, rep_App d, rep_Metrics d, rep_Priority d, rep_Time d,
   shown_field <$> rep_Fields d, shown_rows d).

Lemma arrow_field_shown f g : arrow_field_of f = arrow_field_of g -> shown_field f = shown_field g.
Proof.
  intros E. pose proof (f_equal af_name E) as E1. apply (f_equal af_metadata) in E.
  cbn [arrow_field_of af_name af_metadata] in *. unfold shown_field. rewrite E1.
  assert (forall k, af_metadata (arrow_field_of f) !! k = af_metadata (arrow_field_of g) !! k) as H
    by (intros k; cbn [arrow_field_of af_metadata]; by rewrite E).
  pose proof (H "type") as Ht. pose proof (H "label") as Hl. pose proof (H "unit") as Hu.
  clear E H. unfold arrow_field_of in *. cbn [af_metadata] in *. simplify_map_eq.
  apply Itoa_inj in Ht. rewrite Ht, Hu. by destruct (f_Label f), (f_Label g).
Qed.

Lemma shown_arrow_field f g : shown_field f = shown_field g -> arrow_field_of f = arrow_field_of g.
Proof. intros E. injection E as E1 E2 E3 E4. unfold arrow_field_of. by rewrite E1, E2, E3, E4. Qed.

Lemma arrow_fields_shown (fs : list Field) : forall gs : list Field,
  arrow_field_of <$> fs = arrow_field_of <$> gs <-> shown_field <$> fs = shown_field <$> gs.
Proof.
  induction fs as [|f fs IH]; intros [|g gs]; try done. rewrite !fmap_cons. split; intros E;
    apply (inj2 cons) in E as [E1 E2]; f_equal; try by apply IH.
  - by apply arrow_field_shown.
  - by apply shown_arrow_field.
Qed.

Lemma schema_metadata_shown d e :
  schema_metadata d = schema_metadata e <->
  (rep_ID d, rep_TenantID d, rep_App d, rep_Metrics d, rep_Priority d, rep_Time d) =
  (rep_ID e, rep_TenantID e, rep_App e, rep_Metrics e, rep_Priority e, rep_Time e).
Proof.
  split; intros E.
  - assert (forall k, schema_metadata d !! k = schema_metadata e !! k) as H by (by rewrite E).
    pose proof (H "id") as H1. pose proof (H "tenantId") as H2. pose proof (H "app") as H3.
    pose proof (H "metrics") as H4. pose proof (H "priority") as H5. pose proof (H "time") as H6.
    clear E H. unfold schema_metadata in *. simplify_map_eq.
    apply Itoa_inj in H1, H2, H5, H6. by rewrite H1, H2, H3, H4, H5, H6.
  - injection E as E1 E2 E3 E4 E5 E6. unfold schema_metadata. by rewrite E1, E2, E3, E4, E5, E6.
Qed.

Lemma batch_shown d e :
  createArrowRecordBatch d = createArrowRecordBatch e <-> shown d = shown e.
Proof.
  split; intros E.
  - pose proof (f_equal ar_fields E) as E1. pose proof (f_equal ar_metadata E) as E2.
    pose proof (f_equal read_rows E) as E3. rewrite !read_batch in E3.
    apply arrow_fields_shown in E1. apply schema_metadata_shown in E2.
    injection E2 as E21 E22 E23 E24 E25 E26. unfold shown.
    by rewrite E1, E3, E21, E22, E23, E24, E25, E26.
  - unfold shown in E. injection E as E21 E22 E23 E24 E25 E26 E1 E3.
    apply (f_equal length) in E1 as El. rewrite !length_fmap in El.
    assert (forall d, createArrowRecordBatch d =
      mkArrowRecord (arrow_field_of <$> rep_Fields d) (schema_metadata d)
        (ar_columns (createArrowRecordBatch d)) (ar_rows (createArrowRecordBatch d))) as H by done.
    rewrite (H d), (H e), !batch_columns, !batch_rows, E3, El. f_equal.
    + by apply arrow_fields_shown.
    + apply schema_metadata_shown. by rewrite E21, E22, E23, E24, E25, E26.
Qed.

(** *** Delivery *)

Section Delivery.
Context {S : Type} `{!JobScheduler S} (ipc_write : arrow_record -> ipc_outcome).
Context (identity : string).

(** The message that a result of a job becomes, if it can be written. *)
Definition message_of (j : Job) (r : CollectRepMetricsData) : option Message :=
  match serializeToArrow ipc_write [r] with
  | Ok bytes => Some (result_message identity j bytes)
  | Err _ => None
  end.

(** Only the kind of the job matters. *)
Lemma message_of_cyclic j j' : job_IsCyclic j' = job_IsCyclic j -> message_of j = message_of j'.
Proof.
  intros Hc. unfold message_of, result_message. by rewrite Hc.
Qed.

Definition add_sent (c : client S) (ms : list Message) : client S :=
  mkClient (cl_started c) (cl_table c) (cl_sent c ++ ms)
    (cl_shutdown c) (cl_secretKey c) (cl_scheduler c).

(** [HandleCollectData] as a function that always returns. *)
Definition route (r : CollectRepMetricsData) (j : Job) (w : option (client S))
    : option (client S) * option error :=
  match w with
  | None => (None, Some "failed to send result to Manager: transport client not ready")
  | Some c =>
      if cl_started c then
        match serializeToArrow ipc_write [r] with
        | Err e => (Some c, Some ("failed to send result to Manager: failed to create arrow format: " +:+ e))
        | Ok bytes => (Some (add_sent c [result_message identity j bytes]), None)
        end
      else (Some c, Some "failed to send result to Manager: transport client not ready")
  end.

Lemma HandleCollectData_route k r j w :
  HandleCollectData ipc_write k true identity (Some r) j w = handler route r j w.
Proof.
  unfold HandleCollectData, handler, route, SendResult, sendResultDirectly, on_client, send_message,
    GrpcSendMsg, SendMsg, mbind', mret, mmodify, mget, add_sent. cbn.
  destruct w as [c|]; [|done]. destruct (cl_started c) eqn:Hs; cbn; [|done].
  destruct (serializeToArrow _ _); cbn; [|done]. destruct k; cbn; rewrite Hs; cbn; by rewrite Hs.
Qed.

Lemma route_all j rs : forall c,
  cl_started c = true ->
  foldl (handle_spec route j) (Some c) rs = Some (add_sent c (omap (message_of j) rs)).
Proof.
  induction rs as [|r rs IH]; intros c Hs.
  - simpl. f_equal. destruct c. unfold add_sent. simpl. by rewrite app_nil_r.
  - cbn [foldl omap list_omap]. unfold handle_spec at 2. unfold route, message_of. rewrite Hs.
    destruct (serializeToArrow _ _) as [bytes|e]; cbn [fst]; rewrite IH by done; [|done].
    f_equal. unfold add_sent. cbn. by rewrite <- (assoc_L app).
Qed.

Lemma route_stopped j rs (c : client S) :
  cl_started c = false -> foldl (handle_spec route j) (Some c) rs = Some c.
Proof.
  intros Hs. induction rs as [|r rs IH]; [done|]. cbn [foldl].
  unfold handle_spec at 2, route. by rewrite Hs.
Qed.

Lemma route_none j rs : foldl (handle_spec route j) None rs = None.
Proof. by induction rs. Qed.

End Delivery.

(** The dispatch depends on its result handler pointwise only. *)
Lemma handleResults_ext {W} (f g : CollectRepMetricsData -> Job -> M W (option error)) rs j :
  (forall r j w, f r j w = g r j w) -> forall w, handleResults f rs j w = handleResults g rs j w.
Proof.
  intros Hfg. induction rs as [|r rs IH]; intros w; [done|]. cbn [handleResults]. unfold mbind'.
  rewrite Hfg. destruct (g r j w); [apply IH|done].
Qed.

(** The results of a job on a client. *)
Lemma results_sent {S} `{!JobScheduler S} ipc_write k identity rs j (c : client S) :
  handleResults (fun r => HandleCollectData ipc_write k true identity (Some r)) rs j (Some c) =
  Ret (Some (if cl_started c then add_sent c (omap (message_of ipc_write identity j) rs) else c)) None.
Proof.
  rewrite (handleResults_ext _ (handler (route ipc_write identity)))
    by apply HandleCollectData_route.
  rewrite handleResults_spec. f_equal.
  destruct (cl_started c) eqn:Hs; [by apply route_all|by apply route_stopped].
Qed.

Lemma DispatchMetricsTask_ext {program} compile (run : program -> gmap string any -> res any)
    to_strings to_calculates to_units order reg {W}
    (f g : CollectRepMetricsData -> Job -> M W (option error)) visit now turn received p s :
  (forall r j w, f r j w = g r j w) ->
  DispatchMetricsTask compile run to_strings to_calculates to_units order reg f visit now turn received p s =
  DispatchMetricsTask compile run to_strings to_calculates to_units order reg g visit now turn received p s.
Proof.
  intros Hfg. unfold DispatchMetricsTask. destruct p as [p|]; [|done]. unfold mbind'.
  destruct (on_heap (ConstructPriorMetrics _ _ _) _); [|done].
  destruct (on_heap (NextCollectMetrics _) _) as [? [|]|]; [done| |done].
  destruct (on_heap (ReplaceJobParams _ _) _) as [? [|]|]; [|done|done].
  destruct (on_heap (mmap _ _) _) as [? chs|]; [|done].
  destruct (on_heap (run_collections _ _ _ _ _ _ _ _ _ _ _) _) as [? sent|]; [|done].
  destruct (gather _ _ _). destruct (on_heap (load _ _) _) as [[]|]; [|done].
  unfold on_sink. cbn [fst snd]. by rewrite (handleResults_ext f g) by done.
Qed.

(** The dispatch of a job, with a client as the sink of its results. *)
Lemma dispatch_client {program} compile (run : program -> gmap string any -> res any)
    to_strings to_calculates to_units order reg wants {S} `{!JobScheduler S} ipc_write k identity visit
    now turn received h (c : client S) p j a ms :
  collectors_ok reg wants -> heap_ok h -> cells h !! p = Some (OJob j) -> job_Metrics j = Some a ->
  cells h !! a = Some (OMetrics ms) -> NoDup (m_Name <$> ms) -> Forall (served wants) ms ->
  exists h' rs,
    DispatchMetricsTask compile run to_strings to_calculates to_units order reg
      (fun r => HandleCollectData ipc_write k true identity (Some r)) visit
      now turn received (Some p) (h, Some c) =
    Ret (h', Some (if cl_started c then add_sent c (omap (message_of ipc_write identity j) rs) else c))
        None /\
    heap_ok h' /\ ext h h' /\
    dispatched compile run to_strings to_calculates to_units order reg visit
      now received p (metric_shape <$> ms) h rs h' /\
    Forall2 (result_of reg (job_key j)) (arrived received 0 (metric_key <$> ms)) rs.
Proof.
  intros Hreg Hok Hp Ha Hms Hnd Hw.
  destruct (dispatch_returns compile run to_strings to_calculates to_units order reg wants Hreg
    (route ipc_write identity) visit now turn received h (Some c) p j a ms Hok Hp Ha Hms Hnd Hw)
    as (h' & j' & rs & E & Hok' & He & Hk & Hd & Hrs).
  assert (job_IsCyclic j' = job_IsCyclic j) as Hc by (unfold job_key in Hk; congruence).
  exists h', rs. split_and!; [|done..].
  rewrite (DispatchMetricsTask_ext _ _ _ _ _ _ _ _ (handler (route ipc_write identity)))
    by apply HandleCollectData_route.
  rewrite E, (message_of_cyclic ipc_write identity j j') by done. f_equal. f_equal.
  destruct (cl_started c) eqn:Hs; [by apply route_all|by apply route_stopped].
Qed.

(** ** Properties *)

(** C12 (functional). From the task of a job to the connection: on a started
    client the dispatch of a job sends exactly one message for every metric
    whose result arrives before the deadline and can be written, in the order
    of the metrics, and changes nothing else of the client.  Every message is a
    response with the identity of the collector, and of the type that the job
    calls for.  Without a started client nothing is sent, and nobody is told:
    the dispatch succeeds all the same. *)
Theorem dispatch_sends {program} compile (run : program -> gmap string any -> res any)
    to_strings to_calculates to_units order reg wants {S} `{!JobScheduler S} ipc_write k identity visit
    now turn received h (c : client S) p j a ms :
  collectors_ok reg wants -> heap_ok h -> cells h !! p = Some (OJob j) -> job_Metrics j = Some a ->
  cells h !! a = Some (OMetrics ms) -> NoDup (m_Name <$> ms) -> Forall (served wants) ms ->
  exists h' rs,
    DispatchMetricsTask compile run to_strings to_calculates to_units order reg
      (fun r => HandleCollectData ipc_write k true identity (Some r)) visit
      now turn received (Some p) (h, Some c) =
    Ret (h', Some (if cl_started c then add_sent c (omap (message_of ipc_write identity j) rs) else c))
        None /\
    Forall2 (result_of reg (job_key j)) (arrived received 0 (metric_key <$> ms)) rs /\
    Forall (fun m => msg_Type m = (if job_IsCyclic j then MessageTypeResponseCyclicTaskData
                                   else MessageTypeResponseOneTimeTaskData) /\
                     msg_Direction m = RESPONSE /\ msg_Identity m = identity)
      (omap (message_of ipc_write identity j) rs).
Proof.
  intros Hreg Hok Hp Ha Hms Hnd Hw.
  destruct (dispatch_client compile run to_strings to_calculates to_units order reg wants ipc_write k identity
    visit now turn received h c p j a ms Hreg Hok Hp Ha Hms Hnd Hw) as (h' & rs & E & _ & _ & _ & Hrs).
  exists h', rs. split_and!; [done|done|].
  apply Forall_forall. intros m Hm. apply list_elem_of_omap in Hm as (r & _ & Hr).
  unfold message_of in Hr. by destruct (serializeToArrow _ _); simplify_eq.
Qed.

Definition ex_ipc (r : arrow_record) : ipc_outcome := IpcStream (String.concat "|" (String.concat "," <$> ar_columns r)).

Lemma dispatch_sends_witness :
  exists h' rs,
    DispatchMetricsTask no_program no_run no_json no_json no_json in_key_order ex_registry
      (fun r => HandleCollectData ex_ipc Netty true "go-1" (Some r)) map_to_list 100000
      (Nat.sub 3) (fun i => Nat.even i) (Some 0%nat) (ex_heap, Some ex_client) =
    Ret (h', Some (if cl_started ex_client
                   then add_sent ex_client (omap (message_of ex_ipc "go-1" (ex_job 7 60 true (Some 1%nat))) rs) else ex_client)) None /\
    Forall2 (result_of ex_registry (job_key (ex_job 7 60 true (Some 1%nat))))
      [("cpu", "http"); ("late", "http")] rs /\
    Forall (fun m => msg_Type m = 8 /\ msg_Direction m = RESPONSE /\ msg_Identity m = "go-1")
      (omap (message_of ex_ipc "go-1" (ex_job 7 60 true (Some 1%nat))) rs).
Proof.
  apply (dispatch_sends no_program no_run no_json no_json no_json in_key_order ex_registry no_wants
    ex_ipc Netty "go-1" map_to_list 100000 (Nat.sub 3) (fun i => Nat.even i) ex_heap ex_client 0 _ 1 _
    ex_registry_ok ex_heap_ok eq_refl eq_refl eq_refl).
  - apply (bool_decide_unpack (NoDup _)). vm_compute. exact I.
  - by repeat constructor.
Defined.

(** C33 (roundtrip). A reader of the record batch of a result gets its rows,
    each cut or filled with empty columns to the number of fields; a result
    without rows is read as one row of empty columns.  Rows of the right
    length, which the calculation of fields always makes, are read unchanged. *)
Theorem read_rows_roundtrip d :
  read_rows (createArrowRecordBatch d) = shown_rows d /\
  length (ar_columns (createArrowRecordBatch d)) = length (ar_fields (createArrowRecordBatch d)) /\
  Forall (fun col => length col = ar_rows (createArrowRecordBatch d))
    (ar_columns (createArrowRecordBatch d)) /\
  (rep_Values d <> [] ->
   Forall (fun row => length (vr_Columns row) = length (rep_Fields d)) (rep_Values d) ->
   read_rows (createArrowRecordBatch d) = vr_Columns <$> rep_Values d).
Proof.
  split_and!; [apply read_batch| | |].
  - rewrite batch_columns, length_fmap, length_seq. unfold createArrowRecordBatch. simpl.
    by rewrite length_fmap.
  - rewrite batch_columns, batch_rows. apply Forall_fmap, Forall_forall. intros i _. simpl.
    by rewrite length_fmap.
  - intros Hne Hlen. rewrite read_batch. unfold shown_rows.
    destruct (rep_Values d) as [|v vs] eqn:Ev; [done|]. rewrite <- Ev in *. clear Hne Ev.
    rewrite <- list_fmap_compose. apply list_fmap_ext. intros i row Hrow. simpl.
    rewrite <- (Forall_at _ _ _ _ Hlen Hrow). apply pad_id.
Qed.

Lemma read_rows_roundtrip_witness :
  read_rows (createArrowRecordBatch
    (mkCollectRep 1 1 1 "linux" "memory" 0 0 0 "" [ex_field "total" 0; ex_field "name" 1]
       [mkValueRow ["2"; "ram"]; mkValueRow ["3"; "swap"]] ∅ ∅)) = [["2"; "ram"]; ["3"; "swap"]].
Proof.
  apply (read_rows_roundtrip (mkCollectRep 1 1 1 "linux" "memory" 0 0 0 ""
    [ex_field "total" 0; ex_field "name" 1] [mkValueRow ["2"; "ram"]; mkValueRow ["3"; "swap"]] ∅ ∅)).
  - discriminate.
  - repeat constructor.
Defined.

(** What the manager can learn from a batch: two results
    have the same batch just when they agree in identity, name, priority, time,
    in the name, type, label and unit of their fields, and in their rows cut or
    filled to the number of fields.  Neither the code and the message of a
    result nor its labels and metadata are among these: a collection that failed
    is sent as one that succeeded with a row of empty columns. *)
Theorem batch_equivalence d e :
  (createArrowRecordBatch d = createArrowRecordBatch e <-> shown d = shown e) /\
  (forall m j now code msg,
     createArrowRecordBatch (createErrorResponse now m j code msg) =
     createArrowRecordBatch
       (mkCollectRep (job_MonitorID j) (job_MonitorID j) (job_TenantID j) (job_App j) (m_Name m)
          (m_Priority m) now CollectSuccess "" [] [mkValueRow []] ∅ ∅)).
Proof. split; [apply batch_shown|]. intros. by apply batch_shown. Qed.
