(* ===== verification/Collector.v ===== *)
(** * The collector: from the messages of the manager to the results

    The wiring of internal/cmd/server.go ([startRunners]): the client of the
    transport, Netty or gRPC, hands the tasks it receives to the job runner, whose dispatcher starts them
    at the ticks of its timer, and the results of a task go out through the same
    client.  The components are those of Processors, JobServer, Scheduler and
    Router; a run is a sequence of their steps, in any order.  The specification
    is a plan, the agenda of the jobs with the secret key and what the client
    does with the connection, which says what starts at each step and what is
    sent. *)

From Stdlib Require Import Ascii String.
From S2P Require Import Prelude GoStrings WheelTimer TimerService JobTypes Crypto Params TimeDispatch Scheduler Agenda JobServer Processors Calc Collect Router.

Open Scope string_scope.
Open Scope list_scope.
Open Scope Z_scope.
Open Scope go_scope.

(** ** State and steps *)

(** The client, which holds the job runner, and the tasks in flight. *)
Record collector (T : Type) := mkCollector {
  co_client : client (Runner T);
  co_flight : list (Job * bool);
}.
Arguments mkCollector {T} _ _.
Arguments co_client {T} _.
Arguments co_flight {T} _.

(** [CMessage]: the goroutine that the client starts for a message runs (the
    messages that wait for theirs are not represented, so the order of these
    steps is any order of the goroutines); it also shuts a gRPC client
    down when the message is GO_CLOSE.  [CBegin] and [CFinish] are the
    two parts of the task of a job: before the collection, and after it, with
    the results that arrived.  [COffline]: the goroutine that a GO_OFFLINE
    message starts shuts the client down. *)
Inductive collector_event :=
| CMessage (now : Z) (msg : Message)
| CTick
| CBegin (id now : Z)
| CFinish (id now : Z) (results : list CollectRepMetricsData)
| COffline.

(** The task of job [id], begun or not. *)
Definition flight_at (id : Z) (begun : bool) (fl : list (Job * bool)) : option nat :=
  fst <$> list_find (fun x => job_ID (fst x) = id /\ snd x = begun) fl.

Section Collector.
Context {T : Type} `{!TimerOps T WheelTimerTask}.
Context (unmarshal_secret : string -> res string) (unmarshal_job : string -> res Job)
        (unmarshal_ids : string -> res (list Z)) (unmarshal_id : string -> res Z).
(** The kind of the client. *)
Context (kind : clientKind).
Context (ipc_write : arrow_record -> ipc_outcome) (identity : string).
Implicit Types s : collector T.

(** A step of the scheduler inside the collector. *)
Definition schedule (e : event) s : outcome (collector T) unit :=
  match cl_scheduler (co_client s) with
  | None => Ret s tt
  | Some r =>
      let put x := mkCollector (set_scheduler (mkRunner (sc_td x) (rn_runningJobs r)) (co_client s))
                     (sc_flight x) in
      match sched_step e (mkSched (rn_TimeDispatch r) (co_flight s)) with
      | Ret x _ => Ret (put x) tt
      | Panic x w => Panic (put x) w
      end
  end.

(** A step of the client. *)
Definition on_connection {A} (m : M (client (Runner T)) A) s : outcome (collector T) unit :=
  match m (co_client s) with
  | Ret c _ => Ret (mkCollector c (co_flight s)) tt
  | Panic c w => Panic (mkCollector c (co_flight s)) w
  end.

Definition collector_step (e : collector_event) s : outcome (collector T) unit :=
  match e with
  | CMessage now msg =>
      on_connection (receive_message kind
        (default_processors unmarshal_secret unmarshal_job unmarshal_ids unmarshal_id kind now) msg) s
  | CTick => schedule ETick s
  | CBegin id now =>
      match flight_at id false (co_flight s) with
      | Some i => schedule (EBegin i now) s
      | None => Ret s tt
      end
  | CFinish id now results =>
      match flight_at id true (co_flight s) with
      | Some i =>
          match co_flight s !! i with
          | Some (j, _) =>
              match handleResults (fun r => HandleCollectData ipc_write kind true identity (Some r))
                      results j (Some (co_client s)) with
              | Ret c err =>
                  schedule (EFinish i now err)
                    (mkCollector (default (co_client s) c) (co_flight s))
              | Panic c w => Panic (mkCollector (default (co_client s) c) (co_flight s)) w
              end
          | None => Ret s tt
          end
      | None => Ret s tt
      end
  | COffline => on_connection delayed_shutdown s
  end.

(** What is seen of a step: the jobs started and the messages sent. *)
Definition observed s s' : list Z * list Message :=
  ((fun x => job_ID (fst x)) <$> drop (length (co_flight s)) (co_flight s'),
   drop (length (cl_sent (co_client s))) (cl_sent (co_client s'))).

Fixpoint collector_run (es : list collector_event) s
    : outcome (collector T) (list (list Z * list Message)) :=
  match es with
  | [] => Ret s []
  | e :: es =>
      match collector_step e s with
      | Ret s' _ =>
          match collector_run es s' with
          | Ret s'' obs => Ret s'' (observed s s' :: obs)
          | Panic s'' w => Panic s'' w
          end
      | Panic s' w => Panic s' w
      end
  end.

(** ** The plan *)

(** [pl_begun]: the jobs whose task has begun; [pl_closing]: a GO_OFFLINE
    message has been answered and the client is still up. *)
Record plan := mkPlan {
  pl_key : string;
  pl_online : bool;
  pl_closing : bool;
  pl_begun : gset Z;
  pl_agenda : agenda;
}.

(** What a step is to show: the jobs that start, the requests that are replied
    to, and the results that are sent. *)
Record expectation := mkExpectation {
  xp_starts : gset Z;
  xp_replies : list Message;
  xp_results : list Message;
}.

Context (ticks : Z -> Z).
Implicit Types (a : agenda) (p : plan).

Local Abbreviation issues := (issued unmarshal_job) (only parsing).
Local Abbreviation deletes := (deleted unmarshal_ids unmarshal_id) (only parsing).

Definition set_agenda a p : plan :=
  mkPlan (pl_key p) (pl_online p) (pl_closing p) (pl_begun p) a.

Definition phase_of a (id : Z) : option phase := snd <$> ag_jobs a !! id.

(** The tasks of a message on the agenda. *)
Definition message_agenda (key : string) (msg : Message) a : agenda :=
  match issues key msg with
  | Some j => ag_step ticks (AgAdd j) a
  | None => foldl (fun a id => ag_step ticks (AgRemove id) a) a (deletes msg)
  end.

Definition plan_step (e : collector_event) p : plan :=
  match e with
  | CMessage _ msg =>
      mkPlan (key_effect unmarshal_secret msg (pl_key p)) (online_effect kind msg (pl_online p))
        (offline_effect kind msg (pl_closing p)) (pl_begun p)
        (message_agenda (pl_key p) msg (pl_agenda p))
  | CTick => set_agenda (ag_step ticks AgTick (pl_agenda p)) p
  | CBegin id _ =>
      mkPlan (pl_key p) (pl_online p) (pl_closing p)
        (if decide (phase_of (pl_agenda p) id = Some Running) then {[id]} ∪ pl_begun p else pl_begun p)
        (pl_agenda p)
  | CFinish id _ _ =>
      if decide (id ∈ pl_begun p) then
        mkPlan (pl_key p) (pl_online p) (pl_closing p) (pl_begun p ∖ {[id]})
          (ag_step ticks (AgFinish id) (pl_agenda p))
      else p
  | COffline =>
      mkPlan (pl_key p) (pl_online p && negb (pl_closing p)) false (pl_begun p) (pl_agenda p)
  end.

Definition expected (e : collector_event) p : expectation :=
  match e with
  | CMessage _ msg => mkExpectation ∅ (to_reply kind msg) []
  | CTick => mkExpectation (ag_due (pl_agenda p)) [] []
  | CFinish id _ results =>
      mkExpectation ∅ []
        (match ag_jobs (pl_agenda p) !! id with
         | Some (j, _) =>
             if decide (id ∈ pl_begun p /\ pl_online p = true)
             then omap (message_of ipc_write identity j) results else []
         | None => []
         end)
  | CBegin _ _ | COffline => mkExpectation ∅ [] []
  end.

(** The manager issues a job only under an id that is not registered, deletes
    none that is running, and sends nothing but requests, to a client that is
    up; the clock is far from overflow. *)
Definition plan_fits (e : collector_event) p : Prop :=
  ag_now (pl_agenda p) + ticks max64 + 1 <= max64 /\
  match e with
  | CMessage _ msg =>
      pl_online p = true /\ msg_Direction msg = REQUEST /\
      (forall j, issues (pl_key p) msg = Some j ->
         job_ok j /\ ag_jobs (pl_agenda p) !! job_ID j = None) /\
      Forall (fun id => phase_of (pl_agenda p) id <> Some Running) (deletes msg)
  | _ => True
  end.

Fixpoint plan_ok (es : list collector_event) p : Prop :=
  match es with
  | [] => True
  | e :: es => plan_fits e p /\ plan_ok es (plan_step e p)
  end.

Fixpoint plan_run (es : list collector_event) p : plan * list expectation :=
  match es with
  | [] => (p, [])
  | e :: es => let '(p', xs) := plan_run es (plan_step e p) in (p', expected e p :: xs)
  end.

Definition as_expected (o : list Z * list Message) (x : expectation) : Prop :=
  same_starts (fst o) (xp_starts x) /\
  exists outs, snd o = outs ++ xp_results x /\ Forall2 answers (xp_replies x) outs.

End Collector.

(** ** The collector follows its plan *)

Section Follows.
Context {T : Type} `{!TimerOps T WheelTimerTask, !TimerLaws T WheelTimerTask,
                     !TimerClock T WheelTimerTask}.
Context (unmarshal_secret : string -> res string) (unmarshal_job : string -> res Job)
        (unmarshal_ids : string -> res (list Z)) (unmarshal_id : string -> res Z).
Context (kind : clientKind).
Context (ipc_write : arrow_record -> ipc_outcome) (identity : string) (ticks : Z -> Z).
Implicit Types (s : collector T) (a : agenda) (p : plan).

Local Abbreviation step := (collector_step unmarshal_secret unmarshal_job unmarshal_ids unmarshal_id kind
  ipc_write identity) (only parsing).
Local Abbreviation next := (plan_step unmarshal_secret unmarshal_job unmarshal_ids unmarshal_id kind ticks)
  (only parsing).
Local Abbreviation fits := (plan_fits unmarshal_job unmarshal_ids unmarshal_id ticks) (only parsing).
Local Abbreviation expect := (expected kind ipc_write identity) (only parsing).

(** The runner follows an agenda. *)
Definition runner_follows (r : Runner T) (fl : list (Job * bool)) a : Prop :=
  sched_sim ticks (mkSched (rn_TimeDispatch r) fl) a /\ rn_runningJobs r = ag_registered a.

Definition begun_are (fl : list (Job * bool)) (ids : gset Z) : Prop :=
  forall id, id ∈ ids <-> exists j, (j, true) ∈ fl /\ job_ID j = id.

Record follows s p : Prop := mkFollows {
  fo_key : cl_secretKey (co_client s) = pl_key p;
  fo_online : cl_started (co_client s) = pl_online p;
  fo_closing : cl_shutdown (co_client s) = pl_closing p;
  fo_runner : exists r, cl_scheduler (co_client s) = Some r /\
                runner_follows r (co_flight s) (pl_agenda p);
  fo_begun : begun_are (co_flight s) (pl_begun p);
}.

Lemma sim_room t fl td a :
  td_wheelTimer td = t -> sched_sim ticks (mkSched td fl) a ->
  ag_now a + ticks max64 + 1 <= max64 -> timer_room t.
Proof.
  intros <- Hs Hr. apply clock_room; [apply (sm_inv _ _ _ Hs)|].
  rewrite (sm_now _ _ _ Hs) in Hr. by rewrite <- (sm_ticks _ _ _ Hs) in Hr.
Qed.

(** A task in flight is that of a running job. *)
Lemma flight_phase td fl a j b :
  sched_sim ticks (mkSched td fl) a -> (j, b) ∈ fl -> ag_jobs a !! job_ID j = Some (j, Running).
Proof.
  intros Hs [i Hi]%list_elem_of_lookup_1.
  by destruct (sim_token _ _ _ _ _ _ Hs (flight_token td fl i j b Hi)).
Qed.

Lemma running_in_flight td fl a id :
  sched_sim ticks (mkSched td fl) a -> phase_of a id = Some Running ->
  exists j b, (j, b) ∈ fl /\ job_ID j = id.
Proof.
  intros Hs Hp. pose proof (sm_job _ _ _ Hs id) as Hj. unfold job_phase_at, phase_of in *.
  destruct (ag_jobs a !! id) as [[j ph]|]; [|done]. injection Hp as ->.
  destruct Hj as (Hid & _ & Hl). cbn [phase_tokens] in Hl.
  assert ((None, j) ∈ tokens_of (mkSched td fl) id) as Hin by (rewrite Hl; by left).
  unfold tokens_of, of_id, toks in Hin. cbn [sc_td sc_flight] in Hin.
  apply list_elem_of_filter in Hin as [_ Hin]. apply elem_of_app in Hin as [Hin|Hin].
  - apply list_elem_of_omap in Hin as (q & _ & Hq). by destruct (job_of _ q).
  - apply list_elem_of_fmap in Hin as ([k b] & [= ->] & Hk). by exists k, b.
Qed.

(** *** The requests of a message *)

Lemma serve_add now j r fl a :
  runner_follows r fl a -> ag_now a + ticks max64 + 1 <= max64 ->
  job_ok j -> ag_jobs a !! job_ID j = None ->
  exists r', serve [ReqAdd now j] r = Ret r' [None] /\
    runner_follows r' fl (ag_step ticks (AgAdd j) a).
Proof.
  destruct r as [td run]. intros [Hs Hrun] Hroom Hj Hnone. cbn [rn_TimeDispatch rn_runningJobs] in *.
  assert (disciplined (EAdd now j) (mkSched td fl)) as Hd.
  { split; [by apply (sim_room _ fl td a)|]. split; [done|].
    pose proof (sm_job _ _ _ Hs (job_ID j)) as Hp. unfold job_phase_at in Hp.
    by rewrite Hnone in Hp. }
  pose proof Hs as [[Hok Ha _ _ _] _ _ _]. cbn [sc_td] in Hok, Ha.
  destruct (timer_new_spec (td_wheelTimer td) now (NewWheelTimerTask (Some j)) (first_delay j))
    as (t' & q & En & _); [done|done|apply Hd|by apply first_delay_ok|].
  destruct (AddJob_ret now j td t' (Some q) En) as (td' & EA & _).
  exists (mkRunner td' (<[job_ID j := j]> run)). split; [|split; cbn [rn_TimeDispatch rn_runningJobs]].
  - cbn [serve]. assert (js_add now (Some j) (mkRunner td run) =
      Ret (mkRunner td' (<[job_ID j := j]> run)) None) as ->; [|done].
    cbn [js_add runner_scheduler]. unfold AddAsyncCollectJob. erewrite bind_ret by done.
    by erewrite bind_ret by (by apply on_dispatch_ret).
  - apply (sim_add ticks now j (mkSched td fl)); [done|done|].
    unfold sched_step, on_td. cbn [sc_td sc_flight]. by rewrite EA.
  - by rewrite ag_registered_step, <- Hrun.
Qed.

Lemma serve_remove id r fl a :
  runner_follows r fl a -> ag_now a + ticks max64 + 1 <= max64 -> phase_of a id <> Some Running ->
  exists r' err, js_remove id r = Ret r' err /\
    runner_follows r' fl (ag_step ticks (AgRemove id) a).
Proof.
  destruct r as [td run]. intros [Hs Hrun] Hroom Hph. cbn [rn_TimeDispatch rn_runningJobs] in *.
  assert (disciplined (ERemove id) (mkSched td fl)) as Hd.
  { split; [by apply (sim_room _ fl td a)|]. apply Forall_forall. intros [j b] Hin Hid.
    apply Hph. cbn [fst] in Hid. subst id. unfold phase_of.
    by rewrite (flight_phase td fl a j b Hs Hin). }
  destruct (sim_event ticks _ _ a Hs Hd) as ([td' fl'] & E & Hs'). cbn [event_op fold_left] in Hs'.
  unfold sched_step, on_td in E. cbn [sc_td sc_flight] in E.
  destruct (RemoveJob id td) as [td1 err|] eqn:ER; [|discriminate]. injection E as <- <-.
  exists (mkRunner td1 (delete id run)),
    (match err with
     | Some e => Some ("failed to remove job from time dispatcher: " +:+ e)
     | None => None
     end). split; [|split; [exact Hs'|]].
  - cbn [js_remove runner_scheduler]. unfold RemoveAsyncCollectJob. erewrite bind_ret by done.
    erewrite bind_ret by (by apply on_dispatch_ret). by destruct err.
  - by rewrite ag_registered_step, <- Hrun.
Qed.

Lemma serve_removes fl ids : forall r a,
  runner_follows r fl a -> ag_now a + ticks max64 + 1 <= max64 ->
  Forall (fun id => phase_of a id <> Some Running) ids ->
  exists r' errs, serve (ReqRemove <$> ids) r = Ret r' errs /\
    runner_follows r' fl (foldl (fun a id => ag_step ticks (AgRemove id) a) a ids).
Proof.
  induction ids as [|id ids IH]; intros r a Hf Hroom Hph; [by eexists _, _|].
  apply Forall_cons in Hph as [Hid Hph].
  destruct (serve_remove id r fl a Hf Hroom Hid) as (r1 & err & E1 & Hf1).
  destruct (IH r1 _ Hf1 Hroom) as (r2 & errs & E2 & Hf2).
  { eapply Forall_impl; [exact Hph|]. intros i Hi. unfold phase_of in *. cbn [ag_step ag_jobs].
    destruct (decide (id = i)) as [->|Hne]; [by rewrite lookup_delete_eq|by rewrite lookup_delete_ne]. }
  cbn [fmap list_fmap serve]. rewrite E1. rewrite E2. by eexists _, _.
Qed.

Lemma serve_message now msg r fl p :
  runner_follows r fl (pl_agenda p) -> fits (CMessage now msg) p ->
  exists r' errs,
    serve (requests_of unmarshal_job unmarshal_ids unmarshal_id now (pl_key p) msg) r = Ret r' errs /\
    runner_follows r' fl (pl_agenda (next (CMessage now msg) p)).
Proof.
  intros Hf (Hroom & _ & _ & Hadd & Hrem). cbn [plan_step pl_agenda]. unfold requests_of, message_agenda.
  destruct (issued _ _ _) as [j|].
  - destruct (Hadd j eq_refl) as [Hj Hn]. destruct (serve_add now j r fl _ Hf Hroom Hj Hn) as (r' & E & Hf').
    by eexists _, _.
  - by apply serve_removes.
Qed.

(** *** Steps *)

(** What the theorem says of one step. *)
Definition step_follows (e : collector_event) s p : Prop :=
  exists s', step e s = Ret s' tt /\ follows s' (next e p) /\ as_expected (observed s s') (expect e p).

(** A step that starts nothing. *)
Lemma starts_nothing s c l :
  (length l <= length (co_flight s))%nat ->
  same_starts (fst (observed s (mkCollector c l))) ∅.
Proof.
  intros Hl. unfold observed. cbn [fst co_flight]. rewrite drop_ge by done.
  split; [apply NoDup_nil_2|]. intros id. split; [by intros ?%elem_of_nil|set_solver].
Qed.

Lemma follow_message now msg s p : follows s p -> fits (CMessage now msg) p -> step_follows (CMessage now msg) s p.
Proof.
  destruct s as [c fl]. intros [Hk Hst Hcl (r & Hr & Hf) Hb] Hfit. cbn [co_client co_flight] in *.
  pose proof Hfit as (_ & Hon & Hreq & _ & _).
  destruct (serve_message now msg r fl p Hf Hfit) as (r' & errs & E & Hf'). rewrite <- Hk in E.
  assert (awaited (cl_table c) msg = false) as Haw by (unfold awaited; by rewrite Hreq).
  destruct (receive_serves unmarshal_secret unmarshal_job unmarshal_ids unmarshal_id kind now msg c r r' errs)
    as (c' & outs & E' & _ & (Hsch & Hkey & Hoff & Hst') & Hsn & Ho); [congruence|exact Haw|exact Hr|exact E|].
  exists (mkCollector c' fl).
  split; [|split; [split|split]];
    cbn [co_client co_flight plan_step pl_key pl_online pl_closing pl_begun expected xp_starts xp_replies
         xp_results].
  - cbn [collector_step]. unfold on_connection. cbn [co_client]. by rewrite E'.
  - by rewrite Hkey, Hk.
  - by rewrite Hst', Hst.
  - by rewrite Hoff, Hcl.
  - by exists r'.
  - done.
  - by apply starts_nothing.
  - exists outs. unfold observed. cbn [snd co_client].
    by rewrite Hsn, drop_app_length, app_nil_r.
Qed.

(** A step of the scheduler. *)
Lemma schedule_follows e s r a :
  cl_scheduler (co_client s) = Some r -> runner_follows r (co_flight s) a ->
  disciplined e (mkSched (rn_TimeDispatch r) (co_flight s)) ->
  match e with EAdd _ _ | ERemove _ => False | _ => True end ->
  exists td' fl',
    sched_step e (mkSched (rn_TimeDispatch r) (co_flight s)) = Ret (mkSched td' fl') tt /\
    schedule e s =
      Ret (mkCollector (set_scheduler (mkRunner td' (rn_runningJobs r)) (co_client s)) fl') tt /\
    runner_follows (mkRunner td' (rn_runningJobs r)) fl'
      (fold_left (fun a op => ag_step ticks op a)
         (event_op e (mkSched (rn_TimeDispatch r) (co_flight s))) a).
Proof.
  intros Hr [Hs Hrun] Hd He. destruct (sim_event ticks e _ a Hs Hd) as ([td' fl'] & E & Hs').
  exists td', fl'. split; [done|]. split; [|split; [done|]].
  - unfold schedule. by rewrite Hr, E.
  - cbn [rn_runningJobs]. rewrite Hrun.
    destruct e as [| | |i now|i now err]; try done; cbn [event_op fold_left].
    + by rewrite ag_registered_step.
    + destruct (sc_flight _ !! i) as [[j []]|]; try done. cbn [fold_left].
      by rewrite ag_registered_step.
Qed.

Lemma follow_tick s p : follows s p -> fits CTick p -> step_follows CTick s p.
Proof.
  destruct s as [c fl]. intros [Hk Hst Hcl (r & Hr & Hf) Hb] [Hroom _]. cbn [co_client co_flight] in *.
  pose proof Hf as [Hs _].
  assert (disciplined ETick (mkSched (rn_TimeDispatch r) fl)) as Hd by (split; [by eapply sim_room|done]).
  destruct (schedule_follows ETick (mkCollector c fl) r _ Hr Hf Hd I) as (td' & fl' & E & Es & Hf').
  cbn [co_client co_flight] in *. cbn [event_op fold_left] in Hf'.
  exists (mkCollector (set_scheduler (mkRunner td' (rn_runningJobs r)) c) fl').
  split; [exact Es|]. split; [split; try done|split]; [by exists (mkRunner td' (rn_runningJobs r))|..].
  - cbn [co_flight plan_step set_agenda pl_begun]. unfold sched_step in E. cbn [sc_td sc_flight] in E.
    destruct (timer_tick _) as [t fired|]; [|discriminate]. injection E as _ <-.
    intros id. rewrite (Hb id). split; intros (j & Hin & Hid); exists j; (split; [|done]).
    + apply elem_of_app. by left.
    + apply elem_of_app in Hin as [Hin|(k & [=] & _)%list_elem_of_fmap]. done.
  - by destruct (sched_sim_tick ticks _ _ _ Hs Hd E) as (_ & Hnd & Hin).
  - exists []. unfold observed. cbn [snd co_client set_scheduler cl_sent expected xp_results].
    by rewrite drop_all.
Qed.

Lemma flight_at_Some id b fl i :
  flight_at id b fl = Some i -> exists j, fl !! i = Some (j, b) /\ job_ID j = id.
Proof.
  unfold flight_at. intros ([n [j b']] & Hl & ->)%fmap_Some.
  apply list_find_Some in Hl as (Hi & [Hid Hb] & _). cbn [fst snd] in *. subst b'. by exists j.
Qed.

Lemma flight_at_None id b fl j : flight_at id b fl = None -> (j, b) ∈ fl -> job_ID j <> id.
Proof.
  unfold flight_at. intros Hn%fmap_None Hin Hid.
  apply list_find_None in Hn. apply (proj1 (Forall_forall _ _) Hn _ Hin). done.
Qed.

(** A step that is not seen. *)
Lemma unseen s c l :
  cl_sent c = cl_sent (co_client s) -> (length l <= length (co_flight s))%nat ->
  as_expected (observed s (mkCollector c l)) (mkExpectation ∅ [] []).
Proof.
  intros Hsn Hl. split; [by apply starts_nothing|]. exists []. unfold observed. cbn [snd co_client].
  by rewrite Hsn, drop_all.
Qed.

Lemma follow_begin id now s p : follows s p -> fits (CBegin id now) p -> step_follows (CBegin id now) s p.
Proof.
  destruct s as [c fl]. intros [Hk Hst Hcl (r & Hr & Hf) Hb] [Hroom _]. cbn [co_client co_flight] in *.
  pose proof Hf as [Hs _]. unfold step_follows. cbn [collector_step expected plan_step co_flight].
  destruct (flight_at id false fl) as [i|] eqn:Ei.
  - destruct (flight_at_Some _ _ _ _ Ei) as (j & Hi & <-).
    assert (disciplined (EBegin i now) (mkSched (rn_TimeDispatch r) fl)) as Hd
      by (split; [by eapply sim_room|done]).
    destruct (schedule_follows (EBegin i now) (mkCollector c fl) r _ Hr Hf Hd I)
      as (td' & fl' & E & Es & Hf'). cbn [co_client co_flight event_op fold_left] in *.
    assert (fl' = <[i := (j, true)]> fl) as ->.
    { unfold sched_step in E. cbn [sc_flight sc_td] in E. rewrite Hi in E. unfold on_td in E.
      cbn [sc_flight sc_td] in E. destruct (run_begin _ _ _); [|discriminate]. by injection E. }
    rewrite decide_True.
    2:{ unfold phase_of. by rewrite (flight_phase _ _ _ j false Hs (list_elem_of_lookup_2 _ _ _ Hi)). }
    exists (mkCollector (set_scheduler (mkRunner td' (rn_runningJobs r)) c) (<[i := (j, true)]> fl)).
    split; [exact Es|]. split; [split; try done; [by exists (mkRunner td' (rn_runningJobs r))|]|].
    + cbn [co_flight pl_begun]. intros id. rewrite elem_of_union, elem_of_singleton, (Hb id). split.
      * intros [->|(k & Hin & Hid)].
        -- exists j. split; [|done]. apply list_elem_of_lookup. exists i.
           apply list_lookup_insert_eq. by eapply lookup_lt_Some.
        -- exists k. split; [|done]. apply list_elem_of_lookup in Hin as [n Hn].
           apply list_elem_of_lookup. exists n. rewrite list_lookup_insert_ne; [done|congruence].
      * intros (k & [n Hn]%list_elem_of_lookup & Hid).
        apply list_lookup_insert_Some in Hn as [(-> & [= <-] & _)|[Hne Hn]]; [by left|].
        right. exists k. split; [|done]. by eapply list_elem_of_lookup_2.
    + apply unseen; [done|]. by rewrite length_insert.
  - exists (mkCollector c fl). split; [done|]. split; [|by apply unseen].
    split; cbn [co_client co_flight pl_key pl_online pl_closing pl_begun pl_agenda]; [done..|by exists r|].
    case_decide as Hp; [|done].
    destruct (running_in_flight _ _ _ _ Hs Hp) as (j & b & Hin & Hid).
    destruct b; [|by destruct (flight_at_None _ _ _ _ Ei Hin)].
    assert (id ∈ pl_begun p) as Hbid by (apply Hb; by exists j).
    by rewrite (subseteq_union_1_L {[id]} (pl_begun p)) by (by apply singleton_subseteq_l).
Qed.

Lemma follow_offline s p : follows s p -> fits COffline p -> step_follows COffline s p.
Proof.
  destruct s as [c fl]. intros [Hk Hst Hcl (r & Hr & Hf) Hb] _. cbn [co_client co_flight] in *.
  unfold step_follows. cbn [collector_step expected plan_step]. unfold on_connection, delayed_shutdown.
  cbn [co_client co_flight]. erewrite bind_ret by done. rewrite <- Hst, <- Hcl.
  destruct (cl_shutdown c) eqn:Hc; cbn [negb].
  - exists (mkCollector (set_started false (set_shutdown false c)) fl).
    rewrite andb_false_r. split; [done|]. split; [|by apply unseen].
    by split; [..|exists r|].
  - exists (mkCollector c fl). rewrite andb_true_r. split; [done|]. split; [|by apply unseen].
    by split; [..|exists r|].
Qed.

(** The end of a task takes it out of flight. *)
Lemma finish_flight td fl i j now td' fl' :
  sched_inv (mkSched td fl) -> fl !! i = Some (j, true) ->
  sched_step (EFinish i now None) (mkSched td fl) = Ret (mkSched td' fl') tt ->
  fl' = delete i fl /\
  forall k b, (k, b) ∈ fl' <-> (k, b) ∈ fl /\ job_ID k <> job_ID j.
Proof.
  intros Hinv Hi E. destruct (running_token td fl i j true Hinv Hi) as (Hnone & Hj & _).
  destruct (finish_effect td fl i now j _ Hi Hj E) as [Hfl _]. cbn [sc_flight] in Hfl. subst fl'.
  split; [done|]. intros k b. split.
  - intros Hin. split.
    + rewrite (delete_Permutation fl i _ Hi). by right.
    + intros Hid. assert ((@None tptr, k) ∈ of_id (job_ID j) (toks (td_wheelTimer td) (delete i fl))) as Hk.
      2: by rewrite Hnone in Hk; apply elem_of_nil in Hk.
      apply list_elem_of_filter. split; [done|]. apply elem_of_app. right.
      apply list_elem_of_fmap. by exists (k, b).
  - intros [Hin Hid]. rewrite (delete_Permutation fl i _ Hi) in Hin.
    apply elem_of_cons in Hin as [[= -> ->]|Hin]; [by destruct Hid|done].
Qed.

Lemma follow_finish id now rs s p :
  follows s p -> fits (CFinish id now rs) p -> step_follows (CFinish id now rs) s p.
Proof.
  destruct s as [c fl]. intros [Hk Hst Hcl (r & Hr & Hf) Hb] [Hroom _]. cbn [co_client co_flight] in *.
  pose proof Hf as [Hs _]. unfold step_follows. cbn [collector_step expected plan_step co_flight].
  destruct (flight_at id true fl) as [i|] eqn:Ei.
  - destruct (flight_at_Some _ _ _ _ Ei) as (j & Hi & <-). rewrite Hi, results_sent.
    pose proof (list_elem_of_lookup_2 _ _ _ Hi) as Hin.
    assert (job_ID j ∈ pl_begun p) as Hbj by (apply Hb; by exists j).
    rewrite decide_True, (flight_phase _ _ _ j true Hs Hin) by done. cbn [co_client default].
    set (c1 := if cl_started c then _ else c).
    assert (cl_secretKey c1 = pl_key p /\ cl_started c1 = pl_online p /\ cl_shutdown c1 = pl_closing p /\
      cl_scheduler c1 = Some r) as (H1 & H2 & H3 & H4) by (unfold c1; case_match; split_and!; simpl; congruence).
    assert (disciplined (EFinish i now None) (mkSched (rn_TimeDispatch r) fl)) as Hd
      by (split; [by eapply sim_room|done]).
    destruct (schedule_follows (EFinish i now None) (mkCollector c1 fl) r _ H4 Hf Hd I)
      as (td' & fl' & E & Es & Hf'). cbn [co_client co_flight] in *.
    cbn [event_op sc_flight] in Hf'. rewrite Hi in Hf'. cbn [fold_left] in Hf'.
    destruct (finish_flight _ _ _ _ _ _ _ (sm_inv _ _ _ Hs) Hi E) as [Hfl Hfl'].
    exists (mkCollector (set_scheduler (mkRunner td' (rn_runningJobs r)) c1) fl').
    split; [exact Es|]. split; [split; try done; [by exists (mkRunner td' (rn_runningJobs r))|]|split].
    + cbn [co_flight pl_begun]. intros id. rewrite elem_of_difference, elem_of_singleton, (Hb id).
      split; [intros [(k & Hin' & <-) Hne]|intros (k & [Hin' Hne]%Hfl' & <-)].
      * exists k. split; [|done]. by apply Hfl'.
      * split; [by exists k|done].
    + apply starts_nothing. cbn [co_flight]. rewrite Hfl, length_delete by by eexists. lia.
    + exists []. split; [|done]. unfold observed. cbn [snd co_client set_scheduler cl_sent xp_results].
      unfold c1. rewrite <- Hst. destruct (cl_started c).
      * rewrite decide_True by done. cbn [add_sent cl_sent]. by rewrite drop_app_length.
      * rewrite decide_False by (by intros [_ ?]). by rewrite drop_all.
  - exists (mkCollector c fl). split; [done|].
    assert (id ∉ pl_begun p) as Hnb.
    { intros (j & Hin & Hid)%Hb. by apply (flight_at_None _ _ _ _ Ei Hin). }
    rewrite decide_False by done. split; [by split; [..|exists r|]|].
    replace (match ag_jobs (pl_agenda p) !! id with Some (j, _) => _ | None => [] end)
      with (@nil Message) by (destruct (ag_jobs _ !! id) as [[]|]; [by rewrite decide_False by (by intros [? _])|done]).
    by apply unseen.
Qed.

Lemma follow_step e s p : follows s p -> fits e p -> step_follows e s p.
Proof.
  destruct e; [apply follow_message|apply follow_tick|apply follow_begin|apply follow_finish|
    apply follow_offline].
Qed.

Lemma follow_run es : forall s p,
  follows s p -> plan_ok unmarshal_secret unmarshal_job unmarshal_ids unmarshal_id kind ticks es p ->
  let '(p', xs) := plan_run unmarshal_secret unmarshal_job unmarshal_ids unmarshal_id kind
                     ipc_write identity ticks es p in
  exists s' obs,
    collector_run unmarshal_secret unmarshal_job unmarshal_ids unmarshal_id kind ipc_write identity es s
      = Ret s' obs /\
    follows s' p' /\ Forall2 as_expected obs xs.
Proof.
  induction es as [|e es IH]; intros s p Hf Hok; [by exists s, []|].
  destruct Hok as [Hfit Hok]. destruct (follow_step e s p Hf Hfit) as (s1 & E & Hf1 & Ho).
  specialize (IH s1 _ Hf1 Hok). cbn [plan_run collector_run].
  destruct (plan_run _ _ _ _ _ _ _ _ es _) as [p' xs]. destruct IH as (s' & obs & E' & Hf' & Hobs).
  rewrite E, E'. exists s', (observed s s1 :: obs). split_and!; [done|done|by constructor].
Qed.

(** The start: a client with a new job runner over an idle timer. *)
Lemma follows_init now (timer : T) (c : client (Runner T)) :
  timer_ok timer -> timer_active timer -> pending timer = [] ->
  cl_scheduler c = Some (mkRunner (NewTimeDispatch now timer) ∅) -> ticks = timer_ticks timer ->
  follows (mkCollector c [])
    (mkPlan (cl_secretKey c) (cl_started c) (cl_shutdown c) ∅ (mkAgenda (timer_now timer) ∅)).
Proof.
  intros Hok Ha Hp Hc Ht. split; try done.
  - eexists. split; [exact Hc|]. split; [rewrite Ht; by apply sim_init|].
    unfold ag_registered. cbn. by rewrite fmap_empty.
  - intros id. cbn. split; [set_solver|]. by intros (j & ?%elem_of_nil & _).
Qed.

End Follows.

(** C2 (refinement). The collector as a whole follows its plan.  From a client
    whose job runner is new, over an idle timer, and for every interleaving of
    requests of the manager, ticks, the two parts of the tasks and the shutdown
    of the client that fits the plan, nothing panics; at each step exactly the
    jobs that the agenda has for that tick start, each once; a Netty client sends
    one reply of its type and identity to every request of the six answered
    types, a gRPC client none; and the end of a task sends one message for each of its results that can be written, in
    order, of the type of the job that the manager registered, or none when the
    client is down.  At the end the secret key and the running jobs are those of
    the plan. *)
Theorem collector_follows_plan {T} `{!TimerOps T WheelTimerTask, !TimerLaws T WheelTimerTask,
                                     !TimerClock T WheelTimerTask}
    unmarshal_secret unmarshal_job unmarshal_ids unmarshal_id kind ipc_write identity
    now (timer : T) (c : client (Runner T)) es :
  timer_ok timer -> timer_active timer -> pending timer = [] ->
  cl_scheduler c = Some (mkRunner (NewTimeDispatch now timer) ∅) ->
  let ticks := timer_ticks timer in
  let p0 := mkPlan (cl_secretKey c) (cl_started c) (cl_shutdown c) ∅ (mkAgenda (timer_now timer) ∅) in
  plan_ok unmarshal_secret unmarshal_job unmarshal_ids unmarshal_id kind ticks es p0 ->
  let '(p, expectations) :=
    plan_run unmarshal_secret unmarshal_job unmarshal_ids unmarshal_id kind ipc_write identity ticks es p0 in
  exists s obs r,
    collector_run unmarshal_secret unmarshal_job unmarshal_ids unmarshal_id kind ipc_write identity es
      (mkCollector c []) = Ret s obs /\
    Forall2 as_expected obs expectations /\
    cl_secretKey (co_client s) = pl_key p /\ cl_scheduler (co_client s) = Some r /\
    RunningJobs r = ag_registered (pl_agenda p).
Proof.
  intros Hok Ha Hp Hc ticks p0 Hplan.
  assert (follows ticks (mkCollector c []) p0) as Hf by (by apply (follows_init ticks now timer)).
  pose proof (follow_run unmarshal_secret unmarshal_job unmarshal_ids unmarshal_id kind ipc_write identity
    ticks es _ _ Hf Hplan) as Hrun.
  destruct (plan_run _ _ _ _ _ _ _ _ _ _) as [p xs].
  destruct Hrun as (s & obs & E & [Hk _ _ (r & Hr & _ & Hjobs) _] & Hobs).
  by exists s, obs, r.
Qed.

(** A plan can be checked. *)
Section Checking.
Context (unmarshal_secret : string -> res string) (unmarshal_job : string -> res Job)
        (unmarshal_ids : string -> res (list Z)) (unmarshal_id : string -> res Z) (kind : clientKind)
        (ticks : Z -> Z).

#[local] Instance job_ok_dec j : Decision (job_ok j).
Proof. unfold job_ok. apply _. Defined.

#[local] Instance some_dec {A} (P : A -> Prop) `{!forall x, Decision (P x)} (o : option A) :
  Decision (forall x, o = Some x -> P x).
Proof.
  refine (match o with Some x => cast_if (decide (P x)) | None => left _ end).
  - by intros ? [= <-].
  - intros Hall. by apply n, Hall.
  - by intros.
Defined.

#[export] Instance plan_fits_dec e p :
  Decision (plan_fits unmarshal_job unmarshal_ids unmarshal_id ticks e p).
Proof. destruct e; apply and_dec; apply _. Defined.

Fixpoint plan_okb (es : list collector_event) p : bool :=
  match es with
  | [] => true
  | e :: es =>
      bool_decide (plan_fits unmarshal_job unmarshal_ids unmarshal_id ticks e p) &&
      plan_okb es (plan_step unmarshal_secret unmarshal_job unmarshal_ids unmarshal_id kind ticks e p)
  end.

Lemma plan_okb_ok es : forall p,
  plan_okb es p = true ->
  plan_ok unmarshal_secret unmarshal_job unmarshal_ids unmarshal_id kind ticks es p.
Proof.
  induction es as [|e es IH]; intros p H; [done|].
  apply andb_true_iff in H as [Hfit%bool_decide_eq_true Hok]. split; [done|by apply IH].
Qed.

End Checking.

(** A cyclic job is issued, starts at the next tick and sends its result; then
    the client goes offline, and the second result is lost. *)
Definition ex_task (s : string) : res Job :=
  if String.eqb s "j7" then Ok (ex_job 7 100 false None) else Err "syntax".

Definition ex_result : CollectRepMetricsData :=
  mkCollectRep 0 0 0 "app" "cpu" 0 0 0 "" [] [] ∅ ∅.

Definition ex_day : list collector_event :=
  [CMessage 0 (mkMessage MessageTypeIssueCyclicTask REQUEST "1" "j7");
   CTick; CBegin 7 1; CMessage 2 (mkMessage MessageTypeDeleteCyclicTask REQUEST "2" "9");
   CFinish 7 3 [ex_result]; CMessage 4 (mkMessage MessageTypeGoOffline REQUEST "3" "");
   COffline] ++ replicate 1000 CTick ++ [CBegin 7 5; CFinish 7 6 [ex_result]].

Definition ex_online : client (Runner (timers WheelTimerTask)) :=
  mkClient true ∅ [] false "" (Some (mkRunner (NewTimeDispatch 0 ex_timer) ∅)).

Definition ex_plan : plan :=
  mkPlan (cl_secretKey ex_online) (cl_started ex_online) (cl_shutdown ex_online) ∅
    (mkAgenda (timer_now ex_timer) ∅).

Definition ex_summary (o : list Z * list Message) : list Z * list Z := (fst o, msg_Type <$> snd o).

(** What is seen of the run, step by step, without the steps that show nothing. *)
Definition ex_seen (kind : clientKind) : list (list Z * list Z) :=
  match collector_run ex_secret ex_task ex_ids ex_id kind ex_ipc "go-1" ex_day (mkCollector ex_online []) with
  | Ret _ obs => filter (fun o : list Z * list Z => o <> ([], [])) (ex_summary <$> obs)
  | Panic _ _ => []
  end.

(** The same over a gRPC client, which GO_OFFLINE leaves up. *)
Example ex_seen_grpc :
  ex_seen Grpc = [([7], []); ([], [MessageTypeResponseCyclicTaskData]);
                  ([7], []); ([], [MessageTypeResponseCyclicTaskData])].
Proof. vm_compute. reflexivity. Qed.

Lemma collector_follows_plan_witness :
  ex_seen Netty = [([], [MessageTypeIssueCyclicTask]); ([7], []); ([], [MessageTypeDeleteCyclicTask]);
                  ([], [MessageTypeResponseCyclicTaskData]); ([], [MessageTypeGoOffline]); ([7], [])] /\
  let '(p, expectations) :=
    plan_run ex_secret ex_task ex_ids ex_id Netty ex_ipc "go-1" (timer_ticks ex_timer) ex_day ex_plan in
  exists s obs r,
    collector_run ex_secret ex_task ex_ids ex_id Netty ex_ipc "go-1" ex_day (mkCollector ex_online [])
      = Ret s obs /\
    Forall2 as_expected obs expectations /\
    cl_secretKey (co_client s) = pl_key p /\ cl_scheduler (co_client s) = Some r /\
    RunningJobs r = ag_registered (pl_agenda p).
Proof.
  split; [vm_compute; reflexivity|].
  assert (plan_ok ex_secret ex_task ex_ids ex_id Netty (timer_ticks ex_timer) ex_day ex_plan) as Hplan
    by (apply plan_okb_ok; vm_compute; reflexivity).
  exact (collector_follows_plan ex_secret ex_task ex_ids ex_id Netty ex_ipc "go-1" 0 ex_timer ex_online ex_day
    (fresh_wf _ _) eq_refl ex_idle eq_refl Hplan).
Defined.
