(* ===== verification/Config.v ===== *)
(** * The configuration

    Models internal/config/config.go (loading, defaults, validation, the watcher
    that reloads the file), types/config/config_types.go, and the levels of the
    loggers of util/logger/logger.go and types/logger/logging_types.go.  The
    file system and the YAML decoder are parameters.  The watcher is a state
    machine whose steps are a notification and those of a goroutine that reloads
    the file: the end of its delay, when it reads it, and the storing of the
    configuration, of the logger and of the mark that nothing is pending. *)

From Stdlib Require Import Ascii String.
From S2P Require Import Prelude GoStrings WheelTimer.

Open Scope string_scope.
Open Scope list_scope.
Open Scope Z_scope.
Open Scope go_scope.

(** ** The configuration of a collector *)

Record CollectorInfo := mkInfo { ci_IP : string; ci_Name : string; ci_Port : string }.
Record ManagerConfig := mkManager { mc_Host : string; mc_Port : string; mc_Protocol : string }.

(** [CollectorSection], the only field of CollectorConfig; the sections Log and
    MetricsConfig have one field each. *)
Record CollectorConfig := mkConfig {
  cfg_Info : CollectorInfo;
  cfg_LogLevel : string;
  cfg_Manager : ManagerConfig;
  cfg_Identity : string;
  cfg_Mode : string;
  cfg_MetricsPort : Z;
}.

Definition DefaultHertzBeatCollectorName : string := "hertzbeat-collector".
Definition LogLevelInfo : string := "info".

Definition set_Name (name : string) (c : CollectorConfig) : CollectorConfig :=
  mkConfig (mkInfo (ci_IP (cfg_Info c)) name (ci_Port (cfg_Info c))) (cfg_LogLevel c)
    (cfg_Manager c) (cfg_Identity c) (cfg_Mode c) (cfg_MetricsPort c).
Definition set_LogLevel (level : string) (c : CollectorConfig) : CollectorConfig :=
  mkConfig (cfg_Info c) level (cfg_Manager c) (cfg_Identity c) (cfg_Mode c) (cfg_MetricsPort c).
Definition set_Protocol (protocol : string) (c : CollectorConfig) : CollectorConfig :=
  mkConfig (cfg_Info c) (cfg_LogLevel c)
    (mkManager (mc_Host (cfg_Manager c)) (mc_Port (cfg_Manager c)) protocol)
    (cfg_Identity c) (cfg_Mode c) (cfg_MetricsPort c).

(** A string, or a default for the empty one. *)
Definition or_default (s d : string) : string := if String.eqb s "" then d else s.

Definition applyDefaults (c : CollectorConfig) : CollectorConfig :=
  let c := set_Name (or_default (ci_Name (cfg_Info c)) DefaultHertzBeatCollectorName) c in
  let c := set_LogLevel (or_default (cfg_LogLevel c) LogLevelInfo) c in
  set_Protocol (or_default (mc_Protocol (cfg_Manager c)) "http") c.

(** [ValidateConfig]: the configuration that the pointer leads to afterwards. *)
Definition ValidateConfig (cfg : option CollectorConfig) : res CollectorConfig :=
  match cfg with
  | None => Err "config is nil"
  | Some c =>
      if String.eqb (ci_IP (cfg_Info c)) "" then Err "collector ip is empty"
      else if String.eqb (ci_Port (cfg_Info c)) "" then Err "collector port is empty"
      else Ok (set_Name (or_default (ci_Name (cfg_Info c)) DefaultHertzBeatCollectorName) c)
  end.

Definition GetManagerAddress (cfg : option CollectorConfig) : string :=
  match cfg with
  | None => ""
  | Some c =>
      let m := cfg_Manager c in
      if String.eqb (mc_Host m) "" then ""
      else or_default (mc_Protocol m) "http" +:+ "://" +:+ mc_Host m +:+ ":" +:+ mc_Port m
  end.

(** ** Loggers

    A logger has a map of levels per component and the level it was made with. *)
Record Logger := mkLogger { lg_logging : gmap string string; lg_level : string }.

Definition LogComponentHertzbeatDefault : string := "default".

Definition DefaultHertzbeatLogging : gmap string string :=
  {[LogComponentHertzbeatDefault := LogLevelInfo]}.

(** The level of a component; a missing one reads as the empty string. *)
Definition component_level (logging : gmap string string) (component : string) : string :=
  default "" (logging !! component).

Definition DefaultHertzBeatLoggingLevel (logging : gmap string string) (level : string) : string :=
  if negb (String.eqb level "") then level
  else if negb (String.eqb (component_level logging LogComponentHertzbeatDefault) "")
       then component_level logging LogComponentHertzbeatDefault
  else LogLevelInfo.

(** [initZapLogger]: the level that it parses. *)
Definition initZapLogger (logging : gmap string string) (level : string) : string :=
  DefaultHertzBeatLoggingLevel logging level.

Definition NewLogger (logging : gmap string string) : Logger :=
  mkLogger logging (initZapLogger logging (component_level logging LogComponentHertzbeatDefault)).

Definition DefaultLogger (level : string) : Logger :=
  mkLogger DefaultHertzbeatLogging (initZapLogger DefaultHertzbeatLogging level).

Definition WithName (name : string) (l : Logger) : Logger :=
  mkLogger (lg_logging l) (initZapLogger (lg_logging l) (component_level (lg_logging l) name)).

Definition WithValues (l : Logger) : Logger := l.

(** [FileLogger], given whether the file could be opened for writing. *)
Definition FileLogger {S} (open_error : option error) (name level : string) : M S Logger :=
  match open_error with
  | Some e => mpanic e
  | None => mret (DefaultLogger level)
  end.

(** [SetHertzBeatLoggingDefaults]; a pointer, and a map, may be nil. *)
Definition SetHertzBeatLoggingDefaults (logging : option (option (gmap string string)))
    : option (option (gmap string string)) :=
  match logging with
  | Some (Some levels) =>
      if String.eqb (component_level levels LogComponentHertzbeatDefault) ""
      then Some (Some (<[LogComponentHertzbeatDefault := LogLevelInfo]> levels))
      else logging
  | _ => logging
  end.

(** The defaults say what holds without them. *)
Lemma defaults_redundant levels level :
  exists levels', SetHertzBeatLoggingDefaults (Some (Some levels)) = Some (Some levels') /\
    DefaultHertzBeatLoggingLevel levels' level = DefaultHertzBeatLoggingLevel levels level.
Proof.
  unfold SetHertzBeatLoggingDefaults. destruct (String.eqb (component_level levels _) "") eqn:E.
  - eexists. split; [done|]. unfold DefaultHertzBeatLoggingLevel.
    destruct (negb (String.eqb level "")); [done|]. rewrite E. unfold component_level at 1 2.
    by rewrite lookup_insert_eq.
  - by eexists.
Qed.

(** [reloadLogging]: the new logger of the loader. *)
Definition reloadLogging (cfg : CollectorConfig) : Logger :=
  WithName "config-loader" (DefaultLogger (or_default (cfg_LogLevel cfg) LogLevelInfo)).

(** ** Package path/filepath, on the separator [/] *)

(** The stack of elements, the last one first, after one more element. *)
Definition clean_element (rooted : bool) (stack : list string) (e : string) : list string :=
  if String.eqb e "" || String.eqb e "." then stack
  else if String.eqb e ".." then
    match stack with
    | top :: rest => if String.eqb top ".." then e :: stack else rest
    | [] => if rooted then [] else [e]
    end
  else e :: stack.

(** [filepath.Clean]. *)
Definition Clean (path : string) : string :=
  let rooted := String.prefix "/" path in
  let s := String.concat "/" (rev (foldl (clean_element rooted) [] (Split path "/"))) in
  if rooted then "/" +:+ s else if String.eqb s "" then "." else s.

(** The text after the last separator. *)
Definition after_slash (path : string) : string := List.last (Split path "/") "".

(** [filepath.Base]. *)
Definition Base (path : string) : string :=
  let path' := trim_right (Ascii.eqb "/") path in
  if String.eqb path "" then "."
  else if String.eqb path' "" then "/" else after_slash path'.

(** [filepath.Dir]. *)
Definition Dir (path : string) : string :=
  Clean (str_take (String.length path - String.length (after_slash path)) path).

(** ** The loader *)

(** A file system: resolving the links of a path, the error of [Stat] when the
    file does not exist, and reading. *)
Record FS := mkFS {
  fs_EvalSymlinks : string -> res string;
  fs_NotExist : string -> option error;
  fs_ReadFile : string -> res string;
}.

Section Loader.
(** [yaml.Unmarshal]. *)
Context (unmarshal : string -> res CollectorConfig).

Definition parseConfigFile (fs : FS) (path : string) : res CollectorConfig :=
  let resolved := match fs_EvalSymlinks fs path with Ok r => r | Err _ => path end in
  match fs_NotExist fs resolved with
  | Some e => Err e
  | None =>
      match fs_ReadFile fs resolved with
      | Err e => Err e
      | Ok data =>
          match unmarshal data with
          | Err e => Err e
          | Ok cfg => Ok (applyDefaults cfg)
          end
      end
  end.

Definition LoadConfig (fs : FS) (cfgPath : string) : res CollectorConfig :=
  if String.eqb cfgPath "" then Err "config path is required" else parseConfigFile fs cfgPath.

(** [getConfigByPath] of the server command. *)
Definition getConfigByPath (fs : FS) (cfgPath : string) : res CollectorConfig :=
  match LoadConfig fs cfgPath with
  | Err e => Err e
  | Ok cfg => ValidateConfig (Some cfg)
  end.

(** ** The watcher *)

(** Where a goroutine that reloads is: asleep until a time, after it has read and
    validated a configuration, after it has made it the global one, and after the
    closure [reload]. *)
Inductive reload_state :=
| RSleep (due : Z)
| RRead (newCfg : CollectorConfig)
| RStored (newCfg : CollectorConfig)
| RDone.

(** [w_global] is the global configuration, [w_logger] the logger of the loader;
    [w_pending] and [w_last] are the variables of the debouncing; [w_reloads]
    holds the goroutines that reload. *)
Record watcher := mkWatcher {
  w_global : option CollectorConfig;
  w_logger : Logger;
  w_pending : bool;
  w_last : Z;
  w_reloads : list reload_state;
}.

Record fs_event := mkEvent { ev_Op : Z; ev_Name : string }.

Context (cfgFile : string).
(** The bits of Write, Create, Remove, Rename and Chmod. *)
Context (watched_ops : Z).

Definition relevant (ev : fs_event) : bool :=
  negb (Z.land (ev_Op ev) watched_ops =? 0) &&
  (String.eqb (Base (ev_Name ev)) (Base cfgFile) || String.eqb (Dir (ev_Name ev)) (Dir cfgFile)).

(** A notification: the body of the case of watcher.Events. *)
Definition on_event (now : Z) (ev : fs_event) (w : watcher) : watcher :=
  if relevant ev && (negb (w_pending w) || (250 * Millisecond <? now - w_last w)) then
    mkWatcher (w_global w) (w_logger w) true now (w_reloads w ++ [RSleep (now + 300 * Millisecond)])
  else w.

(** The closure [reload] up to [SetGlobalConfig]. *)
Definition reload (fs : FS) : reload_state :=
  match parseConfigFile fs cfgFile with
  | Err _ => RDone
  | Ok newCfg =>
      match ValidateConfig (Some newCfg) with
      | Err _ => RDone
      | Ok newCfg => RRead newCfg
      end
  end.

Definition set_reload (i : nat) (r : reload_state) (w : watcher) : watcher :=
  mkWatcher (w_global w) (w_logger w) (w_pending w) (w_last w) (<[i := r]> (w_reloads w)).

Definition SetGlobalConfig (cfg : CollectorConfig) (w : watcher) : watcher :=
  mkWatcher (Some cfg) (w_logger w) (w_pending w) (w_last w) (w_reloads w).

Definition set_logger (l : Logger) (w : watcher) : watcher :=
  mkWatcher (w_global w) l (w_pending w) (w_last w) (w_reloads w).

(** One step of a goroutine that reloads: no lock orders the steps of two of
    them. *)
Definition run_reload (now : Z) (i : nat) (fs : FS) (r : reload_state) (w : watcher)
    : option watcher :=
  match r with
  | RSleep due => if due <=? now then Some (set_reload i (reload fs) w) else None
  | RRead newCfg => Some (set_reload i (RStored newCfg) (SetGlobalConfig newCfg w))
  | RStored newCfg => Some (set_reload i RDone (set_logger (reloadLogging newCfg) w))
  | RDone => Some (mkWatcher (w_global w) (w_logger w) false (w_last w) (delete i (w_reloads w)))
  end.

Inductive watch_action :=
| Notify (ev : fs_event)
| Reload (i : nat) (fs : FS).

(** One action; [None] where it cannot happen, because the goroutine does not
    exist or still sleeps. *)
Definition watch_step (now : Z) (a : watch_action) (w : watcher) : option watcher :=
  match a with
  | Notify ev => Some (on_event now ev w)
  | Reload i fs =>
      match w_reloads w !! i with
      | Some r => run_reload now i fs r w
      | None => None
      end
  end.

(** Actions at times that do not decrease. *)
Fixpoint watch (t : Z) (l : list (Z * watch_action)) (w : watcher) : option watcher :=
  match l with
  | [] => Some w
  | (now, a) :: rest =>
      if t <=? now then
        match watch_step now a w with Some w' => watch now rest w' | None => None end
      else None
  end.

(** The state in which the loop of [WatchConfigAndReload] starts. *)
Definition start_watch (global : option CollectorConfig) : watcher :=
  mkWatcher global (WithName "config-loader" (DefaultLogger LogLevelInfo)) false 0 [].

End Loader.

(** ** Proofs *)

Example clean_paths :
  Clean "/etc/../hb//conf/./c.yaml" = "/hb/conf/c.yaml" /\ Clean "../a/.." = ".." /\ Clean "" = "." /\
  Clean "/.." = "/" /\ Dir "/etc/hb/c.yaml" = "/etc/hb" /\ Dir "c.yaml" = "." /\ Dir "/c" = "/" /\
  Base "/etc/hb/c.yaml" = "c.yaml" /\ Base "/etc/hb/" = "hb" /\ Base "//" = "/" /\ Base "" = ".".
Proof. vm_compute. repeat split. Qed.

Section Proofs.
Context (unmarshal : string -> res CollectorConfig) (cfgFile : string) (watched_ops : Z).
Local Abbreviation run_watch := (watch unmarshal cfgFile watched_ops) (only parsing).
Local Abbreviation one := (watch_step unmarshal cfgFile watched_ops) (only parsing).

(** The configuration that a reload installs. *)
Definition loaded (fs : FS) : res CollectorConfig :=
  match parseConfigFile unmarshal fs cfgFile with
  | Err e => Err e
  | Ok cfg => ValidateConfig (Some cfg)
  end.

(** While a reload is pending, the last one that was started still sleeps, or
    its time has come. *)
Definition debounced (now : Z) (w : watcher) : Prop :=
  w_pending w = true ->
  w_last w <= now /\
  (RSleep (w_last w + 300 * Millisecond) ∈ w_reloads w \/ w_last w + 300 * Millisecond <= now).

(** A goroutine stays as it is when another one moves on. *)
Lemma elem_of_move (l : list reload_state) i x y (r : option reload_state) :
  l !! i = Some y -> x ∈ l -> x <> y ->
  x ∈ match r with Some z => <[i := z]> l | None => delete i l end.
Proof.
  intros Hi Hx Hne. apply list_elem_of_lookup in Hx as [k Hk]. assert (k <> i) by congruence.
  apply list_elem_of_lookup. destruct r as [z|]; [exists k; by rewrite list_lookup_insert_ne|].
  destruct (decide (k < i)%nat).
  - exists k. by rewrite list_lookup_delete_lt by lia.
  - exists (k - 1)%nat. rewrite list_lookup_delete_ge by lia. by replace (S (k - 1)) with k by lia.
Qed.

(** What a step of a goroutine does to the others and to the debouncing. *)
Lemma run_reload_moves now i fs r w w' :
  run_reload unmarshal cfgFile now i fs r w = Some w' ->
  exists r', w_reloads w' = (match r' with Some z => <[i := z]> (w_reloads w) | None => delete i (w_reloads w) end) /\
    w_last w' = w_last w /\ (w_pending w' = true -> w_pending w = true) /\
    (forall due, r = RSleep due -> due <= now).
Proof.
  destruct r as [due|cfg|cfg|]; simpl.
  - destruct (due <=? now) eqn:E; [|done]. bool_to_prop. intros [= <-]. eexists (Some _).
    split_and!; [done|done|done|]. by intros ? [= <-].
  - intros [= <-]. by eexists (Some _).
  - intros [= <-]. by eexists (Some _).
  - intros [= <-]. by exists None.
Qed.

Lemma step_debounced t now a w w' :
  t <= now -> one now a w = Some w' -> debounced t w -> debounced now w'.
Proof.
  intros Ht Hs Hd. destruct a as [ev|i fs]; simpl in Hs.
  - injection Hs as <-. unfold on_event. destruct (_ && _) eqn:E.
    + intros _. split; [simpl; lia|]. left. simpl. apply elem_of_app. right. by apply list_elem_of_singleton.
    + intros Hp. destruct (Hd Hp) as [? [?|?]]; (split; [lia|]); [by left|right; lia].
  - destruct (w_reloads w !! i) as [r|] eqn:Hi; [|done].
    apply run_reload_moves in Hs as (r' & Hw & Hl & Hp & Hdue). intros Hp'.
    destruct (Hd (Hp Hp')) as [Hle [Hin|?]]; rewrite Hl; (split; [lia|]); [|right; lia].
    destruct r as [due| | |].
    + destruct (decide (due = w_last w + 300 * Millisecond)) as [->|Hne]; [right; by apply Hdue|].
      left. rewrite Hw. eapply elem_of_move; [exact Hi|done|congruence].
    + left. rewrite Hw. by eapply elem_of_move.
    + left. rewrite Hw. by eapply elem_of_move.
    + left. rewrite Hw. by eapply elem_of_move.
Qed.

Lemma watch_app l1 : forall t l2 w w',
  run_watch t (l1 ++ l2) w = Some w' ->
  exists t1 w1, run_watch t l1 w = Some w1 /\ run_watch t1 l2 w1 = Some w' /\ t <= t1 /\
    (debounced t w -> debounced t1 w1).
Proof.
  induction l1 as [|[now a] l1 IH]; intros t l2 w w' H.
  { exists t, w. split_and!; [done|done|lia|done]. }
  cbn [app watch] in *. destruct (t <=? now) eqn:Et; [|done]. bool_to_prop.
  destruct (one now a w) as [w1|] eqn:Es; [|done].
  destruct (IH _ _ _ _ H) as (t1 & w2 & E1 & E2 & Hle & Hd). exists t1, w2.
  split_and!; [done|done|lia|]. intros Hw. apply Hd. by eapply step_debounced.
Qed.

(** After a relevant event a reload sleeps that will end later. *)
Lemma event_reload t now ev w w' :
  debounced t w -> t <= now -> relevant cfgFile watched_ops ev = true ->
  one now (Notify ev) w = Some w' ->
  exists due, RSleep due ∈ w_reloads w' /\ now < due <= now + 300 * Millisecond.
Proof.
  intros Hd Ht Hr Hs. injection Hs as <-. unfold on_event. rewrite Hr. cbn [andb].
  assert (Millisecond = 1000000) as Hms by reflexivity.
  destruct (w_pending w) eqn:Hp; cbn [negb orb].
  - destruct (250 * Millisecond <? now - w_last w) eqn:E; bool_to_prop.
    + exists (now + 300 * Millisecond). split; [|lia].
      apply elem_of_app. right. by apply list_elem_of_singleton.
    + destruct (Hd Hp) as [Hle [Hin|Hdue]]; [|lia]. eexists. split; [exact Hin|lia].
  - exists (now + 300 * Millisecond). split; [|lia].
    apply elem_of_app. right. by apply list_elem_of_singleton.
Qed.

(** The configuration of the file is in force, or, where it does not load, what
    was in force in [w0]. *)
Definition in_force (fs : FS) (w0 w : watcher) : Prop :=
  match loaded fs with
  | Ok cfg => w_global w = Some cfg /\ w_logger w = reloadLogging cfg
  | Err _ => w_global w = w_global w0 /\ w_logger w = w_logger w0
  end.

Definition reads_only (fs : FS) (l : list (Z * watch_action)) : Prop :=
  Forall (fun x => match snd x with Reload _ fs' => fs' = fs | Notify _ => True end) l.

Definition asleep (r : reload_state) : Prop := match r with RSleep _ => True | _ => False end.

Lemma reload_loaded fs :
  reload unmarshal cfgFile fs = match loaded fs with Ok cfg => RRead cfg | Err _ => RDone end.
Proof.
  unfold reload, loaded. destruct (parseConfigFile _ _ _) as [cfg|]; [|done]. by destruct (ValidateConfig _).
Qed.

(** Every goroutine has read [cfg], if any; [cfg] is the global configuration or
    one is still to store it, and likewise for the logger. *)
Definition reloading (cfg : CollectorConfig) (w : watcher) : Prop :=
  Forall (fun r => match r with RRead c | RStored c => c = cfg | _ => True end) (w_reloads w) /\
  (w_global w = Some cfg \/
   exists r, r ∈ w_reloads w /\ match r with RSleep _ | RRead _ => True | _ => False end) /\
  (w_logger w = reloadLogging cfg \/ exists r, r ∈ w_reloads w /\ r <> RDone).

(** No goroutine has read anything, and nothing has changed since [w0]. *)
Definition idle (w0 w : watcher) : Prop :=
  Forall (fun r => asleep r \/ r = RDone) (w_reloads w) /\
  w_global w = w_global w0 /\ w_logger w = w_logger w0.

Lemma reload_reloading cfg fs now i r w w' :
  loaded fs = Ok cfg -> w_reloads w !! i = Some r ->
  run_reload unmarshal cfgFile now i fs r w = Some w' -> reloading cfg w -> reloading cfg w'.
Proof.
  intros Hl Hi Hs (Hf & Hg & Hlog). pose proof (proj1 (Forall_lookup _ _) Hf _ _ Hi) as Hr.
  pose proof (lookup_lt_Some _ _ _ Hi) as Hlt.
  assert (forall z, z ∈ <[i := z]> (w_reloads w)) as Hnew
    by (intros z; apply list_elem_of_lookup; exists i; by rewrite list_lookup_insert_eq).
  destruct r as [due|c|c|]; cbn [run_reload] in Hs.
  - destruct (due <=? now); [|done]. injection Hs as <-. rewrite reload_loaded, Hl. split_and!.
    + by apply Forall_insert.
    + right. exists (RRead cfg). by split.
    + right. exists (RRead cfg). by split.
  - injection Hs as <-. subst c. split_and!.
    + by apply Forall_insert.
    + by left.
    + right. exists (RStored cfg). by split.
  - injection Hs as <-. subst c. split_and!.
    + by apply Forall_insert.
    + destruct Hg as [Hg|(r & Hr' & Hc)]; [by left|right]. exists r. split; [|done].
      apply (elem_of_move _ i r _ (Some RDone) Hi Hr'). by intros ->.
    + by left.
  - injection Hs as <-. split_and!.
    + by apply Forall_delete.
    + destruct Hg as [Hg|(r & Hr' & Hc)]; [by left|right]. exists r. split; [|done].
      apply (elem_of_move _ i r _ None Hi Hr'). by intros ->.
    + destruct Hlog as [Hg'|(r & Hr' & Hc)]; [by left|right]. exists r. split; [|done].
      by apply (elem_of_move _ i r _ None Hi Hr').
Qed.

Lemma reload_idle e fs w0 now i r w w' :
  loaded fs = Err e -> w_reloads w !! i = Some r ->
  run_reload unmarshal cfgFile now i fs r w = Some w' -> idle w0 w -> idle w0 w'.
Proof.
  intros Hl Hi Hs (Hf & Hg & Hlog). pose proof (proj1 (Forall_lookup _ _) Hf _ _ Hi) as Hr.
  destruct r as [due|c|c|]; cbn [run_reload] in Hs; [|by destruct Hr..|].
  - destruct (due <=? now); [|done]. injection Hs as <-. rewrite reload_loaded, Hl.
    split_and!; [|done|done]. apply Forall_insert; [done|by right].
  - injection Hs as <-. split_and!; [by apply Forall_delete|done|done].
Qed.

Lemma watch_keeps fs (P : watcher -> Prop) l :
  reads_only fs l ->
  (forall now ev w, P w -> P (on_event cfgFile watched_ops now ev w)) ->
  (forall now i r w w', w_reloads w !! i = Some r ->
     run_reload unmarshal cfgFile now i fs r w = Some w' -> P w -> P w') ->
  forall t w w', run_watch t l w = Some w' -> P w -> P w'.
Proof.
  intros Hl Hev Hrl. induction Hl as [|[now a] l Ha _ IH]; intros t w w' H Hw; [by injection H as <-|].
  cbn [watch] in H. destruct (t <=? now); [|done].
  destruct (one now a w) as [w1|] eqn:Es; [|done]. eapply IH; [exact H|]. clear IH H.
  destruct a as [ev|i fs']; cbn [watch_step] in Es; [injection Es as <-; by apply Hev|].
  cbn [snd] in Ha. subst fs'. destruct (w_reloads w !! i) as [r|] eqn:Ei; [|done]. by eapply Hrl.
Qed.

(** Once the goroutines have ended. *)
Lemma watch_in_force fs l t w0 w w' due :
  reads_only fs l -> run_watch t l w = Some w' ->
  Forall asleep (w_reloads w) -> RSleep due ∈ w_reloads w ->
  w_global w = w_global w0 -> w_logger w = w_logger w0 ->
  w_reloads w' = [] -> in_force fs w0 w'.
Proof.
  intros Hl H Ha Hin Hg Hlog Hnil. unfold in_force. destruct (loaded fs) as [cfg|e] eqn:El.
  - assert (reloading cfg w') as (_ & Hg' & Hlog').
    { eapply (watch_keeps fs (reloading cfg) l Hl); [| |exact H|].
      - intros now ev w1 (H1 & H2 & H3). unfold on_event. destruct (_ && _); [|by split_and!].
        split_and!; cbn [w_reloads w_global w_logger].
        + apply Forall_app. split; [done|by repeat constructor].
        + destruct H2 as [H2|(r & ? & ?)]; [by left|right]. exists r. split; [|done]. apply elem_of_app. by left.
        + destruct H3 as [H3|(r & ? & ?)]; [by left|right]. exists r. split; [|done]. apply elem_of_app. by left.
      - intros now i r w1 w2. by apply reload_reloading.
      - split_and!; [|right; by exists (RSleep due)|right; by exists (RSleep due)].
        eapply Forall_impl; [exact Ha|]. by intros []. }
    rewrite Hnil in *.
    destruct Hg' as [Hg'|(r & Hr & _)]; [|by apply not_elem_of_nil in Hr].
    destruct Hlog' as [Hlog'|(r & Hr & _)]; [|by apply not_elem_of_nil in Hr]. by split.
  - assert (idle w0 w') as (_ & ? & ?); [|done].
    eapply (watch_keeps fs (idle w0) l Hl); [| |exact H|].
    + intros now ev w1 (H1 & H2 & H3). unfold on_event. destruct (_ && _); [|by split_and!].
      split_and!; [|done|done]. apply Forall_app. split; [done|]. constructor; [by left|constructor].
    + intros now i r w1 w2. by eapply reload_idle.
    + split_and!; [|done|done]. eapply Forall_impl; [exact Ha|]. by left.
Qed.

Lemma watch_level l : forall t w w',
  lg_level (w_logger w) = LogLevelInfo -> run_watch t l w = Some w' ->
  lg_level (w_logger w') = LogLevelInfo.
Proof.
  induction l as [|[now a] l IH]; intros t w w' Hw H; [by injection H as <-|].
  cbn [watch] in H. destruct (t <=? now); [|done].
  destruct (one now a w) as [w1|] eqn:Es; [|done]. eapply IH; [|exact H]. clear IH H.
  destruct a as [ev|i fs]; cbn [watch_step] in Es.
  - injection Es as <-. unfold on_event. by destruct (_ && _).
  - destruct (w_reloads w !! i) as [r|]; [|done].
    destruct r as [due|c|c|]; simpl in Es; [destruct (due <=? now); [|done]|..]; by injection Es as <-.
Qed.

End Proofs.

(** ** Properties *)

(** C22 (liveness). The debouncing of the watcher loses no change of the file.
    After a notification about the file at time [t], whatever went on before, a
    goroutine sleeps that will read the file after [t], within 300 milliseconds
    and without waiting for another.  If every goroutine that was reloading then
    was still asleep, the configuration of the file is in force once all of them
    have ended, the file having stayed as it was after [t], or, where that one
    does not load, the one from before.  (A goroutine that had read the file
    before the change may otherwise store the old configuration after the new
    one: nothing orders them.) *)
Theorem watch_loses_no_change unmarshal cfgFile watched_ops t0 g pre t ev post fs w :
  watch unmarshal cfgFile watched_ops t0 (pre ++ (t, Notify ev) :: post) (start_watch g) = Some w ->
  relevant cfgFile watched_ops ev = true -> reads_only fs post ->
  exists w1 w2,
    watch unmarshal cfgFile watched_ops t0 pre (start_watch g) = Some w1 /\
    watch_step unmarshal cfgFile watched_ops t (Notify ev) w1 = Some w2 /\
    (exists due, RSleep due ∈ w_reloads w2 /\ t < due <= t + 300 * Millisecond) /\
    (Forall asleep (w_reloads w1) -> w_reloads w = [] -> in_force unmarshal cfgFile fs w1 w).
Proof.
  intros H Hr Hfs. apply watch_app in H as (t1 & w1 & E1 & E2 & Ht & Hd).
  cbn [watch] in E2. destruct (t1 <=? t) eqn:Et; [|done]. bool_to_prop.
  destruct (watch_step _ _ _ t (Notify ev) w1) as [w2|] eqn:Es; [|done].
  assert (debounced t1 w1) as Hw1 by (by apply Hd).
  destruct (event_reload unmarshal _ _ _ _ _ _ _ Hw1 Et Hr Es) as (due & Hin & Hdue).
  exists w1, w2. split_and!; [done|done|by exists due|]. intros Ha Hnil.
  cbn [watch_step] in Es. injection Es as <-.
  eapply watch_in_force; [exact Hfs|exact E2| |exact Hin| | |exact Hnil];
    unfold on_event; destruct (_ && _); try done.
  apply Forall_app. split; [done|by repeat constructor].
Qed.

Definition ex_config (protocol : string) : CollectorConfig :=
  mkConfig (mkInfo "10.0.0.1" "" "8080") "debug" (mkManager "m" "1158" protocol) "" "" 0.

Definition ex_yaml (s : string) : res CollectorConfig :=
  if String.eqb s "netty" then Ok (ex_config "netty")
  else if String.eqb s "none" then Ok (ex_config "") else Err "yaml".

Definition ex_fs (content : string) : FS :=
  mkFS (fun p => Ok p) (fun _ => None) (fun _ => Ok content).

(** Two notifications within the debouncing, one reload. *)
Lemma watch_loses_no_change_witness :
  exists w w1 w2,
    watch ex_yaml "/etc/hb/c.yaml" 31 0
      ([(0, Notify (mkEvent 2 "/etc/hb/c.yaml"))] ++ (100 * Millisecond, Notify (mkEvent 2 "/etc/hb/x"))
         :: replicate 4 (400 * Millisecond, Reload 0 (ex_fs "netty"))) (start_watch None) = Some w /\
    watch_step ex_yaml "/etc/hb/c.yaml" 31 (100 * Millisecond) (Notify (mkEvent 2 "/etc/hb/x")) w1 = Some w2 /\
    (exists due, RSleep due ∈ w_reloads w2 /\ 100 * Millisecond < due <= 100 * Millisecond + 300 * Millisecond) /\
    w_global w = Some (set_Name DefaultHertzBeatCollectorName (ex_config "netty")).
Proof.
  eexists.
  destruct (watch_loses_no_change ex_yaml "/etc/hb/c.yaml" 31 0 None
    [(0, Notify (mkEvent 2 "/etc/hb/c.yaml"))] (100 * Millisecond) (mkEvent 2 "/etc/hb/x")
    (replicate 4 (400 * Millisecond, Reload 0 (ex_fs "netty"))) (ex_fs "netty") _ eq_refl eq_refl)
    as (w1 & w2 & H1 & H2 & H3 & H4).
  - by repeat constructor.
  - exists w1, w2. split_and!; [vm_compute; reflexivity|exact H2|exact H3|apply H4; [|reflexivity]].
    injection H1 as <-. by repeat constructor.
Defined.

(** A reload that had read the file before it changed stores its configuration
    after the reload that read the new one: the old configuration is in force,
    and nothing is pending. *)
Example stale_reload_wins :
  let ev := Notify (mkEvent 2 "/etc/hb/c.yaml") in
  let old i := Reload i (ex_fs "none") in
  let new i := Reload i (ex_fs "netty") in
  let ms t := t * Millisecond in
  (fun w => (mc_Protocol ∘ cfg_Manager <$> w_global w, w_pending w, w_reloads w)) <$>
    watch ex_yaml "/etc/hb/c.yaml" 31 0
      ([(0, ev); (ms 300, old 0%nat); (ms 301, ev)] ++ replicate 4 (ms 601, new 1%nat) ++
       replicate 3 (ms 700, new 0%nat)) (start_watch None)
  = Some (Some "http", false, []).
Proof. vm_compute. reflexivity. Qed.

(** The level of the configuration never takes effect.  Giving a
    logger a name replaces its level by that of its component, for which only a
    default exists; so the logger of the loader has the level info after every
    sequence of reloads, and so has every named logger of the collector. *)
Theorem log_level_never_changes unmarshal cfgFile watched_ops t g l :
  (forall w, watch unmarshal cfgFile watched_ops t l (start_watch g) = Some w ->
   lg_level (w_logger w) = LogLevelInfo) /\
  (forall level name, lg_level (WithName name (DefaultLogger level)) = LogLevelInfo).
Proof.
  split; [intros w; by apply watch_level|]. intros level name. unfold WithName, DefaultLogger. simpl.
  unfold initZapLogger, DefaultHertzBeatLoggingLevel, component_level, DefaultHertzbeatLogging.
  destruct (decide (name = LogComponentHertzbeatDefault)) as [->|Hne]; [by rewrite lookup_singleton_eq|].
  by rewrite lookup_singleton_ne by congruence.
Qed.

Lemma log_level_never_changes_witness :
  exists w,
    watch ex_yaml "/etc/hb/c.yaml" 31 0
      ((0, Notify (mkEvent 2 "/etc/hb/c.yaml")) ::
        replicate 4 (300 * Millisecond, Reload 0 (ex_fs "netty")))
      (start_watch None) = Some w /\
    cfg_LogLevel <$> w_global w = Some "debug" /\ lg_level (w_logger w) = LogLevelInfo.
Proof.
  eexists. split; [vm_compute; reflexivity|]. split; [reflexivity|].
  eapply (proj1 (log_level_never_changes ex_yaml "/etc/hb/c.yaml" 31 0 None
    ((0, Notify (mkEvent 2 "/etc/hb/c.yaml")) ::
        replicate 4 (300 * Millisecond, Reload 0 (ex_fs "netty"))))).
  vm_compute. reflexivity.
Defined.
