(* ===== verification/Transport.v ===== *)
(** * The life of the connection to the manager

    Models internal/transport/transport.go, and of netty_client.go and
    grpc_client.go the functions that start, watch and end a connection.  Every
    goroutine is in a pool; a step runs one goroutine of the pool from one wait
    (a sleep, a blocking read, the head of a loop) to the next, with what it
    observes of the world outside as an argument.  Connections are third-party
    code and appear only as these observations. *)

From Stdlib Require Import Ascii String.
From S2P Require Import Prelude GoStrings WheelTimer TimerService JobTypes Crypto Params TimeDispatch Scheduler JobServer Processors Units Calc Collect Router Config.

Open Scope string_scope.
Open Scope list_scope.
Open Scope Z_scope.
Open Scope go_scope.

Definition DefaultManagerAddr : string := "127.0.0.1:1158".
Definition DefaultProtocol : string := "netty".
Definition DefaultMode : string := "public".
Definition DefaultIdentity : string := "collector-go".

Inductive EventType := EventConnected | EventDisconnected | EventConnectFailed.

(** [TransportClientFactory.CreateClient]: the kind of the client. *)
Definition CreateClient (protocol : string) : res clientKind :=
  if String.eqb protocol "grpc" then Ok Grpc
  else if String.eqb protocol "netty" then Ok Netty
  else Err ("unsupported protocol: " +:+ protocol).

(** The choice of the address and of the protocol in [Runner.Start]; [getenv]
    reads the environment. *)
Definition runner_addr (getenv : string -> string) (c : CollectorConfig) : string :=
  let addr := mc_Host (cfg_Manager c) +:+ ":" +:+ mc_Port (cfg_Manager c) in
  if String.eqb addr ":" then or_default (getenv "MANAGER_ADDR") DefaultManagerAddr else addr.

Definition runner_protocol (getenv : string -> string) (c : CollectorConfig) : string :=
  if String.eqb (mc_Protocol (cfg_Manager c)) ""
  then or_default (getenv "MANAGER_PROTOCOL") DefaultProtocol
  else mc_Protocol (cfg_Manager c).

(** ** Goroutines

    [GRead] is readLoop at its head; [GReadIn] while a read of the connection
    blocks it, the first of which is that of the gzip header, where the reader is
    still to be created ([creating]); [GReadPart] before the next read of a
    message.  [GHandle] is the goroutine that is started for the processor of a
    message.  [GStream] and [GStreamOpen] streamMsgLoop before and
    after it has opened the stream, [GRecv] the receiver it starts; [GMonitor]
    is connectionMonitor at the head of its loop, [GMonitorWake] at the end of
    its sleep, [GReconnect] and [GReconnectWake] the same of its inner loop;
    [GHeartbeat] is heartbeatLoop, [GHeartbeatWait] while it waits for the
    future of its call; [GRetry] is the loop of [Runner.Start] that tries to
    connect, [GOnline] sendOnlineMessage. *)
Inductive goroutine :=
| GRead | GReadIn (creating : bool) | GReadPart
| GHandle (m : Message)
| GStream | GStreamOpen | GRecv
| GMonitor | GMonitorWake | GReconnect | GReconnectWake
| GHeartbeat | GHeartbeatWait | GRetry | GOnline.

#[global] Instance goroutine_eq_dec : EqDecision goroutine.
Proof. solve_decision. Defined.

(** The end of a blocking read: of a message, of a part of one, by the closing of
    the connection here, or with another error. *)
Inductive read_outcome := ReadMsg (m : Message) | ReadPart | ReadClosed | ReadFailed.

(** What a step observes: the clock, the results of dialling, of reading, of
    writing, of a unary call, of opening a stream, and whether the connection is
    ready. *)
Record env := mkEnv {
  env_now : Z;
  env_dial : option error;
  env_read : read_outcome;
  env_write : option error;
  env_call : res (option Message);
  env_stream : option error;
  env_ready : bool;
}.

(** [ss_conn] tells whether the connection of the client is not nil, [ss_gzip]
    whether its gzip reader is, [ss_dials]
    counts the connections that were made, [ss_stopped] tells whether the
    context of the runner is done. *)
Record session (S : Type) := mkSession {
  ss_kind : clientKind;
  ss_addr : string;
  ss_identity : string;
  ss_cfg : CollectorConfig;
  ss_client : client S;
  ss_conn : bool;
  ss_gzip : bool;
  ss_dials : nat;
  ss_events : list EventType;
  ss_pool : list goroutine;
  ss_stopped : bool;
}.
Arguments mkSession {S} _ _ _ _ _ _ _ _ _ _ _.
Arguments ss_kind {S} _.
Arguments ss_addr {S} _.
Arguments ss_identity {S} _.
Arguments ss_cfg {S} _.
Arguments ss_client {S} _.
Arguments ss_conn {S} _.
Arguments ss_gzip {S} _.
Arguments ss_dials {S} _.
Arguments ss_events {S} _.
Arguments ss_pool {S} _.
Arguments ss_stopped {S} _.

Section Transport.
Context {S : Type} `{!JobScheduler S}.
Context (unmarshal_secret : string -> res string) (unmarshal_job : string -> res Job)
        (unmarshal_ids : string -> res (list Z)) (unmarshal_id : string -> res Z).
(** [json.Marshal] of the collector information, by name and mode. *)
Context (marshal_info : string -> string -> res string).
Abbreviation T := (session S) (only parsing).

Definition with_client (c : client S) (s : T) : T :=
  mkSession (ss_kind s) (ss_addr s) (ss_identity s) (ss_cfg s) c (ss_conn s) (ss_gzip s) (ss_dials s)
    (ss_events s) (ss_pool s) (ss_stopped s).
Definition with_pool (p : list goroutine) (s : T) : T :=
  mkSession (ss_kind s) (ss_addr s) (ss_identity s) (ss_cfg s) (ss_client s) (ss_conn s) (ss_gzip s) (ss_dials s)
    (ss_events s) p (ss_stopped s).
Definition with_event (e : EventType) (s : T) : T :=
  mkSession (ss_kind s) (ss_addr s) (ss_identity s) (ss_cfg s) (ss_client s) (ss_conn s) (ss_gzip s) (ss_dials s)
    (ss_events s ++ [e]) (ss_pool s) (ss_stopped s).
Definition connected (s : T) : T :=
  mkSession (ss_kind s) (ss_addr s) (ss_identity s) (ss_cfg s) (set_started true (ss_client s)) true false
    (Datatypes.S (ss_dials s)) (ss_events s) (ss_pool s) (ss_stopped s).
Definition stopped (s : T) : T :=
  mkSession (ss_kind s) (ss_addr s) (ss_identity s) (ss_cfg s) (ss_client s) (ss_conn s) (ss_gzip s) (ss_dials s)
    (ss_events s) (ss_pool s) true.

Definition with_gzip (b : bool) (s : T) : T :=
  mkSession (ss_kind s) (ss_addr s) (ss_identity s) (ss_cfg s) (ss_client s) (ss_conn s) b (ss_dials s)
    (ss_events s) (ss_pool s) (ss_stopped s).

Definition spawn (gs : list goroutine) : M T unit := mmodify (fun s => with_pool (ss_pool s ++ gs) s).

Definition started (s : T) : bool := cl_started (ss_client s).

(** A call of the client's own functions. *)
Definition in_client {A} (m : M (client S) A) : M T A :=
  fun s => match m (ss_client s) with
           | Ret c a => Ret (with_client c s) a
           | Panic c w => Panic (with_client c s) w
           end.

(** [triggerEvent] with the handler that [Runner.Start] installs: it logs, and
    for a new connection starts sendOnlineMessage. *)
Definition triggerEvent (e : EventType) : M T unit :=
  mmodify (with_event e) ;!
  match e with EventConnected => spawn [GOnline] | _ => mret tt end.

(** What [Start] does, given the goroutines that it starts once connected. *)
Definition connect (background : list goroutine) (e : env) : M T (option error) :=
  s <-! mget ;
  if started s then mret None
  else
    match env_dial e with
    | Some err => triggerEvent EventConnectFailed ;! mret (Some err)
    | None =>
        mmodify connected ;!
        triggerEvent EventConnected ;!
        spawn background ;!
        mret None
    end.

(** [NettyClient.Start] and [GrpcClient.Start]. *)
Definition netty_Start : env -> M T (option error) := connect [GRead; GHeartbeat; GMonitor].
Definition grpc_Start : env -> M T (option error) := connect [GHeartbeat; GMonitor; GStream].

Definition Start (e : env) : M T (option error) :=
  s <-! mget ; match ss_kind s with Netty => netty_Start e | Grpc => grpc_Start e end.

(** [Shutdown]: the connection is closed, not set to nil. *)
Definition disconnect : M T unit :=
  mmodify (fun s => with_client (set_started false (ss_client s)) s) ;!
  triggerEvent EventDisconnected.

(** [NettyClient.Shutdown], which also drops its gzip reader, and
    [GrpcClient.Shutdown]. *)
Definition netty_Shutdown : M T unit := mmodify (with_gzip false) ;! disconnect.
Definition grpc_Shutdown : M T unit := disconnect.

Definition ShutdownClient : M T unit :=
  s <-! mget ; match ss_kind s with Netty => netty_Shutdown | Grpc => grpc_Shutdown end.

Definition append_sent (m : Message) (s : T) : T :=
  let c := ss_client s in
  with_client (mkClient (cl_started c) (cl_table c) (cl_sent c ++ [m]) (cl_shutdown c)
    (cl_secretKey c) (cl_scheduler c)) s.

(** [SendMsg] of both clients; the stub of the gRPC client is nil before the
    first connection. *)
Definition client_SendMsg (e : env) (m : Message) : M T (option error) :=
  s <-! mget ;
  match ss_kind s with
  | Netty =>
      if negb (started s) || negb (ss_conn s) then mret (Some "client not started")
      else match env_write e with
           | Some err => mret (Some err)
           | None => mmodify (append_sent m) ;! mret None
           end
  | Grpc =>
      if negb (ss_conn s) then mpanic "nil pointer dereference"
      else match env_call e with
           | Err err => mret (Some err)
           | Ok _ => mmodify (append_sent m) ;! mret None
           end
  end.

(** ** One step of a goroutine: what it goes on as *)

(** A message that was read: [processReceivedMessage], with the goroutine that it
    starts. *)
Definition process_received (e : env) (m : Message) : M T unit :=
  s <-! mget ;
  g <-! in_client (processReceivedMessage (default_processors unmarshal_secret unmarshal_job
          unmarshal_ids unmarshal_id (ss_kind s) (env_now e)) m) ;
  spawn (GHandle <$> option_list g).

(** That goroutine: [handle_message], with the outcome of the write. *)
Definition run_handle (e : env) (m : Message) : M T (option goroutine) :=
  s <-! mget ;
  match Get (msg_Type m) (default_processors unmarshal_secret unmarshal_job
          unmarshal_ids unmarshal_id (ss_kind s) (env_now e)) with
  | None => mret None
  | Some fn =>
      response <-! in_client (fn m) ;
      match ss_kind s, msg_Direction m, response with
      | Netty, REQUEST, Some r => client_SendMsg e r ;! mret None
      | _, _, _ => mret None
      end
  end.

(** [readLoop]: its head, and the reads of [readMessage].  The reader is created
    before the first; a read of the reader that [Shutdown] has set to nil is a
    panic, while one that blocks ends with the error of its connection. *)
Definition run_read : M T (option goroutine) :=
  s <-! mget ;
  mret (if started s then Some (GReadIn (negb (ss_gzip s))) else None).

Definition run_read_part : M T (option goroutine) :=
  s <-! mget ;
  if ss_gzip s then mret (Some (GReadIn false)) else mpanic "nil pointer dereference".

Definition run_read_in (e : env) (creating : bool) : M T (option goroutine) :=
  let create := if creating then mmodify (with_gzip true) else mret tt in
  match env_read e with
  | ReadMsg m => create ;! process_received e m ;! mret (Some GRead)
  | ReadPart => create ;! mret (Some GReadPart)
  | ReadClosed => mret None
  | ReadFailed => triggerEvent EventDisconnected ;! mret None
  end.

(** [streamMsgLoop] and the receiver that it starts. *)
Definition run_stream (e : env) : M T (option goroutine) :=
  match env_stream e with
  | Some _ => mret None
  | None => spawn [GRecv] ;! mret (Some GStreamOpen)
  end.

Definition run_recv (e : env) : M T (option goroutine) :=
  s <-! mget ;
  if negb (started s) then mret None
  else
    match env_read e with
    | ReadMsg m => process_received e m ;! mret (Some GRecv)
    | _ => mret None
    end.

Definition heartbeat (identity : string) : Message :=
  mkMessage MessageTypeHeartbeat REQUEST identity "".

(** [heartbeatLoop] of the Netty client. *)
Definition run_netty_heartbeat (e : env) : M T (option goroutine) :=
  s <-! mget ;
  if negb (started s) then mret None
  else client_SendMsg e (heartbeat (or_default (ss_identity s) "collector-go")) ;! mret (Some GHeartbeat).

Definition set_future (f : gmap string (option Message) -> gmap string (option Message)) : M T unit :=
  mmodify (fun s => with_client (set_table (f (cl_table (ss_client s))) (ss_client s)) s).

(** [heartbeatLoop] of the gRPC client, with its call of [SendMsgSync]: a
    response of the same identity ends the call, any other makes it wait. *)
Definition run_grpc_heartbeat (e : env) : M T (option goroutine) :=
  s <-! mget ;
  if negb (started s) then mret None
  else
    let msg := heartbeat "collector-go" in
    set_future (insert (msg_Identity msg) None) ;!
    match env_call e with
    | Err _ => set_future (delete (msg_Identity msg)) ;! mret (Some GHeartbeat)
    | Ok resp =>
        mmodify (append_sent msg) ;!
        match resp with
        | Some r =>
            if String.eqb (msg_Identity r) (msg_Identity msg)
            then set_future (delete (msg_Identity msg)) ;! mret (Some GHeartbeat)
            else mret (Some GHeartbeatWait)
        | None => mret (Some GHeartbeatWait)
        end
    end.

(** The end of the wait, by a response or by the deadline; the result is not
    used. *)
Definition run_heartbeat_wait : M T (option goroutine) :=
  set_future (delete "collector-go") ;! mret (Some GHeartbeat).

(** The head of the loop of [connectionMonitor]. *)
Definition run_monitor : M T (option goroutine) :=
  s <-! mget ; mret (if started s then Some GMonitorWake else None).

(** The body of the loop of [connectionMonitor] of the Netty client. *)
Definition run_netty_monitor : M T (option goroutine) :=
  s <-! mget ;
  if ss_conn s then mret (Some GMonitor)
  else triggerEvent EventDisconnected ;! netty_Shutdown ;! mret (Some GReconnect).

(** The inner loop: its head, and its body after the sleep. *)
Definition run_reconnect : M T (option goroutine) :=
  s <-! mget ; mret (Some (if started s then GReconnectWake else GMonitor)).

Definition run_reconnect_wake (e : env) : M T (option goroutine) :=
  s <-! mget ;
  if negb (started s) then mret (Some GMonitor)
  else
    err <-! netty_Start e ;
    match err with
    | None => mret (Some GMonitor)
    | Some _ => triggerEvent EventConnectFailed ;! mret (Some GReconnect)
    end.

(** The body of the loop of [connectionMonitor] of the gRPC client. *)
Definition run_grpc_monitor (e : env) : M T (option goroutine) :=
  s <-! mget ;
  if ss_conn s && negb (env_ready e) then
    triggerEvent EventDisconnected ;!
    grpc_Shutdown ;!
    err <-! grpc_Start e ;
    match err with
    | None => mret (Some GMonitor)
    | Some _ => triggerEvent EventConnectFailed ;! mret (Some GMonitor)
    end
  else mret (Some GMonitor).

(** The retry loop of [Runner.Start], after its sleep. *)
Definition run_retry (e : env) : M T (option goroutine) :=
  s <-! mget ;
  if ss_stopped s then mret None
  else
    err <-! Start e ;
    mret (match err with None => None | Some _ => Some GRetry end).

(** [Runner.sendOnlineMessage]. *)
Definition online_message (cfg : CollectorConfig) : res Message :=
  let identity := or_default (cfg_Identity cfg) DefaultIdentity in
  match marshal_info identity (or_default (cfg_Mode cfg) DefaultMode) with
  | Err e => Err e
  | Ok jsonData => Ok (mkMessage MessageTypeGoOnline REQUEST identity jsonData)
  end.

Definition run_online (e : env) : M T (option goroutine) :=
  s <-! mget ;
  if started s then
    match online_message (ss_cfg s) with
    | Err _ => mret None
    | Ok m => client_SendMsg e m ;! mret None
    end
  else mret None.

Definition run (e : env) (g : goroutine) : M T (option goroutine) :=
  s <-! mget ;
  match g, ss_kind s with
  | GRead, _ => run_read
  | GReadIn creating, _ => run_read_in e creating
  | GReadPart, _ => run_read_part
  | GHandle m, _ => run_handle e m
  | GStream, _ => run_stream e
  | GStreamOpen, _ => mret (Some GStreamOpen)
  | GRecv, _ => run_recv e
  | GMonitor, _ => run_monitor
  | GMonitorWake, Netty => run_netty_monitor
  | GMonitorWake, Grpc => run_grpc_monitor e
  | GReconnect, _ => run_reconnect
  | GReconnectWake, _ => run_reconnect_wake e
  | GHeartbeat, Netty => run_netty_heartbeat e
  | GHeartbeat, Grpc => run_grpc_heartbeat e
  | GHeartbeatWait, _ => run_heartbeat_wait
  | GRetry, _ => run_retry e
  | GOnline, _ => run_online e
  end.

(** The goroutine that reads from a Netty connection. *)
Definition is_reader (g : goroutine) : bool :=
  match g with GRead | GReadIn _ | GReadPart => true | _ => false end.
Definition reads (p : list goroutine) : bool := existsb is_reader p.

(** ** The runner *)

(** The steps: of a goroutine, of the goroutine that a GO_OFFLINE message
    starts, and the end of the context or [Runner.Close]. *)
Inductive op := OpRun (i : nat) (e : env) | OpDelayedShutdown | OpClose.

Definition finish (i : nat) (r : option goroutine) (s : T) : T :=
  with_pool (match r with Some g => <[i := g]> (ss_pool s) | None => delete i (ss_pool s) end) s.

Definition step (o : op) : M T unit :=
  s <-! mget ;
  match o with
  | OpRun i e =>
      match ss_pool s !! i with
      | None => mret tt
      | Some g => r <-! run e g ; mmodify (finish i r)
      end
  | OpDelayedShutdown =>
      if cl_shutdown (ss_client s)
      then mmodify (fun s => with_client (set_shutdown false (ss_client s)) s) ;! ShutdownClient
      else mret tt
  | OpClose => mmodify stopped ;! ShutdownClient
  end.

Fixpoint exec (l : list op) : M T unit :=
  match l with
  | [] => mret tt
  | o :: rest => step o ;! exec rest
  end.

(** [NewNettyClient] and [NewGrpcClient], with the processors registered for the
    scheduler; only a Netty client is given the identity. *)
Definition new_client (scheduler : option S) : client S := mkClient false ∅ [] false "" scheduler.

Definition NewNettyClient (addr identity : string) (cfg : CollectorConfig) (scheduler : option S) : T :=
  mkSession Netty addr identity cfg (new_client scheduler) false false 0 [] [] false.
Definition NewGrpcClient (addr : string) (cfg : CollectorConfig) (scheduler : option S) : T :=
  mkSession Grpc addr "" cfg (new_client scheduler) false false 0 [] [] false.

Definition new_session (k : clientKind) (addr : string) (cfg : CollectorConfig) (scheduler : option S) : T :=
  match k with
  | Netty => NewNettyClient addr (or_default (cfg_Identity cfg) DefaultIdentity) cfg scheduler
  | Grpc => NewGrpcClient addr cfg scheduler
  end.

(** [Runner.Start] up to where it waits for the end of the context; [None]
    where no client could be created. *)
Definition Runner_Start (getenv : string -> string) (cfg : CollectorConfig) (scheduler : option S) (e : env)
    : option (outcome T unit) :=
  match CreateClient (runner_protocol getenv cfg) with
  | Err _ => None
  | Ok k =>
      Some ((err <-! Start e ;
             match err with None => mret tt | Some _ => spawn [GRetry] end)
            (new_session k (runner_addr getenv cfg) cfg scheduler))
  end.

(** [Runner.GetClient]. *)
Definition GetClient (s : option T) : option (client S) := ss_client <$> s.

Definition IsConnected (s : option T) : bool :=
  match s with None => false | Some s => started s end.

End Transport.

(** ** Proofs *)

Section Proofs.
Context {S : Type} `{!JobScheduler S}.
Context (unmarshal_secret : string -> res string) (unmarshal_job : string -> res Job)
        (unmarshal_ids : string -> res (list Z)) (unmarshal_id : string -> res Z).
Context (marshal_info : string -> string -> res string).
Abbreviation T := (session S) (only parsing).
Local Abbreviation run' := (run unmarshal_secret unmarshal_job unmarshal_ids unmarshal_id marshal_info)
  (only parsing).
Local Abbreviation step' := (step unmarshal_secret unmarshal_job unmarshal_ids unmarshal_id marshal_info)
  (only parsing).
Local Abbreviation exec' := (exec unmarshal_secret unmarshal_job unmarshal_ids unmarshal_id marshal_info)
  (only parsing).

(** *** A Netty connection *)

(** The goroutines of a Netty client that is connected. *)
Definition netty_goroutine (g : goroutine) : Prop :=
  match g with
  | GRead | GReadIn _ | GReadPart | GHandle _ | GHeartbeat | GMonitor | GMonitorWake | GOnline => True
  | _ => False
  end.

(** The messages whose goroutines have not run. *)
Definition handler (g : goroutine) : option Message :=
  match g with GHandle m => Some m | _ => None end.
Definition handlers (p : list goroutine) : list Message := omap handler p.

(** Before the first connection only the loop of the runner may try to make
    one; after it no goroutine does. *)
Definition netty_inv (s : T) : Prop :=
  ss_kind s = Netty /\
  if ss_conn s then ss_dials s = 1%nat /\ Forall netty_goroutine (ss_pool s)
  else ss_dials s = 0%nat /\ started s = false /\ (ss_pool s = [] \/ ss_pool s = [GRetry]).

(** What a step may do to a connected client, whose pool gets the goroutines
    [new]. *)
Definition keeps (new : list goroutine) (s s' : T) : Prop :=
  ss_kind s' = ss_kind s /\ ss_conn s' = ss_conn s /\ ss_dials s' = ss_dials s /\
  ss_pool s' = ss_pool s ++ new.

(** What it leaves alone unless it runs a processor. *)
Definition quiet (s s' : T) : Prop :=
  cl_scheduler (ss_client s') = cl_scheduler (ss_client s) /\ started s' = started s /\
  cl_shutdown (ss_client s') = cl_shutdown (ss_client s).

Lemma keeps_nil (s s' : T) :
  ss_kind s' = ss_kind s -> ss_conn s' = ss_conn s -> ss_dials s' = ss_dials s ->
  ss_pool s' = ss_pool s -> keeps [] s s'.
Proof. unfold keeps. by rewrite app_nil_r. Qed.

Lemma keeps_refl (s : T) : keeps [] s s.
Proof. by apply keeps_nil. Qed.

Lemma in_client_keeps {A} (m : M (client S) A) s s' (a : A) :
  in_client m s = Ret s' a -> keeps [] s s'.
Proof. unfold in_client. destruct (m (ss_client s)); [|done]. intros [= <- <-]. by apply keeps_nil. Qed.

Lemma client_SendMsg_keeps e m s s' err :
  client_SendMsg e m s = Ret s' err -> keeps [] s s' /\ quiet s s'.
Proof.
  unfold client_SendMsg, mbind', mget, mret, mmodify, mpanic. destruct (ss_kind s) eqn:Hk.
  - destruct (negb _); [done|]. destruct (env_call e); intros [= <- <-].
    + split; [by apply keeps_nil|done].
    + split; [apply keeps_refl|done].
  - destruct (_ || _); [intros [= <- <-]; split; [apply keeps_refl|done]|].
    destruct (env_write e); intros [= <- <-].
    + split; [apply keeps_refl|done].
    + split; [by apply keeps_nil|done].
Qed.

(** A message that was read leaves at most the goroutine of its processor. *)
Lemma process_received_keeps e m s s' :
  process_received unmarshal_secret unmarshal_job unmarshal_ids unmarshal_id e m s = Ret s' tt ->
  exists g, keeps (GHandle <$> g) s s'.
Proof.
  unfold process_received, mbind', mget.
  destruct (in_client _ s) as [s1 g|] eqn:E; [|done]. intros [= <-].
  apply in_client_keeps in E as (Hk & Hc & Hd & Hp). exists (option_list g).
  split_and!; [done..|]. cbn. by rewrite Hp, app_nil_r.
Qed.

(** One step of a goroutine of a connected Netty client: it goes on as such a
    goroutine, only the reader goes on as one and starts others, and only they
    have an effect on the jobs. *)
Lemma run_netty e g s s' r :
  ss_kind s = Netty -> ss_conn s = true -> netty_goroutine g ->
  run' e g s = Ret s' r ->
  (exists ms, keeps (GHandle <$> ms) s s' /\ (is_reader g = false -> ms = [])) /\
  match r with
  | Some g' => netty_goroutine g' /\ handler g' = None /\ (is_reader g' = true -> is_reader g = true)
  | None => True
  end /\
  (is_reader g = false -> handler g = None -> quiet s s').
Proof.
  intros Hk Hc Hg. unfold run, mbind' at 1, mget at 1.
  assert (forall s1, keeps [] s s1 -> exists ms, keeps (GHandle <$> ms) s s1 /\ (is_reader g = false -> ms = []))
    as Hnil by (intros s1 H; by exists []).
  destruct g as [|creating| |m| | | | | | | | | | |]; try done; try rewrite Hk.
  - unfold run_read, mbind', mget, mret. intros [= <- <-]. split; [apply Hnil, keeps_refl|].
    split; [by destruct (started s)|done].
  - unfold run_read_in, mbind', mret, mmodify. destruct (env_read e) as [m| | |].
    + set (s1 := if creating then with_gzip true s else s). intros H.
      assert (keeps [] s s1) as (Hk1 & Hc1 & Hd1 & Hp1)
        by (unfold s1; destruct creating; [by apply keeps_nil|apply keeps_refl]).
      assert (match process_received unmarshal_secret unmarshal_job unmarshal_ids unmarshal_id e m s1 with
              | Ret s2 _ => Ret s2 (Some GRead) | Panic s2 w => Panic s2 w end = Ret s' r) as H'
        by (unfold s1; destruct creating; exact H).
      clear H. revert H'.
      destruct (process_received _ _ _ _ _ _ s1) as [s2 []|] eqn:E; [|done]. intros [= <- <-].
      apply process_received_keeps in E as (ms & Hk2 & Hc2 & Hd2 & Hp2).
      split; [exists ms; split; [|done]|done].
      split_and!; [congruence..|]. by rewrite Hp2, Hp1, app_nil_r.
    + destruct creating; intros [= <- <-]; (split; [apply Hnil|done]); [by apply keeps_nil|apply keeps_refl].
    + intros [= <- <-]. split; [apply Hnil, keeps_refl|done].
    + intros H. cbn in H. injection H as <- <-. split; [apply Hnil; by apply keeps_nil|done].
  - unfold run_read_part, mbind', mget, mret. destruct (ss_gzip s); [|done]. intros [= <- <-].
    split; [apply Hnil, keeps_refl|done].
  - unfold run_handle, mbind', mget, mret. rewrite Hk. destruct (Get _ _) as [fn|].
    2:{ intros [= <- <-]. split; [apply Hnil, keeps_refl|done]. }
    destruct (in_client _ s) as [s1 resp|] eqn:E; [|done].
    apply in_client_keeps in E as (Hk1 & Hc1 & Hd1 & Hp1).
    assert (forall s2, keeps [] s1 s2 -> keeps [] s s2) as Ht.
    { intros s2 (Hk2 & Hc2 & Hd2 & Hp2). split_and!; [congruence..|]. by rewrite Hp2, Hp1, !app_nil_r. }
    destruct (msg_Direction m); [destruct resp as [rm|]|].
    + destruct (client_SendMsg e rm s1) as [s2 ?|] eqn:E; [|done]. intros [= <- <-].
      apply client_SendMsg_keeps in E as [H2 _]. split; [by apply Hnil, Ht|done].
    + intros [= <- <-]. split; [by apply Hnil, Ht, keeps_refl|done].
    + intros [= <- <-]. split; [by apply Hnil, Ht, keeps_refl|done].
  - unfold run_monitor, mbind', mget, mret. intros [= <- <-]. split; [apply Hnil, keeps_refl|].
    split; [by destruct (started s)|done].
  - unfold run_netty_monitor, mbind', mget, mret. rewrite Hc. intros [= <- <-].
    split; [apply Hnil, keeps_refl|done].
  - unfold run_netty_heartbeat, mbind', mget, mret. destruct (negb _).
    { intros [= <- <-]. split; [apply Hnil, keeps_refl|done]. }
    destruct (client_SendMsg _ _ _) as [s1 ?|] eqn:E; [|done]. intros [= <- <-].
    apply client_SendMsg_keeps in E as [? ?]. split; [by apply Hnil|done].
  - unfold run_online, mbind', mget, mret.
    assert (Ret (S := T) s (@None goroutine) = Ret s' r ->
      (exists ms, keeps (GHandle <$> ms) s s' /\ (is_reader GOnline = false -> ms = [])) /\
      match r with
      | Some g' => netty_goroutine g' /\ handler g' = None /\ (is_reader g' = true -> is_reader GOnline = true)
      | None => True
      end /\ (is_reader GOnline = false -> handler GOnline = None -> quiet s s')) as Hstay
      by (intros [= <- <-]; split; [apply Hnil, keeps_refl|done]).
    destruct (started s) eqn:Hst; [|exact Hstay]. destruct (online_message _ _); [|exact Hstay].
    destruct (client_SendMsg _ _ _) as [s1 ?|] eqn:E; [|done]. intros [= <- <-].
    apply client_SendMsg_keeps in E as [? ?]. split; [by apply Hnil|done].
Qed.

Lemma ShutdownClient_ret (s : T) :
  exists s', ShutdownClient s = Ret s' tt /\ keeps [] s s' /\
    cl_scheduler (ss_client s') = cl_scheduler (ss_client s) /\ started s' = false.
Proof.
  unfold ShutdownClient, netty_Shutdown, mbind', mget. destruct (ss_kind s); (eexists; split; [reflexivity|]);
    (split; [by apply keeps_nil|done]).
Qed.

Lemma no_reads l : reads l = false <-> Forall (fun g => is_reader g = false) l.
Proof.
  unfold reads. induction l as [|g l IH]; [done|]. cbn [existsb]. rewrite Forall_cons, orb_false_iff. tauto.
Qed.

Lemma finish_pool i r (s : T) (P : goroutine -> Prop) :
  Forall P (ss_pool s) -> (match r with Some g => P g | None => True end) ->
  Forall P (ss_pool (finish i r s)).
Proof.
  intros Hp Hr. destruct r; cbn [finish with_pool ss_pool]; [by apply Forall_insert|by apply Forall_delete].
Qed.

(** A goroutine that has run is no handler any more. *)
Lemma finish_handlers i r (s : T) :
  (match r with Some g => handler g = None | None => True end) ->
  handlers (ss_pool (finish i r s)) `sublist_of` handlers (ss_pool s).
Proof.
  intros Hr. unfold finish. cbn [with_pool ss_pool]. generalize (ss_pool s) as l. clear s.
  induction i as [|i IH]; intros l.
  - destruct l as [|g l]; [by destruct r|]. destruct r as [g'|].
    + unfold handlers. cbn. rewrite Hr. destruct (handler g); [by constructor|done].
    + unfold handlers. cbn. destruct (handler g); [by constructor|done].
  - destruct l as [|g l]; [by destruct r|]. specialize (IH l). unfold handlers in *.
    destruct r as [g'|]; cbn in *; destruct (handler g); try done; by constructor.
Qed.

(** What the rest of the run leaves once the reader has ended. *)
Definition winds_down (s s' : T) : Prop :=
  reads (ss_pool s') = false /\ handlers (ss_pool s') `sublist_of` handlers (ss_pool s) /\
  (handlers (ss_pool s) = [] -> cl_scheduler (ss_client s') = cl_scheduler (ss_client s)).

Lemma step_connected o s s' :
  netty_inv s -> ss_conn s = true -> step' o s = Ret s' tt ->
  netty_inv s' /\ ss_conn s' = true /\ (reads (ss_pool s) = false -> winds_down s s').
Proof.
  intros [Hk Hi] Hc. rewrite Hc in Hi. destruct Hi as [Hd Hp].
  assert (netty_inv s) as Hinv by (split; [done|]; by rewrite Hc).
  assert (forall s1, ss_kind s1 = ss_kind s -> ss_conn s1 = ss_conn s -> ss_dials s1 = ss_dials s ->
    ss_pool s1 = ss_pool s -> cl_scheduler (ss_client s1) = cl_scheduler (ss_client s) ->
    netty_inv s1 /\ ss_conn s1 = true /\ (reads (ss_pool s) = false -> winds_down s s1)) as Hsame.
  { intros s1 E1 E2 E3 E4 E5. unfold netty_inv, winds_down. rewrite E1, E2, E3, E4, Hc, E5.
    split_and!; done. }
  assert (forall s1, ss_kind s1 = ss_kind s -> ss_conn s1 = ss_conn s -> ss_dials s1 = ss_dials s ->
    ss_pool s1 = ss_pool s -> cl_scheduler (ss_client s1) = cl_scheduler (ss_client s) ->
    ShutdownClient s1 = Ret s' tt ->
    netty_inv s' /\ ss_conn s' = true /\ (reads (ss_pool s) = false -> winds_down s s')) as Hshut.
  { intros s1 E1 E2 E3 E4 E5 H. destruct (ShutdownClient_ret s1) as (s2 & E & (K1 & K2 & K3 & K4) & K5 & _).
    rewrite E in H. injection H as <-. rewrite app_nil_r in K4. apply Hsame; congruence. }
  unfold step, mbind' at 1, mget at 1. destruct o as [i e| |].
  - destruct (ss_pool s !! i) as [g|] eqn:Eg; [|intros [= <-]; by apply Hsame].
    pose proof (proj1 (Forall_lookup _ _) Hp _ _ Eg) as Hg.
    unfold mbind'. destruct (run' e g s) as [s1 r|] eqn:E; [|done]. intros [= <-].
    destruct (run_netty _ _ _ _ _ Hk Hc Hg E) as ((ms & (Hk1 & Hc1 & Hd1 & Hp1) & Hms) & Hr & Hs).
    assert (Forall netty_goroutine (GHandle <$> ms)) as Hnew by (apply Forall_fmap, Forall_true; by intros ?).
    unfold netty_inv. change (ss_conn (finish i r s1)) with (ss_conn s1). rewrite Hc1, Hc.
    split; [split; [by transitivity (ss_kind s)|]|split; [done|]].
    + split; [by transitivity (ss_dials s)|]. apply finish_pool; [rewrite Hp1; by apply Forall_app|].
      by destruct r as [?|]; [apply Hr|].
    + intros Hn. apply no_reads in Hn. pose proof (proj1 (Forall_lookup _ _) Hn _ _ Eg) as Hng. cbn in Hng.
      rewrite (Hms Hng), app_nil_r in Hp1. split_and!.
      * apply no_reads, finish_pool; [by rewrite Hp1|]. destruct r as [g'|]; [|done].
        destruct Hr as (_ & _ & Hr). destruct (is_reader g'); [|done]. by rewrite Hr in Hng.
      * rewrite <- Hp1. apply finish_handlers. destruct r; [apply Hr|done].
      * intros Hh. apply Hs; [done|]. destruct (handler g) as [m|] eqn:Em; [|done]. exfalso.
        assert (m ∈ handlers (ss_pool s)) as Hin; [|by rewrite Hh in Hin; apply not_elem_of_nil in Hin].
        apply list_elem_of_omap. exists g. split; [|done]. by eapply list_elem_of_lookup_2.
  - destruct (cl_shutdown _); [|intros [= <-]; by apply Hsame]. by apply Hshut.
  - by apply Hshut.
Qed.

Lemma step_unconnected o s s' :
  netty_inv s -> ss_conn s = false -> step' o s = Ret s' tt -> netty_inv s'.
Proof.
  intros [Hk Hi] Hc. rewrite Hc in Hi. destruct Hi as (Hd & Hst & Hp).
  assert (netty_inv s) as Hs by (split; [done|]; by rewrite Hc).
  assert (forall s1, ss_kind s1 = ss_kind s -> ss_conn s1 = ss_conn s -> ss_dials s1 = ss_dials s ->
    ss_pool s1 = ss_pool s -> ShutdownClient s1 = Ret s' tt -> netty_inv s') as Hshut.
  { intros s1 E1 E2 E3 E4 H. destruct (ShutdownClient_ret s1) as (s2 & E & (K1 & K2 & K3 & K4) & _ & K5).
    rewrite E in H. injection H as <-. rewrite app_nil_r in K4. unfold netty_inv.
    rewrite K1, K2, K3, K4, K5, E1, E2, E3, E4, Hc. auto. }
  unfold step, mbind' at 1, mget at 1. destruct o as [i e| |].
  - destruct (ss_pool s !! i) as [g|] eqn:Eg; [|by intros [= <-]].
    destruct Hp as [Hp|Hp]; rewrite Hp in Eg; [done|]. apply list_lookup_singleton_Some in Eg as [-> <-].
    unfold run, mbind', mget. unfold run_retry, mbind', mget.
    destruct (ss_stopped s). { intros H. cbn in H. injection H as <-. unfold netty_inv. cbn. rewrite Hc, Hp. auto. }
    unfold Start, mbind', mget. rewrite Hk. unfold netty_Start, connect, mbind', mget. rewrite Hst.
    destruct (env_dial e).
    + intros H. cbn in H. injection H as <-. unfold netty_inv. cbn. rewrite Hc, Hp. auto.
    + intros H. cbn in H. injection H as <-. unfold netty_inv. cbn. rewrite Hp, Hd. cbn.
      split_and!; [done|done|]. by repeat constructor.
  - destruct (cl_shutdown _); [|by intros [= <-]]. by apply Hshut.
  - by apply Hshut.
Qed.

Lemma exec_cons o l s s' :
  exec' (o :: l) s = Ret s' tt -> exists s1, step' o s = Ret s1 tt /\ exec' l s1 = Ret s' tt.
Proof.
  cbn [exec]. unfold mbind'. destruct (step' o s) as [s1 []|] eqn:E; [|done]. by exists s1.
Qed.

Lemma exec_inv l : forall s s', netty_inv s -> exec' l s = Ret s' tt -> netty_inv s'.
Proof.
  induction l as [|o l IH]; intros s s' Hs H; [by injection H as <-|].
  apply exec_cons in H as (s1 & E & H). apply (IH s1); [|done].
  destruct (ss_conn s) eqn:Hc; [by eapply step_connected|by eapply step_unconnected].
Qed.

Lemma exec_read_ended l : forall s s',
  netty_inv s -> ss_conn s = true -> reads (ss_pool s) = false -> exec' l s = Ret s' tt ->
  netty_inv s' /\ ss_conn s' = true /\ winds_down s s'.
Proof.
  induction l as [|o l IH]; intros s s' Hs Hc Hn H; [by injection H as <-|].
  apply exec_cons in H as (s1 & E & H).
  destruct (step_connected o s s1 Hs Hc E) as (Hs1 & Hc1 & Hr). destruct (Hr Hn) as (Hn1 & Hsub & Hsch).
  destruct (IH s1 s' Hs1 Hc1 Hn1 H) as (? & ? & ? & Hsub' & Hsch').
  split_and!; [done..|]. split_and!; [done|by etrans|].
  intros Hh. rewrite Hh in Hsub. rewrite Hsch' by (by apply sublist_nil_r). by apply Hsch.
Qed.

Lemma Runner_Start_inv getenv cfg sch e s :
  runner_protocol getenv cfg = "netty" ->
  Runner_Start getenv cfg sch e = Some (Ret s tt) -> netty_inv s.
Proof.
  intros Hp. unfold Runner_Start. rewrite Hp. cbn [CreateClient String.eqb].
  change (CreateClient "netty") with (Ok Netty). cbv iota.
  unfold Start, netty_Start, connect, mbind', mget. cbn. destruct (env_dial e); cbn; intros [= <-]; unfold netty_inv; cbn.
  - auto.
  - split_and!; [done|done|]. by repeat constructor.
Qed.

(** While nobody shuts the client down it goes on as if it were connected. *)
Lemma exec_read_ended_started l : forall s s',
  netty_inv s -> ss_conn s = true -> reads (ss_pool s) = false -> handlers (ss_pool s) = [] ->
  started s = true -> cl_shutdown (ss_client s) = false -> OpClose ∉ l ->
  exec' l s = Ret s' tt -> started s' = true.
Proof.
  induction l as [|o l IH]; intros s s' Hs Hc Hn Hh Hst Hsd Hl H; [by injection H as <-|].
  apply exec_cons in H as (s1 & E & H). apply not_elem_of_cons in Hl as [Ho Hl].
  destruct (step_connected o s s1 Hs Hc E) as (Hs1 & Hc1 & Hr). destruct (Hr Hn) as (Hn1 & Hsub & _).
  rewrite Hh in Hsub. apply sublist_nil_r in Hsub.
  enough (started s1 = true /\ cl_shutdown (ss_client s1) = false) as [? ?] by (by eapply (IH s1)).
  revert E. unfold step, mbind' at 1, mget at 1. destruct o as [i e| |]; [| |done].
  - destruct (ss_pool s !! i) as [g|] eqn:Eg; [|by intros [= <-]].
    destruct Hs as [Hk Hi]. rewrite Hc in Hi. destruct Hi as [_ Hp].
    pose proof (proj1 (Forall_lookup _ _) Hp _ _ Eg) as Hg.
    unfold mbind'. destruct (run' e g s) as [s2 r|] eqn:E; [|done]. intros [= <-].
    destruct (run_netty _ _ _ _ _ Hk Hc Hg E) as (_ & _ & Hq).
    apply no_reads in Hn. pose proof (proj1 (Forall_lookup _ _) Hn _ _ Eg) as Hng. cbn in Hng.
    destruct Hq as (_ & H1 & H2); [done| |by rewrite <- Hst, <- Hsd].
    destruct (handler g) as [m|] eqn:Em; [|done]. exfalso.
    assert (m ∈ handlers (ss_pool s)) as Hin; [|by rewrite Hh in Hin; apply not_elem_of_nil in Hin].
    apply list_elem_of_omap. exists g. split; [|done]. by eapply list_elem_of_lookup_2.
  - rewrite Hsd. by intros [= <-].
Qed.

(** *** The reconnections of a gRPC client *)

Definition grpc_block : list goroutine := [GOnline; GHeartbeat; GMonitor; GStream].

(** What a step sees while the connection is lost and the next can be made. *)
Definition lost : env := mkEnv 0 None ReadFailed None (Ok None) None false.

(** The monitor of the first connection looks once, and reconnects. *)
Definition reconnection : list op := [OpRun 2 lost; OpRun 2 lost].

(** A started gRPC client after [n] connections, all of whose goroutines are
    at the heads of their loops. *)
Definition grpc_state (n : nat) (s : T) : Prop :=
  ss_kind s = Grpc /\ started s = true /\ ss_conn s = true /\ ss_dials s = n /\
  ss_pool s = mjoin (replicate n grpc_block).

Lemma blocks_snoc n : mjoin (replicate (Datatypes.S n) grpc_block) = mjoin (replicate n grpc_block) ++ grpc_block.
Proof.
  induction n as [|n IH]; [done|].
  change (mjoin (replicate (Datatypes.S (Datatypes.S n)) grpc_block))
    with (grpc_block ++ mjoin (replicate (Datatypes.S n) grpc_block)).
  rewrite IH at 1. done.
Qed.

Lemma exec_app l1 l2 s : exec' (l1 ++ l2) s = (exec' l1 ;! exec' l2)%go s.
Proof.
  revert s. induction l1 as [|o l1 IH]; intros s; [done|]. cbn [app exec]. unfold mbind'.
  destruct (step' o s); [apply IH|done].
Qed.

Lemma reconnection_spec n s :
  grpc_state (Datatypes.S n) s ->
  exists s', exec' reconnection s = Ret s' tt /\ grpc_state (Datatypes.S (Datatypes.S n)) s' /\
    cl_sent (ss_client s') = cl_sent (ss_client s).
Proof.
  intros (Hk & Hst & Hc & Hd & Hp).
  destruct s as [k a i cfg c conn gz d ev p st]. unfold started in *. cbn in *. subst k conn d.
  destruct c as [b t sent sd key sch]. cbn in *. subst b.
  assert (p = [GOnline; GHeartbeat] ++ GMonitor :: GStream :: mjoin (replicate n grpc_block)) as -> by exact Hp.
  eexists. split; [reflexivity|]. split; [|done]. unfold grpc_state. cbn.
  split_and!; [done|done|done|done|]. rewrite <- (assoc_L app).
  symmetry. exact (f_equal (app grpc_block) (blocks_snoc n)).
Qed.

Lemma reconnections_spec m : forall n s,
  grpc_state (Datatypes.S n) s ->
  exists s', exec' (mjoin (replicate m reconnection)) s = Ret s' tt /\ grpc_state (Datatypes.S n + m)%nat s' /\
    cl_sent (ss_client s') = cl_sent (ss_client s).
Proof.
  induction m as [|m IH]; intros n s Hs.
  { exists s. split; [done|]. by rewrite Nat.add_0_r. }
  destruct (reconnection_spec n s Hs) as (s1 & E1 & H1 & Hs1).
  destruct (IH _ _ H1) as (s2 & E2 & H2 & Hs2). exists s2.
  change (mjoin (replicate (Datatypes.S m) reconnection))
    with (reconnection ++ mjoin (replicate m reconnection)).
  rewrite exec_app. erewrite bind_ret by exact E1. split; [done|]. split; [|by rewrite Hs2].
  replace (Datatypes.S n + Datatypes.S m)%nat with (Datatypes.S (Datatypes.S n) + m)%nat by lia. done.
Qed.

(** What a step sees when the manager answers a heartbeat. *)
Definition answered_env : env :=
  mkEnv 0 None ReadFailed None (Ok (Some (mkMessage 0 RESPONSE "collector-go" ""))) None true.

(** A round of all the heartbeat loops of [n] connections. *)
Definition heartbeats (n : nat) : list op := (fun k => OpRun (4 * k + 1) answered_env) <$> seq 0 n.

Lemma block_heartbeat n k : (k < n)%nat -> mjoin (replicate n grpc_block) !! (4 * k + 1)%nat = Some GHeartbeat.
Proof.
  revert k. induction n as [|n IH]; intros k Hk; [lia|].
  change (mjoin (replicate (Datatypes.S n) grpc_block)) with (grpc_block ++ mjoin (replicate n grpc_block)).
  destruct k as [|k]; [done|]. rewrite lookup_app_r by (simpl; lia).
  rewrite <- (IH k) by lia. f_equal. simpl. lia.
Qed.

Lemma heartbeat_spec n s k :
  grpc_state n s -> (k < n)%nat ->
  exists s', step' (OpRun (4 * k + 1) answered_env) s = Ret s' tt /\ grpc_state n s' /\
    cl_sent (ss_client s') = cl_sent (ss_client s) ++ [heartbeat "collector-go"].
Proof.
  intros (Hk & Hst & Hc & Hd & Hp) Hlt. pose proof (block_heartbeat n k Hlt) as Hg. rewrite <- Hp in Hg.
  unfold step, mbind', mget. rewrite Hg. unfold run, mbind', mget. rewrite Hk.
  unfold run_grpc_heartbeat, mbind', mget. rewrite Hst. cbn.
  eexists. split; [reflexivity|]. split; [|done]. unfold grpc_state. cbn.
  split_and!; [done|done|done|done|]. by rewrite list_insert_id.
Qed.

Lemma heartbeats_spec n m : forall s, grpc_state n s -> (m <= n)%nat ->
  exists s', exec' (heartbeats m) s = Ret s' tt /\ grpc_state n s' /\
    cl_sent (ss_client s') = cl_sent (ss_client s) ++ replicate m (heartbeat "collector-go").
Proof.
  induction m as [|m IH]; intros s Hs Hm; [exists s; split_and!; [done|done|by rewrite app_nil_r]|].
  destruct (IH s Hs) as (s1 & E1 & H1 & Hs1); [lia|].
  destruct (heartbeat_spec n s1 m H1) as (s2 & E2 & H2 & Hs2); [lia|]. exists s2.
  unfold heartbeats. rewrite seq_S, fmap_app, exec_app. cbn [fmap list_fmap].
  erewrite bind_ret by exact E1. cbn [exec]. erewrite bind_ret by exact E2.
  split; [done|]. split; [done|]. by rewrite Hs2, Hs1, <- (assoc_L app), <- replicate_S_end.
Qed.

Lemma count_blocks n g :
  length (filter (fun g' => g' = g) (mjoin (replicate n grpc_block))) =
  (n * length (filter (fun g' => g' = g) grpc_block))%nat.
Proof.
  induction n as [|n IH]; [done|].
  change (mjoin (replicate (Datatypes.S n) grpc_block)) with (grpc_block ++ mjoin (replicate n grpc_block)).
  rewrite filter_app, length_app, IH. lia.
Qed.

Lemma Runner_Start_grpc getenv cfg sch e :
  runner_protocol getenv cfg = "grpc" -> env_dial e = None ->
  exists s, Runner_Start getenv cfg sch e = Some (Ret s tt) /\ grpc_state 1 s /\ cl_sent (ss_client s) = [].
Proof.
  intros Hp He. unfold Runner_Start. rewrite Hp. change (CreateClient "grpc") with (Ok Grpc). cbv iota.
  unfold Start, grpc_Start, connect, mbind', mget. cbn. rewrite He. eexists. split; [reflexivity|done].
Qed.

End Proofs.

(** ** Properties *)

(** Which protocols of a configuration file lead to a connection:
    exactly netty and grpc.  The loader replaces a missing protocol by http,
    which no client is made for, so neither MANAGER_PROTOCOL nor the default of
    the transport is ever used; the runner then starts without a client, no
    goroutine tries again, and every result of a collection is an error. *)
Theorem configured_protocols {S} `{!JobScheduler S} unmarshal fs path cfg :
  getConfigByPath unmarshal fs path = Ok cfg ->
  (forall getenv, runner_protocol getenv cfg = mc_Protocol (cfg_Manager cfg)) /\
  exists file data raw,
    fs_ReadFile fs file = Ok data /\ unmarshal data = Ok raw /\
    forall getenv (sch : option S) e,
      (mc_Protocol (cfg_Manager raw) ∈ ["netty"; "grpc"] -> is_Some (Runner_Start getenv cfg sch e)) /\
      (mc_Protocol (cfg_Manager raw) ∉ ["netty"; "grpc"] ->
       Runner_Start getenv cfg sch e = None /\
       forall ipc k identity r j,
         HandleCollectData ipc k true identity (Some r) j (GetClient (S := S) None) =
         Ret None (Some "failed to send result to Manager: transport client not ready")).
Proof.
  unfold getConfigByPath, LoadConfig. destruct (String.eqb path ""); [done|].
  unfold parseConfigFile. destruct (fs_NotExist _ _); [done|].
  destruct (fs_ReadFile _ _) as [data|] eqn:Hr; [|done].
  destruct (unmarshal data) as [raw|] eqn:Hu; [|done]. unfold ValidateConfig.
  destruct (String.eqb _ ""); [done|]. destruct (String.eqb _ ""); [done|]. intros [= <-].
  set (cfg := set_Name _ _).
  assert (mc_Protocol (cfg_Manager cfg) = or_default (mc_Protocol (cfg_Manager raw)) "http") as Hp by done.
  assert (forall getenv, runner_protocol getenv cfg = mc_Protocol (cfg_Manager cfg)) as Hrun.
  { intros getenv. unfold runner_protocol. rewrite Hp. unfold or_default.
    destruct (String.eqb (mc_Protocol (cfg_Manager raw)) "") eqn:E; [done|]. by rewrite E. }
  split; [done|]. eexists _, data, raw. split; [exact Hr|]. split; [done|]. intros getenv sch e.
  unfold Runner_Start. rewrite Hrun, Hp. unfold or_default, CreateClient. clear Hrun Hp. clearbody cfg.
  generalize (mc_Protocol (cfg_Manager raw)) as p. intros p. split.
  - intros Hin. apply elem_of_cons in Hin as [->|Hin]; [by eexists|].
    apply list_elem_of_singleton in Hin as ->. by eexists.
  - intros Hni. apply not_elem_of_cons in Hni as [H1 H2]. apply not_elem_of_cons in H2 as [H2 _].
    split; [|done]. destruct (String.eqb p "") eqn:E; [done|].
    by rewrite (proj2 (String.eqb_neq p "grpc")), (proj2 (String.eqb_neq p "netty")).
Qed.

Lemma configured_protocols_witness :
  exists cfg,
    getConfigByPath ex_yaml (ex_fs "none") "c.yaml" = Ok cfg /\
    (forall getenv, runner_protocol getenv cfg = "http") /\
    forall getenv (sch : option (Runner (timers WheelTimerTask))) e, Runner_Start getenv cfg sch e = None.
Proof.
  eexists. split; [vm_compute; reflexivity|].
  edestruct (configured_protocols (S := Runner (timers WheelTimerTask)) ex_yaml (ex_fs "none") "c.yaml")
    as (H1 & file & data & raw & E1 & E2 & H2); [vm_compute; reflexivity|].
  split; [exact H1|]. intros getenv sch e. apply (H2 getenv sch e).
  assert (data = "none") as -> by (injection E1; congruence).
  injection E2 as <-. apply (bool_decide_unpack _). vm_compute. exact I.
Defined.

(** C23 (safety). A Netty client that has lost its connection never gets
    another, although the documentation of the transport promises that it
    reconnects.  Once the loop that reads from the connection has ended, whatever
    happens, no connection is made and nothing is read any more.  The goroutines
    of messages that still wait then are the only ones left that can run a
    processor; once they have run, the client never adds or removes a job again,
    and unless it is shut down it goes on to count as started, so results are
    still written to the dead connection.  The loop of the runner tries only
    until the first connection, and the connection monitor only where the client
    has none. *)
Theorem netty_never_reconnects {S} `{!JobScheduler S}
    unmarshal_secret unmarshal_job unmarshal_ids unmarshal_id marshal_info
    getenv cfg (sch : option S) e ops1 ops2 s0 s1 s2 :
  let exec := exec unmarshal_secret unmarshal_job unmarshal_ids unmarshal_id marshal_info in
  runner_protocol getenv cfg = "netty" -> Runner_Start getenv cfg sch e = Some (Ret s0 tt) ->
  exec ops1 s0 = Ret s1 tt -> (0 < ss_dials s1)%nat -> reads (ss_pool s1) = false ->
  exec ops2 s1 = Ret s2 tt ->
  ss_dials s1 = 1%nat /\ ss_dials s2 = 1%nat /\ reads (ss_pool s2) = false /\
  handlers (ss_pool s2) `sublist_of` handlers (ss_pool s1) /\
  (handlers (ss_pool s1) = [] ->
   cl_scheduler (ss_client s2) = cl_scheduler (ss_client s1) /\
   (started s1 = true -> cl_shutdown (ss_client s1) = false -> OpClose ∉ ops2 -> started s2 = true)).
Proof.
  intros exec' Hp Hs0 H1 Hd Hn H2. apply Runner_Start_inv in Hs0; [|done].
  assert (netty_inv s1) as Hi1 by (by eapply exec_inv).
  assert (ss_conn s1 = true) as Hc.
  { destruct Hi1 as [_ Hi]. destruct (ss_conn s1); [done|]. destruct Hi as [Hi _]. lia. }
  destruct (exec_read_ended _ _ _ _ _ ops2 s1 s2 Hi1 Hc Hn H2) as (Hi2 & Hc2 & Hn2 & Hsub & Hsch).
  split_and!; [|by destruct Hi2 as [_ Hi2]; rewrite Hc2 in Hi2; apply Hi2|done|done|].
  - destruct Hi1 as [_ Hi1]. rewrite Hc in Hi1. apply Hi1.
  - intros Hh. split; [by apply Hsch|].
    intros Hst Hsd Hcl. by eapply (exec_read_ended_started _ _ _ _ _ ops2 s1).
Qed.

(** The manager issues a job and the reader fails before the goroutine of the
    message runs; then that, the monitor, the heartbeat and the online message
    run, and the monitor again. *)
Definition gets (m : Message) : env := mkEnv 0 None (ReadMsg m) None (Ok None) None false.
Definition ex_lost : list op := [OpRun 1 lost; OpRun 1 (gets ex_issue); OpRun 1 lost; OpRun 1 lost].
Definition ex_after : list op :=
  [OpRun 3 lost; OpRun 2 lost; OpRun 2 lost; OpRun 1 lost; OpRun 0 lost; OpDelayedShutdown; OpRun 1 lost].

Definition no_env (name : string) : string := "".
Definition ex_info (name mode : string) : res string := Ok (name +:+ "/" +:+ mode).

Definition ex_exec (ops : list op) : M (session (Runner (timers WheelTimerTask))) unit :=
  exec ex_secret ex_unmarshal_job ex_ids ex_id ex_info ops.

Definition ex_s0 : session (Runner (timers WheelTimerTask)) :=
  match Runner_Start no_env (ex_config "netty") (cl_scheduler ex_client) lost with
  | Some o => outcome_state o
  | None => new_session Netty "" (ex_config "") None
  end.

Lemma netty_never_reconnects_witness :
  let s1 := outcome_state (ex_exec (ex_lost ++ [OpRun 3 lost]) ex_s0) in
  let s2 := outcome_state (ex_exec (drop 1 ex_after) s1) in
  ss_dials s1 = 1%nat /\ ss_dials s2 = 1%nat /\ reads (ss_pool s2) = false /\
  handlers (ss_pool s2) `sublist_of` handlers (ss_pool s1) /\
  (handlers (ss_pool s1) = [] ->
   cl_scheduler (ss_client s2) = cl_scheduler (ss_client s1) /\
   (started s1 = true -> cl_shutdown (ss_client s1) = false -> OpClose ∉ drop 1 ex_after ->
    started s2 = true)).
Proof.
  intros s1 s2.
  apply (netty_never_reconnects ex_secret ex_unmarshal_job ex_ids ex_id ex_info no_env (ex_config "netty")
    (cl_scheduler ex_client) lost (ex_lost ++ [OpRun 3 lost]) (drop 1 ex_after) ex_s0 s1 s2);
    [reflexivity|vm_compute; reflexivity|vm_compute; reflexivity|vm_compute; lia
    |vm_compute; reflexivity|vm_compute; reflexivity].
Defined.

(** The premises of the last part hold there, and the goroutine of the message
    did run after the reader had ended. *)
Example reader_ended :
  let jobs s := fst <$> map_to_list (default ∅ (registry <$> cl_scheduler (ss_client s))) in
  let s1 := outcome_state (ex_exec ex_lost ex_s0) in
  let s2 := outcome_state (ex_exec (take 1 ex_after) s1) in
  reads (ss_pool s1) = false /\ handlers (ss_pool s1) = [ex_issue] /\ jobs s1 = [] /\
  handlers (ss_pool s2) = [] /\ jobs s2 = [7] /\ started s2 = true.
Proof. vm_compute. split_and!; reflexivity. Qed.

(** [Shutdown] sets the gzip reader to nil under the reader: where that falls
    between two reads of a message, the next one is a panic, which ends the
    process. *)
Example shutdown_under_reader :
  let part := mkEnv 0 None ReadPart None (Ok None) None false in
  match ex_exec [OpRun 1 lost; OpRun 1 part; OpClose; OpRun 1 part] ex_s0 with
  | Ret _ _ => False
  | Panic _ w => w = "nil pointer dereference"
  end.
Proof. vm_compute. reflexivity. Qed.

(** Every reconnection of a gRPC client leaves the goroutines of
    the connection before behind: the loops end only when they see the client
    stopped, and the monitor stops and starts it in one go.  After [m]
    reconnections there are [m + 1] monitors, heartbeat loops and stream loops,
    and in every period of the heartbeat [m + 1] heartbeats are sent. *)
Theorem grpc_reconnections_accumulate {S} `{!JobScheduler S}
    unmarshal_secret unmarshal_job unmarshal_ids unmarshal_id marshal_info
    getenv cfg (sch : option S) e m :
  let exec := exec unmarshal_secret unmarshal_job unmarshal_ids unmarshal_id marshal_info in
  runner_protocol getenv cfg = "grpc" -> env_dial e = None ->
  exists s0 s1 s2,
    Runner_Start getenv cfg sch e = Some (Ret s0 tt) /\
    exec (mjoin (replicate m reconnection)) s0 = Ret s1 tt /\
    exec (heartbeats (m + 1)) s1 = Ret s2 tt /\
    ss_dials s1 = (m + 1)%nat /\
    Forall (fun g => length (filter (fun g' => g' = g) (ss_pool s1)) = (m + 1)%nat)
      [GMonitor; GHeartbeat; GStream] /\
    cl_sent (ss_client s2) = replicate (m + 1) (heartbeat "collector-go").
Proof.
  intros exec' Hp He. destruct (Runner_Start_grpc getenv cfg sch e Hp He) as (s0 & E0 & H0 & Hsent0).
  destruct (reconnections_spec unmarshal_secret unmarshal_job unmarshal_ids unmarshal_id marshal_info
    m 0 s0 H0) as (s1 & E1 & H1 & Hs1).
  destruct (heartbeats_spec unmarshal_secret unmarshal_job unmarshal_ids unmarshal_id marshal_info
    (1 + m) (m + 1) s1 H1) as (s2 & E2 & H2 & Hs2); [lia|].
  exists s0, s1, s2. destruct H1 as (_ & _ & _ & Hd & Hpool).
  split_and!; [done|done|done|lia| |by rewrite Hs2, Hs1, Hsent0].
  rewrite Hpool. repeat apply Forall_cons_2; [..|apply Forall_nil_2]; rewrite count_blocks;
    replace (length _) with 1%nat by reflexivity; lia.
Qed.

Lemma grpc_reconnections_accumulate_witness :
  exists s0 s1 s2 : session (Runner (timers WheelTimerTask)),
    Runner_Start no_env (set_Protocol "grpc" (ex_config "")) None lost = Some (Ret s0 tt) /\
    ex_exec (mjoin (replicate 2 reconnection)) s0 = Ret s1 tt /\
    ex_exec (heartbeats 3) s1 = Ret s2 tt /\
    ss_dials s1 = 3%nat /\
    Forall (fun g => length (filter (fun g' => g' = g) (ss_pool s1)) = 3%nat)
      [GMonitor; GHeartbeat; GStream] /\
    cl_sent (ss_client s2) = replicate 3 (heartbeat "collector-go").
Proof.
  apply (grpc_reconnections_accumulate ex_secret ex_unmarshal_job ex_ids ex_id ex_info no_env
    (set_Protocol "grpc" (ex_config "")) None lost 2); reflexivity.
Defined.
