(* ===== verification/Durations.v ===== *)
(** * Package time: the syntax of durations

    [time.ParseDuration], which the collectors use for their timeouts, with its
    bounds on 64-bit integers and its fractions on float64, and the text of a
    duration. *)

From Stdlib Require Import Ascii String SpecFloat.
From S2P Require Import Prelude GoStrings GoFloat.

Open Scope string_scope.
Open Scope list_scope.
Open Scope Z_scope.

(** [leadingInt]: the value of the leading digits and the rest, [None] where the
    value exceeds 2^63. *)
Fixpoint leadingInt (x : Z) (s : string) : option (Z * string) :=
  match s with
  | String c rest =>
      if is_digit c then
        if 2 ^ 63 / 10 <? x then None
        else let x := x * 10 + char_digit c in
             if 2 ^ 63 <? x then None else leadingInt x rest
      else Some (x, s)
  | EmptyString => Some (x, s)
  end.

(** [leadingFraction]: the digits that fit, their scale as a power of ten, and
    the rest. *)
Fixpoint leadingFraction (x scale : Z) (overflow : bool) (s : string) : Z * Z * string :=
  match s with
  | String c rest =>
      if is_digit c then
        if overflow then leadingFraction x scale true rest
        else if max64 / 10 <? x then leadingFraction x scale true rest
        else let y := x * 10 + char_digit c in
             if 2 ^ 63 <? y then leadingFraction x scale true rest
             else leadingFraction y (scale * 10) false rest
      else (x, scale, s)
  | EmptyString => (x, scale, s)
  end.

(** The unit: everything up to a point or a digit. *)
Fixpoint leading_unit (s : string) : string * string :=
  match s with
  | String c rest =>
      if Ascii.eqb c "." || is_digit c then ("", s)
      else let '(u, r) := leading_unit rest in (String c u, r)
  | EmptyString => ("", "")
  end.

(** The two ways to write the micro sign, in UTF-8. *)
Definition micro_sign : string := String (ascii_of_nat 194) (String (ascii_of_nat 181) "").
Definition greek_mu : string := String (ascii_of_nat 206) (String (ascii_of_nat 188) "").

Definition unitMap (u : string) : option Z :=
  if String.eqb u "ns" then Some 1
  else if String.eqb u "us" || String.eqb u (micro_sign +:+ "s") || String.eqb u (greek_mu +:+ "s")
       then Some 1000
  else if String.eqb u "ms" then Some Millisecond
  else if String.eqb u "s" then Some Second
  else if String.eqb u "m" then Some (60 * Second)
  else if String.eqb u "h" then Some (3600 * Second)
  else None.

(** The integer part of a float64 that is not negative. *)
Definition float_trunc (x : float64) : Z :=
  match x with
  | S754_finite false m e => if 0 <=? e then Z.pos m * 2 ^ e else Z.pos m / 2 ^ (- e)
  | _ => 0
  end.

Definition fraction (f unit scale : Z) : Z :=
  if 0 <? f then float_trunc (f64_mul (f64_of_Z f) (f64_div (f64_of_Z unit) (f64_of_Z scale))) else 0.

(** One number with its unit: the value and the rest. *)
Definition parse_segment (s : string) : option (Z * string) :=
  match s with
  | EmptyString => None
  | String c _ =>
      if negb (Ascii.eqb c "." || is_digit c) then None
      else
        match leadingInt 0 s with
        | None => None
        | Some (v, s1) =>
            let pre := negb (String.length s1 =? String.length s)%nat in
            let '(f, scale, s2, post) :=
              match s1 with
              | String "." r =>
                  let '(f, scale, s2) := leadingFraction 0 1 false r in
                  (f, scale, s2, negb (String.length s2 =? String.length r)%nat)
              | _ => (0, 1, s1, false)
              end in
            if negb (pre || post) then None
            else
              let '(u, s3) := leading_unit s2 in
              if String.eqb u "" then None
              else
                match unitMap u with
                | None => None
                | Some unit =>
                    if 2 ^ 63 / unit <? v then None
                    else let v := v * unit + fraction f unit scale in
                         if 2 ^ 63 <? v then None else Some (v, s3)
                end
        end
  end.

(** The loop over the numbers; a round takes at least one character. *)
Fixpoint duration_loop (fuel : nat) (d : Z) (s : string) : option Z :=
  match fuel with
  | O => None
  | S fuel =>
      if String.eqb s "" then Some d
      else
        match parse_segment s with
        | None => None
        | Some (v, rest) => if 2 ^ 63 <? d + v then None else duration_loop fuel (d + v) rest
        end
  end.

(** [time.ParseDuration]: the duration, or no text of the error. *)
Definition ParseDuration (s : string) : option Z :=
  let '(neg, s) :=
    match s with
    | String "-" r => (true, r)
    | String "+" r => (false, r)
    | _ => (false, s)
    end in
  if String.eqb s "0" then Some 0
  else if String.eqb s "" then None
  else
    match duration_loop (S (String.length s)) 0 s with
    | None => None
    | Some d => if neg then Some (wrap64 (- wrap64 d)) else if max64 <? d then None else Some d
    end.

(** ** Proofs *)

Example durations :
  ParseDuration "1h15m30.918s" = Some 4530918000000 /\ ParseDuration "-1.5h" = Some (-5400 * Second) /\
  ParseDuration "300ms" = Some (300 * Millisecond) /\ ParseDuration ".5s" = Some (500 * Millisecond) /\
  ParseDuration "30" = None /\ ParseDuration "0" = Some 0 /\ ParseDuration "1.s2" = None /\
  ParseDuration "9223372036854775807ns" = Some max64 /\ ParseDuration "9223372036854775808ns" = None /\
  ParseDuration "-9223372036854775808ns" = Some min64 /\ ParseDuration "3 s" = None.
Proof. vm_compute. repeat split. Qed.

Lemma leadingInt_rest s : forall x v r, leadingInt x s = Some (v, r) -> (String.length r <= String.length s)%nat.
Proof.
  induction s as [|c s IH]; intros x v r H; simpl in H; [by injection H as _ <-|].
  destruct (is_digit c); [|by injection H as _ <-].
  destruct (_ <? x); [done|]. destruct (_ <? _); [done|]. apply IH in H. simpl. lia.
Qed.

Lemma leadingFraction_rest s : forall x k o v k' r,
  leadingFraction x k o s = (v, k', r) -> (String.length r <= String.length s)%nat.
Proof.
  induction s as [|c s IH]; intros x k o v k' r H; simpl in H; [by injection H as _ _ <-|].
  destruct (is_digit c); [|by injection H as _ _ <-]. simpl.
  destruct o; [apply IH in H; lia|]. destruct (_ <? x); [apply IH in H; lia|].
  destruct (_ <? _); apply IH in H; lia.
Qed.

Lemma leading_unit_rest s : forall u r,
  leading_unit s = (u, r) -> (String.length u + String.length r = String.length s)%nat.
Proof.
  induction s as [|c s IH]; intros u r H; simpl in H; [by injection H as <- <-|].
  destruct (_ || _); [by injection H as <- <-|].
  destruct (leading_unit s) as [u' r'] eqn:E. injection H as <- <-. simpl. by rewrite (IH u' r').
Qed.

(** Every round of the loop shortens the text. *)
Lemma parse_segment_shorter s v r : parse_segment s = Some (v, r) -> (String.length r < String.length s)%nat.
Proof.
  unfold parse_segment. destruct s as [|c0 s0]; [done|]. set (s := String c0 s0).
  destruct (negb _); [done|]. destruct (leadingInt 0 s) as [[x s1]|] eqn:E1; [|done].
  apply leadingInt_rest in E1.
  set (t := match s1 with String "." _ => _ | _ => _ end).
  assert (String.length (snd (fst t)) <= String.length s1)%nat as Ht.
  { unfold t. destruct s1 as [|[[] [] [] [] [] [] [] []] r1]; try (simpl; lia).
    destruct (leadingFraction 0 1 false r1) as [[f k] s2] eqn:E2. apply leadingFraction_rest in E2.
    simpl. lia. }
  destruct t as [[[f k] s2] post]. cbn [fst snd] in Ht. destruct (negb _); [done|].
  destruct (leading_unit s2) as [u s3] eqn:E3. apply leading_unit_rest in E3.
  destruct (String.eqb u "") eqn:Eu; [done|]. destruct (unitMap u); [|done].
  destruct (_ <? x); [done|]. destruct (_ <? _); [done|]. intros [= _ <-].
  destruct u; [done|]. simpl in E3. lia.
Qed.

(** The fuel is enough: more of it changes nothing. *)
Lemma duration_loop_fuel n : forall m d s,
  (String.length s < n)%nat -> (n <= m)%nat -> duration_loop m d s = duration_loop n d s.
Proof.
  induction n as [|n IH]; intros m d s Hn Hm; [lia|]. destruct m as [|m]; [lia|].
  cbn [duration_loop]. destruct (String.eqb s ""); [done|].
  destruct (parse_segment s) as [[v r]|] eqn:E; [|done]. apply parse_segment_shorter in E.
  destruct (_ <? d + v); [done|]. apply IH; lia.
Qed.

(** Digits alone are no duration, but for a single zero. *)
Lemma leadingInt_digits s : forall x v r,
  str_all is_digit s = true -> leadingInt x s = Some (v, r) -> r = "".
Proof.
  induction s as [|c s IH]; intros x v r Hs H; simpl in *; [by injection H as _ <-|].
  destruct (is_digit c); [|discriminate Hs]. simpl in Hs.
  destruct (_ <? x); [done|]. destruct (_ <? _); [done|]. by eapply IH.
Qed.

Lemma digits_no_duration s n d :
  s <> "" -> str_all is_digit s = true -> duration_loop n d s = None.
Proof.
  intros Hne Hs. destruct n as [|n]; [done|]. cbn [duration_loop].
  rewrite (proj2 (String.eqb_neq _ _)) by done.
  assert (parse_segment s = None) as ->; [|done].
  unfold parse_segment. destruct s as [|c s0]; [done|]. destruct (negb (_ || _)); [done|].
  destruct (leadingInt 0 (String c s0)) as [[v r]|] eqn:E; [|done].
  apply leadingInt_digits in E as ->; [|done]. cbn [leading_unit String.eqb].
  by destruct (negb (_ || _)).
Qed.

Lemma undigits_all s : forall a z, undigits_loop a s = Some z -> str_all is_digit s = true.
Proof.
  induction s as [|c s IH]; intros a z H; simpl in *; [done|].
  destruct (is_digit c); [|done]. by eapply IH.
Qed.

Definition in_range64 (z : Z) : option Z := if (min64 <=? z) && (z <=? max64) then Some z else None.

Definition unsigned_duration (neg : bool) (s : string) : option Z :=
  if String.eqb s "0" then Some 0
  else if String.eqb s "" then None
  else
    match duration_loop (S (String.length s)) 0 s with
    | None => None
    | Some d => if neg then Some (wrap64 (- wrap64 d)) else if max64 <? d then None else Some d
    end.

(** Both functions read a sign first. *)
Lemma signs (s : string) :
  exists neg t, ParseDuration s = unsigned_duration neg t /\
    Atoi s = match undigits t with Some z => in_range64 (if neg then - z else z) | None => None end.
Proof.
  destruct s as [|c s]; [by exists false, ""|].
  destruct (decide (c = "-"%char)) as [->|H1].
  { exists true, s. split; [done|]. unfold Atoi. by destruct (undigits s). }
  destruct (decide (c = "+"%char)) as [->|H2].
  { exists false, s. split; [done|]. unfold Atoi. by destruct (undigits s). }
  exists false, (String c s).
  destruct c as [[] [] [] [] [] [] [] []]; try done; by destruct H1 || by destruct H2.
Qed.

(** ** The text of a duration *)

(** The last [prec] digits of a number as a fraction without trailing zeros, and
    the rest of the number; [print] tells that a digit has been printed. *)
Fixpoint fmtFrac (prec : nat) (v : Z) (print : bool) (acc : string) : string * Z :=
  match prec with
  | O => (if print then "." +:+ acc else acc, v)
  | S prec =>
      let digit := v mod 10 in
      let print := print || negb (digit =? 0) in
      fmtFrac prec (v / 10) print (if print then Itoa digit +:+ acc else acc)
  end.

(** A part of a text: a number with a fraction, below a unit. *)
Definition fmt_unit (v : Z) (prec : nat) (unit : string) : string :=
  let '(frac, v) := fmtFrac prec v false "" in Itoa v +:+ frac +:+ unit.

(** The micro sign in UTF-8. *)
Definition micro : string := String (ascii_of_N 194) (String (ascii_of_N 181) "").

Definition Microsecond : Z := 1000.

(** [Duration.String]. *)
Definition Duration_String (d : Z) : string :=
  let u := Z.abs d in
  (if d <? 0 then "-" else "") +:+
  (if u <? Second then
     if u =? 0 then "0s"
     else if u <? Microsecond then fmt_unit u 0 "ns"
     else if u <? Millisecond then fmt_unit u 3 (micro +:+ "s")
     else fmt_unit u 6 "ms"
   else
     let '(frac, u) := fmtFrac 9 u false "" in
     let seconds := Itoa (u mod 60) +:+ frac +:+ "s" in
     let minutes := u / 60 in
     if minutes =? 0 then seconds
     else let hours := minutes / 60 in
       (if hours =? 0 then "" else Itoa hours +:+ "h") +:+ Itoa (minutes mod 60) +:+ "m" +:+ seconds).

Example ex_durations :
  Duration_String <$> [0; 999; 1500000; 100 * Millisecond; 51200 * Millisecond; 3661 * Second + 1; - 90 * Second]
  = ["0s"; "999ns"; "1.5ms"; "100ms"; "51.2s"; "1h1m1.000000001s"; "-1m30s"]
  /\ (ParseDuration <$> (Duration_String <$> [1500; 51200 * Millisecond; min64; max64]))
     = [Some 1500; Some (51200 * Millisecond); Some min64; Some max64].
Proof. vm_compute. by split. Qed.

(** A text that [strconv.Atoi] reads is a duration only where it is zero. *)
Lemma Atoi_no_duration s z : Atoi s = Some z -> ParseDuration s = None \/ (ParseDuration s = Some 0 /\ z = 0).
Proof.
  destruct (signs s) as (neg & t & -> & ->). unfold undigits, unsigned_duration.
  destruct (String.eqb t "0") eqn:E0.
  { apply String.eqb_eq in E0 as ->. simpl. intros H. right. split; [done|].
    unfold in_range64 in H. by destruct neg; injection H as <-. }
  destruct (String.eqb t "") eqn:E1; [done|]. apply String.eqb_neq in E1.
  destruct (undigits_loop 0 t) as [y|] eqn:E; [|done]. apply undigits_all in E.
  left. by rewrite digits_no_duration.
Qed.
