(* ===== verification/Report.v ===== *)
(** * The report of the dispatcher

    Models what internal/job/dispatcher/time_wheel.go and hashed_wheel_timer.go
    say about themselves: [Stats], [GetStats] and [logStatistics], whose log
    entry is a record.  The report reads the maps that the scheduler of
    Scheduler changes; the property says that it describes them. *)

From Stdlib Require Import Ascii String.
From S2P Require Import Prelude GoStrings WheelTimer TimerService JobTypes TimeDispatch Scheduler Durations.

Open Scope string_scope.
Open Scope list_scope.
Open Scope Z_scope.
Open Scope go_scope.

(** ** Time values *)

(** [Time.Sub] saturates; [zero_time] is the zero Time in nanoseconds. *)
Definition time_Sub (t u : Z) : Z := Z.max min64 (Z.min max64 (t - u)).
Definition zero_time : Z := -62135596800 * Second.
Definition IsZero (t : Z) : bool := t =? zero_time.

(** ** The timer *)

Record timer_stats := mkTimerStats {
  ts_wheelSize : Z;
  ts_tickDuration : string;
  ts_currentTick : Z;
  ts_totalTimeouts : Z;
  ts_started : bool;
  ts_stopped : bool;
  ts_wheelPeriod : string;
}.

(** [GetStats] of the interface [HashedWheelTimer], and of the wheel. *)
Class TimerStats (T : Type) := timer_GetStats : T -> timer_stats.

Definition GetStats (h : hashedWheelTimer) : timer_stats :=
  mkTimerStats (wheelSize h) (Duration_String (tickDuration h)) (currentTick h)
    (Z.of_nat (totalTimeouts h)) (hwt_started h) (hwt_stopped h)
    (Duration_String (wrap64 (wheelSize h * tickDuration h))).

#[export] Instance wheel_stats {Task} : TimerStats (timers Task) := fun t => GetStats (hwt t).

(** ** The dispatcher *)

Record dispatcher_stats := mkDispatcherStats {
  ds_cyclicJobs : Z;
  ds_tempJobs : Z;
  ds_started : bool;
  ds_uptime : Z;
  ds_totalJobsAdded : Z;
  ds_totalJobsRemoved : Z;
  ds_totalJobsExecuted : Z;
  ds_totalJobsCompleted : Z;
  ds_totalJobsFailed : Z;
  ds_lastExecutionTime : option Z;
}.

Record cyclic_detail := mkCyclicDetail {
  cd_jobID : Z;
  cd_app : string;
  cd_monitorID : Z;
  cd_interval : Z;
  cd_createdAt : Z;
  cd_lastExecuted : option Z;
  cd_nextExecution : Z;
  cd_execCount : Z;
  cd_timeSinceLastExec : string;
  cd_timeToNextExec : string;
}.

Record temp_detail := mkTempDetail {
  tp_jobID : Z;
  tp_app : string;
  tp_monitorID : Z;
  tp_createdAt : Z;
  tp_nextExecution : Z;
  tp_execCount : Z;
}.

(** The entry that [logStatistics] writes. *)
Record report := mkReport {
  rp_stats : dispatcher_stats;
  rp_total : Z;
  rp_timer : timer_stats;
  rp_cyclicJobs : list cyclic_detail;
  rp_tempJobs : list temp_detail;
}.

Definition timeSinceLastExec (now : Z) (i : JobInfo) : string :=
  match ji_LastExecutedAt i with
  | None => "never"
  | Some t => Duration_String (time_Sub now t)
  end.

Definition timeToNextExec (now : Z) (i : JobInfo) : string :=
  if IsZero (ji_NextExecutionAt i) then "unknown"
  else if ji_NextExecutionAt i <? now then "overdue"
  else Duration_String (time_Sub (ji_NextExecutionAt i) now).

Definition detail_of_cyclic (now jobID : Z) (i : JobInfo) : cyclic_detail :=
  mkCyclicDetail jobID (job_App (ji_Job i)) (job_MonitorID (ji_Job i)) (job_DefaultInterval (ji_Job i))
    (ji_CreatedAt i) (ji_LastExecutedAt i) (ji_NextExecutionAt i) (ji_ExecutionCount i)
    (timeSinceLastExec now i) (timeToNextExec now i).

Definition detail_of_temp (jobID : Z) (i : JobInfo) : temp_detail :=
  mkTempDetail jobID (job_App (ji_Job i)) (job_MonitorID (ji_Job i)) (ji_CreatedAt i)
    (ji_NextExecutionAt i) (ji_ExecutionCount i).

Section Report.
Context {T : Type} `{!TimerOps T WheelTimerTask, !TimerStats T}.
Implicit Types td : TimeDispatch T.

(** [Stats]. *)
Definition Stats (now : Z) td : dispatcher_stats :=
  let x := td_stats td in
  mkDispatcherStats (Z.of_nat (cyclicJobs td)) (Z.of_nat (tempJobs td)) (td_started td)
    (time_Sub now (st_StartTime x)) (st_TotalJobsAdded x) (st_TotalJobsRemoved x) (st_TotalJobsExecuted x)
    (st_TotalJobsCompleted x) (st_TotalJobsFailed x) (st_LastExecutionTime x).

(** [logStatistics]: [now] is the clock reading of [Stats], [clock id] that for
    the entry of a cyclic job, [cyclic] and [temp] the orders in which the maps
    are visited. *)
Definition logStatistics (now : Z) (clock : Z -> Z) (cyclic temp : list (Z * option tptr)) td : report :=
  let stats := Stats now td in
  mkReport stats (ds_cyclicJobs stats + ds_tempJobs stats) (timer_GetStats (td_wheelTimer td))
    (omap (fun '(jobID, _) => detail_of_cyclic (clock jobID) jobID <$> td_jobInfos td !! jobID) cyclic)
    (omap (fun '(jobID, _) => detail_of_temp jobID <$> td_jobInfos td !! jobID) temp).

End Report.

(** ** Invariant: the information about the registered jobs *)

Section Listed.
Context {T : Type} `{!TimerOps T WheelTimerTask, !TimerLaws T WheelTimerTask}.
Implicit Types (td : TimeDispatch T) (s : sched T).

Definition described (id : Z) (cyclic : bool) (x : option tptr) (i : JobInfo) : Prop :=
  job_ID (ji_Job i) = id /\ job_IsCyclic (ji_Job i) = cyclic /\ job_ok (ji_Job i) /\ ji_Timeout i = x.

Definition listed (id : Z) (cyc temp : option (option tptr)) (info : option JobInfo) : Prop :=
  match cyc, temp, info with
  | Some x, None, Some i => described id true x i
  | None, Some x, Some i => described id false x i
  | None, None, None => True
  | _, _, _ => False
  end.

Definition infos_ok td : Prop :=
  forall id, listed id (td_cyclicTasks td !! id) (td_tempTasks td !! id) (td_jobInfos td !! id).

Lemma infos_ok_same td td' :
  infos_ok td -> td_cyclicTasks td' = td_cyclicTasks td -> td_tempTasks td' = td_tempTasks td ->
  td_jobInfos td' = td_jobInfos td -> infos_ok td'.
Proof. intros Hi H1 H2 H3 id. rewrite H1, H2, H3. apply Hi. Qed.

(** Only the entries of one job change. *)
Lemma infos_ok_at id td td' :
  infos_ok td ->
  (forall k, k <> id -> td_cyclicTasks td' !! k = td_cyclicTasks td !! k /\
     td_tempTasks td' !! k = td_tempTasks td !! k /\ td_jobInfos td' !! k = td_jobInfos td !! k) ->
  listed id (td_cyclicTasks td' !! id) (td_tempTasks td' !! id) (td_jobInfos td' !! id) ->
  infos_ok td'.
Proof.
  intros Hi Hk Hid k. destruct (decide (k = id)) as [->|Hne]; [done|].
  destruct (Hk k Hne) as (-> & -> & ->). apply Hi.
Qed.

Lemma infos_add now j td td' r :
  infos_ok td -> job_ok j ->
  td_cyclicTasks td !! job_ID j = None -> td_tempTasks td !! job_ID j = None ->
  AddJob now (Some j) td = Ret td' r -> infos_ok td'.
Proof.
  intros Hi Hj Hc Ht E. unfold AddJob, mbind', mmodify, mret, with_timer in E.
  destruct (timer_new _ _ _ _) as [t p|]; [|done]. injection E as <- _.
  apply (infos_ok_at (job_ID j) td); [done| |]; destruct (job_IsCyclic j) eqn:Hcy; cbn.
  - intros k Hk. by rewrite !lookup_insert_ne.
  - intros k Hk. by rewrite !lookup_insert_ne.
  - rewrite !lookup_insert_eq, Ht. by split_and!.
  - rewrite !lookup_insert_eq, Hc. by split_and!.
Qed.

Lemma infos_remove id td td' r : infos_ok td -> RemoveJob id td = Ret td' r -> infos_ok td'.
Proof.
  intros Hi E. pose proof (Hi id) as Hid. unfold RemoveJob, mbind', mmodify, mget, mret in E.
  cbn [td_cyclicTasks td_tempTasks set_stats] in E.
  destruct (td_cyclicTasks td !! id) as [[p|]|] eqn:Ec; [| |destruct (td_tempTasks td !! id) as [[p|]|] eqn:Et];
    cbn in E; try done; injection E as <- _.
  - destruct (td_tempTasks td !! id) eqn:Et; [done|]. apply (infos_ok_at id td); [done| |]; cbn.
    + intros k Hk. by rewrite !lookup_delete_ne.
    + by rewrite !lookup_delete_eq, Et.
  - apply (infos_ok_at id td); [done| |]; cbn.
    + intros k Hk. by rewrite !lookup_delete_ne.
    + by rewrite !lookup_delete_eq, Ec.
  - by apply (infos_ok_same td).
Qed.

Lemma infos_alter f id td td' :
  infos_ok td -> (forall i, ji_Job (f i) = ji_Job i /\ ji_Timeout (f i) = ji_Timeout i) ->
  td_cyclicTasks td' = td_cyclicTasks td -> td_tempTasks td' = td_tempTasks td ->
  td_jobInfos td' = alter f id (td_jobInfos td) -> infos_ok td'.
Proof.
  intros Hi Hf H1 H2 H3. apply (infos_ok_at id td); [done| |]; rewrite H1, H2, H3.
  - intros k Hk. by rewrite lookup_alter_ne.
  - pose proof (Hi id) as Hid. rewrite lookup_alter_eq. unfold listed, described in *.
    destruct (td_cyclicTasks td !! id), (td_tempTasks td !! id), (td_jobInfos td !! id) as [i|]; try done;
      cbn; by destruct (Hf i) as [-> ->].
Qed.

Lemma infos_reschedule now j td td' r :
  infos_ok td -> is_Some (td_cyclicTasks td !! job_ID j) ->
  RescheduleJob now j td = Ret td' r -> infos_ok td'.
Proof.
  intros Hi [x Hx] E. unfold RescheduleJob in E.
  destruct (_ || _); [by injection E as <- _|].
  unfold mbind', mmodify, mret, with_timer in E.
  destruct (timer_new _ _ _ _) as [t p|]; [|done]. injection E as <- _.
  apply (infos_ok_at (job_ID j) td); [done| |]; cbn.
  - intros k Hk. by rewrite lookup_insert_ne, lookup_alter_ne.
  - pose proof (Hi (job_ID j)) as Hid. rewrite lookup_insert_eq, lookup_alter_eq. rewrite Hx in Hid.
    destruct (td_tempTasks td !! job_ID j), (td_jobInfos td !! job_ID j) as [i|]; try done. cbn.
    destruct Hid as (H1 & H2 & H3 & _). by split_and!.
Qed.

Lemma infos_step e s s' :
  sched_inv s -> disciplined e s -> infos_ok (sc_td s) -> sched_step e s = Ret s' tt -> infos_ok (sc_td s').
Proof.
  destruct s as [td fl]. intros Hinv Hd Hi E. unfold sched_step, on_td in E. cbn [sc_td sc_flight] in *.
  destruct e as [now j|id| |i now|i now err].
  - destruct Hd as (_ & Hj & Hc & Ht). destruct (AddJob now (Some j) td) as [td' r|] eqn:EA; [|done].
    injection E as <-. by eapply infos_add.
  - destruct (RemoveJob id td) as [td' r|] eqn:ER; [|done]. injection E as <-. by eapply infos_remove.
  - destruct (timer_tick (td_wheelTimer td)) as [t fired|]; [|done]. injection E as <-.
    by apply (infos_ok_same td).
  - destruct (fl !! i) as [[j []]|]; [by injection E as <-| |by injection E as <-].
    injection E as <-. eapply infos_alter; [exact Hi| |reflexivity..]. done.
  - destruct Hd as [_ ->]. destruct (fl !! i) as [[j []]|] eqn:Hfl; [|by injection E as <-..].
    destruct (running_token td fl i j true Hinv Hfl) as (_ & Hj & _ & p & Hreg).
    unfold run_end, RecordJobCompleted, mbind', mmodify, mret in E.
    destruct (job_IsCyclic j) eqn:Hc; cbn [andb] in E; [|injection E as <-; by apply (infos_ok_same td)].
    unfold rescheduleJob in E. rewrite (proj2 (Z.ltb_lt 0 _) (proj1 (proj2 Hj Hc))) in E.
    rewrite (proj2 (Z.leb_gt _ 0) (proj1 (proj2 Hj Hc))) in E. unfold mbind' in E.
    destruct (RescheduleJob now j _) as [td' r|] eqn:ER in E; [|done]. injection E as <-.
    eapply (infos_reschedule now j (set_stats (stats_add 0 0 1 0) td)); [|cbn; by rewrite (proj1 Hreg)|exact ER].
    by apply (infos_ok_same td).
Qed.

Lemma reachable_infos now timer s :
  timer_ok timer -> timer_active timer -> pending timer = [] ->
  reachable (mkSched (NewTimeDispatch now timer) []) s -> sched_inv s /\ infos_ok (sc_td s).
Proof.
  intros Hok Ha Hp. induction 1 as [|s s' e _ [IH1 IH2] Hd E].
  - split; [by apply inv_init|]. intros id. exact I.
  - destruct (step_inv e s IH1 Hd) as (s'' & E' & Hi). rewrite E in E'. injection E' as <-.
    split; [done|]. by apply (infos_step e s).
Qed.

End Listed.

(** ** What the report says *)

Section Listing.
Context {T : Type} `{!TimerOps T WheelTimerTask, !TimerLaws T WheelTimerTask, !TimerStats T}.
Implicit Types td : TimeDispatch T.

Lemma listed_cyclic td id x : infos_ok td -> td_cyclicTasks td !! id = Some x ->
  exists i, td_jobInfos td !! id = Some i /\ described id true x i.
Proof.
  intros Hi Hx. pose proof (Hi id) as Hid. rewrite Hx in Hid.
  destruct (td_tempTasks td !! id), (td_jobInfos td !! id) as [i|]; try done. by exists i.
Qed.

Lemma listed_temp td id x : infos_ok td -> td_tempTasks td !! id = Some x ->
  exists i, td_jobInfos td !! id = Some i /\ described id false x i.
Proof.
  intros Hi Hx. pose proof (Hi id) as Hid. rewrite Hx in Hid.
  destruct (td_cyclicTasks td !! id), (td_jobInfos td !! id) as [i|]; try done. by exists i.
Qed.

(** Where every id has its information, every id has its entry. *)
Lemma entries {D} (f : Z -> JobInfo -> D) (g : D -> Z) (m : gmap Z JobInfo) (l : list (Z * option tptr)) :
  (forall id i, g (f id i) = id) -> (forall id x, (id, x) ∈ l -> is_Some (m !! id)) ->
  g <$> omap (fun '(id, _) => f id <$> m !! id) l = l.*1.
Proof.
  intros Hg. induction l as [|[id x] l IH]; intros Hl; [done|].
  destruct (Hl id x) as [i E]; [by left|]. csimpl. rewrite E. csimpl. rewrite Hg. f_equal.
  apply IH. intros id' x' Hin. apply (Hl id' x'). by right.
Qed.

Lemma elem_of_order (m : gmap Z (option tptr)) l id x :
  l ≡ₚ map_to_list m -> (id, x) ∈ l <-> m !! id = Some x.
Proof. intros ->. apply elem_of_map_to_list. Qed.

(** The two maps share no id, and together they have those of the third. *)
Lemma registered_size td : infos_ok td ->
  size (td_jobInfos td) = (size (td_cyclicTasks td) + size (td_tempTasks td))%nat /\
  dom (td_cyclicTasks td) ## (dom (td_tempTasks td) : gset Z).
Proof.
  intros Hi.
  assert (dom (td_cyclicTasks td) ## (dom (td_tempTasks td) : gset Z)) as Hd.
  { intros id [x Hx]%elem_of_dom [y Hy]%elem_of_dom. pose proof (Hi id) as Hid. by rewrite Hx, Hy in Hid. }
  split; [|done]. rewrite <- !(size_dom (D := gset Z)), <- size_union by done. f_equal. apply set_eq.
  intros id. rewrite elem_of_union, !elem_of_dom. pose proof (Hi id) as Hid.
  destruct (td_cyclicTasks td !! id), (td_tempTasks td !! id), (td_jobInfos td !! id); try done;
    rewrite ?is_Some_alt; cbn; tauto.
Qed.

Lemma reachable_balanced now timer s :
  reachable (mkSched (NewTimeDispatch now timer) []) s -> balanced s.
Proof. induction 1 as [|s s' e _ IH _ E]; [done|by apply (balanced_step e s)]. Qed.

(** C36 (invariant). In every state that a client that follows the discipline
    reaches, and in whatever order the maps are visited, the report has exactly
    one entry for each registered job, under its kind; no job has two; the total
    is the number of the registered jobs; a cyclic entry has a positive interval;
    and the executions are the completions, the failures and the runs in
    progress, modulo 2^64. *)
Theorem report_lists_jobs now0 timer s now clock cyclic temp :
  timer_ok timer -> timer_active timer -> pending timer = [] ->
  reachable (mkSched (NewTimeDispatch now0 timer) []) s ->
  cyclic ≡ₚ map_to_list (td_cyclicTasks (sc_td s)) -> temp ≡ₚ map_to_list (td_tempTasks (sc_td s)) ->
  let r := logStatistics now clock cyclic temp (sc_td s) in
  cd_jobID <$> rp_cyclicJobs r = cyclic.*1 /\ tp_jobID <$> rp_tempJobs r = temp.*1 /\
  NoDup ((cd_jobID <$> rp_cyclicJobs r) ++ (tp_jobID <$> rp_tempJobs r)) /\
  rp_total r = Z.of_nat (size (td_jobInfos (sc_td s))) /\
  Forall (fun d => 0 < cd_interval d) (rp_cyclicJobs r) /\
  eq64 (ds_totalJobsExecuted (rp_stats r))
    (ds_totalJobsCompleted (rp_stats r) + ds_totalJobsFailed (rp_stats r) + Z.of_nat (begun s)).
Proof.
  intros Hok Ha Hp Hr Hc Ht r. pose proof (reachable_balanced _ _ _ Hr) as Hb.
  destruct (reachable_infos _ _ _ Hok Ha Hp Hr) as [_ Hi]. destruct (registered_size _ Hi) as [Hs Hd].
  assert (cd_jobID <$> rp_cyclicJobs r = cyclic.*1) as Ec.
  { apply (entries _ cd_jobID); [done|]. intros id x Hin%(elem_of_order _ _ _ _ Hc).
    destruct (listed_cyclic _ _ _ Hi Hin) as (i & -> & _). done. }
  assert (tp_jobID <$> rp_tempJobs r = temp.*1) as Et.
  { apply (entries _ tp_jobID); [done|]. intros id x Hin%(elem_of_order _ _ _ _ Ht).
    destruct (listed_temp _ _ _ Hi Hin) as (i & -> & _). done. }
  split_and!; [exact Ec|exact Et| | | |exact Hb].
  - rewrite Ec, Et, Hc, Ht. apply NoDup_app. split_and!; [apply NoDup_fst_map_to_list| |apply NoDup_fst_map_to_list].
    intros id H1 H2. apply (Hd id); rewrite dom_alt; by apply elem_of_list_to_set.
  - rewrite Hs. cbn. unfold cyclicJobs, tempJobs. lia.
  - apply Forall_forall. intros d ([id x] & Hin & Ed)%list_elem_of_omap.
    apply (elem_of_order _ _ _ _ Hc) in Hin. destruct (listed_cyclic _ _ _ Hi Hin) as (i & Ei & Hdes).
    rewrite Ei in Ed. injection Ed as <-. destruct Hdes as (_ & Hcy & Hj & _). by apply Hj.
Qed.

End Listing.

(** *** Examples *)

(** A cyclic job that has been added. *)
Lemma report_lists_jobs_witness :
  let s := run_state [EAdd 0 (ex_job 7 100 true None)] in
  let r := logStatistics 5 (fun _ => 6) [(7, Some 0%nat)] [] (sc_td s) in
  cd_jobID <$> rp_cyclicJobs r = [7] /\ rp_total r = 1.
Proof.
  intros s r.
  assert (timer_ok (fresh_timers 512 (100 * Millisecond) : timers WheelTimerTask)) as Hok by exact (fresh_wf _ _).
  destruct (report_lists_jobs 0 _ s 5 (fun _ => 6) [(7, Some 0%nat)] [] Hok eq_refl ex_idle ex_reachable)
    as (Hc & _ & _ & Hn & _); [vm_compute; reflexivity..|].
  split; [exact Hc|]. etrans; [exact Hn|]. vm_compute. reflexivity.
Defined.

(** The report after a run, which has set the next run to the end of the next
    interval; and before it, late. *)
Example ex_report :
  ((fun d => (cd_execCount d, cd_timeSinceLastExec d, cd_timeToNextExec d))
     <$> rp_cyclicJobs (logStatistics 0 (fun _ => 7) [(7, None)] [] (sc_td (run_state ex_run))),
   (fun d => (cd_execCount d, cd_timeSinceLastExec d, cd_timeToNextExec d))
     <$> rp_cyclicJobs (logStatistics 0 (fun _ => 200 * Second) [(7, None)] []
           (sc_td (run_state [EAdd 0 (ex_job 7 100 true None)]))),
   rp_timer (logStatistics 0 (fun _ => 7) [] [] (sc_td (run_state ex_run))))
  = ([(1, "2ns", "1m39.999999999s")], [(0, "never", "overdue")],
     mkTimerStats 512 "100ms" 1 1 false false "51.2s").
Proof. vm_compute. reflexivity. Qed.

(** A removal that finds no job is counted as one. *)
Example failed_removal_counted :
  ds_totalJobsRemoved (Stats 0 (sc_td (run_state [ERemove 7]))) = 1 /\
  ds_totalJobsAdded (Stats 0 (sc_td (run_state [ERemove 7]))) = 0.
Proof. vm_compute. by split. Qed.
