(* ===== verification/Ssh.v ===== *)
(** * SSH connections and the SSH collector

    Models util/ssh/ssh_helper.go and protocol/basic/ssh/ssh_collector.go.  The
    network and the SSH library are parameters: the result of every call of
    theirs.  What they leave behind is the list of the open connections, on
    which opening and closing act.  The readings of the clock are arguments. *)

From Stdlib Require Import Ascii String.
From S2P Require Import Prelude GoStrings GoFloat Durations JobTypes Params Calc Collect.

Open Scope string_scope.
Open Scope list_scope.
Open Scope Z_scope.
Open Scope go_scope.

Definition CollectUnConnectable : Z := 3.
Definition CollectFail : Z := 4.
Definition ResponseTime : string := "responseTime".

(** ** Connections *)

(** The open connections, by the address they lead to. *)
Definition net : Type := list string.

Definition open_conn (addr : string) : M net unit := mmodify (cons addr).

Fixpoint remove_conn (addr : string) (n : net) : net :=
  match n with
  | [] => []
  | a :: rest => if String.eqb a addr then rest else a :: remove_conn addr rest
  end.

Definition close_conn (addr : string) : M net unit := mmodify (remove_conn addr).

(** [net.JoinHostPort]. *)
Definition JoinHostPort (host port : string) : string :=
  if Contains host ":" || Contains host "%" then "[" +:+ host +:+ "]:" +:+ port
  else host +:+ ":" +:+ port.

(** ** What the collectors share *)

(** A new result of a collector. *)
Definition response (now : Z) (m : Metrics) (code : Z) (message : string) (fields : list Field)
    (values : list ValueRow) : CollectRepMetricsData :=
  mkCollectRep 0 0 0 "" (m_Name m) 0 now code message fields values ∅ ∅.

Definition add_rows (r : CollectRepMetricsData) (rows : list ValueRow) : CollectRepMetricsData :=
  mkCollectRep (rep_ID r) (rep_MonitorID r) (rep_TenantID r) (rep_App r) (rep_Metrics r) (rep_Priority r)
    (rep_Time r) (rep_Code r) (rep_Msg r) (rep_Fields r) (rep_Values r ++ rows) (rep_Labels r)
    (rep_Metadata r).

Definition load_tunnel (o : option loc) : M heap (option SSHTunnel) :=
  match o with None => mret None | Some l => t <-! load as_tunnel l ; mret (Some t) end.

Lemma load_tunnel_ok h o : opt_tag h o TTunnel -> exists t, load_tunnel o h = Ret h t.
Proof.
  destruct o as [l|]; [|by eexists]. intros (o & Hl & Ho). destruct o; try discriminate Ho.
  eexists. unfold load_tunnel. by erewrite bind_ret by (unfold load; by rewrite Hl).
Qed.

Lemma load_metric_at h a i ms m :
  cells h !! a = Some (OMetrics ms) -> ms !! i = Some m -> load_metric (a, i) h = Ret h m.
Proof.
  intros Ha Hm. unfold load_metric. erewrite bind_ret by (unfold load; cbn [fst]; by rewrite Ha).
  cbn [snd]. by rewrite Hm.
Qed.

Section Ssh.
(** [pem.Decode] of a private key: the type and the bytes of the block. *)
Context (pem_Decode : string -> option (string * string)).
(** A key, or a signer for it. *)
Context {Key Signer : Type}.
Context (ParsePKCS1PrivateKey ParsePKCS8PrivateKey ParseECPrivateKey ParseRawPrivateKey
         : string -> res Key).
Context (NewSignerFromKey : Key -> res Signer).

Inductive AuthMethod := PublicKeys (s : Signer) | Password (p : string).

Record ClientConfig := mkClientConfig {
  cc_User : string;
  cc_Auth : AuthMethod;
  cc_Timeout : Z;
}.

(** [ParsePrivateKey]. *)
Definition ParsePrivateKey (privateKeyStr : string) : res Signer :=
  match pem_Decode privateKeyStr with
  | None => Err "failed to decode PEM block from private key"
  | Some (ty, bytes) =>
      let parsed :=
        if String.eqb ty "RSA PRIVATE KEY" then Ok (ParsePKCS1PrivateKey bytes)
        else if String.eqb ty "PRIVATE KEY" then Ok (ParsePKCS8PrivateKey bytes)
        else if String.eqb ty "EC PRIVATE KEY" then Ok (ParseECPrivateKey bytes)
        else if String.eqb ty "OPENSSH PRIVATE KEY" then Ok (ParseRawPrivateKey privateKeyStr)
        else Err ("unsupported private key type: " +:+ ty) in
      match parsed with
      | Err e => Err e
      | Ok (Err e) => Err ("failed to parse private key: " +:+ e)
      | Ok (Ok key) =>
          match NewSignerFromKey key with
          | Err e => Err ("failed to create signer from private key: " +:+ e)
          | Ok signer => Ok signer
          end
      end
  end.

(** [CreateSSHClientConfig]. *)
Definition CreateSSHClientConfig (config : SSHProtocol) : res ClientConfig :=
  if negb (String.eqb (ssh_PrivateKey config) "") && negb (String.eqb (TrimSpace (ssh_PrivateKey config)) "")
  then
    match ParsePrivateKey (ssh_PrivateKey config) with
    | Err e => Err ("failed to parse private key: " +:+ e)
    | Ok signer => Ok (mkClientConfig (ssh_Username config) (PublicKeys signer) 0)
    end
  else if negb (String.eqb (ssh_Password config) "")
  then Ok (mkClientConfig (ssh_Username config) (Password (ssh_Password config)) 0)
  else Err "either password or private key must be provided".

(** [createProxyClientConfig]. *)
Definition createProxyClientConfig (config : SSHProtocol) : res ClientConfig :=
  if negb (String.eqb (ssh_ProxyPrivateKey config) "") &&
     negb (String.eqb (TrimSpace (ssh_ProxyPrivateKey config)) "")
  then
    match ParsePrivateKey (ssh_ProxyPrivateKey config) with
    | Err e => Err ("failed to parse proxy private key: " +:+ e)
    | Ok signer => Ok (mkClientConfig (ssh_ProxyUsername config) (PublicKeys signer) 0)
    end
  else if negb (String.eqb (ssh_ProxyPassword config) "")
  then Ok (mkClientConfig (ssh_ProxyUsername config) (Password (ssh_ProxyPassword config)) 0)
  else Err "either proxy password or proxy private key must be provided".

(** [DialContext] of a dialer, [ssh.NewClientConn], [Dial] of a client by the
    address it is connected to, [NewSession], and [Run] with what it writes to
    standard output and to standard error. *)
Context (dial_tcp : string -> option error)
        (handshake : string -> ClientConfig -> option error)
        (client_Dial : string -> string -> option error)
        (NewSession : string -> option error)
        (session_Run : string -> string -> option error * string * string).

(** A client is represented by the name of its connection. *)
Definition DialWithContext (addr : string) (config : ClientConfig) : M net (res string) :=
  match dial_tcp addr with
  | Some e => mret (Err e)
  | None =>
      open_conn addr ;!
      match handshake addr config with
      | Some e => close_conn addr ;! mret (Err e)
      | None => mret (Ok addr)
      end
  end.

(** The connection to the target is a channel of the connection to the proxy. *)
Definition via (proxy target : string) : string := target +:+ " via " +:+ proxy.

Definition set_timeout (t : Z) (c : ClientConfig) : ClientConfig := mkClientConfig (cc_User c) (cc_Auth c) t.

Definition dialViaProxy (config : SSHProtocol) (targetConfig : ClientConfig) : M net (res string) :=
  match createProxyClientConfig config with
  | Err e => mret (Err ("failed to create proxy client config: " +:+ e))
  | Ok proxyConfig =>
      let proxyConfig := if 0 <? cc_Timeout targetConfig
                         then set_timeout (cc_Timeout targetConfig) proxyConfig else proxyConfig in
      let proxyAddress := JoinHostPort (ssh_ProxyHost config) (ssh_ProxyPort config) in
      match dial_tcp proxyAddress with
      | Some e => mret (Err ("failed to connect to proxy server " +:+ proxyAddress +:+ ": " +:+ e))
      | None =>
          open_conn proxyAddress ;!
          match handshake proxyAddress proxyConfig with
          | Some e =>
              close_conn proxyAddress ;!
              mret (Err ("failed to establish SSH connection to proxy: " +:+ e))
          | None =>
              let targetAddress := JoinHostPort (ssh_Host config) (ssh_Port config) in
              match client_Dial proxyAddress targetAddress with
              | Some e =>
                  close_conn proxyAddress ;!
                  mret (Err ("failed to dial target server " +:+ targetAddress +:+ " via proxy: " +:+ e))
              | None =>
                  let conn := via proxyAddress targetAddress in
                  open_conn conn ;!
                  match handshake conn targetConfig with
                  | Some e =>
                      close_conn conn ;!
                      close_conn proxyAddress ;!
                      mret (Err ("failed to establish SSH connection to target server: " +:+ e))
                  | None => mret (Ok conn)
                  end
              end
          end
      end
  end.

Definition uses_proxy (config : SSHProtocol) : bool :=
  String.eqb (ssh_UseProxy config) "true" && negb (String.eqb (ssh_ProxyHost config) "") &&
  negb (String.eqb (ssh_ProxyPort config) "").

Definition DialWithProxy (config : SSHProtocol) (clientConfig : ClientConfig) : M net (res string) :=
  if negb (uses_proxy config)
  then DialWithContext (JoinHostPort (ssh_Host config) (ssh_Port config)) clientConfig
  else if String.eqb (ssh_ProxyUsername config) ""
  then mret (Err "proxy username is required when using proxy")
  else if String.eqb (ssh_ProxyPassword config) "" && String.eqb (ssh_ProxyPrivateKey config) ""
  then mret (Err "either proxy password or proxy private key is required when using proxy")
  else dialViaProxy config clientConfig.

(** ** The collector *)

(** [getTimeout]. *)
Definition getTimeout (timeoutStr : string) : Z :=
  if String.eqb timeoutStr "" then 30 * Second
  else
    match ParseDuration timeoutStr with
    | Some duration => duration
    | None =>
        match Atoi timeoutStr with
        | Some timeout => wrap64 (timeout * Millisecond)
        | None => 30 * Second
        end
    end.

(** [executeSSHScript]; the client is closed when it returns. *)
Definition executeSSHScript (config : SSHProtocol) (timeout : Z) : M net (res string) :=
  match CreateSSHClientConfig config with
  | Err e => mret (Err ("failed to create SSH client config: " +:+ e))
  | Ok clientConfig =>
      conn <-! DialWithProxy config (set_timeout timeout clientConfig) ;
      match conn with
      | Err e =>
          mret (Err ("failed to connect to SSH server " +:+
            JoinHostPort (ssh_Host config) (ssh_Port config) +:+ ": " +:+ e))
      | Ok conn =>
          let result :=
            match NewSession conn with
            | Some e => Err ("failed to create SSH session: " +:+ e)
            | None =>
                let '(err, stdout, stderr) := session_Run conn (ssh_Script config) in
                match err with
                | None => Ok stdout
                | Some e =>
                    if String.eqb stderr "" then Err ("script execution failed: " +:+ e)
                    else Err ("script execution failed: " +:+ e +:+ ", stderr: " +:+ stderr)
                end
            end in
          close_conn conn ;! mret result
      end
  end.

(** [PreCheck]. *)
Definition ssh_PreCheck (ssh : option SSHProtocol) : option error :=
  match ssh with
  | None => Some "SSH protocol configuration is required"
  | Some c =>
      if String.eqb (ssh_Host c) "" then Some "host is required"
      else if String.eqb (ssh_Port c) "" then Some "port is required"
      else if String.eqb (ssh_Username c) "" then Some "username is required"
      else if String.eqb (ssh_Password c) "" && String.eqb (ssh_PrivateKey c) ""
      then Some "either password or privateKey is required for authentication"
      else if String.eqb (ssh_Script c) "" then Some "script is required"
      else None
  end.

(** [createFailResponse]. *)
Definition createFailResponse (now : Z) (m : Metrics) (code : Z) (message : string)
    : CollectRepMetricsData :=
  response now m code message [] [].

Definition alias_field (alias : string) : Field := mkField alias 1 false "" false ANil ANil.

(** The loop of [parseResponseDataByOne]: a line for every alias but
    responseTime. *)
Fixpoint one_row (aliasFields lines : list string) (responseTime : Z) : list string :=
  match aliasFields with
  | [] => []
  | alias :: rest =>
      if EqualFold alias ResponseTime then Itoa responseTime :: one_row rest lines responseTime
      else
        match lines with
        | line :: lines => TrimSpace line :: one_row rest lines responseTime
        | [] => NullValue :: one_row rest [] responseTime
        end
  end.

(** [parseResponseDataByOne]: the fields and the rows added to the response. *)
Definition parseResponseDataByOne (result : string) (aliasFields : list string) (responseTime : Z)
    : list Field * list ValueRow :=
  let lines := Split result newline in
  if (length lines + 1 <? length aliasFields)%nat then ([], [])
  else (alias_field <$> aliasFields, [mkValueRow (one_row aliasFields lines responseTime)]).

(** The positions of the columns by their names in lower case; of two columns
    of one name the last counts. *)
Definition field_mapping (header : list string) : gmap string nat :=
  foldl (fun m x => <[ToLower (TrimSpace (snd x)) := fst x]> m) ∅ (imap pair header).

Definition multi_row (mapping : gmap string nat) (aliasFields values : list string) (responseTime : Z)
    : list string :=
  (fun alias =>
     if EqualFold alias ResponseTime then Itoa responseTime
     else match mapping !! ToLower alias with
          | Some index => default NullValue (values !! index)
          | None => NullValue
          end) <$> aliasFields.

(** [parseResponseDataByMulti]. *)
Definition parseResponseDataByMulti (result : string) (aliasFields : list string) (responseTime : Z)
    : list Field * list ValueRow :=
  match Split result newline with
  | header :: ((_ :: _) as lines) =>
      let mapping := field_mapping (GoStrings.Fields header) in
      let data := filter (fun line => line <> "") (TrimSpace <$> lines) in
      (alias_field <$> aliasFields,
       (fun line => mkValueRow (multi_row mapping aliasFields (GoStrings.Fields line) responseTime)) <$> data)
  | _ => ([], [])
  end.

(** [createSuccessResponseWithResult]; a parse type that is neither of the two
    leaves the response empty. *)
Definition createSuccessResponseWithResult (now : Z) (m : Metrics) (config : SSHProtocol)
    (result : string) (responseTime : Z) : CollectRepMetricsData :=
  let '(fields, values) :=
    if EqualFold (ssh_ParseType config) "oneRow"
    then parseResponseDataByOne result (m_AliasFields m) responseTime
    else if EqualFold (ssh_ParseType config) "multiRow"
    then parseResponseDataByMulti result (m_AliasFields m) responseTime
    else ([], []) in
  response now m CollectSuccess "success" fields values.

(** [Collect]; the open connections are the state of [executeSSHScript] alone. *)
Definition ssh_Collect (now responseTime : Z) (p : mptr) : M heap (option CollectRepMetricsData) :=
  m <-! load_metric p ;
  match m_SSH m with
  | None => mret (Some (createFailResponse now m CollectFail "SSH configuration is required"))
  | Some l =>
      config <-! load as_ssh l ;
      match outcome_val (executeSSHScript config (getTimeout (ssh_Timeout config)) []) with
      | Some (Ok result) =>
          mret (Some (createSuccessResponseWithResult now m config result responseTime))
      | Some (Err e) =>
          mret (Some (createFailResponse now m CollectUnConnectable ("SSH execution error: " +:+ e)))
      | None => mpanic "unreachable"
      end
  end.

Definition SSHCollector (now responseTime : Z) : Collector :=
  mkCollector "ssh" (ssh_Collect now responseTime).

End Ssh.

(** ** Proofs *)

Section Proofs.
Context (pem_Decode : string -> option (string * string)) {Key Signer : Type}
        (ParsePKCS1PrivateKey ParsePKCS8PrivateKey ParseECPrivateKey ParseRawPrivateKey
         : string -> res Key) (NewSignerFromKey : Key -> res Signer)
        (dial_tcp : string -> option error)
        (handshake : string -> @ClientConfig Signer -> option error)
        (client_Dial : string -> string -> option error)
        (NewSession : string -> option error)
        (session_Run : string -> string -> option error * string * string).

Local Abbreviation script := (executeSSHScript pem_Decode ParsePKCS1PrivateKey ParsePKCS8PrivateKey
  ParseECPrivateKey ParseRawPrivateKey NewSignerFromKey dial_tcp handshake client_Dial NewSession session_Run)
  (only parsing).

Lemma remove_first addr n : remove_conn addr (addr :: n) = n.
Proof. simpl. by rewrite String.eqb_refl. Qed.

(** The proxy of a configuration. *)
Definition proxy_of (config : SSHProtocol) : string :=
  JoinHostPort (ssh_ProxyHost config) (ssh_ProxyPort config).

(** A connection is made, directly or through a proxy, or nothing is left open. *)
Lemma DialWithProxy_spec (config : SSHProtocol) (cc : @ClientConfig Signer) n :
  (exists e, DialWithProxy pem_Decode ParsePKCS1PrivateKey ParsePKCS8PrivateKey ParseECPrivateKey
     ParseRawPrivateKey NewSignerFromKey dial_tcp handshake client_Dial config cc n = Ret n (Err e)) \/
  (exists conn, DialWithProxy pem_Decode ParsePKCS1PrivateKey ParsePKCS8PrivateKey ParseECPrivateKey
     ParseRawPrivateKey NewSignerFromKey dial_tcp handshake client_Dial config cc n =
     Ret (conn :: (if uses_proxy config then proxy_of config :: n else n)) (Ok conn)).
Proof.
  unfold DialWithProxy. destruct (uses_proxy config) eqn:Hp; cbn [negb].
  - destruct (String.eqb (ssh_ProxyUsername config) ""); [left; by eexists|].
    destruct (_ && _); [left; by eexists|]. unfold dialViaProxy.
    destruct (createProxyClientConfig _ _ _ _ _ _ _) as [pc|e]; [|left; by eexists].
    fold (proxy_of config). destruct (dial_tcp _); [left; by eexists|].
    unfold open_conn, close_conn, mbind', mmodify, mret.
    destruct (handshake (proxy_of config) _); [left; eexists; by rewrite remove_first|].
    destruct (client_Dial _ _); [left; eexists; by rewrite remove_first|].
    destruct (handshake (via _ _) _); [|right; by eexists].
    left. eexists. by rewrite !remove_first.
  - unfold DialWithContext. destruct (dial_tcp _); [left; by eexists|].
    unfold open_conn, close_conn, mbind', mmodify, mret.
    destruct (handshake _ _); [left; eexists; by rewrite remove_first|right; by eexists].
Qed.

Lemma executeSSHScript_spec config timeout n :
  exists n' r, script config timeout n = Ret n' r /\
    (n' = n \/ (uses_proxy config = true /\ n' = proxy_of config :: n)) /\
    (forall out, r = Ok out -> n' = if uses_proxy config then proxy_of config :: n else n).
Proof.
  unfold executeSSHScript.
  destruct (CreateSSHClientConfig _ _ _ _ _ _ _) as [cc|e]; [|by eexists _, _; split_and!; [done|left|]].
  destruct (DialWithProxy_spec config (set_timeout timeout cc) n) as [[e E]|[conn E]];
    erewrite bind_ret by exact E.
  - by eexists _, _; split_and!; [done|left|].
  - unfold close_conn, mbind', mmodify, mret. rewrite remove_first.
    eexists _, _. split; [done|]. split; [|done].
    destruct (uses_proxy config); [by right|by left].
Qed.

Lemma ssh_Collect_ok wanted now responseTime :
  collector_ok wanted (SSHCollector pem_Decode ParsePKCS1PrivateKey ParsePKCS8PrivateKey ParseECPrivateKey
    ParseRawPrivateKey NewSignerFromKey dial_tcp handshake client_Dial NewSession session_Run
    now responseTime).
Proof.
  intros h a i ks key Hok Ha Hk _. apply tinv_ok in Hok as Hi.
  destruct (total_load_metric h a i ks key Hi Ha Hk) as (? & m & E & _ & _ & -> & Hm & Hkey).
  cbn [col_Collect SSHCollector]. unfold ssh_Collect.
  assert (forall r : CollectRepMetricsData, rep_Metrics r = m_Name m ->
    exists h' r', (Ret h (Some r) : outcome heap (option CollectRepMetricsData)) = Ret h' (Some r') /\
      heap_ok h' /\ ext h h' /\ rep_Metrics r' = fst (fst key)) as Hr.
  { intros r Hr. exists h, r. split_and!; [done|done|done|]. by rewrite Hr, <- Hkey. }
  erewrite bind_ret by exact E. destruct (m_SSH m) as [l|] eqn:El; [|by apply Hr].
  destruct Hm as (_ & _ & Hssh & _). rewrite El in Hssh. destruct Hssh as (o & Hl & Ho).
  destruct o; try discriminate Ho.
  erewrite bind_ret by (unfold load; by rewrite Hl).
  destruct (executeSSHScript_spec p (getTimeout (ssh_Timeout p)) []) as (n' & r & -> & _).
  cbn [outcome_val]. destruct r; apply Hr; [|done].
  unfold createSuccessResponseWithResult. destruct (EqualFold _ _).
  - by destruct (parseResponseDataByOne _ _ _).
  - destruct (EqualFold _ _); [by destruct (parseResponseDataByMulti _ _ _)|done].
Qed.

End Proofs.

(** *** The two formats *)

(** The column of a header that an alias names. *)
Definition column_of (header : list string) (alias : string) : option nat :=
  fst <$> list_find (fun name => ToLower name = ToLower alias) header.

Definition columns (responseTime : Z) (header row aliases : list string) : list string :=
  (fun alias =>
     if EqualFold alias ResponseTime then Itoa responseTime
     else default NullValue (column_of header alias ≫= (fun i => row !! i))) <$> aliases.

Lemma field_mapping_lookup header :
  Forall word header -> NoDup (ToLower <$> header) ->
  forall k i, field_mapping header !! k = Some i <-> exists name, header !! i = Some name /\ ToLower name = k.
Proof.
  induction header as [|x header IH] using rev_ind; intros Hw Hnd k i.
  { unfold field_mapping. simpl. rewrite lookup_empty. split; [done|]. by intros (? & ? & _). }
  apply Forall_app in Hw as [Hw Hx]. apply Forall_singleton in Hx as [_ Hx].
  rewrite fmap_app in Hnd. apply NoDup_app in Hnd as (Hnd & Hni & _). specialize (IH Hw Hnd).
  assert (field_mapping (header ++ [x]) = <[ToLower x := length header]> (field_mapping header)) as ->.
  { unfold field_mapping. rewrite imap_app, foldl_app. simpl.
    by rewrite TrimSpace_word, Nat.add_0_r. }
  rewrite lookup_insert_Some, IH. split.
  - intros [[<- <-]|[Hne (name & Hl & Hk)]].
    + exists x. by rewrite lookup_app_r, Nat.sub_diag by done.
    + exists name. by rewrite lookup_app_l by (by eapply lookup_lt_Some).
  - intros (name & Hl & <-). apply lookup_app_Some in Hl as [Hl|[Hge Hl]].
    + right. split; [|by exists name]. intros He. apply (Hni (ToLower name)).
      * apply list_elem_of_fmap. exists name. split; [done|]. by eapply list_elem_of_lookup_2.
      * apply list_elem_of_singleton. done.
    + left. apply list_lookup_singleton_Some in Hl as [Hi <-]. split; [done|lia].
Qed.

Lemma field_mapping_column header alias :
  Forall word header -> NoDup (ToLower <$> header) ->
  field_mapping header !! ToLower alias = column_of header alias.
Proof.
  intros Hw Hnd. pose proof (field_mapping_lookup header Hw Hnd (ToLower alias)) as H.
  unfold column_of. destruct (list_find _ header) as [[i name]|] eqn:E; simpl.
  - apply list_find_Some in E as (Hi & Hn & _). apply H. by exists name.
  - apply list_find_None in E. destruct (field_mapping header !! ToLower alias) as [i|] eqn:El; [|done].
    destruct (proj1 (H i) eq_refl) as (name & Hi & Hn). rewrite Forall_lookup in E. by destruct (E i name Hi).
Qed.

Lemma multi_row_columns header aliases row responseTime :
  Forall word header -> NoDup (ToLower <$> header) ->
  multi_row (field_mapping header) aliases row responseTime = columns responseTime header row aliases.
Proof.
  intros Hw Hnd. unfold multi_row, columns. apply list_fmap_ext. intros _ alias _. cbn.
  destruct (EqualFold alias ResponseTime); [done|].
  rewrite field_mapping_column by done. by destruct (column_of header alias).
Qed.

Lemma trimmed_rows (rows : list (list string)) :
  Forall (fun row => row <> [] /\ Forall word row) rows ->
  filter (fun line => line <> "") (TrimSpace <$> (String.concat " " <$> rows)) =
    TrimSpace <$> (String.concat " " <$> rows).
Proof.
  induction 1 as [|row rows [Hne Hrow] _ IH]; [done|]. rewrite !fmap_cons.
  rewrite filter_cons_True; [by rewrite IH|]. intros He. apply Hne.
  rewrite <- (Fields_words row Hrow), <- Fields_TrimSpace, He. done.
Qed.

(** The number of lines that the aliases before a position take. *)
Definition lines_before (aliases : list string) (k : nat) : nat :=
  length (filter (fun alias => EqualFold alias ResponseTime = false) (take k aliases)).

Lemma one_row_spec aliases : forall lines responseTime k,
  one_row aliases lines responseTime !! k =
  (fun alias => if EqualFold alias ResponseTime then Itoa responseTime
                else default NullValue (TrimSpace <$> lines !! lines_before aliases k)) <$> aliases !! k.
Proof.
  induction aliases as [|alias aliases IH]; intros lines rt k; [done|]. unfold lines_before in *.
  cbn [one_row]. destruct k as [|k].
  - simpl. destruct (EqualFold alias ResponseTime) eqn:E; [done|]. by destruct lines.
  - change (take (S k) (alias :: aliases)) with (alias :: take k aliases).
    destruct (EqualFold alias ResponseTime) eqn:E.
    + rewrite filter_cons_False by congruence. exact (IH lines rt k).
    + rewrite filter_cons_True by done. destruct lines as [|line lines]; [exact (IH [] rt k)|].
      exact (IH lines rt k).
Qed.

(** ** Properties *)

(** The connections of a script.  Without a proxy every connection
    that is opened is closed again, whatever fails on the way.  Through a proxy
    the connection to the proxy is left open by every script that could be run,
    and by none whose connection failed: nothing closes it with the client. *)
Theorem executeSSHScript_connections pem_Decode {Key Signer}
    (pkcs1 pkcs8 ec raw : string -> res Key) (NewSignerFromKey : Key -> res Signer)
    dial_tcp handshake client_Dial NewSession session_Run config timeout n :
  exists n' r,
    executeSSHScript pem_Decode pkcs1 pkcs8 ec raw NewSignerFromKey dial_tcp handshake client_Dial
      NewSession session_Run config timeout n = Ret n' r /\
    (uses_proxy config = false -> n' = n) /\
    (uses_proxy config = true -> n' = n \/ n' = proxy_of config :: n) /\
    (uses_proxy config = true -> (exists out, r = Ok out) -> n' = proxy_of config :: n).
Proof.
  destruct (executeSSHScript_spec pem_Decode pkcs1 pkcs8 ec raw NewSignerFromKey dial_tcp handshake
    client_Dial NewSession session_Run config timeout n) as (n' & r & E & H & Hok).
  exists n', r. split; [done|]. split_and!.
  - intros Hp. destruct H as [H|[H _]]; [done|congruence].
  - intros _. destruct H as [H|[_ H]]; auto.
  - intros Hp [out Hout]. specialize (Hok out Hout). by rewrite Hp in Hok.
Qed.

Definition ex_ssh (use_proxy : string) : SSHProtocol :=
  mkSSHProtocol "10.0.0.5" "22" "root" "pw" "" "" "free -m" "multiRow" "" "" "" use_proxy "10.0.0.9" "22"
    "jump" "pw2" "".

Definition ex_script (use_proxy : string) : outcome net (res string) :=
  executeSSHScript (Key := Empty_set) (Signer := Empty_set) (fun _ => None) (fun _ => Err "")
    (fun _ => Err "") (fun _ => Err "") (fun _ => Err "") (fun _ => Err "") (fun _ => None)
    (fun _ _ => None) (fun _ _ => None) (fun _ => None) (fun _ _ => (None, "out", ""))
    (ex_ssh use_proxy) (30 * Second) [].

Lemma executeSSHScript_connections_witness :
  ex_script "false" = Ret [] (Ok "out") /\ ex_script "true" = Ret ["10.0.0.9:22"] (Ok "out") /\
  exists n' r, ex_script "true" = Ret n' r /\ n' = ["10.0.0.9:22"].
Proof.
  split; [vm_compute; reflexivity|]. split; [vm_compute; reflexivity|].
  edestruct (executeSSHScript_connections (Key := Empty_set) (Signer := Empty_set) (fun _ => None)
    (fun _ => Err "") (fun _ => Err "") (fun _ => Err "") (fun _ => Err "") (fun _ => Err "")
    (fun _ => None) (fun _ _ => None) (fun _ _ => None) (fun _ => None) (fun _ _ => (None, "out", ""))
    (ex_ssh "true") (30 * Second) []) as (n' & r & E & _ & _ & H).
  exists n', r. split; [exact E|]. apply H; [reflexivity|].
  vm_compute in E. injection E as _ <-. by eexists.
Defined.

(** The output of a script in the multi-row format is read
    back: from a header of distinct names and rows of words, separated by
    spaces and newlines, every row gives one row of the result, which has for
    every alias the word below the name that it is up to case, or the
    placeholder of a null value where there is no such name or word; the alias
    responseTime gives the response time. *)
Theorem multi_row_roundtrip header rows aliases responseTime :
  Forall word header -> NoDup (ToLower <$> header) -> rows <> [] ->
  Forall (fun row => row <> [] /\ Forall word row) rows ->
  parseResponseDataByMulti (String.concat newline (String.concat " " <$> header :: rows)) aliases responseTime =
  (alias_field <$> aliases, (fun row => mkValueRow (columns responseTime header row aliases)) <$> rows).
Proof.
  intros Hw Hnd Hne Hrows. unfold parseResponseDataByMulti. rewrite fmap_cons, Split_lines.
  - pose proof (trimmed_rows rows Hrows) as Ht.
    assert (length (String.concat " " <$> rows) <> 0%nat) as Hl.
    { rewrite length_fmap. by destruct rows. }
    destruct (String.concat " " <$> rows) as [|l ls] eqn:El; [done|]. cbn [List.tl tail].
    rewrite Ht, <- El, Fields_words by done.
    f_equal. rewrite <- !list_fmap_compose. apply list_fmap_ext. intros i r Hr. cbn.
    destruct (proj1 (Forall_lookup _ _) Hrows i r Hr) as [_ Hrw].
    by rewrite Fields_TrimSpace, Fields_words, multi_row_columns.
  - apply Forall_cons. split; [by apply words_one_line|].
    apply Forall_fmap. eapply Forall_impl; [exact Hrows|]. intros r [_ Hr]. by apply words_one_line.
Qed.

Lemma multi_row_roundtrip_witness :
  parseResponseDataByMulti
    (String.concat newline (String.concat " " <$>
      [["Filesystem"; "used"; "AVAIL"]; ["/dev/sda1"; "10"; "90"]; ["tmpfs"; "0"]]))
    ["filesystem"; "avail"; "responseTime"; "inode"] 12 =
  (alias_field <$> ["filesystem"; "avail"; "responseTime"; "inode"],
   (fun row => mkValueRow (columns 12 ["Filesystem"; "used"; "AVAIL"] row
      ["filesystem"; "avail"; "responseTime"; "inode"])) <$> [["/dev/sda1"; "10"; "90"]; ["tmpfs"; "0"]]).
Proof.
  assert (forall l, forallb (fun s => negb (String.eqb s "") && no_space s) l = true -> Forall word l) as Hl.
  { intros l H. apply Forall_forall. intros s Hs. apply forallb_forall with (x := s) in H;
      [|by apply list_elem_of_In]. apply andb_true_iff in H as [H1 H2].
    split; [|done]. by intros ->. }
  apply (multi_row_roundtrip ["Filesystem"; "used"; "AVAIL"] [["/dev/sda1"; "10"; "90"]; ["tmpfs"; "0"]]).
  - by apply Hl.
  - apply (bool_decide_unpack _). vm_compute. exact I.
  - done.
  - repeat constructor; try done; by apply Hl.
Defined.

Example ex_multi_row :
  snd (parseResponseDataByMulti
    (String.concat newline (String.concat " " <$>
      [["Filesystem"; "used"; "AVAIL"]; ["/dev/sda1"; "10"; "90"]; ["tmpfs"; "0"]]))
    ["filesystem"; "avail"; "responseTime"; "inode"] 12) =
  [mkValueRow ["/dev/sda1"; "90"; "12"; "&nbsp;"]; mkValueRow ["tmpfs"; "&nbsp;"; "12"; "&nbsp;"]].
Proof. vm_compute. reflexivity. Qed.

(** The one-row format gives one row, which has for every
    alias but responseTime the next line of the output, trimmed, and the
    placeholder of a null value when the lines run out; with fewer lines than
    aliases, one missing line allowed, there is no row at all. *)
Theorem one_row_columns result aliases responseTime :
  let lines := Split result newline in
  (if (length lines + 1 <? length aliases)%nat
   then parseResponseDataByOne result aliases responseTime = ([], [])
   else exists row,
     parseResponseDataByOne result aliases responseTime = (alias_field <$> aliases, [mkValueRow row]) /\
     length row = length aliases /\
     forall k, row !! k =
       (fun alias => if EqualFold alias ResponseTime then Itoa responseTime
                     else default NullValue (TrimSpace <$> lines !! lines_before aliases k)) <$> aliases !! k).
Proof.
  intros lines. unfold parseResponseDataByOne. cbv zeta. fold lines.
  destruct (length lines + 1 <? length aliases)%nat; [done|]. eexists. split; [done|].
  assert (forall k, one_row aliases lines responseTime !! k =
       (fun alias => if EqualFold alias ResponseTime then Itoa responseTime
                     else default NullValue (TrimSpace <$> lines !! lines_before aliases k)) <$> aliases !! k)
    as H by (intros; apply one_row_spec).
  split; [|done]. apply Nat.le_antisymm.
  - destruct (decide (length (one_row aliases lines responseTime) <= length aliases)%nat) as [|Hgt]; [done|].
    destruct (lookup_lt_is_Some_2 (one_row aliases lines responseTime) (length aliases)) as [x Hx]; [lia|].
    rewrite H, (lookup_ge_None_2 aliases) in Hx by lia. discriminate Hx.
  - destruct (decide (length aliases <= length (one_row aliases lines responseTime))%nat) as [|Hgt]; [done|].
    destruct (lookup_lt_is_Some_2 aliases (length (one_row aliases lines responseTime))) as [x Hx]; [lia|].
    pose proof (H (length (one_row aliases lines responseTime))) as Hk.
    rewrite Hx, (lookup_ge_None_2 (one_row aliases lines responseTime)) in Hk by lia. discriminate Hk.
Qed.
