(* ===== verification/Redis.v ===== *)
(** * The Redis collector

    Models protocol/basic/redis/redis_collector.go.  The Redis library is a
    parameter: what INFO and CLUSTER INFO return on a node, and the nodes that a
    cluster visits.  The goroutines of the nodes of a cluster add their rows one
    after another, in an order that is a parameter. *)

From Stdlib Require Import Ascii String.
From S2P Require Import Prelude GoStrings GoFloat Durations JobTypes Params Calc Collect Ssh.

Open Scope string_scope.
Open Scope list_scope.
Open Scope Z_scope.
Open Scope go_scope.

Definition ClusterPattern : string := "3".
Definition ClusterInfo : string := "cluster".
Definition Identity : string := "identity".

(** [PreCheck]. *)
Definition redis_PreCheck (redis : option RedisProtocol) : option error :=
  match redis with
  | None => Some "redis configuration is required"
  | Some c =>
      if String.eqb (redis_Host c) "" then Some "redis host is required"
      else if String.eqb (redis_Port c) "" then Some "redis port is required"
      else None
  end.

(** The timeout in [Collect]. *)
Definition redis_timeout (s : string) : Z :=
  if String.eqb s "" then 30 * Second
  else
    match Atoi s with
    | Some t => wrap64 (t * Millisecond)
    | None => match ParseDuration s with Some d => d | None => 30 * Second end
    end.

(** The entry of a line of INFO: comments, blank lines and lines without a
    colon have none. *)
Definition parse_line (line : string) : option (string * string) :=
  let line := TrimSpace line in
  if String.eqb line "" || HasPrefix line "#" then None
  else
    match SplitN2 line ":" with
    | [key; value] => Some (ToLower (TrimSpace key), TrimSpace value)
    | _ => None
    end.

(** [parseInfo]. *)
Definition parseInfo (info : string) : gmap string string :=
  foldl (fun m line => match parse_line line with Some (k, v) => <[k := v]> m | None => m end)
    ∅ (Split info newline).

(** [addValueRow]: the row that is added. *)
Definition value_row (aliasFields : list string) (parseMap : gmap string string) : ValueRow :=
  mkValueRow ((fun alias => default NullValue (parseMap !! ToLower alias)) <$> aliasFields).

Definition is_cluster (pattern : string) : bool :=
  String.eqb pattern ClusterPattern || HasPrefix (ToLower pattern) ClusterInfo.

Section Redis.
(** The results of [Info], with its section, and of [ClusterInfo] on a node. *)
Context (Info : string -> option string -> res string) (cluster_info : string -> res string).
(** The masters and the slaves that [ForEachMaster] and [ForEachSlave] visit. *)
Context (masters slaves : string -> list string).
(** The order in which the goroutines of the nodes add their rows. *)
Context (order : list string -> list string).
(** The creation of the SSH configuration of a tunnel. *)
Context {CC : Type} (create_config : SSHProtocol -> res CC).

(** [fetchRedisInfo]. *)
Definition fetchRedisInfo (addr pattern : string) : res string :=
  if negb (String.eqb pattern "") && HasPrefix (ToLower pattern) ClusterInfo &&
     negb (String.eqb pattern ClusterPattern)
  then cluster_info addr
  else
    let section := if String.eqb pattern ClusterPattern then "" else pattern in
    Info addr (if String.eqb section "" then None else Some section).

(** The map of one node, with the entries that the collector adds. *)
Definition node_map (info : string) (responseTime : Z) (identity : string) : gmap string string :=
  <[ToLower Identity := identity]> (<[ToLower ResponseTime := Itoa responseTime]> (parseInfo info)).

Definition fail (r : CollectRepMetricsData) (code : Z) (message : string) : CollectRepMetricsData :=
  mkCollectRep (rep_ID r) (rep_MonitorID r) (rep_TenantID r) (rep_App r) (rep_Metrics r) (rep_Priority r)
    (rep_Time r) code message (rep_Fields r) (rep_Values r) (rep_Labels r) (rep_Metadata r).

Definition redis_addr (config : RedisProtocol) : string :=
  redis_Host config +:+ ":" +:+ redis_Port config.

(** [collectSingle]. *)
Definition collectSingle (m : Metrics) (config : RedisProtocol) (responseTime : Z)
    (r : CollectRepMetricsData) : CollectRepMetricsData :=
  match fetchRedisInfo (redis_addr config) (redis_Pattern config) with
  | Err e => fail r CollectFail e
  | Ok info =>
      add_rows r [value_row (m_AliasFields m) (node_map info responseTime (redis_addr config))]
  end.

(** [collectNode] of a cluster: the row of a node, if it answers. *)
Definition collectNode (m : Metrics) (config : RedisProtocol) (responseTime : Z) (addr : string)
    : option ValueRow :=
  match fetchRedisInfo addr (redis_Pattern config) with
  | Err _ => None
  | Ok info =>
      let parseMap := node_map info responseTime addr in
      let parseMap :=
        if String.eqb (m_Name m) ClusterInfo then
          match cluster_info addr with Ok c => parseInfo c ∪ parseMap | Err _ => parseMap end
        else parseMap in
      Some (value_row (m_AliasFields m) parseMap)
  end.

(** [collectCluster]; the response times of the nodes are not told apart. *)
Definition collectCluster (m : Metrics) (config : RedisProtocol) (responseTime : Z)
    (r : CollectRepMetricsData) : CollectRepMetricsData :=
  let nodes := masters (redis_addr config) ++ slaves (redis_addr config) in
  let r := add_rows r (omap (collectNode m config responseTime) (order nodes)) in
  match rep_Values r with
  | [] => fail r CollectFail "no data collected from cluster"
  | _ => r
  end.

(** [createRedisDialer]: [None] without a tunnel. *)
Definition createRedisDialer (tunnel : option SSHTunnel) : res (option CC) :=
  match tunnel with
  | None => Ok None
  | Some t =>
      if negb (String.eqb (tun_Enable t) "true") then Ok None
      else
        match create_config (mkSSHProtocol (tun_Host t) (tun_Port t) (tun_Username t) (tun_Password t)
                               "" "" "" "" "" "" "" "" "" "" "" "" "") with
        | Err e => Err e
        | Ok c => Ok (Some c)
        end
  end.

(** [Collect]; without a Redis configuration its first access panics. *)
Definition redis_Collect (now responseTime : Z) (p : mptr) : M heap (option CollectRepMetricsData) :=
  m <-! load_metric p ;
  match m_Redis m with
  | None => mpanic "nil pointer dereference"
  | Some l =>
      config <-! load as_redis l ;
      tunnel <-! load_tunnel (redis_SSHTunnel config) ;
      let r := response now m CollectSuccess "success" (alias_field <$> m_AliasFields m) [] in
      mret (Some
        match createRedisDialer tunnel with
        | Err e => fail r CollectUnConnectable e
        | Ok _ =>
            if is_cluster (redis_Pattern config)
            then collectCluster m config responseTime r
            else collectSingle m config responseTime r
        end)
  end.

End Redis.

(** ** The tunnel

    The connections of the dialer and of the connection that it makes: the
    target is reached through the connection to the SSH server. *)

Section Tunnel.
Context {Signer : Type} (dial_tcp : string -> option error)
        (handshake : string -> @ClientConfig Signer -> option error)
        (client_Dial : string -> string -> option error).

Definition redis_dial (t : SSHTunnel) (config : @ClientConfig Signer) (addr : string)
    : M net (res (string * string)) :=
  server <-! DialWithContext dial_tcp handshake (JoinHostPort (tun_Host t) (tun_Port t)) config ;
  match server with
  | Err e => mret (Err ("failed to connect to ssh server: " +:+ e))
  | Ok server =>
      match client_Dial server addr with
      | Some e => close_conn server ;! mret (Err ("failed to dial target via ssh: " +:+ e))
      | None => open_conn (via server addr) ;! mret (Ok (via server addr, server))
      end
  end.

(** [sshConnWrapper.Close]. *)
Definition wrapper_Close (conn : string * string) : M net unit :=
  close_conn (fst conn) ;! close_conn (snd conn).

(** Closing the connection closes the tunnel, and a failure leaves nothing
    open. *)
Lemma redis_dial_closed t config addr n :
  (exists e, redis_dial t config addr n = Ret n (Err e)) \/
  (exists conn n', redis_dial t config addr n = Ret n' (Ok conn) /\ wrapper_Close conn n' = Ret n tt).
Proof.
  unfold redis_dial, DialWithContext. destruct (dial_tcp _); [left; by eexists|].
  unfold open_conn, close_conn, mbind', mmodify, mret.
  destruct (handshake _ _); [left; eexists; by rewrite remove_first|].
  destruct (client_Dial _ _); [left; eexists; by rewrite remove_first|].
  right. eexists _, _. split; [done|]. unfold wrapper_Close, close_conn, mbind', mmodify. cbn [fst snd].
  by rewrite !remove_first.
Qed.
End Tunnel.

(** ** Proofs *)

(** The text of INFO: section titles, blank lines and entries, all of them
    ended by a carriage return. *)
Inductive info_line := Title (s : string) | Blank | Entry (key value : string).

Definition carriage_return : string := String (ascii_of_nat 13) "".

Definition print_line (l : info_line) : string :=
  match l with
  | Title s => "# " +:+ s +:+ carriage_return
  | Blank => carriage_return
  | Entry key value => key +:+ ":" +:+ value +:+ carriage_return
  end.

Definition line_ok (l : info_line) : Prop :=
  match l with
  | Title s => no_char (ascii_of_nat 10) s
  | Blank => True
  | Entry key value => word key /\ no_char ":" key /\ HasPrefix key "#" = false /\ no_char (ascii_of_nat 10) value
  end.

Lemma TrimSpace_entry key value :
  word key -> TrimSpace (key +:+ ":" +:+ value +:+ carriage_return) = key +:+ ":" +:+ trim_right is_space value.
Proof.
  intros [Hne Hk]. unfold TrimSpace. destruct key as [|c key]; [done|].
  unfold no_space in Hk. simpl in Hk. apply andb_true_iff in Hk as [Hc _]. apply negb_true_iff in Hc.
  change (trim_left is_space (String c key +:+ ?y)) with (trim_left is_space (String c (key +:+ y))).
  cbn [trim_left]. rewrite Hc.
  change (String c (key +:+ ":" +:+ value +:+ carriage_return))
    with (String c key +:+ String ":" (value +:+ carriage_return)).
  rewrite trim_right_stop by done. unfold carriage_return. by rewrite trim_right_space.
Qed.

Lemma parse_entry key value :
  word key -> no_char ":" key -> HasPrefix key "#" = false ->
  parse_line (key +:+ ":" +:+ value +:+ carriage_return) = Some (ToLower key, TrimSpace value).
Proof.
  intros Hk Hc Hp. unfold parse_line. rewrite TrimSpace_entry by done.
  destruct key as [|c key]; [by destruct Hk|].
  change (String.eqb (String c key +:+ ?y) "") with false.
  assert (HasPrefix (String c key +:+ ":" +:+ trim_right is_space value) "#" = false) as ->.
  { apply not_true_is_false. intros H. apply prefix_iff in H as [r [= -> _]].
    apply not_true_iff_false in Hp. apply Hp, prefix_iff. by exists key. }
  cbn [orb]. unfold SplitN2. rewrite Index_first by done. rewrite str_take_app.
  assert (str_drop (String.length (String c key) + String.length ":")
    (String c key +:+ ":" +:+ trim_right is_space value) = trim_right is_space value) as ->.
  { rewrite <- str_app_assoc, <- str_length_app. apply str_drop_app. }
  by rewrite TrimSpace_right, (TrimSpace_word (String c key)) by apply Hk.
Qed.

Lemma parse_title s : parse_line ("# " +:+ s +:+ carriage_return) = None.
Proof.
  unfold parse_line. assert (exists t, TrimSpace ("# " +:+ s +:+ carriage_return) = String "#" t) as [t ->]; [|by destruct t].
  unfold TrimSpace. change (trim_left is_space ("# " +:+ s +:+ carriage_return))
    with ("" +:+ String "#" (" " +:+ s +:+ carriage_return)).
  rewrite trim_right_stop by done. by eexists.
Qed.

Lemma print_line_one l : line_ok l -> no_char (ascii_of_nat 10) (print_line l).
Proof.
  destruct l as [s| |key value]; simpl print_line; [| done |].
  - intros Hs. apply no_char_app. split; [done|]. by apply no_char_app.
  - intros ([_ Hk] & _ & _ & Hv). apply no_char_app. split; [by apply no_space_no_char|].
    apply no_char_app. split; [done|]. by apply no_char_app.
Qed.

Definition entry_of (l : info_line) : option (string * string) :=
  match l with Entry key value => Some (ToLower key, TrimSpace value) | _ => None end.

Lemma parse_print_line l : line_ok l -> parse_line (print_line l) = entry_of l.
Proof.
  destruct l as [s| |key value]; [intros _; apply parse_title|done|].
  intros (Hk & Hc & Hp & _). by apply parse_entry.
Qed.

(** The last entry of a key. *)
Definition last_entry (k : string) (l : list info_line) : option string :=
  last (snd <$> filter (fun x => fst x = k) (omap entry_of l)).

Lemma parse_print_lines l :
  Forall line_ok l -> omap parse_line (print_line <$> l) = omap entry_of l.
Proof.
  induction 1 as [|x l Hx _ IH]; [done|]. rewrite fmap_cons. cbn [omap list_omap].
  by rewrite parse_print_line, IH.
Qed.

(** ** Properties *)

(** From the text of INFO, with its titles, blank lines and
    carriage returns, a row has for every alias the trimmed value of the last
    entry whose key is the alias up to case, and the placeholder of a null value
    where there is none. *)
Theorem info_roundtrip lines aliases :
  lines <> [] -> Forall line_ok lines ->
  value_row aliases (parseInfo (String.concat newline (print_line <$> lines))) =
  mkValueRow ((fun alias => default NullValue (last_entry (ToLower alias) lines)) <$> aliases).
Proof.
  intros Hne Hok. unfold value_row, parseInfo. f_equal. apply list_fmap_ext. intros _ alias _. f_equal.
  assert (Split (String.concat newline (print_line <$> lines)) newline = print_line <$> lines) as ->.
  { destruct lines as [|l ls]; [done|]. rewrite fmap_cons. apply Split_lines.
    rewrite <- (fmap_cons print_line). apply Forall_fmap. eapply Forall_impl; [exact Hok|].
    intros x. apply print_line_one. }
  rewrite foldl_insert_lookup, parse_print_lines, lookup_empty by done.
  unfold last_entry. by destruct (last _).
Qed.

Lemma info_roundtrip_witness :
  value_row ["redis_version"; "Used_Memory"; "role"]
    (parseInfo (String.concat newline (print_line <$>
       [Title "Server"; Entry "redis_version" "7.2:a"; Blank; Entry "used_memory" " 10 "]))) =
  mkValueRow ((fun alias => default NullValue (last_entry (ToLower alias)
       [Title "Server"; Entry "redis_version" "7.2:a"; Blank; Entry "used_memory" " 10 "])) <$>
    ["redis_version"; "Used_Memory"; "role"]).
Proof. apply info_roundtrip; [done|]. by repeat constructor. Defined.

Example ex_info :
  value_row ["redis_version"; "Used_Memory"; "role"]
    (parseInfo (String.concat newline (print_line <$>
       [Title "Server"; Entry "redis_version" "7.2:a"; Blank; Entry "used_memory" " 10 "]))) =
  mkValueRow ["7.2:a"; "10"; "&nbsp;"].
Proof. vm_compute. reflexivity. Qed.

(** The collectors for Redis and SSH read their timeouts the
    same way, although one tries a number first and the other a duration: a
    number is in milliseconds and never a duration, but for zero. *)
Theorem timeouts_agree s : redis_timeout s = getTimeout s.
Proof.
  unfold redis_timeout, getTimeout. destruct (String.eqb s ""); [done|].
  destruct (Atoi s) as [z|] eqn:E; [|done].
  apply Atoi_no_duration in E as [->|[-> ->]]; [done|]. reflexivity.
Qed.

(** *** The promise of a collector *)

Section Promise.
Context (Info : string -> option string -> res string) (cluster_info : string -> res string)
        (masters slaves : string -> list string) (order : list string -> list string)
        {CC : Type} (create_config : SSHProtocol -> res CC).

Local Abbreviation collect := (redis_Collect Info cluster_info masters slaves order create_config)
  (only parsing).

Lemma cluster_names m config rt r :
  rep_Metrics (collectCluster Info cluster_info masters slaves order m config rt r) = rep_Metrics r.
Proof. unfold collectCluster. by destruct (rep_Values (add_rows _ _)). Qed.

Lemma single_names m config rt r :
  rep_Metrics (collectSingle Info cluster_info m config rt r) = rep_Metrics r.
Proof. unfold collectSingle. by destruct (fetchRedisInfo _ _ _ _). Qed.

Lemma redis_Collect_ok now rt h a i ms m :
  heap_ok h -> cells h !! a = Some (OMetrics ms) -> ms !! i = Some m ->
  match m_Redis m with
  | Some _ => exists r, collect now rt (a, i) h = Ret h (Some r) /\ rep_Metrics r = m_Name m
  | None => exists w, collect now rt (a, i) h = Panic h w
  end.
Proof.
  intros [_ Hok] Ha Hm. pose proof (Hok a _ Ha) as Hms. simpl in Hms.
  pose proof (Forall_at _ _ _ _ Hms Hm) as (_ & _ & _ & _ & Hr & _).
  assert (load_metric (a, i) h = Ret h m) as E by (by apply load_metric_at with ms).
  unfold redis_Collect. destruct (m_Redis m) as [l|] eqn:Er.
  2:{ erewrite bind_ret by exact E. rewrite Er. by eexists. }
  destruct Hr as (o & Hl & Ho). destruct o; try discriminate Ho. clear Ho.
  pose proof (Hok l _ Hl) as Ht. simpl in Ht.
  destruct (load_tunnel_ok _ _ Ht) as [t Et].
  erewrite bind_ret by exact E. rewrite Er.
  erewrite bind_ret by (unfold load; by rewrite Hl). erewrite bind_ret by exact Et.
  eexists. split; [done|]. destruct (createRedisDialer _ _); [|done].
  destruct (is_cluster _); [by rewrite cluster_names|by rewrite single_names].
Qed.
End Promise.
