(* ===== verification/JdbcUrl.v ===== *)
(** * The security check of database URLs

    Models [validateURL] of protocol/basic/database/jdbc_collector.go with its
    key words and patterns, [recursiveDecode], and of the standard library
    [url.QueryUnescape] and the regular expressions that the patterns need:
    letters without regard to case and runs of white space.  Text is UTF-8 in
    bytes.  The case of letters outside ASCII matters to the check only for the
    three that Unicode relates to ASCII letters: U+0130 and U+212A, whose lower
    case is i and k, and U+017F and U+212A, which a pattern that ignores the case
    takes for s and k.  All others have a lower case outside ASCII, and are left
    as they are here: no word that is looked for has one. *)

From Stdlib Require Import Ascii String.
From S2P Require Import Prelude GoStrings.

Open Scope string_scope.
Open Scope list_scope.
Open Scope Z_scope.

(** ** Letters in UTF-8 *)

Definition byte (n : N) (c : ascii) : bool := (N_of_ascii c =? n)%N.

(** U+017F, LATIN SMALL LETTER LONG S, and U+212A, KELVIN SIGN. *)
Definition long_s : string := String (ascii_of_N 197) (String (ascii_of_N 191) "").
Definition kelvin : string := String (ascii_of_N 226) (String (ascii_of_N 132) (String (ascii_of_N 170) "")).

(** [strings.ToLower]. *)
Fixpoint ToLowerUTF8 (s : string) : string :=
  match s with
  | EmptyString => EmptyString
  | String c r =>
      if byte 196 c then
        match r with
        | String d r' => if byte 176 d then String "i" (ToLowerUTF8 r') else String c (ToLowerUTF8 r)
        | EmptyString => String c EmptyString
        end
      else if byte 226 c then
        match r with
        | String d (String e r') =>
            if byte 132 d && byte 170 e then String "k" (ToLowerUTF8 r') else String c (ToLowerUTF8 r)
        | _ => String c (ToLowerUTF8 r)
        end
      else String (lower_ascii c) (ToLowerUTF8 r)
  end.

(** ** Regular expressions *)

Inductive rx_item := Chr (c : ascii) | Spaces0 | Spaces1.

(** The class \s. *)
Definition rx_space (c : ascii) : bool :=
  let n := N_of_ascii c in ((n =? 9) || (n =? 10) || (n =? 12) || (n =? 13) || (n =? 32))%N.

Definition rx_plain (c : ascii) : bool := is_lower c || is_upper c || is_digit c || Ascii.eqb c "_".

Fixpoint rx_parse (s : string) : option (list rx_item) :=
  match s with
  | EmptyString => Some []
  | String "\" (String "s" (String "+" r)) => cons Spaces1 <$> rx_parse r
  | String "\" (String "s" (String "*" r)) => cons Spaces0 <$> rx_parse r
  | String c r => if rx_plain c then cons (Chr c) <$> rx_parse r else None
  end.

(** [regexp.Compile] of a pattern that ignores the case of letters. *)
Definition Compile (pattern : string) : option (list rx_item) :=
  if HasPrefix pattern "(?i)" then rx_parse (TrimPrefix pattern "(?i)") else None.

(** White space, as much as wanted, and then [k]. *)
Fixpoint skip_spaces (k : string -> bool) (s : string) : bool :=
  k s || match s with
         | EmptyString => false
         | String d r => rx_space d && skip_spaces k r
         end.

(** The letters outside ASCII that are the letter [c] in another case. *)
Definition folds (c : ascii) : list string :=
  if Ascii.eqb (lower_ascii c) "s" then [long_s]
  else if Ascii.eqb (lower_ascii c) "k" then [kelvin] else [].

Fixpoint match_here (p : list rx_item) : string -> bool :=
  match p with
  | [] => fun _ => true
  | Chr c :: p => fun s =>
      match s with
      | EmptyString => false
      | String d r => Ascii.eqb (lower_ascii c) (lower_ascii d) && match_here p r
      end || existsb (fun x => HasPrefix s x && match_here p (TrimPrefix s x)) (folds c)
  | Spaces0 :: p => skip_spaces (match_here p)
  | Spaces1 :: p => fun s =>
      match s with
      | EmptyString => false
      | String d r => rx_space d && skip_spaces (match_here p) r
      end
  end.

(** [MatchString]: a match anywhere. *)
Fixpoint MatchString (p : list rx_item) (s : string) : bool :=
  match_here p s || match s with EmptyString => false | String _ r => MatchString p r end.

(** ** Decoding *)

(** [url.QueryUnescape]. *)
Fixpoint QueryUnescape (s : string) : option string :=
  match s with
  | EmptyString => Some EmptyString
  | String c r =>
      if Ascii.eqb c "%" then
        match r with
        | String a (String b r) =>
            match hex_digit a, hex_digit b with
            | Some x, Some y => String (ascii_of_N (16 * x + y)) <$> QueryUnescape r
            | _, _ => None
            end
        | _ => None
        end
      else String (if Ascii.eqb c "+" then " "%char else c) <$> QueryUnescape r
  end.

(** The loop of [recursiveDecode], which runs [n] more times; the flag tells
    of an error. *)
Fixpoint decode_loop (n : nat) (prev : string) : string * bool :=
  match n with
  | O => (prev, false)
  | S n =>
      match QueryUnescape prev with
      | None => (prev, true)
      | Some decoded => if String.eqb decoded prev then (decoded, false) else decode_loop n decoded
      end
  end.

Definition recursiveDecode (s : string) : string * bool := decode_loop 5 s.

(** [invalidCharRegex.ReplaceAllString]: control characters, and the two bytes
    of U+00A0. *)
Fixpoint remove_invalid (s : string) : string :=
  match s with
  | EmptyString => EmptyString
  | String c r =>
      let n := N_of_ascii c in
      if ((n <? 32) || (n =? 127))%N then remove_invalid r
      else if (n =? 194)%N then
        match r with
        | String d r' => if (N_of_ascii d =? 160)%N then remove_invalid r' else String c (remove_invalid r)
        | EmptyString => String c (remove_invalid r)
        end
      else String c (remove_invalid r)
  end.

(** ** The check *)

Definition vulnerableKeywords : list string :=
  ["allowLoadLocalInfile"; "allowLoadLocalInfileInPath"; "useLocalInfile"].

Definition blackList : list string :=
  ["create trigger"; "create alias"; "runscript from"; "shutdown"; "drop table";
   "drop database"; "create function"; "alter system"; "grant all"; "revoke all";
   "allowloadlocalinfile"; "allowloadlocalinfileinpath"; "uselocalinfile";
   "init="; "javaobjectserializer="; "runscript"; "serverstatusdiffinterceptor";
   "queryinterceptors="; "statementinterceptors="; "exceptioninterceptors=";
   "xp_cmdshell"; "create function"; "dbms_java"; "sp_sysexecute"; "load_file";
   "allowmultiqueries";
   "autodeserialize"; "detectcustomcollations"].

Definition universalBypassPatterns : list string :=
  ["(?i)create\s+trigger"; "(?i)create\s+function"; "(?i)drop\s+table"; "(?i)drop\s+database";
   "(?i)run\s+script"; "(?i)alter\s+system"; "(?i)grant\s+all"; "(?i)revoke\s+all";
   "(?i)xp\s*cmdshell"; "(?i)load\s+file"].

Definition platformBypassPatterns : list (string * list string) :=
  [("mysql",
    ["(?i)allow\s+load\s+local\s+infile"; "(?i)allow\s+multi\s+queries"; "(?i)query\s+interceptors";
     "(?i)auto\s+deserialize"]);
   ("mariadb",
    ["(?i)allow\s+load\s+local\s+infile"; "(?i)allow\s+multi\s+queries"; "(?i)query\s+interceptors";
     "(?i)auto\s+deserialize"]);
   ("postgresql", ["(?i)socket\s+factory"; "(?i)logger\s+file"; "(?i)logger\s+level"])].

(** [initPatterns]; a pattern that does not compile would end the program. *)
Definition initPatterns : option (list (string * list rx_item) * list (string * list (string * list rx_item))) :=
  let compile p := (fun r => (p, r)) <$> Compile p in
  universal ← mapM compile universalBypassPatterns;
  platforms ← mapM (fun '(name, ps) => pair name <$> mapM compile ps) platformBypassPatterns;
  Some (universal, platforms).

Definition compiledUniversalBypassPatterns : list (string * list rx_item) :=
  from_option fst [] initPatterns.

Definition compiledPlatformBypassPatterns (platform : string) : list (string * list rx_item) :=
  default [] (snd <$> List.find (fun x => String.eqb (fst x) platform) (from_option snd [] initPatterns)).

(** [validateURL]. *)
Definition validateURL (rawURL platform : string) : option error :=
  if 2048 <? Z.of_nat (String.length rawURL)
  then Some "JDBC URL length exceeds maximum limit of 2048 characters"
  else
    let cleanedURL := remove_invalid rawURL in
    let '(decodedURL, err) := recursiveDecode cleanedURL in
    let decodedURL := if err then cleanedURL else decodedURL in
    let urlLowerCase := ToLowerUTF8 decodedURL in
    match List.find (Contains urlLowerCase) vulnerableKeywords with
    | Some keyword => Some ("JDBC URL prohibit contains vulnerable param " +:+ keyword)
    | None =>
    match List.find (Contains urlLowerCase) blackList with
    | Some keyword => Some ("invalid JDBC URL: contains potentially malicious parameter: " +:+ keyword)
    | None =>
    if Contains urlLowerCase "jndi:" || Contains urlLowerCase "ldap:" || Contains urlLowerCase "rmi:"
    then Some "invalid JDBC URL: contains potentially malicious JNDI or deserialization parameter"
    else
    match List.find (fun x => MatchString (snd x) urlLowerCase) compiledUniversalBypassPatterns with
    | Some (pattern, _) => Some ("invalid JDBC URL: contains potentially malicious bypass pattern: " +:+ pattern)
    | None =>
    if String.eqb platform "" then None
    else
      match List.find (fun x => MatchString (snd x) urlLowerCase)
              (compiledPlatformBypassPatterns (ToLowerUTF8 platform)) with
      | Some (pattern, _) =>
          Some ("invalid " +:+ platform +:+ " JDBC URL: contains potentially malicious bypass pattern: " +:+ pattern)
      | None => None
      end
    end end end.

(** ** Proofs *)

Definition within (w s : string) : Prop := exists a b, s = a +:+ w +:+ b.

Lemma Index_within s w : Index s w <> None <-> within w s.
Proof.
  split.
  - induction s as [|c s IH]; cbn [Index].
    + destruct (String.prefix w "") eqn:E; [|done]. intros _. apply prefix_iff in E as [r ->]. by exists "", r.
    + destruct (String.prefix w (String c s)) eqn:E.
      * intros _. apply prefix_iff in E as [r ->]. by exists "", r.
      * destruct (Index s w); [|done]. intros _. destruct IH as (a & b & ->); [done|]. by exists (String c a), b.
  - intros (a & b & ->). induction a as [|c a IH].
    + assert (String.prefix w (w +:+ b) = true) as E by (apply prefix_iff; by exists b).
      change ("" +:+ w +:+ b) with (w +:+ b). destruct (w +:+ b); cbn [Index]; by rewrite E.
    + change (String c a +:+ w +:+ b) with (String c (a +:+ w +:+ b)). cbn [Index].
      destruct (String.prefix _ _); [done|]. by destruct (Index _ _).
Qed.

Lemma Contains_within s w : Contains s w = true <-> within w s.
Proof. rewrite <- Index_within. unfold Contains. by destruct (Index s w). Qed.

Lemma within_cons c w s : within w s -> within w (String c s).
Proof. intros (a & b & ->). by exists (String c a), b. Qed.

(** The language of a pattern. *)
Inductive rx_lang : list rx_item -> string -> Prop :=
| rx_end : rx_lang [] ""
| rx_chr c d p w : lower_ascii c = lower_ascii d -> rx_lang p w -> rx_lang (Chr c :: p) (String d w)
| rx_fold c x p w : x ∈ folds c -> rx_lang p w -> rx_lang (Chr c :: p) (x +:+ w)
| rx_spaces0 ws p w : str_all rx_space ws = true -> rx_lang p w -> rx_lang (Spaces0 :: p) (ws +:+ w)
| rx_spaces1 ws p w :
    ws <> "" -> str_all rx_space ws = true -> rx_lang p w -> rx_lang (Spaces1 :: p) (ws +:+ w).

Lemma skip_spaces_iff k s :
  skip_spaces k s = true <-> exists ws r, s = ws +:+ r /\ str_all rx_space ws = true /\ k r = true.
Proof.
  split.
  - induction s as [|d s IH]; cbn [skip_spaces]; intros H; apply orb_true_iff in H as [H|H];
      [by exists "", ""|done|by exists "", (String d s)|].
    apply andb_true_iff in H as [Hd H]. destruct (IH H) as (ws & r & -> & Hws & Hk).
    exists (String d ws), r. cbn [str_all]. by rewrite Hd, Hws.
  - intros (ws & r & -> & Hws & Hk). induction ws as [|d ws IH].
    + change ("" +:+ r) with r. destruct r; cbn [skip_spaces]; by rewrite Hk.
    + cbn [str_all] in Hws. apply andb_true_iff in Hws as [Hd Hws].
      change (String d ws +:+ r) with (String d (ws +:+ r)). cbn [skip_spaces].
      rewrite Hd, IH by done. by rewrite orb_true_r.
Qed.

(** The matcher finds a word of the language at the front. *)
Lemma match_here_iff p : forall s, match_here p s = true <-> exists w r, s = w +:+ r /\ rx_lang p w.
Proof.
  induction p as [|[c| |] p IH]; intros s; cbn [match_here].
  - split; [intros _; exists "", s; split; [done|constructor]|done].
  - rewrite orb_true_iff, existsb_exists. split.
    + intros [H|(x & Hx & H)].
      * destruct s as [|d s]; [done|]. apply andb_true_iff in H as [Hc H]. apply Ascii.eqb_eq in Hc.
        apply IH in H as (w & r & -> & Hw). exists (String d w), r. split; [done|by constructor].
      * apply andb_true_iff in H as [Hp H]. apply prefix_iff in Hp as [r ->].
        unfold TrimPrefix, HasPrefix in H.
        rewrite (proj2 (prefix_iff x (x +:+ r))), str_drop_app in H by by exists r.
        apply IH in H as (w & r' & -> & Hw). exists (x +:+ w), r'. split; [by rewrite str_app_assoc|].
        constructor; [by apply list_elem_of_In|done].
    + intros (w & r & -> & Hw). inversion Hw as [|? d ? w' Hc Hw'|? x ? w' Hx Hw'| |]; subst.
      * left. change (String d w' +:+ r) with (String d (w' +:+ r)). apply andb_true_iff.
        split; [by apply Ascii.eqb_eq|]. apply IH. by eexists _, _.
      * right. exists x. split; [by apply list_elem_of_In|]. rewrite str_app_assoc.
        assert (String.prefix x (x +:+ w' +:+ r) = true) as Hp by (apply prefix_iff; by eexists).
        unfold TrimPrefix, HasPrefix. rewrite Hp, str_drop_app. cbn [andb]. apply IH. by eexists _, _.
  - rewrite skip_spaces_iff. split.
    + intros (ws & r & -> & Hws & Hr). apply IH in Hr as (w & r' & -> & Hw).
      exists (ws +:+ w), r'. split; [by rewrite str_app_assoc|by constructor].
    + intros (w & r & -> & Hw). inversion Hw; subst. rewrite str_app_assoc.
      eexists _, _. split_and!; [done|done|]. apply IH. by eexists _, _.
  - destruct s as [|d s].
    + split; [done|]. intros (w & r & E & Hw). inversion Hw as [| | | |ws ? ? Hne]; subst. by destruct ws.
    + rewrite andb_true_iff, skip_spaces_iff. split.
      * intros (Hd & ws & r & -> & Hws & Hr). apply IH in Hr as (w & r' & -> & Hw).
        exists (String d ws +:+ w), r'. split; [by rewrite !str_app_assoc|]. constructor; [done| |done].
        cbn [str_all]. by rewrite Hd, Hws.
      * intros (w & r & E & Hw). inversion Hw as [| | | |ws ? w' Hne Hws Hw']; subst.
        destruct ws as [|d' ws]; [done|]. rewrite str_app_assoc in E. injection E as -> ->.
        cbn [str_all] in Hws. apply andb_true_iff in Hws as [Hd Hws]. split; [done|].
        eexists _, _. split_and!; [done|done|]. apply IH. by eexists _, _.
Qed.

(** A search finds it anywhere. *)
Lemma MatchString_iff p s : MatchString p s = true <-> exists w, rx_lang p w /\ within w s.
Proof.
  split.
  - induction s as [|c s IH]; cbn [MatchString]; intros H; apply orb_true_iff in H as [H|H]; try done.
    + apply match_here_iff in H as (w & r & E & Hw). exists w. split; [done|]. by exists "", r.
    + apply match_here_iff in H as (w & r & E & Hw). exists w. split; [done|]. by exists "", r.
    + destruct (IH H) as (w & Hw & Hs). exists w. split; [done|]. by apply within_cons.
  - intros (w & Hw & a & b & ->). induction a as [|c a IH].
    + assert (match_here p (w +:+ b) = true) as E by (apply match_here_iff; by eexists _, _).
      change ("" +:+ w +:+ b) with (w +:+ b). destruct (w +:+ b); cbn [MatchString]; by rewrite E.
    + change (String c a +:+ w +:+ b) with (String c (a +:+ w +:+ b)). cbn [MatchString].
      by rewrite IH, orb_true_r.
Qed.

(** Five decodings, one after another. *)
Fixpoint decode_n (n : nat) (s : string) : option string :=
  match n with O => Some s | S n => QueryUnescape s ≫= decode_n n end.

Lemma decode_n_fixed n s : QueryUnescape s = Some s -> decode_n n s = Some s.
Proof. intros E. induction n; [done|]. cbn [decode_n]. by rewrite E. Qed.

Lemma decode_loop_spec n : forall s,
  match decode_n n s with
  | Some d => decode_loop n s = (d, false)
  | None => snd (decode_loop n s) = true
  end.
Proof.
  induction n as [|n IH]; intros s; [done|]. cbn [decode_n decode_loop].
  destruct (QueryUnescape s) as [d|] eqn:E; [|done]. cbn [mbind option_bind].
  destruct (String.eqb_spec d s) as [->|]; [by rewrite decode_n_fixed|apply IH].
Qed.

(** What the check inspects. *)
Definition inspected (url : string) : string :=
  ToLowerUTF8 (default (remove_invalid url) (decode_n 5 (remove_invalid url))).

Definition platform_patterns (platform : string) : list string :=
  default [] (snd <$> List.find (fun x => String.eqb (fst x) platform) platformBypassPatterns).

(** The words that may not occur. *)
Definition forbidden (platform w : string) : Prop :=
  w ∈ blackList \/ w ∈ ["jndi:"; "ldap:"; "rmi:"] \/
  exists pattern rx, pattern ∈ universalBypassPatterns ++ platform_patterns (ToLowerUTF8 platform) /\
    Compile pattern = Some rx /\ rx_lang rx w.

Lemma lower_not_upper c : is_upper (lower_ascii c) = false.
Proof. destruct c as [[] [] [] [] [] [] [] []]; reflexivity. Qed.

Lemma ToLower_no_upper s : str_all (fun c => negb (is_upper c)) (ToLowerUTF8 s) = true.
Proof.
  remember (String.length s) as n eqn:Hn. revert s Hn.
  induction (lt_wf n) as [n _ IH]. intros [|c r] ->; [done|].
  assert (forall r', (String.length r' < String.length (String c r))%nat ->
    str_all (fun c => negb (is_upper c)) (ToLowerUTF8 r') = true) as Hr by (intros r' H; by eapply IH).
  assert (forall n, byte n c = true -> (127 < n)%N -> negb (is_upper c) = true) as Hb.
  { intros n. unfold byte, is_upper, in_range. rewrite N.eqb_eq. intros <- H.
    change (N_of_ascii "Z") with 90%N. rewrite (proj2 (N.leb_gt _ 90)) by lia. by rewrite andb_false_r. }
  pose proof (Hr r ltac:(simpl; lia)) as Hr0. cbn [ToLowerUTF8].
  destruct (byte 196 c) eqn:E1; [|destruct (byte 226 c) eqn:E2].
  - specialize (Hb _ E1 ltac:(lia)). destruct r as [|d r']; [cbn [str_all]; by rewrite Hb|].
    destruct (byte 176 d); cbn [str_all]; [apply Hr; simpl; lia|by rewrite Hb, Hr0].
  - specialize (Hb _ E2 ltac:(lia)). destruct r as [|d [|e r']]; [cbn [str_all]; by rewrite Hb, Hr0..|].
    destruct (_ && _); cbn [str_all]; [apply Hr; simpl; lia|by rewrite Hb, Hr0].
  - cbn [str_all]. by rewrite lower_not_upper, Hr0.
Qed.

Lemma within_str_all f w s : within w s -> str_all f s = true -> str_all f w = true.
Proof. intros (a & b & ->). rewrite !str_all_app, !andb_true_iff. tauto. Qed.

(** The key words with capital letters are looked for in text without any. *)
Lemma vulnerable_dead s : List.find (Contains (ToLowerUTF8 s)) vulnerableKeywords = None.
Proof.
  destruct (List.find _ _) as [k|] eqn:E; [|done]. apply find_some in E as [Hk Hc].
  apply Contains_within in Hc. pose proof (within_str_all _ _ _ Hc (ToLower_no_upper s)) as H.
  destruct Hk as [<-|[<-|[<-|[]]]]; discriminate H.
Qed.

Lemma find_none_iff {A} (f : A -> bool) (l : list A) :
  List.find f l = None <-> forall x, x ∈ l -> f x = false.
Proof.
  split; [intros H x Hx; apply (find_none _ _ H); by apply list_elem_of_In|].
  induction l as [|y l IH]; intros H; [done|]. cbn [List.find].
  rewrite H by constructor. apply IH. intros x Hx. apply H. by constructor.
Qed.

Lemma Contains_none s ws : List.find (Contains s) ws = None <-> forall w, w ∈ ws -> ~ within w s.
Proof.
  rewrite find_none_iff. split; intros H w Hw.
  - rewrite <- Contains_within, (H w Hw). done.
  - apply not_true_iff_false. rewrite Contains_within. by apply H.
Qed.

Definition compiled_from (p : string) (x : string * list rx_item) : Prop :=
  fst x = p /\ Compile p = Some (snd x).

Lemma patterns_none ps l s :
  Forall2 compiled_from ps l ->
  List.find (fun x => MatchString (snd x) s) l = None <->
  forall p rx w, p ∈ ps -> Compile p = Some rx -> rx_lang rx w -> ~ within w s.
Proof.
  intros Hl. rewrite find_none_iff. split.
  - intros H p rx w Hp Hc Hw Hs. apply list_elem_of_lookup in Hp as [i Hi].
    destruct (Forall2_lookup_l _ _ _ _ _ Hl Hi) as (x & Hx & _ & Ec). rewrite Hc in Ec. injection Ec as ->.
    assert (MatchString (snd x) s = true) as E by (apply MatchString_iff; by exists w).
    rewrite (H x) in E by (by eapply list_elem_of_lookup_2). done.
  - intros H x Hx. apply list_elem_of_lookup in Hx as [i Hi].
    destruct (Forall2_lookup_r _ _ _ _ _ Hl Hi) as (p & Hp & _ & Ec).
    apply not_true_iff_false. rewrite MatchString_iff. intros (w & Hw & Hs).
    apply (H p (snd x) w); [by eapply list_elem_of_lookup_2|done|done|done].
Qed.

Lemma compile_all ps l :
  mapM (fun p => (fun r => (p, r)) <$> Compile p) ps = Some l -> Forall2 compiled_from ps l.
Proof.
  intros H. apply mapM_Some in H. eapply Forall2_impl; [exact H|]. intros p [p' rx] E.
  destruct (Compile p) as [rx'|] eqn:Ec; [|done]. injection E as <- <-. done.
Qed.

(** Every pattern compiles. *)
Lemma initPatterns_compiled : exists universal platforms,
  initPatterns = Some (universal, platforms) /\ Forall2 compiled_from universalBypassPatterns universal /\
  Forall2 (fun x y => fst x = fst y /\ Forall2 compiled_from (snd x) (snd y)) platformBypassPatterns platforms.
Proof.
  assert (match initPatterns with Some _ => true | None => false end = true) as H by (vm_compute; reflexivity).
  unfold initPatterns in *. cbv zeta in *.
  destruct (mapM _ universalBypassPatterns) as [u|] eqn:Eu; [|discriminate H].
  destruct (mapM _ platformBypassPatterns) as [pl|] eqn:Ep; [|discriminate H].
  exists u, pl. split_and!; [done|by apply compile_all|]. apply mapM_Some in Ep.
  eapply Forall2_impl; [exact Ep|]. intros [n ps] [n' l] E. simpl in E.
  destruct (mapM _ ps) as [l'|] eqn:El; [|done]. injection E as <- <-. split; [done|by apply compile_all].
Qed.

Lemma compiled_universal : Forall2 compiled_from universalBypassPatterns compiledUniversalBypassPatterns.
Proof.
  unfold compiledUniversalBypassPatterns. by destruct initPatterns_compiled as (u & pl & -> & H & _).
Qed.

Lemma compiled_platform platform :
  Forall2 compiled_from (platform_patterns platform) (compiledPlatformBypassPatterns platform).
Proof.
  unfold platform_patterns, compiledPlatformBypassPatterns.
  destruct initPatterns_compiled as (u & pl & -> & _ & H). cbn [from_option snd].
  induction H as [|x y l k [Hn Hf] _ IH]; [constructor|]. cbn [List.find]. rewrite <- Hn.
  by destruct (String.eqb (fst x) platform).
Qed.

Lemma none_or s a b c :
  Contains s a || Contains s b || Contains s c = false <-> forall w, w ∈ [a; b; c] -> ~ within w s.
Proof.
  rewrite !orb_false_iff. split.
  - intros [[Ha Hb] Hc] w Hw. rewrite <- Contains_within. apply not_true_iff_false.
    rewrite !elem_of_cons in Hw. destruct Hw as [->|[->|[->|Hw]]]; [done..|]. by apply not_elem_of_nil in Hw.
  - intros H. rewrite <- !not_true_iff_false, !Contains_within.
    split_and!; apply H; rewrite !elem_of_cons; tauto.
Qed.

(** The four searches of the check in the text [s]. *)
Definition clean (platform s : string) : Prop :=
  List.find (Contains s) blackList = None /\
  Contains s "jndi:" || Contains s "ldap:" || Contains s "rmi:" = false /\
  List.find (fun x => MatchString (snd x) s) compiledUniversalBypassPatterns = None /\
  List.find (fun x => MatchString (snd x) s) (compiledPlatformBypassPatterns (ToLowerUTF8 platform)) = None.

Lemma clean_iff platform s : clean platform s <-> forall w, forbidden platform w -> ~ within w s.
Proof.
  unfold clean. rewrite Contains_none, none_or, (patterns_none _ _ _ compiled_universal),
    (patterns_none _ _ _ (compiled_platform _)). unfold forbidden. split.
  - intros (H1 & H2 & H3 & H4) w [?|[?|(p & rx & Hp & ? & ?)]]; [by auto..|].
    apply elem_of_app in Hp as [Hp|Hp]; by eauto.
  - intros Hall. split_and!; intros; apply Hall; [by auto|by auto|..];
      right; right; eexists _, _; split_and!; try done; apply elem_of_app; by auto.
Qed.

Lemma inspected_eq url :
  ToLowerUTF8 (let '(d, err) := recursiveDecode (remove_invalid url) in if err then remove_invalid url else d) =
  inspected url.
Proof.
  unfold inspected, recursiveDecode. pose proof (decode_loop_spec 5 (remove_invalid url)) as H.
  destruct (decode_n 5 _); [by rewrite H|]. destruct (decode_loop 5 _) as [d e]. simpl in H. by subst e.
Qed.

Lemma validateURL_clean url platform :
  validateURL url platform = None <-> (String.length url <= 2048)%nat /\ clean platform (inspected url).
Proof.
  pose proof (inspected_eq url) as Hd. unfold validateURL.
  destruct (Z.ltb_spec 2048 (Z.of_nat (String.length url))); [split; [done|lia]|].
  destruct (recursiveDecode _) as [d err]. cbv zeta. rewrite Hd. clear Hd.
  unfold inspected at 1. rewrite vulnerable_dead. fold (inspected url). set (s := inspected url).
  transitivity (clean platform s); [|split; [split; [lia|done]|tauto]]. unfold clean.
  destruct (List.find _ blackList); [split; [done|by intros (? & _)]|].
  destruct (_ || _); [split; [done|by intros (_ & ? & _)]|].
  destruct (List.find _ compiledUniversalBypassPatterns) as [[]|]; [split; [done|by intros (_ & _ & ? & _)]|].
  destruct (String.eqb_spec platform "") as [->|]; [split; [|done]; intros _; by vm_compute|].
  by destruct (List.find _ (compiledPlatformBypassPatterns _)) as [[]|]; split; [|intros (_ & _ & _ & ?)|..].
Qed.

(** C13 (equivalence). A URL passes the check exactly when it has at most
    2048 bytes and, without its invalid characters, decoded five times and in
    lower case, contains no word of the black list, no scheme of JNDI and no word
    of the language of a pattern that applies to the platform; it is inspected
    undecoded where one of the decodings fails.  Lower case and the case that the
    patterns ignore are those of Unicode.  The key words with capital
    letters have no part in this: they are looked for in text without any. *)
Theorem validateURL_iff url platform :
  validateURL url platform = None <->
  (String.length url <= 2048)%nat /\
  forall w, forbidden platform w -> ~ within w (inspected url).
Proof. by rewrite validateURL_clean, clean_iff. Qed.

(** *** Encoded text *)

(** Every byte as a percent sign and two digits. *)
Fixpoint percent_encode (s : string) : string :=
  match s with
  | EmptyString => EmptyString
  | String c r =>
      String "%" (String (hex_char (N_of_ascii c / 16)) (String (hex_char (N_of_ascii c mod 16))
        (percent_encode r)))
  end.

Definition encoded (c : ascii) : bool := Ascii.eqb c "%" || is_digit c || in_range "a" "f" c.

Lemma hex_byte c :
  hex_digit (hex_char (N_of_ascii c / 16)) = Some (N_of_ascii c / 16)%N /\
  hex_digit (hex_char (N_of_ascii c mod 16)) = Some (N_of_ascii c mod 16)%N /\
  ascii_of_N (16 * (N_of_ascii c / 16) + N_of_ascii c mod 16)%N = c /\
  encoded (hex_char (N_of_ascii c / 16)) = true /\ encoded (hex_char (N_of_ascii c mod 16)) = true.
Proof. destruct c as [[] [] [] [] [] [] [] []]; vm_compute; repeat split. Qed.

Lemma unescape_encoded u s : QueryUnescape (percent_encode u +:+ s) = String.append u <$> QueryUnescape s.
Proof.
  induction u as [|c u IH]; [change (percent_encode "" +:+ s) with s; by destruct (QueryUnescape s)|].
  destruct (hex_byte c) as (Ha & Hb & Hc & _).
  cbn [percent_encode]. rewrite !str_app_cons. cbn [QueryUnescape Ascii.eqb Bool.eqb].
  rewrite Ha, Hb, Hc, IH. by destruct (QueryUnescape s).
Qed.

Lemma unescape_percent n : forall u, (String.length u <= n)%nat -> QueryUnescape (u +:+ "%") = None.
Proof.
  induction n as [|n IH]; intros [|c u] Hn; simpl in Hn; try lia; try done.
  rewrite str_app_cons. cbn [QueryUnescape].
  destruct (Ascii.eqb c "%"); [|by rewrite IH by lia].
  destruct u as [|a [|b u]]; [done|..].
  - rewrite str_app_cons. change ("" +:+ "%") with "%". by destruct (hex_digit a).
  - rewrite !str_app_cons.
    simpl in Hn. rewrite IH by lia. by destruct (hex_digit a), (hex_digit b).
Qed.

Lemma encoded_all u : str_all encoded (percent_encode u) = true.
Proof.
  induction u as [|c u IH]; [done|]. destruct (hex_byte c) as (_ & _ & _ & Ha & Hb).
  cbn [percent_encode str_all]. by rewrite Ha, Hb, IH.
Qed.

Lemma encoded_printable c : encoded c = true -> ((N_of_ascii c <? 32) || (N_of_ascii c =? 127))%N = false /\
  (N_of_ascii c =? 194)%N = false /\ lower_ascii c = c.
Proof. destruct c as [[] [] [] [] [] [] [] []]; vm_compute; intros H; first [discriminate H | repeat split]. Qed.

Lemma remove_invalid_encoded s : str_all encoded s = true -> remove_invalid s = s.
Proof.
  induction s as [|c s IH]; [done|]. cbn [str_all]. rewrite andb_true_iff. intros [Hc Hs].
  destruct (encoded_printable c Hc) as (E1 & E2 & _). cbn [remove_invalid]. cbv zeta.
  by rewrite E1, E2, IH.
Qed.

Lemma encoded_ascii c n : encoded c = true -> (127 < n)%N -> byte n c = false.
Proof.
  intros H Hn. unfold byte. apply N.eqb_neq. intros E.
  assert ((N_of_ascii c <=? 127)%N = true) as Hc
    by (revert H; destruct c as [[] [] [] [] [] [] [] []]; vm_compute; congruence).
  apply N.leb_le in Hc. lia.
Qed.

Lemma ToLower_encoded s : str_all encoded s = true -> ToLowerUTF8 s = s.
Proof.
  induction s as [|c s IH]; [done|]. cbn [str_all ToLowerUTF8]. rewrite andb_true_iff.
  intros [Hc Hs]. rewrite !(encoded_ascii c) by (done || lia).
  destruct (encoded_printable c Hc) as (_ & _ & ->). by rewrite IH.
Qed.

Definition rx_encoded (x : rx_item) : bool :=
  match x with Chr c => encoded (lower_ascii c) | _ => true end.

Lemma rx_lang_encoded p w : rx_lang p w -> str_all encoded w = true -> forallb rx_encoded p = true.
Proof.
  induction 1 as [|c d p w Hc _ IH|c x p w Hx _ IH|ws p w _ _ IH|ws p w _ _ _ IH]; [done|..].
  - cbn [str_all forallb rx_encoded]. rewrite !andb_true_iff. intros [Hd Hw]. split; [|by apply IH].
    rewrite Hc. by destruct (encoded_printable d Hd) as (_ & _ & ->).
  - rewrite str_all_app. assert (str_all encoded x = false) as ->; [|done]. revert Hx. unfold folds.
    destruct (Ascii.eqb _ "s"); [|destruct (Ascii.eqb _ "k")]; intros Hx;
      [apply list_elem_of_singleton in Hx as ->; reflexivity..|by apply not_elem_of_nil in Hx].
  - rewrite str_all_app, andb_true_iff. intros [_ Hw]. by apply IH.
  - rewrite str_all_app, andb_true_iff. intros [_ Hw]. by apply IH.
Qed.

Definition all_patterns : list string :=
  universalBypassPatterns ++ concat (snd <$> platformBypassPatterns).

Lemma platform_patterns_all platform p :
  p ∈ universalBypassPatterns ++ platform_patterns platform -> p ∈ all_patterns.
Proof.
  unfold all_patterns. rewrite !elem_of_app. intros [H|H]; [by left|right].
  unfold platform_patterns in H. destruct (List.find _ _) as [[n ps]|] eqn:E; [|by apply not_elem_of_nil in H].
  apply find_some in E as [E _]. apply list_elem_of_In, in_concat. exists ps.
  split; [|by apply list_elem_of_In]. apply in_map_iff. by exists (n, ps).
Qed.

(** No forbidden word can be written with percent signs and the digits. *)
Lemma forbidden_not_encoded platform w : forbidden platform w -> str_all encoded w = false.
Proof.
  intros H. apply not_true_iff_false. intros Hw. destruct H as [H|[H|(p & rx & Hp & Hc & Hl)]].
  - assert (forallb (fun w => negb (str_all encoded w)) blackList = true) as Hf by (vm_compute; reflexivity).
    rewrite forallb_forall in Hf. apply list_elem_of_In in H. specialize (Hf w H). by rewrite Hw in Hf.
  - assert (forallb (fun w => negb (str_all encoded w)) ["jndi:"; "ldap:"; "rmi:"] = true) as Hf
      by (vm_compute; reflexivity).
    rewrite forallb_forall in Hf. apply list_elem_of_In in H. specialize (Hf w H). by rewrite Hw in Hf.
  - assert (forallb (fun p => match Compile p with Some rx => negb (forallb rx_encoded rx) | None => false end)
      all_patterns = true) as Hf by (vm_compute; reflexivity).
    rewrite forallb_forall in Hf. apply platform_patterns_all, list_elem_of_In in Hp. specialize (Hf p Hp).
    rewrite Hc in Hf. by rewrite (rx_lang_encoded _ _ Hl Hw) in Hf.
Qed.

Lemma percent_encode_length u : String.length (percent_encode u) = (3 * String.length u)%nat.
Proof. induction u as [|c u IH]; [done|]. cbn [percent_encode String.length]. lia. Qed.

(** C21 (safety). The check can be evaded: any URL whatsoever, with its bytes
    percent-encoded and an encoded percent sign added at the end, passes it on
    every platform, because the second decoding fails and the text is then
    inspected undecoded.  A single decoding gives the URL back, with the percent
    sign. *)
Theorem validateURL_evaded url platform :
  (3 * String.length url + 3 <= 2048)%nat ->
  QueryUnescape (percent_encode url +:+ "%25") = Some (url +:+ "%") /\
  validateURL (percent_encode url +:+ "%25") platform = None.
Proof.
  intros Hlen. split; [by rewrite unescape_encoded|].
  set (s := percent_encode url +:+ "%25").
  assert (str_all encoded s = true) as Hs by (unfold s; by rewrite str_all_app, encoded_all).
  apply validateURL_clean. rewrite clean_iff. split.
  - unfold s. rewrite str_length_app, percent_encode_length. simpl. lia.
  - assert (inspected s = s) as ->.
    { unfold inspected. rewrite remove_invalid_encoded by done.
      assert (decode_n 5 s = None) as ->; [|by apply ToLower_encoded].
      unfold s. cbn [decode_n]. rewrite unescape_encoded. change (QueryUnescape "%25") with (Some "%").
      cbn [fmap option_fmap option_map mbind option_bind decode_n].
      by rewrite (unescape_percent (String.length url)). }
    intros w Hw Hin. apply forbidden_not_encoded in Hw. by rewrite (within_str_all _ _ _ Hin Hs) in Hw.
Qed.

Lemma validateURL_evaded_witness :
  let url := percent_encode "jdbc:mysql://h/db?allowMultiQueries=true" +:+ "%25" in
  QueryUnescape url = Some "jdbc:mysql://h/db?allowMultiQueries=true%" /\ validateURL url "mysql" = None.
Proof. apply (validateURL_evaded "jdbc:mysql://h/db?allowMultiQueries=true" "mysql"). simpl. lia. Defined.

Example ex_validateURL :
  validateURL "jdbc:mysql://h/db?x=drop%2520%20table" "" =
    Some "invalid JDBC URL: contains potentially malicious bypass pattern: (?i)drop\s+table" /\
  validateURL "root:p@tcp(h:3306)/db?allow%20multi%20queries" "MySQL" =
    Some "invalid MySQL JDBC URL: contains potentially malicious bypass pattern: (?i)allow\s+multi\s+queries" /\
  validateURL "root:p@tcp(h:3306)/db" "mysql" = None /\
  validateURL "jdbc:h2:mem:x;%C4%B0NIT=runner" "" =
    Some "invalid JDBC URL: contains potentially malicious parameter: init=" /\
  validateURL "jdbc:postgresql://h/db?%C5%BFocket%20factory=x" "POSTGRESQL" =
    Some "invalid POSTGRESQL JDBC URL: contains potentially malicious bypass pattern: (?i)socket\s+factory".
Proof. vm_compute. by split_and!. Qed.
