(* ===== verification/Json.v ===== *)
(** * JSON

    What the collectors use of encoding/json: a decoder of a stream that keeps
    numbers as they are written ([UseNumber]) into an interface{}.  The decoder
    is the scanner of the package, an automaton with a stack of open arrays and
    objects that takes one character at a time, so it needs no fuel.  Strings
    are bytes, which are taken to be valid UTF-8. *)

From Stdlib Require Import Ascii String.
From S2P Require Import Prelude GoStrings JobTypes.

Open Scope string_scope.
Open Scope list_scope.
Open Scope Z_scope.

(** The dynamic types that occur; the members of an object are listed by
    their first occurrence. *)
#[warnings="-register-all"]
Inductive json :=
| JNull
| JBool (b : bool)
| JNumber (literal : string)
| JString (s : string)
| JArray (l : list json)
| JObject (members : list (string * json)).

Fixpoint member (k : string) (ms : list (string * json)) : option json :=
  match ms with
  | [] => None
  | (k', v) :: ms => if String.eqb k k' then Some v else member k ms
  end.

Fixpoint set_member (k : string) (v : json) (ms : list (string * json)) : list (string * json) :=
  match ms with
  | [] => [(k, v)]
  | (k', v') :: ms => if String.eqb k k' then (k, v) :: ms else (k', v') :: set_member k v ms
  end.

(** [fmt.Sprintf "%v"]. *)
Fixpoint show_json (v : json) : string :=
  match v with
  | JNull => "<nil>"
  | JBool b => fmt_bool b
  | JNumber s | JString s => s
  | JArray l => "[" +:+ join_with " " (map show_json l) +:+ "]"
  | JObject ms =>
      let shown := map (fun '(k, v) => (k, show_json v)) ms in
      "map[" +:+ join_with " " (map (fun '(k, s) => k +:+ ":" +:+ s) (sort_by_key shown)) +:+ "]"
  end.

(** ** String literals *)

(** The character that delimits strings. *)
Definition dquote : ascii := ascii_of_N 34.

Definition u4 (a b c d : ascii) : N :=
  let h x := default 0%N (hex_digit x) in (((h a * 16 + h b) * 16 + h c) * 16 + h d)%N.

Definition byte (n : N) : string := String (ascii_of_N n) "".

(** The UTF-8 encoding of a code point. *)
Definition encode_rune (r : N) : string :=
  (if r <? 0x80 then byte r
   else if r <? 0x800 then byte (0xC0 + r / 64) +:+ byte (0x80 + r mod 64)
   else if r <? 0x10000
   then byte (0xE0 + r / 4096) +:+ byte (0x80 + r / 64 mod 64) +:+ byte (0x80 + r mod 64)
   else byte (0xF0 + r / 262144) +:+ byte (0x80 + r / 4096 mod 64) +:+ byte (0x80 + r / 64 mod 64) +:+
        byte (0x80 + r mod 64))%N.

Definition ReplacementChar : N := 0xFFFD.

Definition escape_char (c : ascii) : ascii :=
  if Ascii.eqb c "b" then ascii_of_N 8
  else if Ascii.eqb c "f" then ascii_of_N 12
  else if Ascii.eqb c "n" then ascii_of_N 10
  else if Ascii.eqb c "r" then ascii_of_N 13
  else if Ascii.eqb c "t" then ascii_of_N 9
  else c.

(** [unquote] of a literal that the scanner has accepted.  [hi] is a high
    surrogate that the last escape has left. *)
Fixpoint unquote_loop (hi : option N) (s : string) : string :=
  let lone := match hi with Some _ => encode_rune ReplacementChar | None => "" end in
  match s with
  | EmptyString => lone
  | String "\" (String "u" (String a (String b (String c (String d r))))) =>
      let x := u4 a b c d in
      let high := ((0xD800 <=? x) && (x <? 0xDC00))%N in
      let low := ((0xDC00 <=? x) && (x <? 0xE000))%N in
      match hi with
      | Some h =>
          if low then encode_rune ((h - 0xD800) * 1024 + (x - 0xDC00) + 0x10000)%N +:+ unquote_loop None r
          else if high then lone +:+ unquote_loop (Some x) r
          else lone +:+ encode_rune x +:+ unquote_loop None r
      | None =>
          if high then unquote_loop (Some x) r
          else (if low then encode_rune ReplacementChar else encode_rune x) +:+ unquote_loop None r
      end
  | String "\" (String c r) => lone +:+ String (escape_char c) (unquote_loop None r)
  | String c r => lone +:+ String c (unquote_loop None r)
  end.

Definition unquote (s : string) : string := unquote_loop None s.

(** ** The scanner *)

Inductive num_state := Neg | Zero | Int | Dot | Frac | Exp | ExpSign | ExpDigits.

Definition is_exp (c : ascii) : bool := Ascii.eqb c "e" || Ascii.eqb c "E".

(** The next state within a number; [None] where the number cannot go on. *)
Definition num_next (st : num_state) (c : ascii) : option num_state :=
  match st with
  | Neg => if Ascii.eqb c "0" then Some Zero else if is_digit c then Some Int else None
  | Zero => if Ascii.eqb c "." then Some Dot else if is_exp c then Some Exp else None
  | Int => if is_digit c then Some Int else if Ascii.eqb c "." then Some Dot
           else if is_exp c then Some Exp else None
  | Dot => if is_digit c then Some Frac else None
  | Frac => if is_digit c then Some Frac else if is_exp c then Some Exp else None
  | Exp => if Ascii.eqb c "+" || Ascii.eqb c "-" then Some ExpSign
           else if is_digit c then Some ExpDigits else None
  | ExpSign | ExpDigits => if is_digit c then Some ExpDigits else None
  end.

Definition num_start (c : ascii) : option num_state :=
  if Ascii.eqb c "-" then Some Neg else num_next Neg c.

(** Whether the number may end. *)
Definition num_final (st : num_state) : bool :=
  match st with Zero | Int | Frac | ExpDigits => true | _ => false end.

(** An array or an object that is not closed yet, the latter with the key of
    the member being read. *)
Inductive frame := FArr (l : list json) | FObj (ms : list (string * json)) (key : string).

Inductive state :=
| BeginValue
| BeginValueOrEmpty
| BeginString
| BeginStringOrEmpty
| InString (key : bool) (raw : string)
| InStringEsc (key : bool) (raw : string)
| InStringEscU (more : nat) (key : bool) (raw : string)
| InNumber (st : num_state) (raw : string)
| InLiteral (more : string) (v : json)
| EndKey
| EndValue.

Definition maxNestingDepth : Z := 10000.

Inductive next := Next (stack : list frame) (st : state) | Done (v : json) | Fail.

(** A value is complete: it goes to the array or the object that is open. *)
Definition complete (v : json) (stack : list frame) : next :=
  match stack with
  | [] => Done v
  | FArr l :: stack => Next (FArr (l ++ [v]) :: stack) EndValue
  | FObj ms key :: stack => Next (FObj (set_member key v ms) key :: stack) EndValue
  end.

Definition push (f : frame) (stack : list frame) (st : state) : next :=
  if maxNestingDepth <=? Z.of_nat (length stack) then Fail else Next (f :: stack) st.

Definition json_space (c : ascii) : bool :=
  let n := N_of_ascii c in ((n =? 32) || (n =? 9) || (n =? 10) || (n =? 13))%N.

Definition step_value (c : ascii) (stack : list frame) (st : state) : next :=
  if json_space c then Next stack st
  else if Ascii.eqb c "{" then push (FObj [] "") stack BeginStringOrEmpty
  else if Ascii.eqb c "[" then push (FArr []) stack BeginValueOrEmpty
  else if Ascii.eqb c dquote then Next stack (InString false "")
  else if Ascii.eqb c "t" then Next stack (InLiteral "rue" (JBool true))
  else if Ascii.eqb c "f" then Next stack (InLiteral "alse" (JBool false))
  else if Ascii.eqb c "n" then Next stack (InLiteral "ull" JNull)
  else match num_start c with
       | Some n => Next stack (InNumber n (String c ""))
       | None => Fail
       end.

Definition step_end_value (c : ascii) (stack : list frame) : next :=
  if json_space c then Next stack EndValue
  else
    match stack with
    | FArr l :: rest =>
        if Ascii.eqb c "," then Next stack BeginValue
        else if Ascii.eqb c "]" then complete (JArray l) rest
        else Fail
    | FObj ms _ :: rest =>
        if Ascii.eqb c "," then Next stack BeginString
        else if Ascii.eqb c "}" then complete (JObject ms) rest
        else Fail
    | [] => Fail
    end.

(** The end of a string: a value or the key of a member. *)
Definition end_string (key : bool) (s : string) (stack : list frame) : next :=
  if key then
    match stack with
    | FObj ms _ :: rest => Next (FObj ms s :: rest) EndKey
    | _ => Fail
    end
  else complete (JString s) stack.

Definition raw_append (raw : string) (c : ascii) : string := raw +:+ String c "".

Definition scan_step (c : ascii) (stack : list frame) (st : state) : next :=
  match st with
  | BeginValue => step_value c stack st
  | BeginValueOrEmpty =>
      if Ascii.eqb c "]" then
        match stack with FArr l :: rest => complete (JArray l) rest | _ => Fail end
      else step_value c stack st
  | BeginStringOrEmpty =>
      if json_space c then Next stack st
      else if Ascii.eqb c "}" then
        match stack with FObj ms _ :: rest => complete (JObject ms) rest | _ => Fail end
      else if Ascii.eqb c dquote then Next stack (InString true "") else Fail
  | BeginString =>
      if json_space c then Next stack st
      else if Ascii.eqb c dquote then Next stack (InString true "") else Fail
  | InString key raw =>
      if Ascii.eqb c dquote then end_string key (unquote raw) stack
      else if Ascii.eqb c "\" then Next stack (InStringEsc key (raw_append raw c))
      else if (N_of_ascii c <? 32)%N then Fail
      else Next stack (InString key (raw_append raw c))
  | InStringEsc key raw =>
      if (Ascii.eqb c dquote || Contains "bfnrt\/" (String c "")) then Next stack (InString key (raw_append raw c))
      else if Ascii.eqb c "u" then Next stack (InStringEscU 4 key (raw_append raw c))
      else Fail
  | InStringEscU more key raw =>
      match hex_digit c with
      | Some _ =>
          Next stack (match more with
                      | S (S more) => InStringEscU (S more) key (raw_append raw c)
                      | _ => InString key (raw_append raw c)
                      end)
      | None => Fail
      end
  | InNumber n raw =>
      match num_next n c with
      | Some n => Next stack (InNumber n (raw_append raw c))
      | None =>
          if num_final n then
            match complete (JNumber raw) stack with
            | Next stack _ => step_end_value c stack
            | o => o
            end
          else Fail
      end
  | InLiteral more v =>
      match more with
      | String d more =>
          if Ascii.eqb c d then
            match more with EmptyString => complete v stack | _ => Next stack (InLiteral more v) end
          else Fail
      | EmptyString => Fail
      end
  | EndKey =>
      if json_space c then Next stack EndKey
      else if Ascii.eqb c ":" then Next stack BeginValue else Fail
  | EndValue => step_end_value c stack
  end.

(** The end of the input. *)
Definition scan_eof (stack : list frame) (st : state) : option json :=
  match stack, st with
  | [], InNumber n raw => if num_final n then Some (JNumber raw) else None
  | _, _ => None
  end.

Fixpoint scan (s : string) (stack : list frame) (st : state) : option json :=
  match s with
  | EmptyString => scan_eof stack st
  | String c s =>
      match scan_step c stack st with
      | Next stack st => scan s stack st
      | Done v => Some v
      | Fail => None
      end
  end.

(** [Decode] of the first value of a stream; what follows is not read. *)
Definition Decode (s : string) : option json := scan s [] BeginValue.

(** ** What [json.Marshal] writes is read back *)

Definition str1 (c : ascii) : string := String c "".

(** A character of a string literal, as [json.Marshal] writes it. *)
Definition escape1 (c : ascii) : string :=
  let n := N_of_ascii c in
  if Ascii.eqb c dquote || Ascii.eqb c "\" then String "\" (str1 c)
  else if (n =? 8)%N then "\b" else if (n =? 9)%N then "\t" else if (n =? 10)%N then "\n"
  else if (n =? 12)%N then "\f" else if (n =? 13)%N then "\r"
  else if (n <? 32)%N || Ascii.eqb c "<" || Ascii.eqb c ">" || Ascii.eqb c "&"
  then "\u00" +:+ String (hex_char (n / 16)) (str1 (hex_char (n mod 16)))
  else str1 c.

Fixpoint escape (s : string) : string :=
  match s with EmptyString => "" | String c s => escape1 c +:+ escape s end.

Definition print_string (s : string) : string := String dquote (escape s +:+ str1 dquote).

(** [json.Marshal] of a value whose strings are ASCII. *)
Fixpoint print (v : json) : string :=
  match v with
  | JNull => "null"
  | JBool b => fmt_bool b
  | JNumber s => s
  | JString s => print_string s
  | JArray l => "[" +:+ join_with "," (map print l) +:+ "]"
  | JObject ms => "{" +:+ join_with "," (map (fun '(k, v) => print_string k +:+ ":" +:+ print v) ms) +:+ "}"
  end.

Fixpoint num_run (st : num_state) (s : string) : option num_state :=
  match s with EmptyString => Some st | String c s => num_next st c ≫= fun st => num_run st s end.

(** A number of the grammar. *)
Definition number_ok (s : string) : Prop :=
  match s with
  | EmptyString => False
  | String c r => exists st st', num_start c = Some st /\ num_run st r = Some st' /\ num_final st' = true
  end.

(** A value nested [n] levels deep at most. *)
#[warnings="-register-all"]
Inductive json_ok : nat -> json -> Prop :=
| ok_null n : json_ok n JNull
| ok_bool n b : json_ok n (JBool b)
| ok_number n s : number_ok s -> json_ok n (JNumber s)
| ok_string n s : json_ok n (JString s)
| ok_array n l : Forall (json_ok n) l -> json_ok (S n) (JArray l)
| ok_object n ms :
    NoDup (fst <$> ms) -> Forall (fun kv => json_ok n (snd kv)) ms -> json_ok (S n) (JObject ms).

(** The scanner after a step. *)
Definition continue (n : next) (rest : string) : option json :=
  match n with Next stack st => scan rest stack st | Done v => Some v | Fail => None end.

Lemma scan_cons c s stack st : scan (String c s) stack st = continue (scan_step c stack st) s.
Proof. done. Qed.

Lemma unquote_escape1 c r : unquote_loop None (escape1 c +:+ r) = String c (unquote_loop None r).
Proof. destruct c as [[] [] [] [] [] [] [] []]; reflexivity. Qed.

Lemma unquote_escape s : unquote (escape s) = s.
Proof.
  unfold unquote. induction s as [|c s IH]; [done|]. cbn [escape]. by rewrite unquote_escape1, IH.
Qed.

Lemma raw_append_app raw c s : raw_append raw c +:+ s = raw +:+ String c s.
Proof. unfold raw_append. by rewrite str_app_assoc. Qed.

Lemma scan_escape1 c r stack key raw :
  scan (escape1 c +:+ r) stack (InString key raw) = scan r stack (InString key (raw +:+ escape1 c)).
Proof.
  destruct c as [[] [] [] [] [] [] [] []];
    match goal with |- context [escape1 ?c] =>
      let e := eval vm_compute in (escape1 c) in change (escape1 c) with e end;
    rewrite <- !raw_append_app, str_app_nil_r; reflexivity.
Qed.

Lemma scan_escape s stack key rest : forall raw,
  scan (escape s +:+ String dquote rest) stack (InString key raw) =
  continue (end_string key (unquote (raw +:+ escape s)) stack) rest.
Proof.
  induction s as [|c s IH]; intros raw; cbn [escape].
  - by rewrite str_app_nil_r.
  - by rewrite str_app_assoc, scan_escape1, IH, str_app_assoc.
Qed.

Lemma scan_string s stack rest :
  scan (print_string s +:+ rest) stack BeginValue = continue (complete (JString s) stack) rest.
Proof.
  unfold print_string, str1. rewrite str_app_cons, str_app_assoc, str_app_cons, scan_cons.
  change (scan_step dquote stack BeginValue) with (Next stack (InString false "")). cbn [continue].
  rewrite scan_escape. change ("" +:+ ?x) with x. by rewrite unquote_escape.
Qed.

Lemma scan_key k ms k' stack rest :
  scan (print_string k +:+ String ":" rest) (FObj ms k' :: stack) BeginString =
  scan rest (FObj ms k :: stack) BeginValue.
Proof.
  unfold print_string, str1. rewrite str_app_cons, str_app_assoc, str_app_cons, scan_cons.
  change (scan_step dquote ?s BeginString) with (Next s (InString true "")). cbn [continue].
  rewrite scan_escape. change ("" +:+ ?x) with x. by rewrite unquote_escape.
Qed.

(** What may follow a value. *)
Definition follows (s : string) : Prop :=
  match s with EmptyString => True | String c _ => c = ","%char \/ c = "]"%char \/ c = "}"%char end.

Lemma scan_num_run r stack rest : forall st st' raw,
  num_run st r = Some st' ->
  scan (r +:+ rest) stack (InNumber st raw) = scan rest stack (InNumber st' (raw +:+ r)).
Proof.
  induction r as [|c r IH]; intros st st' raw; cbn [num_run].
  - intros [= ->]. by rewrite str_app_nil_r.
  - destruct (num_next st c) as [st1|] eqn:E; [|done]. cbn [mbind option_bind]. intros H.
    rewrite str_app_cons, scan_cons. cbn [scan_step]. rewrite E. cbn [continue].
    by rewrite (IH _ st'), raw_append_app.
Qed.

Lemma scan_num_end st raw stack rest :
  num_final st = true -> follows rest ->
  scan rest stack (InNumber st raw) = continue (complete (JNumber raw) stack) rest.
Proof.
  intros Hf Hr. destruct rest as [|c rest].
  - destruct stack as [|[] stack]; [|done..]. cbn [scan scan_eof complete continue]. by rewrite Hf.
  - rewrite scan_cons. cbn [scan_step].
    assert (num_next st c = None) as -> by (destruct Hr as [-> | [-> | ->]]; by destruct st).
    rewrite Hf. by destruct stack as [|[] stack].
Qed.

Lemma num_start_cases c st : num_start c = Some st ->
  json_space c = false /\ Ascii.eqb c "{" = false /\ Ascii.eqb c "[" = false /\ Ascii.eqb c dquote = false /\
  Ascii.eqb c "t" = false /\ Ascii.eqb c "f" = false /\ Ascii.eqb c "n" = false /\ Ascii.eqb c "]" = false.
Proof. destruct c as [[] [] [] [] [] [] [] []]; vm_compute; intros H; first [discriminate H | repeat split]. Qed.

Lemma scan_number s stack rest :
  number_ok s -> follows rest ->
  scan (s +:+ rest) stack BeginValue = continue (complete (JNumber s) stack) rest.
Proof.
  destruct s as [|c r]; [done|]. intros (st & st' & Hs & Hr & Hf) Hrest.
  rewrite str_app_cons, scan_cons. cbn [scan_step]. unfold step_value.
  destruct (num_start_cases c st Hs) as (-> & -> & -> & -> & -> & -> & -> & _). rewrite Hs. cbn [continue].
  rewrite (scan_num_run r stack rest st st') by done. change (String c "" +:+ r) with (String c r).
  by apply scan_num_end.
Qed.

(** Elements after the first. *)
Fixpoint join_tail (l : list string) : string :=
  match l with [] => "" | x :: l => String "," (x +:+ join_tail l) end.

Lemma join_with_cons x l : join_with "," (x :: l) = x +:+ join_tail l.
Proof.
  revert x. induction l as [|y l IH]; intros x; [by rewrite str_app_nil_r|].
  change (join_with "," (x :: y :: l)) with (x +:+ "," +:+ join_with "," (y :: l)). by rewrite IH.
Qed.

Lemma follows_tail l c rest :
  c = "]"%char \/ c = "}"%char -> follows (join_tail l +:+ String c rest).
Proof. intros H. destruct l; [by right|by left]. Qed.

Lemma set_member_fresh k v ms : k ∉ fst <$> ms -> set_member k v ms = ms ++ [(k, v)].
Proof.
  induction ms as [|[k' v'] ms IH]; [done|]. rewrite fmap_cons, not_elem_of_cons. intros [Hk Hms].
  cbn [set_member fst] in *. destruct (String.eqb_spec k k'); [done|]. by rewrite IH.
Qed.

Definition print_member (kv : string * json) : string := print_string (fst kv) +:+ ":" +:+ print (snd kv).

Lemma print_object ms : print (JObject ms) = "{" +:+ join_with "," (map print_member ms) +:+ "}".
Proof.
  cbn [print]. do 3 f_equal. apply map_ext. by intros [k v].
Qed.

Section Level.
(** The values of one level, by what is known of the level below. *)
Context (n : nat).
Context (IH : forall v, json_ok n v -> forall stack rest,
  follows rest -> Z.of_nat n + Z.of_nat (length stack) <= maxNestingDepth ->
  scan (print v +:+ rest) stack BeginValue = continue (complete v stack) rest).

Lemma scan_items l : forall acc stack rest,
  Forall (json_ok n) l -> Z.of_nat n + Z.of_nat (S (length stack)) <= maxNestingDepth ->
  scan (join_tail (map print l) +:+ String "]" rest) (FArr acc :: stack) EndValue =
  continue (complete (JArray (acc ++ l)) stack) rest.
Proof.
  induction l as [|v l IHl]; intros acc stack rest Hl Hd; cbn [map join_tail].
  - by rewrite app_nil_r.
  - apply Forall_cons in Hl as [Hv Hl]. rewrite str_app_cons, scan_cons.
    change (scan_step "," (FArr acc :: stack) EndValue) with (Next (FArr acc :: stack) BeginValue).
    cbn [continue]. rewrite str_app_assoc, IH by first [done | by apply follows_tail; left].
    cbn [complete continue]. rewrite IHl by done. by rewrite <- app_assoc.
Qed.

Lemma scan_members ms : forall acc k0 stack rest,
  NoDup (fst <$> acc ++ ms) -> Forall (fun kv => json_ok n (snd kv)) ms ->
  Z.of_nat n + Z.of_nat (S (length stack)) <= maxNestingDepth ->
  scan (join_tail (map print_member ms) +:+ String "}" rest) (FObj acc k0 :: stack) EndValue =
  continue (complete (JObject (acc ++ ms)) stack) rest.
Proof.
  induction ms as [|[k v] ms IHms]; intros acc k0 stack rest Hn Hms Hd; cbn [map join_tail].
  - by rewrite app_nil_r.
  - apply Forall_cons in Hms as [Hv Hms]. rewrite str_app_cons, scan_cons.
    change (scan_step "," (FObj acc k0 :: stack) EndValue) with (Next (FObj acc k0 :: stack) BeginString).
    cbn [continue]. unfold print_member at 1. cbn [fst snd]. rewrite !str_app_assoc.
    change (":" +:+ ?x) with (String ":" x). rewrite scan_key, IH by first [done | by apply follows_tail; right].
    cbn [complete continue].
    assert (k ∉ fst <$> acc) as Hk.
    { rewrite fmap_app, fmap_cons in Hn. apply NoDup_app in Hn as (_ & Hn & _). intros Hk.
      apply (Hn k Hk). by constructor. }
    rewrite set_member_fresh by done.
    assert (acc ++ (k, v) :: ms = (acc ++ [(k, v)]) ++ ms) as E by (by rewrite <- app_assoc).
    rewrite E in *. by apply IHms.
Qed.

End Level.

Lemma begin_or_empty v n stack rest :
  json_ok n v ->
  scan (print v +:+ rest) stack BeginValueOrEmpty = scan (print v +:+ rest) stack BeginValue.
Proof.
  destruct 1 as [n|n []|n s Hs|n s|n l|n ms]; try done. destruct s as [|c r]; [done|].
  destruct Hs as (st & st' & Hs & _). cbn [print]. rewrite str_app_cons, !scan_cons. cbn [scan_step].
  destruct (num_start_cases c st Hs) as (E & _ & _ & _ & _ & _ & _ & ->).
  unfold step_value. by rewrite E.
Qed.

Lemma scan_print n : forall v, json_ok n v -> forall stack rest,
  follows rest -> Z.of_nat n + Z.of_nat (length stack) <= maxNestingDepth ->
  scan (print v +:+ rest) stack BeginValue = continue (complete v stack) rest.
Proof.
  induction n as [|n IH]; intros v Hv stack rest Hr Hd.
  - inversion Hv as [|? []|? ? Hs| | |]; subst; [done|done|done|by apply scan_number|apply scan_string].
  - inversion Hv as [|? []|? ? Hs| |? l Hl|? ms Hn Hms]; subst;
      [done|done|done|by apply scan_number|apply scan_string|..].
    + cbn [print]. rewrite !str_app_assoc. change ("[" +:+ ?x) with (String "[" x).
      rewrite scan_cons. cbn [scan_step]. change (step_value "[" stack BeginValue) with (push (FArr []) stack BeginValueOrEmpty).
      unfold push. rewrite (proj2 (Z.leb_gt _ _)) by lia. cbn [continue].
      destruct l as [|v l]; [done|]. apply Forall_cons in Hl as [Hv1 Hl].
      cbn [map]. rewrite join_with_cons, str_app_assoc, (begin_or_empty _ n) by done.
      change ("]" +:+ rest) with (String "]" rest).
      rewrite IH; [|done|by apply follows_tail; left|cbn [length]; lia]. cbn [complete continue].
      apply (scan_items n IH); [done|lia].
    + rewrite print_object, !str_app_assoc. change ("{" +:+ ?x) with (String "{" x).
      rewrite scan_cons. cbn [scan_step].
      change (step_value "{" stack BeginValue) with (push (FObj [] "") stack BeginStringOrEmpty).
      unfold push. rewrite (proj2 (Z.leb_gt _ _)) by lia. cbn [continue].
      destruct ms as [|[k v] ms]; [done|]. apply Forall_cons in Hms as [Hv1 Hms].
      cbn [map]. rewrite join_with_cons. unfold print_member at 1. cbn [fst snd] in *. rewrite !str_app_assoc.
      change (":" +:+ ?x) with (String ":" x). change ("}" +:+ rest) with (String "}" rest).
      assert (forall r st, scan (print_string k +:+ r) st BeginStringOrEmpty =
        scan (print_string k +:+ r) st BeginString) as -> by done.
      rewrite scan_key, IH; [|done|by apply follows_tail; right|cbn [length]; lia]. cbn [complete continue set_member].
      apply (scan_members n IH); [done|done|lia].
Qed.

(** Integers are numbers of the grammar. *)
Lemma digit_char_run d : 0 <= d < 10 ->
  num_next Int (digit_char d) = Some Int /\
  num_start (digit_char d) = Some (if d =? 0 then Zero else Int).
Proof.
  intros Hd. assert (d = 0 \/ d = 1 \/ d = 2 \/ d = 3 \/ d = 4 \/ d = 5 \/ d = 6 \/ d = 7 \/ d = 8 \/ d = 9)
    as Hc by lia.
  repeat destruct Hc as [->|Hc]; try (split; reflexivity). subst. split; reflexivity.
Qed.

Lemma digits_loop_number fuel : forall z acc,
  0 < z < 2 ^ Z.of_nat fuel -> num_run Int acc = Some Int ->
  exists c s, digits_loop fuel z acc = String c s /\ num_start c = Some Int /\ num_run Int s = Some Int.
Proof.
  induction fuel as [|fuel IH]; intros z acc Hz Hacc; [simpl in Hz; lia|].
  cbn [digits_loop]. pose proof (Z.mod_pos_bound z 10). pose proof (Z.div_mod z 10).
  destruct (digit_char_run (z mod 10)) as [Hn Hs]; [lia|].
  destruct (z / 10 =? 0) eqn:E; bool_to_prop.
  - do 2 eexists. split_and!; [done| |done]. rewrite Hs. by rewrite (proj2 (Z.eqb_neq _ 0)) by lia.
  - apply IH.
    + rewrite Nat2Z.inj_succ, Z.pow_succ_r in Hz by lia. split; [|apply Z.div_lt_upper_bound; lia].
      pose proof (Z.div_pos z 10). lia.
    + cbn [num_run]. by rewrite Hn.
Qed.

Lemma digits_number z : 0 <= z -> number_ok (digits z) /\
  exists c s st, digits z = String c s /\ num_next Neg c = Some st /\ exists st', num_run st s = Some st' /\ num_final st' = true.
Proof.
  intros Hz. destruct (decide (z = 0)) as [->|Hne]; [split; repeat eexists|].
  destruct (digits_loop_number (S (Z.to_nat (Z.log2 z))) z "") as (c & s & E & Hs & Hr).
  - rewrite Nat2Z.inj_succ, Z2Nat.id by apply Z.log2_nonneg.
    pose proof (Z.log2_spec z). lia.
  - done.
  - unfold digits. rewrite E. split; [exists Int, Int; done|].
    exists c, s, Int. split_and!; [done| |by exists Int].
    revert Hs. unfold num_start. destruct (Ascii.eqb c "-"); [done|done].
Qed.

Lemma number_ok_Itoa z : number_ok (Itoa z).
Proof.
  unfold Itoa. destruct (z <? 0) eqn:E; bool_to_prop; [|by apply digits_number].
  destruct (digits_number (- z)) as [_ (c & s & st & -> & Hn & st' & Hr & Hf)]; [lia|].
  change ("-" +:+ String c s) with (String "-" (String c s)).
  exists Neg, st'. split_and!; [done| |done]. cbn [num_run]. by rewrite Hn.
Qed.

(** What is printed is decoded again, up to the depth that the
    decoder allows, and whatever follows that may follow a value. *)
Theorem Decode_print n v rest :
  json_ok n v -> Z.of_nat n <= maxNestingDepth -> follows rest -> Decode (print v +:+ rest) = Some v.
Proof. intros Hv Hn Hr. unfold Decode. rewrite (scan_print n v Hv [] rest Hr) by (simpl; lia). done. Qed.

(** ** Maps *)

(** A Go map is written in the order of its keys. *)
Definition marshal_map (m : list (string * json)) : json := JObject (sort_by_key m).

Lemma insert_by_key_perm {A} (x : string * A) l : insert_by_key x l ≡ₚ x :: l.
Proof.
  induction l as [|y l IH]; [done|]. cbn [insert_by_key]. destruct (str_leb _ _); [done|].
  rewrite IH. apply perm_swap.
Qed.

Lemma sort_by_key_perm {A} (l : list (string * A)) : sort_by_key l ≡ₚ l.
Proof.
  induction l as [|x l IH]; [done|]. cbn [sort_by_key foldr].
  rewrite insert_by_key_perm. by apply perm_skip.
Qed.

Lemma marshal_map_ok n (m : list (string * json)) :
  NoDup (fst <$> m) -> Forall (fun kv => json_ok n (snd kv)) m -> json_ok (S n) (marshal_map m).
Proof.
  intros Hn Hm. apply ok_object; by rewrite sort_by_key_perm.
Qed.
