(* ===== verification/Arrow.v ===== *)
(** * The Arrow-like serializer

    Models internal/util/arrow/arrow_serializer.go: results are turned into
    columns, written as JSON and framed with a header that imitates an Arrow
    file.  The strings are ASCII; [json.Marshal] of the values that occur is
    [print] of Json and does not fail. *)

From Stdlib Require Import Ascii String.
From S2P Require Import Prelude GoStrings JobTypes Json.

Open Scope string_scope.
Open Scope list_scope.
Open Scope Z_scope.

(** ** Columns *)

(** One cell: it is appended to the column of its field. *)
Definition append_cell (columns : gmap string (list string)) (cell : Field * string)
    : gmap string (list string) :=
  let fieldName := f_Field (fst cell) in
  <[fieldName := default [] (columns !! fieldName) ++ [snd cell]]> columns.

(** One row: the cells beyond the last field are skipped. *)
Definition append_cells (fields : list Field) (columns : gmap string (list string)) (row : ValueRow)
    : gmap string (list string) :=
  foldl append_cell columns (zip fields (vr_Columns row)).

Definition arrow_columns (data : CollectRepMetricsData) : gmap string (list string) :=
  foldl (append_cells (rep_Fields data)) ∅ (rep_Values data).

Definition arrow_data (data : CollectRepMetricsData) : json :=
  marshal_map
    ([("id", JNumber (Itoa (rep_ID data))); ("tenantId", JNumber (Itoa (rep_TenantID data)));
      ("app", JString (rep_App data)); ("metrics", JString (rep_Metrics data));
      ("priority", JNumber (Itoa (rep_Priority data))); ("time", JNumber (Itoa (rep_Time data)));
      ("code", JNumber (Itoa (rep_Code data))); ("msg", JString (rep_Msg data))] ++
     match rep_Values data with
     | [] => []
     | _ =>
         [("columns", marshal_map (map_to_list ((fun l => JArray (JString <$> l)) <$> arrow_columns data)));
          ("rowCount", JNumber (Itoa (Z.of_nat (length (rep_Values data)))))]
     end).

(** ** The frame *)

(** A byte of an integer, the lowest first. *)
Definition byte_of (z : Z) : string := String (ascii_of_N (Z.to_N (z mod 256))) "".

Definition le32 (z : Z) : string :=
  byte_of z +:+ byte_of (Z.shiftr z 8) +:+ byte_of (Z.shiftr z 16) +:+ byte_of (Z.shiftr z 24).

Definition magic : string := "ARROW1" +:+ String (ascii_of_N 0) (String (ascii_of_N 0) "").

(** [createArrowLikeBinary]: the lengths are 32-bit integers. *)
Definition createArrowLikeBinary (jsonData : string) : string :=
  let dataLen := Z.of_nat (String.length jsonData) mod 2 ^ 32 in
  magic +:+ le32 0 +:+ le32 dataLen +:+ jsonData.

(** A pointer of the list is dereferenced. *)
Definition deref {A} (p : option A) : M unit A :=
  match p with Some x => mret x | None => mpanic "nil pointer dereference" end.

(** [SerializeMetricsData]. *)
Definition SerializeMetricsData (dataList : list (option CollectRepMetricsData)) : M unit (res string) :=
  match dataList with
  | [] => mret (Err "empty data list")
  | _ =>
      arrowCompatibleData <-! mmap (fun p => data <-! deref p ; mret (arrow_data data)) dataList ;
      mret (Ok (createArrowLikeBinary (print (JArray arrowCompatibleData))))
  end.

(** [FallbackToJSON], over [json.Marshal] of a list of results. *)
Definition FallbackToJSON (marshal : list (option CollectRepMetricsData) -> res string)
    (dataList : list (option CollectRepMetricsData)) : res string :=
  match marshal dataList with
  | Ok jsonBytes => Ok jsonBytes
  | Err e => Err ("failed to serialize to JSON: " +:+ e)
  end.

(** ** A reader *)

(** The value of a byte at an index. *)
Definition byte_at (i : nat) (s : string) : Z :=
  match String.get i s with Some c => Z.of_N (N_of_ascii c) | None => 0 end.

Definition read_le32 (i : nat) (s : string) : Z :=
  byte_at i s + 256 * byte_at (i + 1) s + 65536 * byte_at (i + 2) s + 16777216 * byte_at (i + 3) s.

(** What follows the header, when the magic is there, no schema is announced
    and the length is that of the rest. *)
Definition read_frame (s : string) : option string :=
  if String.prefix magic s && (read_le32 8 s =? 0)
     && (read_le32 12 s =? Z.of_nat (String.length s) - 16)
  then Some (String.substring 16 (String.length s - 16) s) else None.

(** ** Proofs *)

(** *** The frame is read back *)

Lemma byte_of_value z : Z.of_N (N_of_ascii (ascii_of_N (Z.to_N (z mod 256)))) = z mod 256.
Proof.
  pose proof (Z.mod_pos_bound z 256). rewrite N_ascii_embedding by lia. lia.
Qed.

Lemma le32_split z : 0 <= z < 2 ^ 32 ->
  z mod 256 + 256 * (Z.shiftr z 8 mod 256) + 65536 * (Z.shiftr z 16 mod 256)
    + 16777216 * (Z.shiftr z 24 mod 256) = z.
Proof.
  intros Hz. rewrite !Z.shiftr_div_pow2 by lia.
  change (2 ^ 8) with 256. change (2 ^ 16) with 65536. change (2 ^ 24) with 16777216.
  change (2 ^ 32) with 4294967296 in Hz.
  pose proof (Z.div_mod z 256). pose proof (Z.div_mod (z / 256) 256).
  pose proof (Z.div_mod (z / 65536) 256).
  replace (z / 65536) with (z / 256 / 256) in * by (rewrite Z.div_div by lia; done).
  replace (z / 16777216) with (z / 256 / 256 / 256) in * by (rewrite !Z.div_div by lia; done).
  rewrite (Z.mod_small (z / 256 / 256 / 256)); [lia|].
  rewrite !Z.div_div by lia. split; [by apply Z.div_pos; lia|]. apply Z.div_lt_upper_bound; lia.
Qed.

Lemma substring_all s : String.substring 0 (String.length s) s = s.
Proof. induction s as [|c s IH]; [done|]. cbn. by rewrite IH. Qed.

Lemma read_frame_binary s :
  Z.of_nat (String.length s) < 2 ^ 32 -> read_frame (createArrowLikeBinary s) = Some s.
Proof.
  intros Hs. unfold createArrowLikeBinary. rewrite Z.mod_small by lia.
  set (n := Z.of_nat (String.length s)) in *.
  assert (magic +:+ le32 0 +:+ le32 n +:+ s =
    String "A" (String "R" (String "R" (String "O" (String "W" (String "1"
      (String (ascii_of_N 0) (String (ascii_of_N 0)
      (String (ascii_of_N 0) (String (ascii_of_N 0) (String (ascii_of_N 0) (String (ascii_of_N 0)
      (String (ascii_of_N (Z.to_N (n mod 256)))
      (String (ascii_of_N (Z.to_N (Z.shiftr n 8 mod 256)))
      (String (ascii_of_N (Z.to_N (Z.shiftr n 16 mod 256)))
      (String (ascii_of_N (Z.to_N (Z.shiftr n 24 mod 256))) s)))))))))))))))) as -> by reflexivity.
  unfold read_frame, read_le32, byte_at. cbn [String.get Nat.add].
  rewrite !byte_of_value, le32_split by lia.
  cbn [String.length]. fold n.
  replace (Z.of_nat (Datatypes.S _) - 16) with n by lia. rewrite !Z.eqb_refl.
  match goal with |- context [String.prefix magic ?x] =>
    assert (String.prefix magic x = true) as -> by (apply prefix_iff; by eexists) end.
  cbn [andb Z.eqb Z.mul Z.add]. f_equal.
  replace (Datatypes.S _ - 16)%nat with (String.length s) by lia. cbn [String.substring].
  apply substring_all.
Qed.

(** *** The columns *)

(** The cells of the field at index [k], by the rows that have one. *)
Definition cells_of (k : nat) (rows : list ValueRow) : list string :=
  omap (fun row => vr_Columns row !! k) rows.

Lemma append_cells_other cells name : forall columns,
  name ∉ (fun c => f_Field (fst c)) <$> cells ->
  foldl append_cell columns cells !! name = columns !! name.
Proof.
  induction cells as [|c cells IH]; intros columns Hn; [done|]. cbn [foldl].
  apply not_elem_of_cons in Hn as [Hne Hn]. rewrite IH by done. unfold append_cell.
  by rewrite lookup_insert_ne.
Qed.

Lemma append_cells_at fields row : forall columns k f,
  NoDup (f_Field <$> fields) -> fields !! k = Some f ->
  foldl append_cell columns (zip fields row) !! f_Field f =
  match row !! k with
  | Some v => Some (default [] (columns !! f_Field f) ++ [v])
  | None => columns !! f_Field f
  end.
Proof.
  revert row. induction fields as [|g fields IH]; intros row columns k f Hnd Hk; [done|].
  apply NoDup_cons in Hnd as [Hg Hnd]. destruct row as [|v row]; [by destruct k|].
  cbn [zip zip_with foldl]. destruct k as [|k].
  - injection Hk as ->. rewrite append_cells_other.
    + unfold append_cell. cbn [fst snd]. by rewrite lookup_insert_eq.
    + intros Hin. apply Hg. apply list_elem_of_fmap in Hin as ([h w] & Heq & Hin).
      apply elem_of_zip_l in Hin. cbn [fst] in *. rewrite Heq. by apply list_elem_of_fmap_2.
  - cbn [lookup list_lookup]. change (fields !! k = Some f) in Hk.
    rewrite (IH row _ k f Hnd Hk). unfold append_cell. cbn [fst snd].
    assert (f_Field g <> f_Field f) as Hne.
    { intros Heq. apply Hg. rewrite Heq. apply list_elem_of_fmap_2. by eapply list_elem_of_lookup_2. }
    by rewrite !lookup_insert_ne.
Qed.

Lemma columns_at fields k f rows : forall columns,
  NoDup (f_Field <$> fields) -> fields !! k = Some f ->
  foldl (append_cells fields) columns rows !! f_Field f =
  match cells_of k rows with
  | [] => columns !! f_Field f
  | l => Some (default [] (columns !! f_Field f) ++ l)
  end.
Proof.
  induction rows as [|row rows IH]; intros columns Hnd Hk; [done|]. cbn [foldl].
  rewrite IH by done. unfold append_cells. rewrite (append_cells_at _ _ _ k f Hnd Hk).
  unfold cells_of. cbn [omap list_omap]. destruct (vr_Columns row !! k) as [v|]; [|done].
  destruct (omap _ rows) as [|w l]; [done|].
  cbn [from_option id]. by rewrite <- app_assoc.
Qed.

(** *** The keys of a map *)

Lemma arrow_data_ok d : json_ok 3 (arrow_data d).
Proof.
  assert (forall z, json_ok 2 (JNumber (Itoa z))) as Hnum by (intros z; apply ok_number, number_ok_Itoa).
  apply marshal_map_ok.
  - rewrite fmap_app. destruct (rep_Values d); apply (bool_decide_unpack _); vm_compute; exact I.
  - apply Forall_app. split; [repeat (constructor; [cbn [snd]; first [apply Hnum|apply ok_string]|]); constructor|].
    destruct (rep_Values d) as [|row rows]; [constructor|].
    constructor; [|constructor; [apply Hnum|constructor]]. cbn [snd].
    apply marshal_map_ok; [apply NoDup_fst_map_to_list|].
    apply Forall_forall. intros [k v] Hin. apply elem_of_map_to_list in Hin.
    apply lookup_fmap_Some in Hin as (l & <- & _). cbn [snd]. apply ok_array.
    apply Forall_fmap, Forall_true. intros s. apply ok_string.
Qed.

Lemma deref_all (ds : list CollectRepMetricsData) u :
  mmap (fun p => data <-! deref p ; mret (arrow_data data)) (Some <$> ds) u = Ret u (arrow_data <$> ds).
Proof.
  induction ds as [|d ds IH]; [done|]. cbn [fmap list_fmap mmap].
  erewrite bind_ret by reflexivity. by erewrite bind_ret by exact IH.
Qed.

(** C30 (roundtrip). From what [SerializeMetricsData] writes for results whose
    encoding is shorter than 4 GiB a reader of the frame gets the JSON back, and
    the decoder the value of every result; in it the column of a field has the
    cells of that field of all the rows, in their order, when the names of the
    fields differ.  An empty list is an error, a nil result a panic. *)
Theorem arrow_roundtrip ds :
  let values := JArray (arrow_data <$> ds) in
  ds <> [] -> Z.of_nat (String.length (print values)) < 2 ^ 32 ->
  (exists bytes, SerializeMetricsData (Some <$> ds) tt = Ret tt (Ok bytes) /\
     (s ← read_frame bytes; Decode s) = Some values) /\
  forall d k f, d ∈ ds -> NoDup (f_Field <$> rep_Fields d) -> rep_Fields d !! k = Some f ->
    default [] (arrow_columns d !! f_Field f) = cells_of k (rep_Values d).
Proof.
  intros values Hne Hlen. split.
  - exists (createArrowLikeBinary (print values)). split.
    + unfold SerializeMetricsData. destruct ds as [|d ds]; [done|]. rewrite fmap_cons.
      rewrite <- (fmap_cons Some). by erewrite bind_ret by apply (deref_all (d :: ds)).
    + rewrite read_frame_binary by done. cbn [mbind option_bind].
      rewrite <- (str_app_nil_r (print values)). apply (Decode_print 4); [|unfold maxNestingDepth; lia|done].
      apply ok_array, Forall_fmap, Forall_true. intros d. apply arrow_data_ok.
  - intros d k f _ Hnd Hk. unfold arrow_columns. rewrite (columns_at _ k f) by done.
    rewrite lookup_empty. by destruct (cells_of k (rep_Values d)).
Qed.

Definition ex_field (name : string) : Field := mkField name 1 false "" false ANil ANil.

Definition ex_result : CollectRepMetricsData :=
  mkCollectRep 7 7 0 "app" "cpu" 0 1000 0 "ok" [ex_field "core"; ex_field "load"]
    [mkValueRow ["0"; "a<b"]; mkValueRow ["1"; "0.5"]] ∅ ∅.

Lemma arrow_roundtrip_witness :
  exists bytes, SerializeMetricsData [Some ex_result] tt = Ret tt (Ok bytes) /\
    (s ← read_frame bytes; Decode s) = Some (JArray [arrow_data ex_result]).
Proof.
  exact (proj1 (arrow_roundtrip [ex_result] ltac:(discriminate) ltac:(vm_compute; reflexivity))).
Defined.

Example ex_arrow_json :
  print (arrow_data ex_result) = String.concat (str1 dquote)
    ["{"; "app"; ":"; "app"; ","; "code"; ":0,"; "columns"; ":{"; "core"; ":["; "0"; ","; "1"; "],"; "load"; ":[";
     "a\u003cb"; ","; "0.5"; "]},"; "id"; ":7,"; "metrics"; ":"; "cpu"; ","; "msg"; ":"; "ok"; ","; "priority";
     ":0,"; "rowCount"; ":2,"; "tenantId"; ":0,"; "time"; ":1000}"].
Proof. vm_compute. reflexivity. Qed.

(** Rows that are too short shift the cells of a column, and fields with one
    name share a column. *)
Example ragged_rows_shift :
  arrow_columns (mkCollectRep 7 7 0 "app" "cpu" 0 1000 0 "ok" [ex_field "a"; ex_field "b"; ex_field "a"]
    [mkValueRow ["1"]; mkValueRow ["2"; "x"; "3"]] ∅ ∅) = {["a" := ["1"; "2"; "3"]; "b" := ["x"]]}.
Proof. vm_compute. reflexivity. Qed.
