(* ===== verification/Extract.v ===== *)
(** * Protocol configurations

    The constructors of internal/types/job/protocol with their options, and the
    extraction of a configuration from a value of type interface{} by
    util/param/param_replacer.go: a map is written as JSON and read into the
    struct.  The part of encoding/json that this takes is written out: maps are
    printed by Json and read into fields of strings, maps of strings and
    pointers to structs, whose names are matched up to case.  A configuration
    that has been read is a tree; it gets its pointers when it is stored. *)

From Stdlib Require Import Ascii String SpecFloat.
From S2P Require Import Prelude GoStrings GoFloat JobTypes Json.

Open Scope string_scope.
Open Scope list_scope.
Open Scope Z_scope.
Open Scope go_scope.

(** ** Constructors

    An option is a function on the struct. *)

Definition apply_opts {P} (opts : list (P -> P)) (p : P) : P := foldl (fun p opt => opt p) p opts.

Definition NewHTTPProtocol (url method : string) (opts : list (HTTPProtocol -> HTTPProtocol)) : HTTPProtocol :=
  apply_opts opts (mkHTTPProtocol url method None None "" "" "" "" "" "" None).
Definition NewSSHProtocol (host port : string) (opts : list (SSHProtocol -> SSHProtocol)) : SSHProtocol :=
  apply_opts opts (mkSSHProtocol host port "" "" "" "" "" "" "" "" "" "" "" "" "" "" "").
Definition NewSSHTunnel (host port : string) (opts : list (SSHTunnel -> SSHTunnel)) : SSHTunnel :=
  apply_opts opts (mkSSHTunnel "" host port "" "").
Definition NewJDBCProtocol (host port platform : string) (opts : list (JDBCProtocol -> JDBCProtocol))
    : JDBCProtocol :=
  apply_opts opts (mkJDBCProtocol host port platform "" "" "" "" "" "" "" "" None).
Definition NewRedisProtocol (host port : string) (opts : list (RedisProtocol -> RedisProtocol)) : RedisProtocol :=
  apply_opts opts (mkRedisProtocol host port "" "" "" "" None).
Definition NewSNMPProtocol (host : string) (port : Z) (opts : list (SNMPProtocol -> SNMPProtocol)) : SNMPProtocol :=
  apply_opts opts (mkSNMPProtocol host port "" "" "" "" "" "" "" "" 0 "" "").
Definition NewJMXProtocol (host : string) (port : Z) (opts : list (JMXProtocol -> JMXProtocol)) : JMXProtocol :=
  apply_opts opts (mkJMXProtocol host port "" "" "" "" 0).
Definition NewMongoDBProtocol (host : string) (port : Z) (opts : list (MongoDBProtocol -> MongoDBProtocol))
    : MongoDBProtocol :=
  apply_opts opts (mkMongoDBProtocol host port "" "" "" "" "" 0).
Definition NewMilvusProtocol (host port : string) (opts : list (MilvusProtocol -> MilvusProtocol))
    : MilvusProtocol :=
  apply_opts opts (mkMilvusProtocol host port "" "" "").
Definition NewConsulSdProtocol (host port : string) : ConsulSdProtocol := mkConsulSd host port.
Definition NewZookeeperSdProtocol (url pathPrefix : string) : ZookeeperSdProtocol := mkZookeeperSd url pathPrefix.

(** ** json.Marshal of a value of type interface{} *)

(** The text of a float64: the shortest digits, without a leading zero in a
    negative exponent. *)
Definition marshal_float (x : float64) : res json :=
  match x with
  | S754_nan => Err "json: unsupported value: NaN"
  | S754_infinity s => Err ("json: unsupported value: " +:+ (if s then "-Inf" else "+Inf"))
  | S754_zero s => Ok (JNumber (sign_str s +:+ "0"))
  | S754_finite s m e =>
      let '(ds, dp) := shortest_digits (Zpos m) e in
      Ok (JNumber (sign_str s +:+
        (if dp - 1 <? -9 then fmtE ds dp
         else if dp - 1 <? -6 then
           str_take 1 ds +:+ (if String.eqb (str_drop 1 ds) "" then "" else "." +:+ str_drop 1 ds)
           +:+ "e-" +:+ digits (1 - dp)
         else if dp - 1 <? 21 then fmtF ds dp else fmtE ds dp)))
  end.

Fixpoint sequence {A} (l : list (res A)) : res (list A) :=
  match l with
  | [] => Ok []
  | Err e :: _ => Err e
  | Ok x :: l => match sequence l with Ok l => Ok (x :: l) | Err e => Err e end
  end.

Definition named {A} (kv : string * res A) : res (string * A) :=
  match snd kv with Ok v => Ok (fst kv, v) | Err e => Err e end.

Fixpoint marshal (v : any) : res json :=
  match v with
  | ANil => Ok JNull
  | ABool b => Ok (JBool b)
  | AInt z => Ok (JNumber (Itoa z))
  | AFloat x => marshal_float x
  | AString s => Ok (JString s)
  | AList l => match sequence (map marshal l) with Ok l => Ok (JArray l) | Err e => Err e end
  | AMap m =>
      match sequence (map named (sort_by_key (map (fun '(k, v) => (k, marshal v)) m))) with
      | Ok ms => Ok (JObject ms)
      | Err e => Err e
      end
  end.

(** ** json.Unmarshal into a struct *)

Definition kind_name (v : json) : string :=
  match v with
  | JNull => "null" | JBool _ => "bool" | JNumber _ => "number" | JString _ => "string"
  | JArray _ => "array" | JObject _ => "object"
  end.

(** The text of an [UnmarshalTypeError] in a field of a struct. *)
Definition type_error (v : json) (struct path type : string) : error :=
  "json: cannot unmarshal " +:+ kind_name v +:+ " into Go struct field " +:+ struct +:+ "." +:+ path +:+
  " of type " +:+ type.

(** A field of a struct: its JSON name, the value that it has as a member of a
    map, if any, the error that a value causes, and its assignment. *)
Record json_field (S : Type) := mkJsonField {
  jf_name : string;
  jf_read : S -> option any;
  jf_check : json -> option error;
  jf_write : json -> S -> S;
}.
Arguments mkJsonField {S} _ _ _ _.
Arguments jf_name {S} _.
Arguments jf_read {S} _ _.
Arguments jf_check {S} _ _.
Arguments jf_write {S} _ _ _.

Fixpoint first_field {S} (p : string -> bool) (table : list (json_field S)) : option (json_field S) :=
  match table with
  | [] => None
  | f :: table => if p (jf_name f) then Some f else first_field p table
  end.

(** The field of a key: the one with this name, or with this name up to case. *)
Definition field_of {S} (table : list (json_field S)) (key : string) : option (json_field S) :=
  match first_field (String.eqb key) table with
  | Some f => Some f
  | None => first_field (EqualFold key) table
  end.

(** The members of an object, one after another; the first error is kept. *)
Fixpoint store_members {S} (table : list (json_field S)) (ms : list (string * json)) (s : S)
    (saved : option error) : S * option error :=
  match ms with
  | [] => (s, saved)
  | (key, v) :: ms =>
      match field_of table key with
      | None => store_members table ms s saved
      | Some f =>
          store_members table ms (jf_write f v s)
            (match saved with Some e => Some e | None => jf_check f v end)
      end
  end.

(** The members that a struct is written as. *)
Definition struct_map {S} (table : list (json_field S)) (s : S) : list (string * any) :=
  omap (fun f => pair (jf_name f) <$> jf_read f s) table.

(** *** Kinds of fields *)

(** The strings of a struct, in an order. *)
Class StringStruct (S : Type) := {
  ss_strings : S -> list string;
  ss_make : list string -> S -> S;
}.

Definition string_field {S} `{!StringStruct S} (struct prefix : string) (i : nat) (name : string)
    : json_field S := {|
  jf_name := name;
  jf_read s := AString <$> ss_strings s !! i;
  jf_check v :=
    match v with
    | JNull | JString _ => None
    | _ => Some (type_error v struct (prefix +:+ name) "string")
    end;
  jf_write v s :=
    match v with JString x => ss_make (<[i := x]> (ss_strings s)) s | _ => s end;
|}.

Definition string_fields {S} `{!StringStruct S} (struct prefix : string) (names : list string)
    : list (json_field S) :=
  imap (string_field struct prefix) names.

(** A pointer to a struct [R]; [omit]: a nil pointer is left out. *)
Definition pointer_field {S R} (struct name type : string) (omit : bool) (table : list (json_field R)) (zero : R)
    (get : S -> option R) (set : option R -> S -> S) : json_field S := {|
  jf_name := name;
  jf_read s :=
    match get s with
    | Some r => Some (AMap (struct_map table r))
    | None => if omit then None else Some ANil
    end;
  jf_check v :=
    match v with
    | JNull => None
    | JObject ms => snd (store_members table ms zero None)
    | _ => Some (type_error v struct name type)
    end;
  jf_write v s :=
    match v with
    | JNull => set None s
    | JObject ms => set (Some (fst (store_members table ms (default zero (get s)) None))) s
    | _ => set (Some (default zero (get s))) s
    end;
|}.

(** A map from strings to strings. *)
Definition check_entry (struct name : string) (kv : string * json) : option error :=
  match snd kv with
  | JNull | JString _ => None
  | v => Some (type_error v struct name "string")
  end.

Definition store_entry (m : gmap string string) (kv : string * json) : gmap string string :=
  <[fst kv := match snd kv with JString x => x | _ => "" end]> m.

Definition map_field {S} (struct name : string) (get : S -> option (gmap string string))
    (set : option (gmap string string) -> S -> S) : json_field S := {|
  jf_name := name;
  jf_read s :=
    Some (match get s with
          | Some m => AMap ((fun kv => (fst kv, AString (snd kv))) <$> map_to_list m)
          | None => ANil
          end);
  jf_check v :=
    match v with
    | JNull => None
    | JObject ms => head (omap (check_entry struct name) ms)
    | _ => Some (type_error v struct name "map[string]string")
    end;
  jf_write v s :=
    match v with
    | JNull => set None s
    | JObject ms => set (Some (foldl store_entry (default ∅ (get s)) ms)) s
    | _ => s
    end;
|}.

(** ** The structs *)

Definition SSHTunnel_names : list string := ["enable"; "host"; "port"; "username"; "password"].

#[export] Instance SSHTunnel_strings : StringStruct SSHTunnel := {|
  ss_strings p := [tun_Enable p; tun_Host p; tun_Port p; tun_Username p; tun_Password p];
  ss_make l p := match l with [a; b; c; d; e] => mkSSHTunnel a b c d e | _ => p end;
|}.

Definition SSHTunnel_zero : SSHTunnel := mkSSHTunnel "" "" "" "" "".
Definition SSHTunnel_table : list (json_field SSHTunnel) :=
  string_fields "SSHTunnel" "sshTunnel." SSHTunnel_names.

Definition Authorization_names : list string :=
  ["type"; "basicAuthUsername"; "basicAuthPassword"; "digestAuthUsername"; "digestAuthPassword"; "bearerTokenToken"].

#[export] Instance Authorization_strings : StringStruct Authorization := {|
  ss_strings a := [auth_Type a; auth_BasicAuthUsername a; auth_BasicAuthPassword a; auth_DigestAuthUsername a;
                   auth_DigestAuthPassword a; auth_BearerTokenToken a];
  ss_make l p := match l with [a; b; c; d; e; f] => mkAuthorization a b c d e f | _ => p end;
|}.

Definition Authorization_zero : Authorization := mkAuthorization "" "" "" "" "" "".
Definition Authorization_table : list (json_field Authorization) :=
  string_fields "Authorization" "authorization." Authorization_names.

(** *** SSHProtocol *)

Definition SSHProtocol_names : list string :=
  ["host"; "port"; "username"; "password"; "privateKey"; "privateKeyPassphrase"; "script"; "parseType";
   "parseScript"; "timeout"; "reuseConnection"; "useProxy"; "proxyHost"; "proxyPort"; "proxyUsername";
   "proxyPassword"; "proxyPrivateKey"].

#[export] Instance SSHProtocol_strings : StringStruct SSHProtocol := {|
  ss_strings p := [ssh_Host p; ssh_Port p; ssh_Username p; ssh_Password p; ssh_PrivateKey p;
    ssh_PrivateKeyPassphrase p; ssh_Script p; ssh_ParseType p; ssh_ParseScript p; ssh_Timeout p;
    ssh_ReuseConnection p; ssh_UseProxy p; ssh_ProxyHost p; ssh_ProxyPort p; ssh_ProxyUsername p;
    ssh_ProxyPassword p; ssh_ProxyPrivateKey p];
  ss_make l x := match l with
    | [a; b; c; d; e; f; g; h; i; j; k; l; m; n; o; p; q] => mkSSHProtocol a b c d e f g h i j k l m n o p q
    | _ => x
    end;
|}.

Definition SSHProtocol_zero : SSHProtocol := mkSSHProtocol "" "" "" "" "" "" "" "" "" "" "" "" "" "" "" "" "".
Definition SSHProtocol_table : list (json_field SSHProtocol) := string_fields "SSHProtocol" "" SSHProtocol_names.

(** *** JDBCProtocol, as a tree *)

Record jdbc_config := mkJdbcConfig { jc_struct : JDBCProtocol; jc_tunnel : option SSHTunnel }.

Definition JDBCProtocol_names : list string :=
  ["host"; "port"; "platform"; "username"; "password"; "database"; "timeout"; "queryType"; "sql"; "url";
   "reuseConnection"].

Definition jdbc_strings (p : JDBCProtocol) : list string :=
  [jdbc_Host p; jdbc_Port p; jdbc_Platform p; jdbc_Username p; jdbc_Password p; jdbc_Database p; jdbc_Timeout p;
   jdbc_QueryType p; jdbc_SQL p; jdbc_URL p; jdbc_ReuseConnection p].

(** The struct of these strings and a pointer to its tunnel. *)
Definition jdbc_make (l : list string) (tunnel : option loc) (x : JDBCProtocol) : JDBCProtocol :=
  match l with
  | [a; b; c; d; e; f; g; h; i; j; k] => mkJDBCProtocol a b c d e f g h i j k tunnel
  | _ => x
  end.

#[export] Instance JDBCProtocol_strings : StringStruct jdbc_config := {|
  ss_strings c := jdbc_strings (jc_struct c);
  ss_make l c := mkJdbcConfig (jdbc_make l None (jc_struct c)) (jc_tunnel c);
|}.

Definition JDBCProtocol_zero : jdbc_config := mkJdbcConfig (NewJDBCProtocol "" "" "" []) None.
Definition JDBCProtocol_table : list (json_field jdbc_config) :=
  string_fields "JDBCProtocol" "" JDBCProtocol_names ++
  [pointer_field "JDBCProtocol" "sshTunnel" "protocol.SSHTunnel" true SSHTunnel_table SSHTunnel_zero jc_tunnel
     (fun t c => mkJdbcConfig (jc_struct c) t)].

(** *** HTTPProtocol, as a tree *)

Record http_config := mkHttpConfig {
  hc_struct : HTTPProtocol;
  hc_Headers : option (gmap string string);
  hc_Params : option (gmap string string);
  hc_Authorization : option Authorization;
}.

Definition HTTPProtocol_names : list string :=
  ["url"; "method"; "body"; "parseScript"; "parseType"; "keyword"; "timeout"; "ssl"].

Definition http_strings (p : HTTPProtocol) : list string :=
  [http_URL p; http_Method p; http_Body p; http_ParseScript p; http_ParseType p; http_Keyword p; http_Timeout p;
   http_SSL p].

Definition http_make (l : list string) (headers params authorization : option loc) (x : HTTPProtocol)
    : HTTPProtocol :=
  match l with
  | [a; b; c; d; e; f; g; h] => mkHTTPProtocol a b headers params c d e f g h authorization
  | _ => x
  end.

#[export] Instance HTTPProtocol_strings : StringStruct http_config := {|
  ss_strings c := http_strings (hc_struct c);
  ss_make l c := mkHttpConfig (http_make l None None None (hc_struct c)) (hc_Headers c) (hc_Params c)
                   (hc_Authorization c);
|}.

Definition HTTPProtocol_zero : http_config := mkHttpConfig (NewHTTPProtocol "" "" []) None None None.
Definition HTTPProtocol_table : list (json_field http_config) :=
  string_fields "HTTPProtocol" "" HTTPProtocol_names ++
  [map_field "HTTPProtocol" "headers" hc_Headers
     (fun m c => mkHttpConfig (hc_struct c) m (hc_Params c) (hc_Authorization c));
   map_field "HTTPProtocol" "params" hc_Params
     (fun m c => mkHttpConfig (hc_struct c) (hc_Headers c) m (hc_Authorization c));
   pointer_field "HTTPProtocol" "authorization" "protocol.Authorization" false Authorization_table
     Authorization_zero hc_Authorization
     (fun a c => mkHttpConfig (hc_struct c) (hc_Headers c) (hc_Params c) a)].

(** ** Extraction *)

(** A configuration that can be extracted: its type, its fields, and how a tree
    is put into the heap. *)
Class Config (S : Type) := {
  cf_type : string;
  cf_label : string;
  cf_table : list (json_field S);
  cf_zero : S;
  cf_alloc : S -> M heap loc;
}.

Definition alloc_opt {A} (mk : A -> obj) (x : option A) : M heap (option loc) :=
  match x with
  | None => mret None
  | Some a => l <-! alloc (mk a) ; mret (Some l)
  end.

#[export] Instance jdbc_Config : Config jdbc_config := {|
  cf_type := "*protocol.JDBCProtocol";
  cf_label := "JDBC";
  cf_table := JDBCProtocol_table;
  cf_zero := JDBCProtocol_zero;
  cf_alloc c :=
    tunnel <-! alloc_opt OTunnel (jc_tunnel c) ;
    alloc (OJDBC (jdbc_make (jdbc_strings (jc_struct c)) tunnel (jc_struct c)));
|}.

#[export] Instance http_Config : Config http_config := {|
  cf_type := "*protocol.HTTPProtocol";
  cf_label := "HTTP";
  cf_table := HTTPProtocol_table;
  cf_zero := HTTPProtocol_zero;
  cf_alloc c :=
    headers <-! alloc_opt OMap (hc_Headers c) ;
    params <-! alloc_opt OMap (hc_Params c) ;
    authorization <-! alloc_opt OAuth (hc_Authorization c) ;
    alloc (OHTTP (http_make (http_strings (hc_struct c)) headers params authorization (hc_struct c)));
|}.

#[export] Instance ssh_Config : Config SSHProtocol := {|
  cf_type := "*protocol.SSHProtocol";
  cf_label := "SSH";
  cf_table := SSHProtocol_table;
  cf_zero := SSHProtocol_zero;
  cf_alloc c := alloc (OSSH c);
|}.

(** A value of type interface{}: nil, a map, or another with its dynamic type,
    where it is a pointer with the pointer. *)
Inductive iface :=
| INil
| IMap (m : list (string * any))
| IValue (type : string) (p : option loc).

Definition type_of (v : iface) : string :=
  match v with INil => "<nil>" | IMap _ => "map[string]interface {}" | IValue t _ => t end.

(** [ExtractProtocolConfig] into a new struct.  The decoder gives up on what is
    nested too deep. *)
Definition ExtractProtocolConfig {S} `{!Config S} (v : iface) : res S :=
  match v with
  | INil => Err "protocol interface is nil"
  | IMap protocolMap =>
      match marshal (AMap protocolMap) with
      | Err e => Err ("failed to marshal protocol config: " +:+ e)
      | Ok jsonData =>
          match Decode (print jsonData) with
          | Some (JObject ms) =>
              match store_members (S := S) cf_table ms cf_zero None with
              | (s, None) => Ok s
              | (_, Some e) => Err ("failed to unmarshal protocol config: " +:+ e)
              end
          | _ => Err "failed to unmarshal protocol config: exceeded max depth"
          end
      end
  | IValue t _ => Err ("unsupported protocol config type: " +:+ t)
  end.

(** The common shape of the three functions below. *)
Definition extract_config {S} `{!Config S} (v : iface) : M heap (res (option loc)) :=
  match v with
  | INil => mret (Ok None)
  | _ =>
      match v, String.eqb (type_of v) (cf_type (S := S)) with
      | IValue _ p, true => mret (Ok p)
      | _, _ =>
          match ExtractProtocolConfig (S := S) v with
          | Err e => mret (Err ("failed to extract " +:+ cf_label (S := S) +:+ " config: " +:+ e))
          | Ok s => l <-! cf_alloc s ; mret (Ok (Some l))
          end
      end
  end.

Definition ExtractJDBCConfig : iface -> M heap (res (option loc)) := extract_config (S := jdbc_config).
Definition ExtractHTTPConfig : iface -> M heap (res (option loc)) := extract_config (S := http_config).
Definition ExtractSSHConfig : iface -> M heap (res (option loc)) := extract_config (S := SSHProtocol).

(** ** Proofs *)

(** *** What is marshalled *)

Lemma insert_by_key_map {A B} (f : A -> B) k x (l : list (string * A)) :
  insert_by_key (k, f x) (map (fun '(k, x) => (k, f x)) l) = map (fun '(k, x) => (k, f x)) (insert_by_key (k, x) l).
Proof.
  induction l as [|[k' y] l IH]; [done|]. cbn [map insert_by_key fst]. destruct (str_leb k k'); [done|].
  by rewrite IH.
Qed.

Lemma sort_by_key_map {A B} (f : A -> B) (l : list (string * A)) :
  sort_by_key (map (fun '(k, x) => (k, f x)) l) = map (fun '(k, x) => (k, f x)) (sort_by_key l).
Proof.
  induction l as [|[k x] l IH]; [done|]. cbn [map sort_by_key foldr].
  change (foldr insert_by_key [] ?l) with (sort_by_key l). by rewrite IH, insert_by_key_map.
Qed.

(** The members of a map, marshalled in the order of [l]. *)
Definition marshal_members (l : list (string * any)) : res (list (string * json)) :=
  sequence (map named (map (fun '(k, v) => (k, marshal v)) l)).

Lemma marshal_AMap m :
  marshal (AMap m) = match marshal_members (sort_by_key m) with Ok ms => Ok (JObject ms) | Err e => Err e end.
Proof. unfold marshal_members. rewrite <- sort_by_key_map. done. Qed.

Lemma marshal_members_cons k a l v ms :
  marshal a = Ok v -> marshal_members l = Ok ms -> marshal_members ((k, a) :: l) = Ok ((k, v) :: ms).
Proof. intros Ha Hl. unfold marshal_members in *. cbn [map named fst snd sequence]. by rewrite Ha, Hl. Qed.

(** Values without floats, nested [n] levels deep at most: what other members a
    map may have. *)
#[warnings="-register-all"]
Inductive plain : nat -> any -> Prop :=
| plain_nil n : plain n ANil
| plain_bool n b : plain n (ABool b)
| plain_int n z : plain n (AInt z)
| plain_string n s : plain n (AString s)
| plain_list n l : Forall (plain n) l -> plain (S n) (AList l)
| plain_map n m : NoDup (fst <$> m) -> Forall (fun kv => plain n (snd kv)) m -> plain (S n) (AMap m).

Definition marshals (n : nat) (a : any) : Prop := exists v, marshal a = Ok v /\ json_ok n v.

Lemma marshals_members n l :
  Forall (fun kv => marshals n (snd kv)) l ->
  exists ms, marshal_members l = Ok ms /\ fst <$> ms = fst <$> l /\ Forall (fun kv => json_ok n (snd kv)) ms.
Proof.
  induction l as [|[k a] l IH]; intros Hl; [by exists []|].
  apply Forall_cons in Hl as [(v & Ev & Hv) Hl]. destruct (IH Hl) as (ms & Ems & Hk & Hms).
  exists ((k, v) :: ms). split_and!; [by apply marshal_members_cons| |by constructor].
  rewrite !fmap_cons, Hk. done.
Qed.

Lemma marshals_map n m :
  NoDup (fst <$> m) -> Forall (fun kv => marshals n (snd kv)) m -> marshals (S n) (AMap m).
Proof.
  intros Hn Hm. rewrite <- sort_by_key_perm in Hm. destruct (marshals_members n _ Hm) as (ms & E & Hk & Hms).
  exists (JObject ms). rewrite marshal_AMap, E. split; [done|]. apply ok_object; [|done].
  by rewrite Hk, sort_by_key_perm.
Qed.

Lemma plain_marshals n : forall a, plain n a -> marshals n a.
Proof.
  induction n as [|n IH]; intros a Ha; inversion Ha; subst;
    try (eexists; split; [reflexivity|constructor; apply number_ok_Itoa]);
    try (eexists; split; [reflexivity|constructor]).
  - assert (exists vs, sequence (map marshal l) = Ok vs /\ Forall (json_ok n) vs) as (vs & E & Hvs).
    { match goal with H : Forall _ l |- _ => clear Ha; induction H as [|x l Hx _ (vs & E & Hvs)] end; [by exists []|].
      destruct (IH x Hx) as (v & Ev & Hv).
      exists (v :: vs). cbn [map sequence]. rewrite Ev, E. split; [done|by constructor]. }
    exists (JArray vs). cbn [marshal]. rewrite E. split; [done|by constructor].
  - apply marshals_map; [done|]. eapply Forall_impl; [done|]. intros kv. apply IH.
Qed.

(** *** Tables of fields *)

(** What a field promises: a member that it reads from one struct is written as
    JSON, causes no error, and is read again once it has been assigned to a field
    that is as in the empty struct.  [d] bounds the nesting of its values. *)
Record field_ok {S} (d : nat) (zero : S) (f : json_field S) : Prop := {
  fo_none s0 : jf_read f s0 = None -> jf_read f zero = None;
  fo_some n s s0 a : jf_read f s0 = Some a -> jf_read f s = jf_read f zero ->
    exists v, marshal a = Ok v /\ json_ok (d + n)%nat v /\ jf_check f v = None /\
      jf_read f (jf_write f v s) = Some a;
}.

(** Assigning [f] leaves [g] alone. *)
Definition frames {S} (f g : json_field S) : Prop :=
  forall v s, jf_read g (jf_write f v s) = jf_read g s.

Definition names_ok {S} (table : list (json_field S)) : Prop :=
  NoDup (ToLower <$> (jf_name <$> table)).

Record table_ok {S} (d : nat) (table : list (json_field S)) (zero : S) : Prop := {
  to_names : names_ok table;
  to_fields f : f ∈ table -> field_ok d zero f;
  to_frames f g : f ∈ table -> g ∈ table -> jf_name f <> jf_name g -> frames f g;
}.

Lemma names_distinct {S} (table : list (json_field S)) f g :
  names_ok table -> f ∈ table -> g ∈ table -> jf_name f = jf_name g -> f = g.
Proof.
  unfold names_ok. rewrite <- list_fmap_compose.
  intros Hn [i Hi]%list_elem_of_lookup [j Hj]%list_elem_of_lookup E.
  assert (i = j) as ->; [|congruence].
  apply (NoDup_lookup _ i j (ToLower (jf_name f)) Hn); rewrite list_lookup_fmap; [by rewrite Hi|].
  rewrite Hj. cbn. by rewrite E.
Qed.

Lemma first_field_exact {S} (table : list (json_field S)) f :
  names_ok table -> f ∈ table -> first_field (String.eqb (jf_name f)) table = Some f.
Proof.
  intros Hn Hf.
  assert (forall l, f ∈ l -> exists g, g ∈ l /\ jf_name g = jf_name f /\
    first_field (String.eqb (jf_name f)) l = Some g) as H.
  { induction l as [|g l IH]; intros Hin; [by apply elem_of_nil in Hin|]. cbn [first_field].
    destruct (String.eqb_spec (jf_name f) (jf_name g)) as [E|E]; [exists g; split; [by left|done]|].
    apply elem_of_cons in Hin as [->|Hin]; [done|]. destruct (IH Hin) as (h & Hh & E' & E'').
    exists h. split; [by right|done]. }
  destruct (H table Hf) as (g & Hg & E & ->). f_equal. by apply (names_distinct table).
Qed.

Lemma field_of_name {S} (table : list (json_field S)) f :
  names_ok table -> f ∈ table -> field_of table (jf_name f) = Some f.
Proof. intros Hn Hf. unfold field_of. by rewrite first_field_exact. Qed.

(** The members of a struct and others that no field takes. *)
Definition member_of {S} (d : nat) (table : list (json_field S)) (n : nat) (s0 : S) (kv : string * any) : Prop :=
  (exists f, f ∈ table /\ jf_name f = fst kv /\ jf_read f s0 = Some (snd kv)) \/
  (field_of table (fst kv) = None /\ marshals (d + n)%nat (snd kv)).

Lemma store_members_spec {S} d (table : list (json_field S)) zero n s0 : table_ok d table zero ->
  forall l s,
  NoDup (fst <$> l) -> Forall (member_of d table n s0) l ->
  (forall f, f ∈ table -> jf_name f ∈ fst <$> l -> jf_read f s = jf_read f zero) ->
  exists ms s', marshal_members l = Ok ms /\ fst <$> ms = fst <$> l /\
    Forall (fun kv => json_ok (d + n)%nat (snd kv)) ms /\
    store_members table ms s None = (s', None) /\
    forall f, f ∈ table -> jf_read f s' = if decide (jf_name f ∈ fst <$> l) then jf_read f s0 else jf_read f s.
Proof.
  intros [Hn Hok Hfr]. induction l as [|[k a] l IH]; intros s Hnd Hl Hs.
  { exists [], s. split_and!; try done. }
  rewrite fmap_cons in Hnd. apply NoDup_cons in Hnd as [Hk Hnd]. apply Forall_cons in Hl as [Hm Hl].
  cbn [fst snd] in Hk.
  assert (forall f, f ∈ table -> jf_name f ∈ fst <$> l -> jf_read f s = jf_read f zero) as Hs'
    by (intros f Hf Hin; apply Hs; [done|by right]).
  destruct Hm as [(f & Hf & Hfk & Hr)|[Hfk (v & Ev & Hv)]]; cbn [fst snd] in *.
  - subst k. destruct (fo_some _ _ _ (Hok f Hf) n s s0 a Hr) as (v & Ev & Hv & Hc & Hw);
      [apply Hs; [done|by left]|].
    destruct (IH (jf_write f v s)) as (ms & s' & E & Hms & Hj & Hst & Hread); [done|done| |].
    { intros g Hg Hin. rewrite (Hfr f g Hf Hg); [by apply Hs'|]. intros Heq. by rewrite Heq in Hk. }
    exists ((jf_name f, v) :: ms), s'. split_and!.
    + by apply marshal_members_cons.
    + by rewrite !fmap_cons, Hms.
    + by constructor.
    + cbn [store_members]. by rewrite field_of_name, Hc by done.
    + intros g Hg. rewrite (Hread g Hg), fmap_cons. cbn [fst].
      destruct (decide (jf_name g = jf_name f)) as [Heq|Hne].
      * assert (g = f) as -> by (by apply (names_distinct table)).
        rewrite decide_False by done. rewrite decide_True by (by left). by rewrite Hw, Hr.
      * rewrite (Hfr f g Hf Hg) by congruence.
        destruct (decide (jf_name g ∈ fst <$> l)); [rewrite decide_True by (by right); done|].
        rewrite decide_False; [done|]. rewrite elem_of_cons. tauto.
  - destruct (IH s) as (ms & s' & E & Hms & Hj & Hst & Hread); [done|done|done|].
    exists ((k, v) :: ms), s'. split_and!.
    + by apply marshal_members_cons.
    + by rewrite !fmap_cons, Hms.
    + by constructor.
    + cbn [store_members]. by rewrite Hfk.
    + intros g Hg. rewrite (Hread g Hg), fmap_cons. cbn [fst].
      assert (jf_name g <> k) as Hne by (intros <-; by rewrite field_of_name in Hfk).
      destruct (decide (jf_name g ∈ fst <$> l)); [rewrite decide_True by (by right); done|].
      rewrite decide_False; [done|]. rewrite elem_of_cons. tauto.
Qed.

(** A member that no field takes, which is marshalled without an error. *)
Definition foreign {S} (d : nat) (table : list (json_field S)) (n : nat) (kv : string * any) : Prop :=
  field_of table (fst kv) = None /\ marshals (d + n)%nat (snd kv).

Lemma elem_of_struct_map {S} (table : list (json_field S)) s k a :
  (k, a) ∈ struct_map table s <-> exists f, f ∈ table /\ jf_name f = k /\ jf_read f s = Some a.
Proof.
  unfold struct_map. rewrite list_elem_of_omap. split.
  - intros (f & Hf & (a' & Hr & [= -> ->])%fmap_Some). by exists f.
  - intros (f & Hf & <- & Hr). exists f. split; [done|]. by rewrite Hr.
Qed.

Lemma struct_map_names {S} (table : list (json_field S)) s : names_ok table -> NoDup (fst <$> struct_map table s).
Proof.
  unfold names_ok, struct_map. induction table as [|f table IH]; [constructor|]. rewrite !fmap_cons.
  intros [Hf Hn]%NoDup_cons. csimpl. destruct (jf_read f s) as [a|]; csimpl; [|by apply IH].
  apply NoDup_cons. split; [|by apply IH]. intros Hin. apply Hf.
  apply list_elem_of_fmap in Hin as ([k a'] & -> & (g & Hg & <- & _)%elem_of_struct_map).
  cbn [fst]. by apply list_elem_of_fmap_2, list_elem_of_fmap_2.
Qed.

(** A struct is read back from its members, in whatever order, and others. *)
Lemma struct_stored {S} d (table : list (json_field S)) zero n s0 extra l :
  table_ok d table zero -> l ≡ₚ struct_map table s0 ++ extra -> NoDup (fst <$> l) ->
  Forall (foreign d table n) extra ->
  exists ms s', marshal_members l = Ok ms /\ fst <$> ms = fst <$> l /\
    Forall (fun kv => json_ok (d + n)%nat (snd kv)) ms /\
    store_members table ms zero None = (s', None) /\ struct_map table s' = struct_map table s0.
Proof.
  intros Ht Hl Hn Hx. pose proof Ht as [Hnames Hok _].
  destruct (store_members_spec d table zero n s0 Ht l zero) as (ms & s' & E & Hk & Hj & Hst & Hr);
    [done| |done|].
  { rewrite Hl. apply Forall_app. split.
    - apply Forall_forall. intros [k a] (f & Hf & E & Hr)%elem_of_struct_map. left. by exists f.
    - eapply Forall_impl; [exact Hx|]. intros kv Hkv. by right. }
  exists ms, s'. split_and!; [done..|]. apply omap_ext_in. intros f Hf. f_equal. rewrite (Hr f Hf).
  destruct (decide (jf_name f ∈ fst <$> l)) as [Hin|Hin]; [done|].
  destruct (jf_read f s0) as [a|] eqn:E0; [|by apply (fo_none _ _ _ (Hok f Hf) s0)].
  exfalso. apply Hin. rewrite Hl, fmap_app. apply elem_of_app. left.
  apply (list_elem_of_fmap_2' fst _ (jf_name f, a)); [|done]. apply elem_of_struct_map. by exists f.
Qed.

Lemma struct_stored_only {S} d (table : list (json_field S)) zero n s0 : table_ok d table zero ->
  exists ms s', marshal (AMap (struct_map table s0)) = Ok (JObject ms) /\ json_ok (Datatypes.S (d + n)) (JObject ms) /\
    store_members table ms zero None = (s', None) /\ struct_map table s' = struct_map table s0.
Proof.
  intros Ht. pose proof (struct_map_names table s0 (to_names _ _ _ Ht)) as Hn.
  destruct (struct_stored d table zero n s0 [] (sort_by_key (struct_map table s0)) Ht) as (ms & s' & E & Hk & Hj & Hs & Hr);
    [by rewrite app_nil_r, sort_by_key_perm|by rewrite sort_by_key_perm|done|].
  exists ms, s'. rewrite marshal_AMap, E. split_and!; [done| |done|done].
  apply ok_object; [|done]. by rewrite Hk, sort_by_key_perm.
Qed.

(** *** The kinds of fields *)

Class StringStructLaws (S : Type) `{!StringStruct S} (len : nat) := {
  ss_length s : length (ss_strings s) = len;
  ss_get l s : length l = len -> ss_strings (ss_make l s) = l;
}.

Section Strings.
Context {S : Type} `{!StringStruct S} {len : nat} `{!StringStructLaws S len}.
Context (zero : S) (struct prefix : string).

Lemma string_lookup i (s s' : S) : is_Some (ss_strings s !! i) -> is_Some (ss_strings s' !! i).
Proof. rewrite !lookup_lt_is_Some, !ss_length. done. Qed.

Lemma string_field_ok d i name : field_ok d zero (string_field struct prefix i name).
Proof.
  split; cbn [string_field jf_read jf_check jf_write].
  - intros s0 H. apply fmap_None in H. apply fmap_None. apply eq_None_not_Some.
    intros Hz%(string_lookup i _ s0). rewrite H in Hz. by destruct Hz.
  - intros n s s0 a (x & Hx & ->)%fmap_Some _. exists (JString x). split_and!; [done|constructor|done|].
    rewrite ss_get by (rewrite length_insert; apply ss_length). rewrite list_lookup_insert_eq; [done|].
    apply lookup_lt_is_Some, (string_lookup i s0). by eexists.
Qed.

Lemma string_fields_frame i j name name' :
  i <> j -> frames (string_field struct prefix i name) (string_field struct prefix j name' : json_field S).
Proof.
  intros Hne v s. cbn [string_field jf_read jf_write]. destruct v; try done.
  rewrite ss_get by (rewrite length_insert; apply ss_length). by rewrite list_lookup_insert_ne.
Qed.

(** The table of a struct: its strings and its other fields. *)
Lemma struct_table_ok d names others :
  names_ok (string_fields struct prefix names ++ others : list (json_field S)) ->
  (forall f, f ∈ others -> field_ok d zero f) ->
  (forall f g, f ∈ others -> g ∈ others -> jf_name f <> jf_name g -> frames f g) ->
  (forall f v s, f ∈ others -> ss_strings (jf_write f v s) = ss_strings s) ->
  (forall f l s, f ∈ others -> jf_read f (ss_make l s) = jf_read f s) ->
  table_ok d (string_fields struct prefix names ++ others) zero.
Proof.
  intros Hn Hok Hfr Hs Hm.
  assert (forall f, f ∈ (string_fields struct prefix names : list (json_field S)) ->
    exists i name, f = string_field struct prefix i name /\ names !! i = Some name) as Hin.
  { intros f [i Hi]%list_elem_of_lookup. unfold string_fields in Hi. rewrite list_lookup_imap in Hi.
    apply fmap_Some in Hi as (name & Hname & ->). by exists i, name. }
  split; [done| |].
  - intros f [Hf|Hf]%elem_of_app; [|by apply Hok]. apply Hin in Hf as (i & name & -> & _). apply string_field_ok.
  - intros f g [Hf|Hf]%elem_of_app [Hg|Hg]%elem_of_app Hne; [| | |by apply Hfr].
    + apply Hin in Hf as (i & name & -> & Hi), Hg as (j & name' & -> & Hj). apply string_fields_frame.
      intros ->. cbn in Hne. congruence.
    + apply Hin in Hf as (i & name & -> & _). intros v s. cbn [string_field jf_write].
      destruct v; try done. by apply Hm.
    + apply Hin in Hg as (j & name & -> & _). intros v s. cbn [string_field jf_read]. by rewrite Hs.
Qed.

End Strings.

Lemma pointer_field_ok {S R} d (s0 : S) struct name type omit (table : list (json_field R)) (zero : R) get
    (set : option R -> S -> S) :
  table_ok d table zero -> get s0 = None -> (forall x s, get (set x s) = x) ->
  field_ok (Datatypes.S d) s0 (pointer_field struct name type omit table zero get set).
Proof.
  intros Ht Hz Hget. split; cbn [pointer_field jf_read jf_check jf_write]; rewrite Hz.
  - intros s. destruct (get s); [done|]. by destruct omit.
  - intros n s s1 a Ha Hs. assert (get s = None) as Hnil by (destruct (get s); [by destruct omit|done]).
    destruct (get s1) as [r|] eqn:E.
    + injection Ha as <-. destruct (struct_stored_only d table zero n r Ht) as (ms & r' & Em & Hj & Hst & Hr).
      exists (JObject ms). split_and!; [done|exact Hj|by rewrite Hst|].
      rewrite Hnil. cbn [default]. rewrite Hst. cbn [fst]. by rewrite Hget, Hr.
    + destruct omit; [done|]. injection Ha as <-. exists JNull. split_and!; [done|constructor|done|].
      by rewrite Hget.
Qed.

(** A map of strings, entry by entry. *)
Lemma marshal_entries (l : list (string * string)) :
  marshal_members ((fun kv => (fst kv, AString (snd kv))) <$> l) = Ok ((fun kv => (fst kv, JString (snd kv))) <$> l).
Proof.
  induction l as [|[k x] l IH]; [done|]. rewrite !fmap_cons. by apply marshal_members_cons.
Qed.

Lemma sort_entries (l : list (string * string)) :
  sort_by_key ((fun kv => (fst kv, AString (snd kv))) <$> l) = (fun kv => (fst kv, AString (snd kv))) <$> sort_by_key l.
Proof.
  pose proof (sort_by_key_map AString l) as E.
  replace ((fun kv => (fst kv, AString (snd kv))) <$> l) with (map (fun '(k, x) => (k, AString x)) l)
    by (apply map_ext; by intros []).
  rewrite E. apply map_ext. by intros [].
Qed.

Lemma store_entries (l : list (string * string)) : forall m : gmap string string,
  foldl store_entry m ((fun kv => (fst kv, JString (snd kv))) <$> l) =
  foldl (fun m x => match Some x with Some (k, v) => <[k := v]> m | None => m end) m l.
Proof. induction l as [|[k x] l IH]; intros m; [done|]. by rewrite fmap_cons; cbn [foldl]; rewrite IH. Qed.

Lemma stored_entries (m : gmap string string) :
  foldl store_entry ∅ ((fun kv => (fst kv, JString (snd kv))) <$> sort_by_key (map_to_list m)) = m.
Proof.
  apply map_eq. intros k. rewrite store_entries. etrans; [exact (foldl_insert_lookup Some _ ∅ k)|].
  rewrite lookup_empty.
  replace (omap Some (sort_by_key (map_to_list m))) with (sort_by_key (map_to_list m))
    by (induction (sort_by_key (map_to_list m)) as [|x l IH]; csimpl; [done|by rewrite <- IH]).
  assert (filter (fun kv : string * string => fst kv = k) (sort_by_key (map_to_list m)) ≡ₚ
          filter (fun kv => fst kv = k) (map_to_list m)) as Hp by (by rewrite sort_by_key_perm).
  destruct (m !! k) as [x|] eqn:E.
  - assert (filter (fun kv : string * string => fst kv = k) (map_to_list m) ≡ₚ [(k, x)]) as Hx.
    { apply NoDup_Permutation; [apply NoDup_filter, NoDup_map_to_list|apply NoDup_singleton|].
      intros [k' x']. rewrite list_elem_of_filter, elem_of_map_to_list, list_elem_of_singleton. cbn [fst].
      split; [intros [-> E']; congruence|intros [= -> ->]; done]. }
    rewrite Hx in Hp. symmetry in Hp. apply Permutation_singleton_l in Hp as <-. done.
  - assert (filter (fun kv : string * string => fst kv = k) (map_to_list m) = []) as Hx.
    { apply elem_of_nil_inv. intros [k' x']. rewrite list_elem_of_filter, elem_of_map_to_list. cbn [fst].
      intros [-> E']. congruence. }
    rewrite Hx in Hp. apply Permutation_nil_r in Hp. by rewrite Hp.
Qed.

Lemma map_field_ok {S} d (s0 : S) struct name get (set : option (gmap string string) -> S -> S) :
  get s0 = None -> (forall x s, get (set x s) = x) -> field_ok (Datatypes.S d) s0 (map_field struct name get set).
Proof.
  intros Hz Hget. split; cbn [map_field jf_read jf_check jf_write]; rewrite Hz; [done|].
  intros n s s1 a [= <-] Hs. assert (get s = None) as Hnil by (by destruct (get s)).
  destruct (get s1) as [m|].
  - eexists. rewrite marshal_AMap, sort_entries, marshal_entries. split_and!; [reflexivity| | |].
    + apply ok_object.
      * rewrite <- list_fmap_compose. change (fst ∘ _) with (fst : string * string -> string).
        rewrite sort_by_key_perm. apply NoDup_fst_map_to_list.
      * apply Forall_fmap, Forall_true. intros kv. constructor.
    + induction (sort_by_key (map_to_list m)) as [|x l IH]; [done|]. exact IH.
    + rewrite Hnil, Hget. cbn [default]. by rewrite stored_entries.
  - exists JNull. split_and!; [done|constructor|done|]. by rewrite Hget.
Qed.

(** *** The configurations *)

Ltac string_laws :=
  split; [done|intros l s Hl; repeat (destruct l as [|? l]; try discriminate Hl); reflexivity].

#[export] Instance SSHTunnel_laws : StringStructLaws SSHTunnel 5.
Proof. string_laws. Qed.
#[export] Instance Authorization_laws : StringStructLaws Authorization 6.
Proof. string_laws. Qed.
#[export] Instance SSHProtocol_laws : StringStructLaws SSHProtocol 17.
Proof. string_laws. Qed.
#[export] Instance JDBCProtocol_laws : StringStructLaws jdbc_config 11.
Proof. string_laws. Qed.
#[export] Instance HTTPProtocol_laws : StringStructLaws http_config 8.
Proof. string_laws. Qed.

Lemma strings_ok {S} `{!StringStruct S} {len} `{!StringStructLaws S len} (zero : S) struct prefix names :
  names_ok (string_fields struct prefix names : list (json_field S)) ->
  table_ok 0 (string_fields struct prefix names) zero.
Proof.
  intros Hn. rewrite <- (app_nil_r (string_fields struct prefix names)) in Hn |- *.
  apply struct_table_ok; try done; intros; by match goal with H : _ ∈ [] |- _ => apply elem_of_nil in H end.
Qed.

Ltac names_distinct := apply (bool_decide_unpack _); vm_compute; exact I.

Lemma SSHTunnel_ok : table_ok 0 SSHTunnel_table SSHTunnel_zero.
Proof. apply strings_ok. names_distinct. Qed.
Lemma Authorization_ok : table_ok 0 Authorization_table Authorization_zero.
Proof. apply strings_ok. names_distinct. Qed.
Lemma SSHProtocol_ok : table_ok 0 SSHProtocol_table SSHProtocol_zero.
Proof. apply strings_ok. names_distinct. Qed.

Lemma JDBCProtocol_ok : table_ok 1 JDBCProtocol_table JDBCProtocol_zero.
Proof.
  apply struct_table_ok; [names_distinct|..].
  - intros f ->%list_elem_of_singleton. apply pointer_field_ok; [apply SSHTunnel_ok|done..].
  - by intros f g ->%list_elem_of_singleton ->%list_elem_of_singleton.
  - intros f v s ->%list_elem_of_singleton. by destruct v.
  - by intros f l s ->%list_elem_of_singleton.
Qed.

Lemma HTTPProtocol_ok : table_ok 1 HTTPProtocol_table HTTPProtocol_zero.
Proof.
  apply struct_table_ok; [names_distinct|..].
  - intros f Hf. rewrite !elem_of_cons, elem_of_nil in Hf. destruct Hf as [->|[->|[->|[]]]].
    + by apply map_field_ok.
    + by apply map_field_ok.
    + apply pointer_field_ok; [apply Authorization_ok|done..].
  - intros f g Hf Hg. rewrite !elem_of_cons, elem_of_nil in Hf, Hg.
    destruct Hf as [->|[->|[->|[]]]], Hg as [->|[->|[->|[]]]]; try done; intros _ v s; by destruct v.
  - intros f v s Hf. rewrite !elem_of_cons, elem_of_nil in Hf. destruct Hf as [->|[->|[->|[]]]]; by destruct v.
  - intros f l s Hf. rewrite !elem_of_cons, elem_of_nil in Hf. by destruct Hf as [->|[->|[->|[]]]].
Qed.

(** What a pointer of a struct refers to. *)
Definition refers {A} (mk : A -> obj) (h : heap) (x : option A) (p : option loc) : Prop :=
  match x, p with
  | None, None => True
  | Some a, Some l => cells h !! l = Some (mk a)
  | _, _ => False
  end.

(** [cf_holds]: the heap has a configuration at a location. *)
Class ConfigLaws (S : Type) `{!Config S} := {
  cf_holds : heap -> loc -> S -> Prop;
  cf_ok : exists d, (d <= 1)%nat /\ table_ok d (cf_table (S := S)) cf_zero;
  cf_alloc_holds s h : exists h' l, cf_alloc s h = Ret h' l /\ cf_holds h' l s;
}.

Lemma alloc_opt_refers {A} (mk : A -> obj) x h :
  exists h' p, alloc_opt mk x h = Ret h' p /\ refers mk h' x p /\ (hnext h <= hnext h')%nat /\
    (forall l, (l < hnext h)%nat -> cells h' !! l = cells h !! l) /\
    (forall l, p = Some l -> (hnext h <= l < hnext h')%nat).
Proof.
  destruct x as [a|]; [|by exists h, None]. eexists _, (Some (hnext h)). split; [reflexivity|].
  cbn. split_and!; [by rewrite lookup_insert_eq|lia| |by intros l [= <-]; lia].
  intros l Hl. rewrite lookup_insert_ne by lia. done.
Qed.

(** What was there stays there. *)
Lemma refers_keep {A} (mk : A -> obj) h h' x p :
  refers mk h x p -> (forall l, p = Some l -> cells h' !! l = cells h !! l) -> refers mk h' x p.
Proof. unfold refers. destruct x, p as [l|]; try done. intros Hr ->; done. Qed.

#[export] Program Instance ssh_laws : ConfigLaws SSHProtocol := {|
  cf_holds h l c := cells h !! l = Some (OSSH c);
|}.
Next Obligation. exists 0%nat. split; [lia|apply SSHProtocol_ok]. Qed.
Next Obligation. intros s h. eexists _, _. split; [reflexivity|]. apply lookup_insert_eq. Qed.

#[export] Program Instance jdbc_laws : ConfigLaws jdbc_config := {|
  cf_holds h l c := exists p,
    cells h !! l = Some (OJDBC (jdbc_make (jdbc_strings (jc_struct c)) p (jc_struct c))) /\
    refers OTunnel h (jc_tunnel c) p;
|}.
Next Obligation. exists 1%nat. split; [lia|apply JDBCProtocol_ok]. Qed.
Next Obligation.
  intros s h. cbn [cf_alloc jdbc_Config].
  destruct (alloc_opt_refers OTunnel (jc_tunnel s) h) as (h1 & p & E & Hr & _ & _ & Hp).
  erewrite bind_ret by exact E. eexists _, _. split; [reflexivity|]. exists p. cbn.
  split; [apply lookup_insert_eq|]. apply (refers_keep _ h1); [done|]. intros l Hl. cbn.
  apply lookup_insert_ne. specialize (Hp l Hl). lia.
Qed.

#[export] Program Instance http_laws : ConfigLaws http_config := {|
  cf_holds h l c := exists p q r,
    cells h !! l = Some (OHTTP (http_make (http_strings (hc_struct c)) p q r (hc_struct c))) /\
    refers OMap h (hc_Headers c) p /\ refers OMap h (hc_Params c) q /\ refers OAuth h (hc_Authorization c) r;
|}.
Next Obligation. exists 1%nat. split; [lia|apply HTTPProtocol_ok]. Qed.
Next Obligation.
  intros s h. cbn [cf_alloc http_Config].
  destruct (alloc_opt_refers OMap (hc_Headers s) h) as (h1 & p & E1 & Hr1 & Hn1 & _ & Hp1).
  destruct (alloc_opt_refers OMap (hc_Params s) h1) as (h2 & q & E2 & Hr2 & Hn2 & Hk2 & Hp2).
  destruct (alloc_opt_refers OAuth (hc_Authorization s) h2) as (h3 & r & E3 & Hr3 & Hn3 & Hk3 & Hp3).
  erewrite bind_ret by exact E1. erewrite bind_ret by exact E2. erewrite bind_ret by exact E3.
  eexists _, _. split; [reflexivity|]. exists p, q, r. cbn. split; [apply lookup_insert_eq|].
  split_and!; [apply (refers_keep _ h1)|apply (refers_keep _ h2)|apply (refers_keep _ h3)]; try done; intros l Hl; cbn.
  - specialize (Hp1 l Hl). rewrite lookup_insert_ne, Hk3, Hk2 by lia. done.
  - specialize (Hp2 l Hl). rewrite lookup_insert_ne, Hk3 by lia. done.
  - specialize (Hp3 l Hl). rewrite lookup_insert_ne by lia. done.
Qed.

Lemma json_ok_S n : forall v, json_ok n v -> json_ok (Datatypes.S n) v.
Proof.
  induction n as [|n IH]; intros v Hv; inversion Hv; subst; constructor; try done;
    eapply Forall_impl; try done; cbn; intros; by apply IH.
Qed.

Lemma marshals_more d n a : marshals n a -> marshals (d + n) a.
Proof. intros Ha. induction d as [|d (v & E & Hv)]; [done|]. exists v. split; [done|by apply json_ok_S]. Qed.

Lemma extract_IMap {S} `{!Config S} m :
  extract_config (S := S) (IMap m) =
  match ExtractProtocolConfig (S := S) (IMap m) with
  | Err e => mret (Err ("failed to extract " +:+ cf_label (S := S) +:+ " config: " +:+ e))
  | Ok s => l <-! cf_alloc s ; mret (Ok (Some l))
  end.
Proof. unfold extract_config. by destruct (String.eqb (type_of (IMap m)) (cf_type (S := S))). Qed.

(** C31 (roundtrip). For each of the three configurations: from a map that has
    the members of a configuration, in any order, and any others whose names are
    not those of fields, a new configuration with the same members is extracted,
    with its maps and structs behind pointers of its own.  Nil is extracted to a
    nil pointer and a pointer of the type to itself. *)
Theorem extract_roundtrip {S} `{!Config S, !ConfigLaws S} (c : S) extra m n h :
  m ≡ₚ struct_map cf_table c ++ extra -> NoDup (fst <$> m) ->
  Forall (fun kv => field_of (cf_table (S := S)) (fst kv) = None /\ plain n (snd kv)) extra ->
  Z.of_nat n + 2 <= maxNestingDepth ->
  (exists h' l c', extract_config (S := S) (IMap m) h = Ret h' (Ok (Some l)) /\ cf_holds h' l c' /\
     struct_map cf_table c' = struct_map cf_table c) /\
  extract_config (S := S) INil h = Ret h (Ok None) /\
  forall p, extract_config (S := S) (IValue (cf_type (S := S)) p) h = Ret h (Ok p).
Proof.
  intros Hm Hn Hx Hdepth. split; [|split; [done|]].
  2:{ intros p. unfold extract_config. cbn [type_of]. by rewrite String.eqb_refl. }
  destruct (cf_ok (S := S)) as (d & Hd & Ht).
  destruct (struct_stored d cf_table cf_zero n c extra (sort_by_key m) Ht) as (ms & c' & E & Hk & Hj & Hs & Hr);
    [by rewrite sort_by_key_perm|by rewrite sort_by_key_perm| |].
  { eapply Forall_impl; [exact Hx|]. intros kv [Hf Hp]. split; [done|]. by apply marshals_more, plain_marshals. }
  destruct (cf_alloc_holds c' h) as (h' & l & Ea & Hl).
  exists h', l, c'. split; [|done]. rewrite extract_IMap.
  assert (ExtractProtocolConfig (S := S) (IMap m) = Ok c') as ->.
  { unfold ExtractProtocolConfig. rewrite marshal_AMap, E, <- (str_app_nil_r (print (JObject ms))).
    rewrite (Decode_print (Datatypes.S (d + n))); [by rewrite Hs| |lia|done].
    apply ok_object; [|done]. by rewrite Hk, sort_by_key_perm. }
  by erewrite bind_ret by exact Ea.
Qed.

(** *** Values of the wrong kind *)

Lemma store_members_error {S} (table : list (json_field S)) ms : forall s saved,
  is_Some saved \/ (exists k v f, (k, v) ∈ ms /\ field_of table k = Some f /\ is_Some (jf_check f v)) ->
  is_Some (snd (store_members table ms s saved)).
Proof.
  induction ms as [|[k v] ms IH]; intros s saved [Hs|(k' & v' & f & Hin & Hf & He)]; cbn [store_members].
  - done.
  - by apply elem_of_nil in Hin.
  - destruct (field_of table k) as [g|]; apply IH; left; [by destruct Hs as [e ->]|done].
  - apply elem_of_cons in Hin as [[= -> ->]|Hin].
    + rewrite Hf. apply IH. left. by destruct saved.
    + destruct (field_of table k) as [g|]; apply IH; right; by exists k', v', f.
Qed.

Lemma marshal_members_elem l : forall ms k a v,
  marshal_members l = Ok ms -> (k, a) ∈ l -> marshal a = Ok v -> (k, v) ∈ ms.
Proof.
  induction l as [|[k' a'] l IH]; intros ms k a v E Hin Ha; [by apply elem_of_nil in Hin|].
  unfold marshal_members in E. cbn [map sequence named fst snd] in E. unfold named at 1 in E. cbn [fst snd] in E.
  destruct (marshal a') as [v'|] eqn:Ea; [|done].
  destruct (sequence _) as [ms'|] eqn:El in E; [|done]. injection E as <-.
  apply elem_of_cons in Hin as [[= -> ->]|Hin]; [|right; by apply (IH ms' k a v)].
  rewrite Ea in Ha. injection Ha as ->. by left.
Qed.

(** C32 (error). A map without floats in which a member that a field takes has
    a value of another kind than the field is an error, and nothing is
    allocated; so is a value of another dynamic type. *)
Theorem extract_wrong_kind {S} `{!Config S} m n h :
  NoDup (fst <$> m) -> Forall (fun kv => plain n (snd kv)) m -> Z.of_nat n + 1 <= maxNestingDepth ->
  (forall k a v f, (k, a) ∈ m -> field_of (cf_table (S := S)) k = Some f -> marshal a = Ok v -> is_Some (jf_check f v) ->
     exists e, extract_config (S := S) (IMap m) h = Ret h (Err e)) /\
  forall t p, t <> cf_type (S := S) ->
    extract_config (S := S) (IValue t p) h =
      Ret h (Err ("failed to extract " +:+ cf_label (S := S) +:+ " config: unsupported protocol config type: " +:+ t)).
Proof.
  intros Hn Hp Hdepth. split.
  - intros k a v f Hin Hf Ha Hc. rewrite extract_IMap.
    assert (Forall (fun kv => marshals n (snd kv)) (sort_by_key m)) as Hm.
    { rewrite sort_by_key_perm. eapply Forall_impl; [exact Hp|]. intros kv. apply plain_marshals. }
    destruct (marshals_members n _ Hm) as (ms & E & Hk & Hj).
    unfold ExtractProtocolConfig. rewrite marshal_AMap, E, <- (str_app_nil_r (print (JObject ms))).
    rewrite (Decode_print (Datatypes.S n)); [|apply ok_object; [by rewrite Hk, sort_by_key_perm|done]|lia|done].
    destruct (store_members_error (cf_table (S := S)) ms cf_zero None) as [e Ee].
    { right. exists k, v, f. split_and!; [|done|done]. eapply marshal_members_elem; [exact E| |exact Ha].
      by rewrite sort_by_key_perm. }
    destruct (store_members _ _ _ _) as [s r]. cbn [snd] in Ee. subst r. by eexists.
  - intros t p Ht. unfold extract_config. cbn [type_of]. by rewrite (proj2 (String.eqb_neq _ _) Ht).
Qed.

(** ** Examples *)

Definition ex_tunnel : SSHTunnel := mkSSHTunnel "true" "bastion" "22" "root" "secret".
Definition ex_config : jdbc_config :=
  mkJdbcConfig (mkJDBCProtocol "db" "3306" "mysql" "root" "pw" "app" "6000" "oneRow" "select 1" "" "" None)
    (Some ex_tunnel).

(** The members in reverse order, and another. *)
Definition ex_map : list (string * any) :=
  ("retries", AInt 3) :: reverse (struct_map JDBCProtocol_table ex_config).

Lemma extract_roundtrip_witness :
  exists h' l c', ExtractJDBCConfig (IMap ex_map) (mkHeap ∅ 0 0) = Ret h' (Ok (Some l)) /\ cf_holds h' l c' /\
    struct_map JDBCProtocol_table c' = struct_map JDBCProtocol_table ex_config.
Proof.
  refine (proj1 (extract_roundtrip ex_config [("retries", AInt 3)] ex_map 0 (mkHeap ∅ 0 0) _ _ _ _)).
  - unfold ex_map. rewrite reverse_Permutation. apply (Permutation_app_comm [_]).
  - apply (bool_decide_unpack _). vm_compute. exact I.
  - repeat constructor.
  - vm_compute. discriminate.
Defined.

Lemma extract_wrong_kind_witness :
  exists e, ExtractSSHConfig (IMap [("host", AString "a"); ("Port", AInt 22)]) (mkHeap ∅ 0 0)
    = Ret (mkHeap ∅ 0 0) (Err e).
Proof.
  eapply (proj1 (extract_wrong_kind [("host", AString "a"); ("Port", AInt 22)] 0 (mkHeap ∅ 0 0) _ _ _) "Port" (AInt 22)).
  - right. left.
  - reflexivity.
  - reflexivity.
  - by eexists.
  Unshelve.
  + apply (bool_decide_unpack _). vm_compute. exact I.
  + repeat constructor.
  + vm_compute. discriminate.
Defined.

(** Keys are matched up to case: with two of them the later in the order of
    bytes wins; null leaves a field as it is. *)
Example ex_folded_keys :
  outcome_val ((c <-! ExtractSSHConfig (IMap [("host", AString "lower"); ("HOST", AString "upper"); ("port", ANil)]) ;
               match c with Ok (Some l) => load as_ssh l | _ => mpanic "" end) (mkHeap ∅ 0 0))
  = Some (NewSSHProtocol "lower" "" []) /\
  outcome_val (ExtractSSHConfig (IMap [("port", AInt 22)]) (mkHeap ∅ 0 0)) =
    Some (Err "failed to extract SSH config: failed to unmarshal protocol config: json: cannot unmarshal number into Go struct field SSHProtocol.port of type string").
Proof. by vm_compute. Qed.
