(* ===== verification/Console.v ===== *)
(** * What the program prints and counts

    Models internal/banner/embed.go, internal/cmd/version/version.go and
    internal/job/collect/metrics/hertzbeat_metrics_collector.go.  The standard
    output is a string that grows.  Of text/template the actions that print a
    field are modelled; the YAML encoder and the counters of the Prometheus
    library are parameters. *)

From Stdlib Require Import Ascii String.
From S2P Require Import Prelude GoStrings JobTypes Json.

Open Scope string_scope.
Open Scope list_scope.
Open Scope Z_scope.
Open Scope go_scope.

Definition ESC (code : string) : string := String (ascii_of_N 27) ("[" +:+ code).

(** [fmt.Print] and a write to the standard output. *)
Definition fmt_Print (s : string) : M string unit := mmodify (fun out => out +:+ s).

(** ** The banner *)

Definition ColorReset : string := ESC "0m".
Definition ColorPurple : string := ESC "35m".

Record bannerVars := mkBannerVars { bv_CollectorName : string; bv_ServerPort : string; bv_Pid : string }.

(** *** Templates *)

Inductive piece := PText (s : string) | PField (name : string).

(** What follows the opening of an action. *)
Definition parse_action (s : string) : option (list piece) :=
  match Index s "}}" with
  | None => None
  | Some i =>
      match TrimSpace (str_take i s) with
      | String "." name => if String.eqb name "" then None else Some [PField name; PText (str_drop (i + 2) s)]
      | _ => None
      end
  end.

Fixpoint parse_actions (l : list string) : option (list piece) :=
  match l with
  | [] => Some []
  | s :: l =>
      match parse_action s, parse_actions l with
      | Some p, Some q => Some (p ++ q)
      | _, _ => None
      end
  end.

Definition parse_template (text : string) : res (list piece) :=
  match Split text "{{" with
  | [] => Ok []
  | first :: rest =>
      match parse_actions rest with
      | Some l => Ok (PText first :: l)
      | None => Err "template: banner: unexpected action"
      end
  end.

Definition banner_field (vars : bannerVars) (name : string) : option string :=
  if String.eqb name "CollectorName" then Some (bv_CollectorName vars)
  else if String.eqb name "ServerPort" then Some (bv_ServerPort vars)
  else if String.eqb name "Pid" then Some (bv_Pid vars)
  else None.

(** [Execute]: what comes before an error has been written. *)
Fixpoint Execute (l : list piece) (vars : bannerVars) : M string (option error) :=
  match l with
  | [] => mret None
  | PText s :: l => fmt_Print s ;! Execute l vars
  | PField name :: l =>
      match banner_field vars name with
      | Some v => fmt_Print v ;! Execute l vars
      | None => mret (Some ("template: banner: can't evaluate field " +:+ name +:+ " in type banner.bannerVars"))
      end
  end.

(** [PrintBanner]; [ReadFile] is that of the embedded files. *)
Definition PrintBanner (ReadFile : string -> res string) (pid : Z) (appName port : string)
    : M string (option error) :=
  match ReadFile "banner.txt" with
  | Err e => mret (Some e)
  | Ok data =>
      match parse_template data with
      | Err e => mret (Some e)
      | Ok tmpl =>
          let vars := mkBannerVars appName port (Itoa pid) in
          fmt_Print ColorPurple ;!
          err <-! Execute tmpl vars ;
          fmt_Print ColorReset ;!
          mret err
      end
  end.

(** *** The colour is reset whatever happens *)

Lemma Execute_writes l vars : forall out, exists text err, Execute l vars out = Ret (out +:+ text) err.
Proof.
  induction l as [|[s|name] l IH]; intros out; cbn [Execute].
  - exists "", None. by rewrite str_app_nil_r.
  - destruct (IH (out +:+ s)) as (text & err & E). exists (s +:+ text), err.
    erewrite bind_ret by reflexivity. by rewrite E, str_app_assoc.
  - destruct (banner_field vars name) as [v|].
    + destruct (IH (out +:+ v)) as (text & err & E). exists (v +:+ text), err.
      erewrite bind_ret by reflexivity. by rewrite E, str_app_assoc.
    + exists "". eexists. by rewrite str_app_nil_r.
Qed.

(** The banner is not printed, with an error, or printed in purple, after which
    the colour is reset, also after an error. *)
Lemma PrintBanner_resets ReadFile pid appName port out :
  exists out' err, PrintBanner ReadFile pid appName port out = Ret out' err /\
    ((out' = out /\ err <> None) \/ exists text, out' = out +:+ ColorPurple +:+ text +:+ ColorReset).
Proof.
  unfold PrintBanner. destruct (ReadFile "banner.txt") as [data|e]; [|eexists _, _; split; [done|by left]].
  destruct (parse_template data) as [tmpl|e]; [|eexists _, _; split; [done|by left]].
  destruct (Execute_writes tmpl (mkBannerVars appName port (Itoa pid)) (out +:+ ColorPurple)) as (text & err & E).
  eexists _, err. split.
  - erewrite bind_ret by reflexivity. erewrite bind_ret by exact E. by erewrite bind_ret by reflexivity.
  - right. exists text. by rewrite !str_app_assoc.
Qed.

(** banner.txt: its last line but one. *)
Definition banner_line : string :=
  "         Name: {{ .CollectorName }} Port: {{ .ServerPort }} Pid: {{ .Pid }}" +:+ newline.

Example ex_banner :
  PrintBanner (fun _ => Ok banner_line) 4711 "collector" "10.0.0.1" "" =
  Ret (ColorPurple +:+ "         Name: collector Port: 10.0.0.1 Pid: 4711" +:+ newline +:+ ColorReset) None /\
  PrintBanner (fun _ => Ok "{{ .Name }}") 4711 "collector" "1157" "" =
  Ret (ColorPurple +:+ ColorReset) (Some "template: banner: can't evaluate field Name in type banner.bannerVars").
Proof. vm_compute. by split. Qed.

(** ** The version *)

Record Info := mkInfo { in_HCGVersion : string; in_GitCommitID : string; in_GolangVersion : string }.

(** [Get], given the variables that the build sets and [runtime.Version]. *)
Definition Get (hcgVersion gitCommitID runtimeVersion : string) : Info :=
  mkInfo hcgVersion gitCommitID runtimeVersion.

(** [json.MarshalIndent] of the struct. *)
Definition info_json (v : Info) : string :=
  "{" +:+ newline +:+
  "  " +:+ print_string "envoyGatewayVersion" +:+ ": " +:+ print_string (in_HCGVersion v) +:+ "," +:+ newline +:+
  "  " +:+ print_string "gitCommitID" +:+ ": " +:+ print_string (in_GitCommitID v) +:+ "," +:+ newline +:+
  "  " +:+ print_string "golangVersion" +:+ ": " +:+ print_string (in_GolangVersion v) +:+ newline +:+ "}".

(** [Print], over the YAML encoder; an error of the encoder prints nothing. *)
Definition Print (yaml : Info -> res string) (v : Info) (format : string) : M string (option error) :=
  (if String.eqb format "json" then fmt_Print (info_json v +:+ newline)
   else if String.eqb format "yaml" then
     match yaml v with Ok marshalled => fmt_Print (marshalled +:+ newline) | Err _ => mret tt end
   else
     fmt_Print ("HERTZBEAT_COLECTOR_GO_VERSION: " +:+ in_HCGVersion v +:+ newline) ;!
     fmt_Print ("GIT_COMMIT_ID: " +:+ in_GitCommitID v +:+ newline) ;!
     fmt_Print ("GOLANG_VERSION: " +:+ in_GolangVersion v +:+ newline)) ;!
  mret None.

Example ex_version :
  Decode (outcome_state (Print (fun _ => Err "") (Get "v1" "abc" "go1.24") "json" "")) =
    Some (JObject [("envoyGatewayVersion", JString "v1"); ("gitCommitID", JString "abc");
                   ("golangVersion", JString "go1.24")]).
Proof. vm_compute. reflexivity. Qed.

(** ** The counters *)

Inductive buckets := DefBuckets | ExponentialBuckets (start factor : Z) (count : nat).
Inductive metricKind := CounterVec | HistogramVec (b : buckets) | Gauge.

(** The options of a metric and the labels of its values. *)
Record metricOpts := mkMetricOpts {
  mo_kind : metricKind;
  mo_Namespace : string;
  mo_Subsystem : string;
  mo_Name : string;
  mo_Help : string;
  mo_labels : list string;
}.

Definition Namespace : string := "hertzbeat".
Definition Subsystem : string := "collector".

Definition JobExecutionTotal : metricOpts :=
  mkMetricOpts CounterVec Namespace Subsystem "job_execution_total" "Total number of job executions"
    ["status"; "type"].
Definition JobExecutionDuration : metricOpts :=
  mkMetricOpts (HistogramVec DefBuckets) Namespace Subsystem "job_execution_duration_seconds"
    "Duration of job executions in seconds" ["type"].
Definition CollectorUp : metricOpts :=
  mkMetricOpts Gauge Namespace Subsystem "up" "1 if the collector is up, 0 otherwise" [].

Definition labels_of_collection : list string :=
  ["status"; "monitor_type"; "monitor_id"; "monitor_name"; "monitor_target"].

Definition collectTotal : metricOpts :=
  mkMetricOpts CounterVec "" "" "hertzbeat_collect_total"
    "The total number of collection tasks executed" labels_of_collection.
Definition collectDuration : metricOpts :=
  mkMetricOpts (HistogramVec (ExponentialBuckets 10 2 10)) "" "" "hertzbeat_collect_duration"
    "The duration of collection task executions" labels_of_collection.

Section Registering.
(** The registry of the Prometheus library, a setting of a gauge, and
    [MustRegister], which panics where a metric cannot be registered. *)
Context {R : Type} (Set_gauge : metricOpts -> Z -> R -> R) (MustRegister : list metricOpts -> M R unit).

(** [init] of the package metrics. *)
Definition metrics_init : M R unit :=
  MustRegister [JobExecutionTotal] ;!
  MustRegister [JobExecutionDuration] ;!
  MustRegister [CollectorUp] ;!
  mmodify (Set_gauge CollectorUp 1).

(** [sync.Once.Do], on the flag of the value. *)
Definition Once_Do (done : bool) (f : M R unit) : M R bool :=
  if done then mret true else f ;! mret true.

(** [NewHertzBeatMetricsCollector]: the flag is a field of the new collector. *)
Definition NewHertzBeatMetricsCollector : M R (metricOpts * metricOpts) :=
  Once_Do false (MustRegister [collectTotal; collectDuration]) ;!
  mret (collectTotal, collectDuration).

(** What has been registered cannot be registered again. *)
Hypothesis registered_once : forall l r r', MustRegister l r = Ret r' tt -> l <> [] ->
  exists w r'', MustRegister l r' = Panic r'' w.

(** The flag guards nothing: a second collector panics. *)
Lemma second_collector_panics r r' c :
  NewHertzBeatMetricsCollector r = Ret r' c ->
  exists w r'', NewHertzBeatMetricsCollector r' = Panic r'' w.
Proof.
  unfold NewHertzBeatMetricsCollector, Once_Do, mbind'.
  destruct (MustRegister _ r) as [r1 []|] eqn:E; [|done]. intros [= -> _].
  destruct (registered_once _ _ _ E) as (w & r'' & ->); [done|]. by exists w, r''.
Qed.

End Registering.

(** A registry of names, which satisfies what is assumed. *)
Definition register_names (l : list metricOpts) : M (list string) unit :=
  fun names =>
    if existsb (fun m => existsb (String.eqb (mo_Name m)) names) l
    then Panic names "duplicate metrics collector registration attempted"
    else Ret (names ++ (mo_Name <$> l)) tt.

Lemma register_names_once l names names' :
  register_names l names = Ret names' tt -> l <> [] -> exists w r, register_names l names' = Panic r w.
Proof.
  unfold register_names. destruct (existsb _ l); [done|]. intros [= <-] Hl.
  destruct l as [|m l]; [done|]. cbn [existsb]. rewrite fmap_cons, existsb_app. cbn [existsb].
  rewrite String.eqb_refl, orb_true_r. by eexists _, _.
Qed.

Example ex_second_collector :
  exists w r, (NewHertzBeatMetricsCollector register_names ;! NewHertzBeatMetricsCollector register_names) [] =
    Panic r w.
Proof. vm_compute. by do 2 eexists. Qed.

(** ** The counters of collections *)

(** [Job] of the package; a nil map of metadata is an empty one. *)
Record CounterJob := mkCounterJob {
  cj_App : string;
  cj_MonitorID : Z;
  cj_Metadata : gmap string string;
}.

Section Counters.
(** [With(labels).Inc()] of the counter and [With(labels).Observe] of the
    histogram, of a number of milliseconds. *)
Context {V : Type} (Inc : list (string * string) -> V -> V) (Observe : list (string * string) -> Z -> V -> V).

Definition collect_labels (job : CounterJob) (status : string) : list (string * string) :=
  [("status", status); ("monitor_type", cj_App job); ("monitor_id", Itoa (cj_MonitorID job));
   ("monitor_name", default "unknown" (cj_Metadata job !! "instancename"));
   ("monitor_target", default "unknown" (cj_Metadata job !! "instancehost"))].

Definition RecordCollectMetrics (job : option CounterJob) (durationMillis : Z) (status : string) : M V unit :=
  match job with
  | None => mret tt
  | Some job =>
      let labels := collect_labels job status in
      mmodify (Inc labels) ;! mmodify (Observe labels durationMillis)
  end.

End Counters.
