(* ===== verification/Md5.v ===== *)
(** * MD5

    [md5.Sum] of crypto/md5 on byte strings, and [hex.EncodeToString], for the
    digest authentication of the HTTP collector. *)

From Stdlib Require Import Ascii String.
From S2P Require Import Prelude GoStrings.

Open Scope string_scope.
Open Scope list_scope.
Open Scope N_scope.

(** ** Words of 32 bits *)

Definition word_add (a b : N) : N := (a + b) mod 2 ^ 32.
Definition word_not (a : N) : N := N.lxor a (2 ^ 32 - 1).
Definition rotate_left (a s : N) : N := N.lor (N.shiftl a s mod 2 ^ 32) (N.shiftr a (32 - s)).

Definition md5_table : list N :=
  [0xd76aa478; 0xe8c7b756; 0x242070db; 0xc1bdceee; 0xf57c0faf; 0x4787c62a; 0xa8304613; 0xfd469501;
   0x698098d8; 0x8b44f7af; 0xffff5bb1; 0x895cd7be; 0x6b901122; 0xfd987193; 0xa679438e; 0x49b40821;
   0xf61e2562; 0xc040b340; 0x265e5a51; 0xe9b6c7aa; 0xd62f105d; 0x02441453; 0xd8a1e681; 0xe7d3fbc8;
   0x21e1cde6; 0xc33707d6; 0xf4d50d87; 0x455a14ed; 0xa9e3e905; 0xfcefa3f8; 0x676f02d9; 0x8d2a4c8a;
   0xfffa3942; 0x8771f681; 0x6d9d6122; 0xfde5380c; 0xa4beea44; 0x4bdecfa9; 0xf6bb4b60; 0xbebfbc70;
   0x289b7ec6; 0xeaa127fa; 0xd4ef3085; 0x04881d05; 0xd9d4d039; 0xe6db99e5; 0x1fa27cf8; 0xc4ac5665;
   0xf4292244; 0x432aff97; 0xab9423a7; 0xfc93a039; 0x655b59c3; 0x8f0ccc92; 0xffeff47d; 0x85845dd1;
   0x6fa87e4f; 0xfe2ce6e0; 0xa3014314; 0x4e0811a1; 0xf7537e82; 0xbd3af235; 0x2ad7d2bb; 0xeb86d391].

Definition md5_shifts : list (list N) :=
  [[7; 12; 17; 22]; [5; 9; 14; 20]; [4; 11; 16; 23]; [6; 10; 15; 21]].

(** ** Blocks *)

Fixpoint bytes_of (s : string) : list N :=
  match s with EmptyString => [] | String c s => N_of_ascii c :: bytes_of s end.

(** The [n] bytes of a number, the least significant first. *)
Fixpoint little_endian (n : nat) (x : N) : list N :=
  match n with O => [] | S n => x mod 256 :: little_endian n (x / 256) end.

Definition md5_pad (m : list N) : list N :=
  let zeros := ((119 - N.of_nat (length m) mod 64) mod 64)%N in
  m ++ [128] ++ repeat 0 (N.to_nat zeros) ++ little_endian 8 (8 * N.of_nat (length m)).

Fixpoint words_of (l : list N) : list N :=
  match l with
  | a :: b :: c :: d :: l => a + 256 * (b + 256 * (c + 256 * d)) :: words_of l
  | _ => []
  end.

Definition md5_state : Type := N * N * N * N.

Definition md5_round (block : list N) (st : md5_state) (i : nat) : md5_state :=
  let '(a, b, c, d) := st in
  let '(f, g) :=
    match (i / 16)%nat with
    | 0%nat => (N.lor (N.land b c) (N.land (word_not b) d), i)
    | 1%nat => (N.lor (N.land d b) (N.land (word_not d) c), (5 * i + 1) mod 16)%nat
    | 2%nat => (N.lxor b (N.lxor c d), (3 * i + 5) mod 16)%nat
    | _ => (N.lxor c (N.lor b (word_not d)), (7 * i) mod 16)%nat
    end in
  let shift := nth (i mod 4)%nat (nth (i / 16)%nat md5_shifts []) 0 in
  let f := word_add f (word_add a (word_add (nth i md5_table 0) (nth g block 0))) in
  (d, word_add b (rotate_left f shift), b, c).

Definition md5_block (st : md5_state) (block : list N) : md5_state :=
  let '(a, b, c, d) := st in
  let '(a', b', c', d') := foldl (md5_round block) st (seq 0 64) in
  (word_add a a', word_add b b', word_add c c', word_add d d').

(** The words of a message, 16 at a time. *)
Fixpoint md5_blocks (n : nat) (words : list N) (st : md5_state) : md5_state :=
  match n with
  | O => st
  | S n => md5_blocks n (drop 16 words) (md5_block st (take 16 words))
  end.

Definition md5_Sum (s : string) : list N :=
  let words := words_of (md5_pad (bytes_of s)) in
  let '(a, b, c, d) :=
    md5_blocks (length words / 16) words (0x67452301, 0xefcdab89, 0x98badcfe, 0x10325476) in
  little_endian 4 a ++ little_endian 4 b ++ little_endian 4 c ++ little_endian 4 d.

(** [hex.EncodeToString]. *)
Definition EncodeToString (l : list N) : string :=
  foldr (fun x s => String (hex_char (x / 16)) (String (hex_char (x mod 16)) s)) "" l.

(** The test vectors of RFC 1321. *)
Example md5_vectors :
  map (fun s => EncodeToString (md5_Sum s))
    [""; "abc"; "12345678901234567890123456789012345678901234567890123456789012345678901234567890"] =
  ["d41d8cd98f00b204e9800998ecf8427e"; "900150983cd24fb0d6963f7d28e17f72";
   "57edf4a22be3c955ac49da2e2107b67a"].
Proof. vm_compute. reflexivity. Qed.
