(* ===== verification/Http.v ===== *)
(** * The collector for HTTP

    Models protocol/basic/http/http_collector.go.  The HTTP client and the
    parser of Prometheus texts are parameters, as are parsed URLs; the requests
    that have been handed to [Do] of the client are the state.  [Do] itself
    follows up to ten redirects, with requests of its own (the client sets no
    CheckRedirect), and gives the answer to the last of them.  What the source uses of net/http and
    net/url on headers and queries is written out. *)

From Stdlib Require Import Ascii String.
From S2P Require Import Prelude GoStrings GoFloat JobTypes Crypto Params Calc Collect Ssh JdbcUrl Jdbc Json Md5.

Open Scope string_scope.
Open Scope list_scope.
Open Scope Z_scope.
Open Scope go_scope.

Definition ParseTypeDefault : string := "default".
Definition ParseTypeJSONPath : string := "jsonPath".
Definition ParseTypePrometheus : string := "prometheus".
Definition ParseTypeWebsite : string := "website".
Definition ParseTypeHeader : string := "header".
Definition AuthTypeBasic : string := "Basic Auth".
Definition AuthTypeBearer : string := "Bearer Token".
Definition AuthTypeDigest : string := "Digest Auth".
Definition StatusCode : string := "statusCode".
Definition StatusUnauthorized : Z := 401.

(** ** Headers *)

Definition is_token (c : ascii) : bool :=
  is_lower c || is_upper c || is_digit c || Contains "!#$%&'*+-.^_`|~" (String c "").

(** [textproto.CanonicalMIMEHeaderKey]. *)
Fixpoint capitalize (upper : bool) (s : string) : string :=
  match s with
  | EmptyString => EmptyString
  | String c s =>
      String (if upper then upper_ascii c else lower_ascii c) (capitalize (Ascii.eqb c "-") s)
  end.

Definition CanonicalHeaderKey (s : string) : string :=
  if str_all is_token s then capitalize true s else s.

Definition Header : Type := gmap string (list string).

Definition header_Set (h : Header) (key value : string) : Header := <[CanonicalHeaderKey key := [value]]> h.

Definition header_Get (h : Header) (key : string) : string :=
  match h !! CanonicalHeaderKey key with Some (v :: _) => v | _ => "" end.

(** ** Queries *)

Definition upper_hex (d : N) : ascii := upper_ascii (hex_char d).

(** [url.QueryEscape]. *)
Fixpoint QueryEscape (s : string) : string :=
  match s with
  | EmptyString => EmptyString
  | String c s =>
      if is_lower c || is_upper c || is_digit c || Contains "-_.~" (String c "") then String c (QueryEscape s)
      else if Ascii.eqb c " " then String "+" (QueryEscape s)
      else String "%" (String (upper_hex (N_of_ascii c / 16)) (String (upper_hex (N_of_ascii c mod 16))
             (QueryEscape s)))
  end.

Definition Values : Type := gmap string (list string).

Definition values_Add (q : Values) (key value : string) : Values :=
  <[key := default [] (q !! key) ++ [value]]> q.

(** [URL.Query]: a part with a semicolon or that cannot be decoded is left out. *)
Definition query_part (q : Values) (part : string) : Values :=
  if Contains part ";" || String.eqb part "" then q
  else
    let '(key, value) := match SplitN2 part "=" with [k; v] => (k, v) | _ => (part, "") end in
    match QueryUnescape key, QueryUnescape value with
    | Some key, Some value => values_Add q key value
    | _, _ => q
    end.

Definition ParseQuery (query : string) : Values := foldl query_part ∅ (Split query "&").

(** [Values.Encode]: sorted by key. *)
Definition values_Encode (q : Values) : string :=
  join_with "&" (concat (map (fun '(k, vs) => map (fun v => QueryEscape k +:+ "=" +:+ QueryEscape v) vs)
    (sort_by_key (map_to_list q)))).

(** ** JSON documents *)

(** The key and the index of a part of a path; a part that does not end in an
    index has the index -1. *)
Definition path_part (part : string) : string * Z :=
  match Index part "[" with
  | Some i =>
      if HasSuffix part "]"
      then (str_take i part,
            default (-1) (Atoi (str_take (String.length part - 1 - (i + 1)) (str_drop (i + 1) part))))
      else (part, -1)
  | None => (part, -1)
  end.

Definition select_key (key : string) (v : json) : json :=
  if String.eqb key "" then v
  else match v with JObject ms => default JNull (member key ms) | _ => JNull end.

Definition select_index (idx : Z) (v : json) : json :=
  if -1 <? idx
  then match v with JArray l => default JNull (l !! Z.to_nat idx) | _ => JNull end
  else v.

(** [navigateJson]; nil, which is returned where the path leads nowhere, is
    [JNull], and stays nil. *)
Definition navigate_part (current : json) (part : string) : json :=
  match current with
  | JNull => JNull
  | _ => let '(key, idx) := path_part part in select_index idx (select_key key current)
  end.

Definition navigateJson (data : json) (path : string) : json :=
  let path := TrimPrefix path "$." in
  if String.eqb path "" then data else foldl navigate_part data (Split path ".").

Definition is_common (field : string) : bool := EqualFold field ResponseTime || EqualFold field StatusCode.

Definition json_column (item : json) (field : string) : string :=
  if is_common field then NullValue
  else
    let val :=
      match item with
      | JObject ms => match member field ms with Some v => v | None => navigateJson item field end
      | _ => JNull
      end in
    match val with JNull => NullValue | v => show_json v end.

(** [extractRow]. *)
Definition extractRow (fields : list string) (item : json) : ValueRow := mkValueRow (json_column item <$> fields).

(** The rows of [parseJsonPath]. *)
Definition json_rows (body parseScript : string) (fields : list string) : list ValueRow :=
  match Decode body with
  | None => []
  | Some data =>
      let root := if negb (String.eqb parseScript "") && negb (String.eqb parseScript "$")
                  then navigateJson data parseScript else data in
      match root with
      | JNull => []
      | JArray arr => extractRow fields <$> arr
      | root => [extractRow fields root]
      end
  end.

(** ** Other formats *)

(** A metric of a Prometheus text: its labels and its values, if any. *)
Record prom_metric := mkProm {
  pm_Label : list (string * string);
  pm_Gauge : option float64;
  pm_Counter : option float64;
  pm_Untyped : option float64;
}.

Definition prom_value (m : prom_metric) : string :=
  match pm_Gauge m, pm_Counter m, pm_Untyped m with
  | Some v, _, _ | None, Some v, _ | None, None, Some v => FormatFloat_fp 6 v
  | None, None, None => ""
  end.

Definition prom_labels (m : prom_metric) : gmap string string :=
  foldl (fun l x => <[fst x := snd x]> l) ∅ (pm_Label m).

(** The column of a field, and whether it makes the row one to keep. *)
Definition prom_column (m : prom_metric) (field : string) : string * bool :=
  if String.eqb field NullValue then ("", false)
  else if String.eqb field "value" || String.eqb field "prom_value" then (prom_value m, true)
  else match prom_labels m !! field with
       | Some val => (val, true)
       | None => (NullValue, false)
       end.

(** The rows of [parsePrometheus], for the families in the order of the range
    over them. *)
Definition prom_rows (families : list (list prom_metric)) (fields : list string) : list ValueRow :=
  omap (fun m =>
    let columns := prom_column m <$> fields in
    if existsb snd columns then Some (mkValueRow (fst <$> columns)) else None) (concat families).

(** The row of [parseWebsite]. *)
Definition website_row (body keyword : string) (statusCode responseTime : Z) (fields : list string) : ValueRow :=
  let keywordCount := if String.eqb keyword "" then O else Count body keyword in
  mkValueRow ((fun field =>
    let lower := ToLower field in
    if String.eqb lower (ToLower StatusCode) then Itoa statusCode
    else if String.eqb lower (ToLower ResponseTime) then Itoa responseTime
    else if String.eqb lower "keyword" then Itoa (Z.of_nat keywordCount)
    else NullValue) <$> fields).

(** The row of [parseHeader]. *)
Definition header_row (header : Header) (fields : list string) : ValueRow :=
  mkValueRow ((fun field =>
    let val := header_Get header field in if String.eqb val "" then NullValue else val) <$> fields).

Definition common_column (responseTime statusCode : Z) (field column : string) : string :=
  if EqualFold field StatusCode then Itoa statusCode
  else if EqualFold field ResponseTime then Itoa responseTime
  else column.

(** [fillCommonFields], on rows with a column for every field, as those above
    are. *)
Definition fillCommonFields (r : CollectRepMetricsData) (fields : list string) (responseTime statusCode : Z)
    : CollectRepMetricsData :=
  let r := match rep_Fields r with [] => set_fields r (alias_field <$> fields) | _ => r end in
  let r := match rep_Values r with
           | [] => set_values r [mkValueRow ((fun _ => NullValue) <$> fields)]
           | _ => r
           end in
  set_values r ((fun row => mkValueRow (imap (fun j column =>
      match fields !! j with
      | Some field => common_column responseTime statusCode field column
      | None => column
      end) (vr_Columns row))) <$> rep_Values r).

(** [createSuccessResponse], with the rows that are appended to it. *)
Definition success_response (now : Z) (m : Metrics) (rows : list ValueRow) : CollectRepMetricsData :=
  response now m CollectSuccess "success" [] rows.

(** [getTimeout]. *)
Definition http_getTimeout (timeoutStr : string) : Z :=
  if String.eqb timeoutStr "" then 10 * Second
  else match Atoi timeoutStr with
       | Some val => wrap64 (val * Millisecond)
       | None => 10 * Second
       end.

(** ** Digest authentication *)

Definition auth_entry (pair : string) : option (string * string) :=
  match SplitN2 (TrimSpace pair) "=" with
  | [key; val] => Some (TrimSpace key, TrimChar dquote (TrimSpace val))
  | _ => None
  end.

(** [parseAuthHeader]. *)
Definition parseAuthHeader (header : string) : gmap string string :=
  foldl (fun m pair => match auth_entry pair with Some (k, v) => <[k := v]> m | None => m end)
    ∅ (Split (TrimPrefix header "Digest ") ",").

(** [md5Hex]. *)
Definition md5Hex (s : string) : string := EncodeToString (md5_Sum s).

Definition quoted (s : string) : string := String dquote (s +:+ String dquote "").

(** The value of the header Authorization that [handleDigestAuth] computes. *)
Definition digest_value (params : gmap string string) (auth : Authorization) (method uri cnonce : string)
    : res string :=
  let param k := default "" (params !! k) in
  let realm := param "realm" in
  let nonce := param "nonce" in
  let qop := param "qop" in
  let algorithm := if String.eqb (param "algorithm") "" then "MD5" else param "algorithm" in
  if String.eqb realm "" || String.eqb nonce "" then Err "missing realm or nonce in digest header"
  else
    let ha1 := md5Hex (auth_DigestAuthUsername auth +:+ ":" +:+ realm +:+ ":" +:+ auth_DigestAuthPassword auth) in
    let ha2 := md5Hex (method +:+ ":" +:+ uri) in
    let nc := "00000001" in
    if negb (String.eqb qop "") && negb (Contains qop "auth") then Err ("unsupported qop: " +:+ qop)
    else
      let response :=
        if String.eqb qop "" then md5Hex (ha1 +:+ ":" +:+ nonce +:+ ":" +:+ ha2)
        else md5Hex (ha1 +:+ ":" +:+ nonce +:+ ":" +:+ nc +:+ ":" +:+ cnonce +:+ ":" +:+ "auth" +:+ ":" +:+ ha2) in
      Ok ("Digest username=" +:+ quoted (auth_DigestAuthUsername auth) +:+ ", realm=" +:+ quoted realm +:+
          ", nonce=" +:+ quoted nonce +:+ ", uri=" +:+ quoted uri +:+ ", response=" +:+ quoted response +:+
          ", algorithm=" +:+ quoted algorithm +:+
          (if String.eqb (param "opaque") "" then "" else ", opaque=" +:+ quoted (param "opaque")) +:+
          (if String.eqb qop "" then "" else ", qop=auth, nc=" +:+ nc +:+ ", cnonce=" +:+ quoted cnonce)).

(** [generateCnonce] from the random bytes that it reads. *)
Definition generateCnonce (random : list N) : string := EncodeToString random.

(** ** The collection *)

(** [PreCheck]. *)
Definition http_PreCheck (p : option mptr) : M heap (option error) :=
  match p with
  | None => mret (Some "http configuration is missing")
  | Some p =>
      m <-! load_metric p ;
      mret match m_HTTP m with None => Some "http configuration is missing" | Some _ => None end
  end.

Section Http.
(** Parsed URLs: [url.Parse] as [http.NewRequest] calls it, the query of a URL,
    which can be replaced, and its two forms as a string. *)
Context {URL : Type} (url_Parse : string -> res URL)
        (RawQuery : URL -> string) (set_RawQuery : URL -> string -> URL)
        (RequestURI url_String : URL -> string).

Record request := mkRequest {
  req_Method : string;
  req_URL : URL;
  req_Header : Header;
  req_Body : option string;
}.

(** A response; the body is what [io.ReadAll] returns. *)
Record http_response := mkHttpResponse {
  resp_StatusCode : Z;
  resp_Header : Header;
  resp_Body : res string;
}.

(** [Do] of a client with a timeout: what its n-th call gives, for a request,
    after the redirects. *)
Context (client_Do : Z -> nat -> request -> res http_response).
(** The orders of the ranges over the headers and the parameters of a
    configuration. *)
Context (header_order params_order : gmap string string -> list (string * string)).
(** [TextToMetricFamilies], with the order of the range over the families. *)
Context (TextToMetricFamilies : string -> res (list (list prom_metric))).
(** The bytes that [rand.Reader] delivers. *)
Context (random : list N).

(** What a configuration refers to. *)
Record http_config := mkHttpConfig {
  hc_Protocol : HTTPProtocol;
  hc_Headers : gmap string string;
  hc_Params : gmap string string;
  hc_Authorization : option Authorization;
}.

(** [http.NewRequest]. *)
Definition NewRequest (method url : string) (body : option string) : res request :=
  let method := if String.eqb method "" then "GET" else method in
  if negb (str_all is_token method) then Err ("net/http: invalid method " +:+ method)
  else
    match url_Parse url with
    | Err e => Err e
    | Ok u => Ok (mkRequest method u ∅ body)
    end.

Definition set_header (key value : string) (r : request) : request :=
  mkRequest (req_Method r) (req_URL r) (header_Set (req_Header r) key value) (req_Body r).

(** [SetBasicAuth] and the bearer token. *)
Definition authorize (auth : option Authorization) (r : request) : request :=
  match auth with
  | None => r
  | Some a =>
      if String.eqb (auth_Type a) "" || EqualFold (auth_Type a) AuthTypeBasic then
        if negb (String.eqb (auth_BasicAuthUsername a) "") && negb (String.eqb (auth_BasicAuthPassword a) "")
        then set_header "Authorization" ("Basic " +:+ b64_encode (list_ascii_of_string
               (auth_BasicAuthUsername a +:+ ":" +:+ auth_BasicAuthPassword a))) r
        else r
      else if EqualFold (auth_Type a) AuthTypeBearer then
        if negb (String.eqb (auth_BearerTokenToken a) "")
        then set_header "Authorization" ("Bearer " +:+ auth_BearerTokenToken a) r
        else r
      else r
  end.

(** The parameters of the configuration in the query of a URL. *)
Definition add_params (params : gmap string string) (u : URL) : URL :=
  if bool_decide (params = ∅) then u
  else set_RawQuery u (values_Encode
         (foldl (fun q x => values_Add q (fst x) (snd x)) (ParseQuery (RawQuery u)) (params_order params))).

(** [createRequest]. *)
Definition createRequest (config : http_config) (targetURL : string) : res request :=
  let p := hc_Protocol config in
  let method := if String.eqb (ToUpper (http_Method p)) "" then "GET" else ToUpper (http_Method p) in
  let body := if String.eqb (http_Body p) "" then None else Some (http_Body p) in
  match NewRequest method targetURL body with
  | Err e => Err e
  | Ok req =>
      let req := foldl (fun r x => set_header (fst x) (snd x) r) req (header_order (hc_Headers config)) in
      let req := authorize (hc_Authorization config) req in
      Ok (mkRequest (req_Method req) (add_params (hc_Params config) (req_URL req)) (req_Header req) (req_Body req))
  end.

(** A call of [Do]: the request is handed to the client. *)
Definition Do (timeout : Z) (req : request) : M (list request) (res http_response) :=
  fun sent => Ret (sent ++ [req]) (client_Do timeout (length sent) req).

(** [handleDigestAuth]; the error of the second [NewRequest] is dropped, and
    its nil result panics at the first access. *)
Definition handleDigestAuth (originalReq : request) (authHeader : string) (auth : Authorization)
    : M (list request) (res request) :=
  match digest_value (parseAuthHeader authHeader) auth (req_Method originalReq)
          (RequestURI (req_URL originalReq)) (generateCnonce random) with
  | Err e => mret (Err e)
  | Ok authVal =>
      match NewRequest (req_Method originalReq) (url_String (req_URL originalReq)) (req_Body originalReq) with
      | Err _ => mpanic "nil pointer dereference"
      | Ok newReq =>
          mret (Ok (set_header "Authorization" authVal
            (mkRequest (req_Method newReq) (req_URL newReq) (req_Header originalReq) (req_Body newReq))))
      end
  end.

Definition close_body (r : http_response) : http_response :=
  mkHttpResponse (resp_StatusCode r) (resp_Header r) (Err "http: read on closed response body").

(** Step 4 of [Collect]: a call of [Do], and for a digest challenge another one.
    The body of the challenge is closed. *)
Definition execute (timeout : Z) (auth : option Authorization) (req : request)
    : M (list request) (res http_response) :=
  r <-! Do timeout req ;
  match r, auth with
  | Ok resp, Some a =>
      if (resp_StatusCode resp =? StatusUnauthorized) && EqualFold (auth_Type a) AuthTypeDigest then
        let authHeader := header_Get (resp_Header resp) "WWW-Authenticate" in
        if String.eqb authHeader "" then mret (Ok (close_body resp))
        else
          digestReq <-! handleDigestAuth req authHeader a ;
          match digestReq with
          | Ok digestReq => Do timeout digestReq
          | Err _ => mret (Ok (close_body resp))
          end
      else mret r
  | _, _ => mret r
  end.

(** Step 1 of [Collect]. *)
Definition target_url (p : HTTPProtocol) (configMap : gmap string string) : string :=
  let isSSL := negb (String.eqb (http_SSL p) "") && default false (ParseBool (http_SSL p)) in
  let schema := if isSSL then "https" else "http" in
  let host := default "" (configMap !! "host") in
  let port := default "" (configMap !! "port") in
  let targetURL :=
    if String.eqb (http_URL p) "" then
      if negb (String.eqb host "") && negb (String.eqb port "") then schema +:+ "://" +:+ host +:+ ":" +:+ port
      else ""
    else http_URL p in
  if negb (String.eqb targetURL "") && negb (HasPrefix targetURL "http")
  then schema +:+ "://" +:+ targetURL else targetURL.

(** Step 5 of [Collect]: the rows, by the type of the response. *)
Definition parse_rows (p : HTTPProtocol) (resp : http_response) (body : string) (responseTime : Z)
    (fields : list string) : res (list ValueRow) :=
  let ty := if String.eqb (http_ParseType p) "" then ParseTypeDefault else http_ParseType p in
  if String.eqb ty ParseTypePrometheus then
    match TextToMetricFamilies body with Err e => Err e | Ok families => Ok (prom_rows families fields) end
  else if String.eqb ty ParseTypeWebsite
  then Ok [website_row body (http_Keyword p) (resp_StatusCode resp) responseTime fields]
  else if String.eqb ty ParseTypeHeader then Ok [header_row (resp_Header resp) fields]
  else Ok (json_rows body (http_ParseScript p) fields).

Definition parse_response (now responseTime : Z) (m : Metrics) (p : HTTPProtocol) (resp : http_response)
    : CollectRepMetricsData :=
  match resp_Body resp with
  | Err e => createFailResponse now m CollectFail ("failed to read body: " +:+ e)
  | Ok body =>
      match parse_rows p resp body responseTime (m_AliasFields m) with
      | Err e => createFailResponse now m CollectFail ("parse error: " +:+ e)
      | Ok rows =>
          fillCommonFields (success_response now m rows) (m_AliasFields m) responseTime
            (resp_StatusCode resp)
      end
  end.

(** [Collect] on a configuration. *)
Definition collect_http (now responseTime : Z) (m : Metrics) (config : http_config)
    (configMap : gmap string string) : M (list request) CollectRepMetricsData :=
  let p := hc_Protocol config in
  let targetURL := target_url p configMap in
  if String.eqb targetURL "" then mret (createFailResponse now m CollectFail "target URL is empty")
  else
    match createRequest config targetURL with
    | Err e => mret (createFailResponse now m CollectFail ("failed to create request: " +:+ e))
    | Ok req =>
        let timeout := http_getTimeout (if String.eqb (http_Timeout p) "" then m_Timeout m else http_Timeout p) in
        r <-! execute timeout (hc_Authorization config) req ;
        mret match r with
             | Err e => createFailResponse now m CollectUnReachable ("request failed: " +:+ e)
             | Ok resp => parse_response now responseTime m p resp
             end
    end.

Definition load_auth (o : option loc) : M heap (option Authorization) :=
  match o with None => mret None | Some l => a <-! load as_auth l ; mret (Some a) end.

(** [Collect]; without an HTTP configuration its first access panics. *)
Definition http_Collect (now responseTime : Z) (p : mptr) : M heap (option CollectRepMetricsData) :=
  m <-! load_metric p ;
  match m_HTTP m with
  | None => mpanic "nil pointer dereference"
  | Some l =>
      p <-! load as_http l ;
      headers <-! load_map (http_Headers p) ;
      params <-! load_map (http_Params p) ;
      auth <-! load_auth (http_Authorization p) ;
      configMap <-! load_map (m_ConfigMap m) ;
      match collect_http now responseTime m (mkHttpConfig p headers params auth) configMap [] with
      | Ret _ r => mret (Some r)
      | Panic _ w => mpanic w
      end
  end.

End Http.

(** ** Proofs *)

(** *** Rows *)

Definition full_row (fields : list string) (row : ValueRow) : Prop :=
  length (vr_Columns row) = length fields.

Lemma json_rows_full body script fields : Forall (full_row fields) (json_rows body script fields).
Proof.
  assert (forall item, full_row fields (extractRow fields item)) as H.
  { intros item. unfold full_row. cbn [vr_Columns extractRow]. apply length_fmap. }
  unfold json_rows. destruct (Decode body) as [v|]; [|constructor].
  destruct (if negb _ && _ then _ else _); try (constructor; [apply H|constructor]); [constructor|].
  apply Forall_fmap, Forall_true. intros. apply H.
Qed.

Lemma prom_rows_full families fields : Forall (full_row fields) (prom_rows families fields).
Proof.
  unfold prom_rows. induction (concat families) as [|m l IH]; [constructor|]. cbn [omap list_omap].
  cbv zeta. destruct (existsb _ _); [|done]. constructor; [|done].
  unfold full_row. cbn [vr_Columns]. by rewrite !length_fmap.
Qed.

Lemma fillCommonFields_shape r fields rt status :
  rep_Fields r = [] -> Forall (full_row fields) (rep_Values r) ->
  rep_Fields (fillCommonFields r fields rt status) = alias_field <$> fields /\
  rep_Values (fillCommonFields r fields rt status) <> [] /\
  Forall (full_row fields) (rep_Values (fillCommonFields r fields rt status)).
Proof.
  intros Hf Hr. unfold fillCommonFields. rewrite Hf. cbn [rep_Values set_fields].
  destruct (rep_Values r) as [|row rows] eqn:E; cbn [rep_Fields rep_Values set_fields set_values].
  - split_and!; [done|done|]. constructor; [|constructor]. unfold full_row. cbn [vr_Columns].
    by rewrite length_imap, length_fmap.
  - split_and!; [done|by rewrite E|]. apply Forall_fmap. rewrite E. eapply Forall_impl; [exact Hr|].
    intros x Hx. unfold full_row, compose in *. cbn [vr_Columns]. by rewrite length_imap.
Qed.

(** *** Paths *)

Inductive seg := Key (k : string) | At (k : string) (i : Z).

Definition print_seg (s : seg) : string :=
  match s with Key k => k | At k i => k +:+ "[" +:+ Itoa i +:+ "]" end.

Definition plain_name (k : string) : Prop := no_char "." k /\ no_char "[" k.

Definition seg_ok (s : seg) : Prop :=
  match s with
  | Key k => k <> "" /\ plain_name k
  | At k i => plain_name k /\ 0 <= i /\ in64 i
  end.

(** The step that a segment stands for. *)
Definition follow (v : json) (s : seg) : json :=
  match s with
  | Key k => match v with JObject ms => default JNull (member k ms) | _ => JNull end
  | At k i =>
      let v := if String.eqb k "" then v
               else match v with JObject ms => default JNull (member k ms) | _ => JNull end in
      match v with JArray l => default JNull (l !! Z.to_nat i) | _ => JNull end
  end.

(** A path as a script: "$" alone, or its segments after it. *)
Definition print_path (path : list seg) : string :=
  match path with [] => "$" | _ => "$." +:+ String.concat "." (map print_seg path) end.

Lemma digits_loop_all n : forall z acc,
  0 <= z -> str_all is_digit acc = true -> str_all is_digit (digits_loop n z acc) = true.
Proof.
  induction n as [|n IH]; intros z acc Hz Ha; [done|]. cbn [digits_loop].
  assert (str_all is_digit (String (digit_char (z mod 10)) acc) = true) as H.
  { cbn [str_all]. rewrite Ha, (proj1 (char_digit_char _ (Z.mod_pos_bound z 10 ltac:(lia)))). done. }
  destruct (z / 10 =? 0); [done|]. apply IH; [|done]. apply Z.div_pos; lia.
Qed.

Lemma Itoa_digits z : 0 <= z -> str_all is_digit (Itoa z) = true.
Proof.
  intros Hz. unfold Itoa. destruct (Z.ltb_spec z 0); [lia|]. unfold digits. by apply digits_loop_all.
Qed.

Lemma digits_no_char c s : is_digit c = false -> str_all is_digit s = true -> no_char c s.
Proof.
  intros Hc. induction s as [|x s IH]; [done|]. cbn [str_all]. rewrite andb_true_iff. intros [Hx Hs].
  apply no_char_cons. split; [|by apply IH]. intros ->. congruence.
Qed.

Lemma print_seg_no_dot s : seg_ok s -> no_char "." (print_seg s).
Proof.
  destruct s as [k|k i]; [by intros (_ & ? & _)|]. intros ([Hk _] & Hi & _). cbn [print_seg].
  rewrite !no_char_app. split_and!; [done|done| |done]. apply digits_no_char; [done|by apply Itoa_digits].
Qed.

Lemma path_part_key k : no_char "[" k -> path_part k = (k, -1).
Proof. intros Hk. unfold path_part. by rewrite Index_none. Qed.

Lemma HasSuffix_app a b : HasSuffix (a +:+ b) b = true.
Proof.
  unfold HasSuffix. rewrite str_length_app.
  replace (String.length a + String.length b - String.length b)%nat with (String.length a) by lia.
  rewrite str_drop_app, String.eqb_refl, andb_true_r. apply Nat.leb_le. lia.
Qed.

Lemma path_part_at k i : no_char "[" k -> in64 i -> path_part (k +:+ "[" +:+ Itoa i +:+ "]") = (k, i).
Proof.
  intros Hk Hi. unfold path_part. rewrite (Index_first "[" "") by done.
  assert (HasSuffix (k +:+ "[" +:+ Itoa i +:+ "]") "]" = true) as ->.
  { rewrite <- !str_app_assoc. apply HasSuffix_app. }
  rewrite str_take_app.
  assert (str_drop (String.length k + 1) (k +:+ "[" +:+ Itoa i +:+ "]") = Itoa i +:+ "]") as ->.
  { rewrite <- (str_app_assoc k "["). change 1%nat with (String.length "["). rewrite <- str_length_app.
    apply str_drop_app. }
  rewrite !str_length_app. change (String.length "]") with 1%nat. change (String.length "[") with 1%nat.
  replace (String.length k + (1 + (String.length (Itoa i) + 1)) - 1 - (String.length k + 1))%nat
    with (String.length (Itoa i)) by lia.
  by rewrite str_take_app, Atoi_Itoa.
Qed.

Lemma navigate_seg v s : seg_ok s -> navigate_part v (print_seg s) = follow v s.
Proof.
  destruct s as [k|k i]; cbn [seg_ok print_seg follow].
  - intros (Hne & _ & Hk). unfold navigate_part. rewrite path_part_key by done. unfold select_index, select_key.
    apply String.eqb_neq in Hne. rewrite Hne. by destruct v.
  - intros ([_ Hk] & Hi & Hr). unfold navigate_part. rewrite path_part_at by done.
    unfold select_index, select_key. rewrite (proj2 (Z.ltb_lt _ _)) by lia.
    destruct v; try done. by destruct (String.eqb k "").
Qed.

Lemma navigate_path v s path :
  Forall seg_ok (s :: path) -> navigateJson v (print_path (s :: path)) = foldl follow v (s :: path).
Proof.
  intros Hp. unfold navigateJson, print_path.
  assert (TrimPrefix ("$." +:+ String.concat "." (map print_seg (s :: path))) "$." =
    String.concat "." (map print_seg (s :: path))) as ->.
  { unfold TrimPrefix, HasPrefix. rewrite (proj2 (prefix_iff _ _)) by (by eexists). apply str_drop_app. }
  assert (String.eqb (String.concat "." (map print_seg (s :: path))) "" = false) as ->.
  { apply String.eqb_neq. apply Forall_cons in Hp as [Hs _].
    assert (print_seg s <> "") as Hne.
    { destruct s as [k|k i]; [by destruct Hs|]. cbn [print_seg]. by destruct k. }
    cbn [map]. destruct (print_seg s); [done|]. by destruct (map print_seg path). }
  change "." with (String "." "") at 2. cbn [map]. rewrite (Split_join "."); cycle 1.
  { change (print_seg s :: map print_seg path) with (print_seg <$> (s :: path)). apply Forall_fmap. eapply Forall_impl; [exact Hp|].
    intros x. apply print_seg_no_dot. }
  change (print_seg s :: map print_seg path) with (map print_seg (s :: path)).
  revert v. induction Hp as [|x l Hx _ IH]; intros v; [done|]. cbn [map foldl].
  by rewrite navigate_seg, IH.
Qed.

(** The rows that a document has at a path. *)
Definition items (v : json) : list json :=
  match v with JNull => [] | JArray l => l | v => [v] end.

Definition item_column (item : json) (field : string) : string :=
  if is_common field then NullValue
  else
    match item with
    | JObject ms => match member field ms with Some JNull | None => NullValue | Some v => show_json v end
    | _ => NullValue
    end.

Lemma json_column_plain item field :
  field <> "" -> plain_name field -> json_column item field = item_column item field.
Proof.
  intros Hne [Hd Hb]. unfold json_column, item_column. destruct (is_common field); [done|].
  destruct item as [| | | | |ms]; try done. destruct (member field ms) as [v|] eqn:E; [by destruct v|].
  assert (navigateJson (JObject ms) field = JNull) as ->; [|done]. unfold navigateJson.
  assert (TrimPrefix field "$." = field) as ->.
  { unfold TrimPrefix, HasPrefix. destruct (String.prefix "$." field) eqn:Ep; [|done].
    apply prefix_iff in Ep as [r ->]. by apply no_char_app in Hd as [Hd _]. }
  apply String.eqb_neq in Hne as Hne'. rewrite Hne'.
  assert (Split field "." = [field]) as -> by (by apply (Split_join "." field []); constructor).
  cbn [foldl]. unfold navigate_part. rewrite path_part_key by done. unfold select_index, select_key.
  rewrite Hne'. cbn. by rewrite E.
Qed.

(** C14 (roundtrip). From a printed JSON document and the printed path of keys
    and indices, a response in JSON has a row for every element of the array that
    the path leads to, or one row for another value than an array and none for
    null or where the path leads nowhere; a row has for every alias the member of
    that name, printed, and the placeholder of a null value where there is none. *)
Theorem json_rows_printed n v path fields :
  json_ok n v -> Z.of_nat n <= maxNestingDepth -> Forall seg_ok path ->
  Forall (fun f => f <> "" /\ plain_name f) fields ->
  json_rows (print v) (print_path path) fields =
  (fun item => mkValueRow (item_column item <$> fields)) <$> items (foldl follow v path).
Proof.
  intros Hv Hn Hp Hf. unfold json_rows. rewrite <- (str_app_nil_r (print v)), (Decode_print n) by done.
  assert (forall item, extractRow fields item = mkValueRow (item_column item <$> fields)) as He.
  { intros item. unfold extractRow. f_equal. apply list_fmap_ext. intros i f Hi.
    rewrite Forall_lookup in Hf. destruct (Hf i f Hi). by apply json_column_plain. }
  assert ((if negb (String.eqb (print_path path) "") && negb (String.eqb (print_path path) "$")
           then navigateJson v (print_path path) else v) = foldl follow v path) as ->.
  { destruct path as [|s path]; [done|]. rewrite navigate_path by done. done. }
  unfold items. destruct (foldl follow v path); try (cbn; by rewrite He); [done|].
  apply list_fmap_ext. intros. apply He.
Qed.

Definition ex_doc : json := JObject [("data", JArray [JObject [("cpu", JNumber "0.5"); ("up", JNull)]])].

Lemma ex_doc_ok : json_ok 3 ex_doc.
Proof.
  apply ok_object; [apply NoDup_singleton|]. constructor; [|constructor]. cbn [snd].
  apply ok_array. constructor; [|constructor]. apply ok_object.
  - apply (bool_decide_eq_true_1 (NoDup _)). reflexivity.
  - repeat constructor. by exists Zero, Frac.
Qed.

Lemma json_rows_printed_witness :
  json_rows (print ex_doc)
    "$.data" ["cpu"; "up"; "statusCode"] = [mkValueRow ["0.5"; "&nbsp;"; "&nbsp;"]].
Proof.
  etransitivity; [apply (json_rows_printed 3 _ [Key "data"] _ ex_doc_ok)|vm_compute; reflexivity].
  - vm_compute. discriminate.
  - by repeat constructor.
  - by repeat constructor.
Defined.

(** *** Challenges *)

Definition print_param (p : string * string) : string := fst p +:+ "=" +:+ quoted (snd p).

(** A challenge as servers write it. *)
Definition print_challenge (params : list (string * string)) : string :=
  "Digest " +:+ String.concat ", " (map print_param params).

Definition param_ok (p : string * string) : Prop :=
  word (fst p) /\ no_char "=" (fst p) /\ no_char "," (fst p) /\
  no_char "," (snd p) /\ no_char dquote (snd p).

Lemma Trim_quoted s : no_char dquote s -> TrimChar dquote (TrimSpace (quoted s)) = s.
Proof.
  intros Hs. unfold TrimSpace, quoted. rewrite trim_left_stop by done.
  assert (trim_right is_space (String dquote s +:+ String dquote "") = String dquote s +:+ String dquote "") as E
    by (by rewrite (trim_right_stop is_space (String dquote s) dquote "")).
  rewrite str_app_cons in E. rewrite E. unfold TrimChar. cbn [trim_left]. rewrite Ascii.eqb_refl.
  destruct s as [|x s]; [done|]. apply no_char_cons in Hs as [Hx Hs].
  rewrite str_app_cons, trim_left_stop by (apply Ascii.eqb_neq; congruence). rewrite <- str_app_cons.
  rewrite trim_right_drop by done. apply trim_right_none. by apply no_char_cons.
Qed.

Lemma TrimSpace_param p : param_ok p -> TrimSpace (" " +:+ print_param p) = print_param p /\
  TrimSpace (print_param p) = print_param p.
Proof.
  destruct p as [k v]. unfold print_param, quoted. cbn [fst snd]. intros ([Hne Hk] & _).
  assert (TrimSpace (k +:+ "=" +:+ String dquote (v +:+ String dquote "")) =
    k +:+ "=" +:+ String dquote (v +:+ String dquote "")) as E; [|by split].
  destruct k as [|c k]; [done|]. unfold no_space in Hk. cbn [str_all] in Hk.
  apply andb_true_iff in Hk as [Hc _]. apply negb_true_iff in Hc.
  unfold TrimSpace. rewrite str_app_cons, trim_left_stop by done. rewrite <- str_app_cons.
  change ("=" +:+ String dquote (v +:+ String dquote "")) with (("=" +:+ String dquote v) +:+ String dquote "").
  rewrite <- str_app_assoc. by rewrite trim_right_stop.
Qed.

Lemma auth_entry_param p :
  param_ok p -> auth_entry (" " +:+ print_param p) = Some p /\ auth_entry (print_param p) = Some p.
Proof.
  intros Hp. unfold auth_entry. destruct (TrimSpace_param p Hp) as [-> ->].
  destruct p as [k v], Hp as ([_ Hk] & Heq & _ & _ & Hv). cbn [fst snd] in *.
  assert (SplitN2 (print_param (k, v)) "=" = [k; quoted v]) as ->.
  { unfold SplitN2, print_param. cbn [fst snd]. rewrite (Index_first "=" "") by done.
    rewrite str_take_app. do 2 f_equal. rewrite <- str_app_assoc, <- str_length_app. apply str_drop_app. }
  rewrite Trim_quoted, TrimSpace_word by done. done.
Qed.

Lemma param_no_comma p : param_ok p -> no_char "," (print_param p).
Proof.
  intros (_ & _ & Hk & Hv & _). unfold print_param, quoted. apply no_char_app. split; [done|].
  apply no_char_app. split; [done|]. apply no_char_cons. split; [done|]. by apply no_char_app.
Qed.

(** From a printed digest challenge the parameters are read
    back, if neither their values contain commas or quotes nor their names an
    equals sign. *)
Theorem challenge_roundtrip params key :
  params <> [] -> Forall param_ok params ->
  parseAuthHeader (print_challenge params) !! key = last (snd <$> filter (fun p => fst p = key) params).
Proof.
  intros Hne Hp. destruct params as [|p ps]; [done|]. unfold parseAuthHeader, print_challenge.
  assert (TrimPrefix ("Digest " +:+ String.concat ", " (map print_param (p :: ps))) "Digest " =
    String.concat "," (print_param p :: map (fun p => " " +:+ print_param p) ps)) as ->.
  { unfold TrimPrefix, HasPrefix. rewrite (proj2 (prefix_iff _ _)) by (by eexists). rewrite str_drop_app.
    clear. cbn [map]. revert p. induction ps as [|q ps IH]; intros p; [done|]. cbn [map].
    change (String.concat ", " (print_param p :: print_param q :: map print_param ps))
      with (print_param p +:+ "," +:+ " " +:+ String.concat ", " (print_param q :: map print_param ps)).
    rewrite IH. assert (forall x l, String.concat "," ((" " +:+ x) :: l) = " " +:+ String.concat "," (x :: l)) as E
      by (by intros x [|y l]).
    by rewrite <- E. }
  apply Forall_cons in Hp as [Hp Hps]. rewrite foldl_insert_lookup, lookup_empty.
  rewrite (Split_join ","); cycle 1.
  { constructor; [by apply param_no_comma|]. apply Forall_fmap. eapply Forall_impl; [exact Hps|].
    intros x Hx. apply no_char_app. split; [done|by apply param_no_comma]. }
  cbn [omap list_omap]. rewrite (proj2 (auth_entry_param p Hp)).
  assert (omap auth_entry (map (fun p => " " +:+ print_param p) ps) = ps) as ->.
  { clear Hne. induction Hps as [|x l Hx _ IH]; [done|]. cbn [map omap list_omap].
    by rewrite (proj1 (auth_entry_param x Hx)), IH. }
  by destruct (last _).
Qed.

Lemma challenge_roundtrip_witness :
  parseAuthHeader (print_challenge [("realm", "a b=c"); ("nonce", "x"); ("qop", "auth")]) !! "realm" = Some "a b=c".
Proof. rewrite (challenge_roundtrip _ "realm"); [reflexivity|done|by repeat constructor]. Defined.

(** A comma in a value cuts it. *)
Example ex_challenge_comma :
  parseAuthHeader (print_challenge [("realm", "a, b"); ("nonce", "x")]) !! "realm" = Some "a".
Proof. vm_compute. reflexivity. Qed.

(** The example of RFC 2617, whose challenge lists two values of qop. *)
Example ex_rfc2617 :
  (fun r => match r with Ok v => Contains v ("response=" +:+ quoted "6629fae49393a05397450978507c4ef1") | Err _ => false end)
    (digest_value (parseAuthHeader (print_challenge
       [("realm", "testrealm@host.com"); ("qop", "auth,auth-int"); ("nonce", "dcd98b7102dd2f0e8b11d0f600bfb0c093");
        ("opaque", "5ccc069c403ebaf9f0171e9517f40e41")]))
     (mkAuthorization "Digest Auth" "" "" "Mufasa" "Circle Of Life" "") "GET" "/dir/index.html"
     (generateCnonce [10; 79; 17; 59]%N)) = true.
Proof. vm_compute. reflexivity. Qed.

(** *** Exchanges *)

Section Exchange.
Context {URL : Type} (url_Parse : string -> res URL)
        (RawQuery : URL -> string) (set_RawQuery : URL -> string -> URL)
        (RequestURI url_String : URL -> string)
        (client_Do : Z -> nat -> @request URL -> res http_response)
        (header_order params_order : gmap string string -> list (string * string))
        (TextToMetricFamilies : string -> res (list (list prom_metric)))
        (random : list N).

(** A URL that has been parsed is parsed again from its string: [URL.String]
    reassembles a URL into a valid URL string. *)
Hypothesis reparse : forall u, exists u', url_Parse (url_String u) = Ok u'.

Local Abbreviation create := (createRequest url_Parse RawQuery set_RawQuery header_order params_order)
  (only parsing).
Local Abbreviation collect := (collect_http url_Parse RawQuery set_RawQuery RequestURI url_String client_Do
  header_order params_order TextToMetricFamilies random) (only parsing).

Lemma NewRequest_method method url body (req : @request URL) :
  NewRequest url_Parse method url body = Ok req ->
  str_all is_token (req_Method req) = true /\ req_Method req <> "".
Proof.
  unfold NewRequest. destruct (String.eqb_spec method "") as [->|Hm].
  - cbn. destruct (url_Parse url); [|done]. by intros [= <-].
  - destruct (str_all is_token method) eqn:E; [|done]. destruct (url_Parse url); [|done]. by intros [= <-].
Qed.

Lemma headers_method l : forall req : @request URL,
  req_Method (foldl (fun r x => set_header (fst x) (snd x) r) req l) = req_Method req.
Proof. induction l as [|x l IH]; intros req; [done|]. cbn [foldl]. by rewrite IH. Qed.

Lemma authorize_method auth (req : @request URL) : req_Method (authorize auth req) = req_Method req.
Proof.
  unfold authorize. destruct auth as [a|]; [|done].
  destruct (_ || _); [by destruct (_ && _)|]. destruct (EqualFold _ _); [by destruct (negb _)|done].
Qed.

Lemma create_method config url req :
  create config url = Ok req -> str_all is_token (req_Method req) = true /\ req_Method req <> "".
Proof.
  unfold createRequest. destruct (NewRequest _ _ _ _) as [r|] eqn:E; [|done]. intros [= <-].
  cbn [req_Method]. rewrite authorize_method, headers_method. by eapply NewRequest_method.
Qed.

Lemma digest_ok req header a sent authVal :
  str_all is_token (req_Method req) = true -> req_Method req <> "" ->
  digest_value (parseAuthHeader header) a (req_Method req) (RequestURI (req_URL req)) (generateCnonce random) =
    Ok authVal ->
  exists u, url_Parse (url_String (req_URL req)) = Ok u /\
    handleDigestAuth url_Parse RequestURI url_String random req header a sent =
      Ret sent (Ok (mkRequest (req_Method req) u (<["Authorization" := [authVal]]> (req_Header req)) (req_Body req))).
Proof.
  intros Ht Hm Hd. unfold handleDigestAuth. rewrite Hd. unfold NewRequest.
  apply String.eqb_neq in Hm. rewrite Hm, Ht. cbn [negb].
  destruct (reparse (req_URL req)) as [u E]. exists u. split; [done|]. by rewrite E.
Qed.

(** The request of the second call of [Do] in a digest exchange. *)
Definition digest_retry (a : Authorization) (resp : http_response) (req req' : @request URL) : Prop :=
  exists authVal,
    digest_value (parseAuthHeader (header_Get (resp_Header resp) "WWW-Authenticate")) a (req_Method req)
      (RequestURI (req_URL req)) (generateCnonce random) = Ok authVal /\
    req_Method req' = req_Method req /\ req_Body req' = req_Body req /\
    url_Parse (url_String (req_URL req)) = Ok (req_URL req') /\
    req_Header req' = <["Authorization" := [authVal]]> (req_Header req).

(** A challenge to digest authentication that is taken up. *)
Definition challenged (auth : option Authorization) (resp : http_response) (a : Authorization) : Prop :=
  auth = Some a /\ resp_StatusCode resp = StatusUnauthorized /\ EqualFold (auth_Type a) AuthTypeDigest = true.

Lemma execute_spec timeout auth req sent :
  str_all is_token (req_Method req) = true -> req_Method req <> "" ->
  (exists a resp req', challenged auth resp a /\ client_Do timeout (length sent) req = Ok resp /\
     digest_retry a resp req req' /\
     execute url_Parse RequestURI url_String client_Do random timeout auth req sent =
       Ret (sent ++ [req; req']) (client_Do timeout (S (length sent)) req')) \/
  (exists a resp, challenged auth resp a /\ client_Do timeout (length sent) req = Ok resp /\
     (forall authVal, header_Get (resp_Header resp) "WWW-Authenticate" <> "" ->
        digest_value (parseAuthHeader (header_Get (resp_Header resp) "WWW-Authenticate")) a (req_Method req)
          (RequestURI (req_URL req)) (generateCnonce random) <> Ok authVal) /\
     execute url_Parse RequestURI url_String client_Do random timeout auth req sent =
       Ret (sent ++ [req]) (Ok (close_body resp))) \/
  ((forall a resp, client_Do timeout (length sent) req = Ok resp -> ~ challenged auth resp a) /\
   execute url_Parse RequestURI url_String client_Do random timeout auth req sent =
     Ret (sent ++ [req]) (client_Do timeout (length sent) req)).
Proof.
  intros Ht Hm. unfold execute. erewrite bind_ret by reflexivity.
  destruct (client_Do timeout (length sent) req) as [resp|e] eqn:Er; [|right; right; by split].
  destruct auth as [a|]; [|right; right; split; [by intros ? ? _ [? _]|done]].
  destruct ((resp_StatusCode resp =? StatusUnauthorized) && EqualFold (auth_Type a) AuthTypeDigest) eqn:Ec.
  2:{ right; right. split; [|done]. intros a' resp' [= <-] ([= <-] & Hs & Hd). by rewrite Hs, Hd in Ec. }
  apply andb_true_iff in Ec as [Hs Hd]. apply Z.eqb_eq in Hs.
  assert (challenged (Some a) resp a) as Hch by done.
  destruct (String.eqb_spec (header_Get (resp_Header resp) "WWW-Authenticate") "") as [Eh|Eh].
  { right; left. exists a, resp. do 2 (split; [done|]). split; [|done]. intros ? Hne. by destruct Hne. }
  destruct (digest_value (parseAuthHeader (header_Get (resp_Header resp) "WWW-Authenticate")) a (req_Method req)
    (RequestURI (req_URL req)) (generateCnonce random)) as [authVal|e] eqn:Ed.
  - left. destruct (digest_ok req _ a (sent ++ [req]) _ Ht Hm Ed) as (u & Hu & Eu). erewrite bind_ret by exact Eu.
    exists a, resp, (mkRequest (req_Method req) u (<["Authorization" := [authVal]]> (req_Header req)) (req_Body req)).
    do 2 (split; [done|]). split.
    + by exists authVal.
    + unfold Do. rewrite <- app_assoc, length_app, Nat.add_1_r. done.
  - right; left. exists a, resp. do 2 (split; [done|]). split; [intros ? _; by rewrite Ed|].
    unfold handleDigestAuth. rewrite Ed. done.
Qed.

Lemma parse_rows_full p resp body rt fields rows :
  parse_rows TextToMetricFamilies p resp body rt fields = Ok rows -> Forall (full_row fields) rows.
Proof.
  unfold parse_rows. cbv zeta. destruct (String.eqb _ _); [destruct (TextToMetricFamilies _); [|done]|].
  { intros [= <-]. apply prom_rows_full. }
  assert (forall f, full_row fields (mkValueRow (f <$> fields))) as H.
  { intros f. unfold full_row. cbn [vr_Columns]. apply length_fmap. }
  destruct (String.eqb _ _); [intros [= <-]; constructor; [apply H|constructor]|].
  destruct (String.eqb _ _); [intros [= <-]; constructor; [apply H|constructor]|].
  intros [= <-]. apply json_rows_full.
Qed.

Lemma parse_response_name now rt m p resp :
  rep_Metrics (parse_response TextToMetricFamilies now rt m p resp) = m_Name m.
Proof.
  unfold parse_response. destruct (resp_Body resp) as [body|]; [|done].
  destruct (parse_rows _ _ _ _ _ _) as [rows|]; [|done]. unfold fillCommonFields.
  cbn [rep_Fields response success_response]. by destruct rows.
Qed.

(** The requests of a collection, and its result. *)
Lemma collect_spec now rt m config cm sent :
  exists r sent', collect now rt m config cm sent = Ret sent' r /\
    rep_Metrics r = m_Name m /\
    (sent' = sent \/
     exists req, create config (target_url (hc_Protocol config) cm) = Ok req /\
       (sent' = sent ++ [req] \/
        exists timeout a resp req', sent' = sent ++ [req; req'] /\
          client_Do timeout (length sent) req = Ok resp /\
          challenged (hc_Authorization config) resp a /\ digest_retry a resp req req')).
Proof.
  unfold collect_http. destruct (String.eqb _ _); [eexists _, _; split_and!; [done|done|by left]|].
  destruct (createRequest _ _ _ _ _ _ _) as [req|e] eqn:Ec; [|eexists _, _; split_and!; [done|done|by left]].
  destruct (create_method _ _ _ Ec) as [Ht Hm].
  cbv zeta. set (timeout := http_getTimeout _).
  assert (forall r : res http_response, rep_Metrics
    match r with
    | Err e => createFailResponse now m CollectUnReachable ("request failed: " +:+ e)
    | Ok resp => parse_response TextToMetricFamilies now rt m (hc_Protocol config) resp
    end = m_Name m) as Hname by (intros []; [apply parse_response_name|done]).
  destruct (execute_spec timeout (hc_Authorization config) req sent Ht Hm)
    as [(a & resp & req' & Hc & Er & Hd & E)|[(a & resp & Hc & Er & _ & E)|[_ E]]];
    erewrite bind_ret by exact E; eexists _, _; (split_and!; [done|first [apply parse_response_name|apply Hname]|]); right; exists req;
    (split; [done|]).
  - right. by exists timeout, a, resp, req'.
  - by left.
  - by left.
Qed.

(** C19 (safety). A collection never panics, and calls [Do] of its HTTP client at
    most twice (the redirects that [Do] follows by itself are not counted).  The
    request of the first call is the one of the configuration.  There is a second
    call only when the configuration asks for digest authentication and what the
    first gave was 401 with a challenge that can be met; its request has the same
    method and body, the URL parsed again from its string, and the same header
    fields except Authorization, which answers the challenge.  Assumed of the
    library: the string of a parsed URL can be parsed. *)
Theorem requests_handed_to_Do now rt m config cm sent :
  exists r sent', collect now rt m config cm sent = Ret sent' r /\
    rep_Metrics r = m_Name m /\
    (sent' = sent \/
     exists req, create config (target_url (hc_Protocol config) cm) = Ok req /\
       (sent' = sent ++ [req] \/
        exists timeout a resp req', sent' = sent ++ [req; req'] /\
          client_Do timeout (length sent) req = Ok resp /\
          challenged (hc_Authorization config) resp a /\ digest_retry a resp req req')).
Proof. apply collect_spec. Qed.

(** When digest authentication is configured and an answer 401
    has no challenge, or one that cannot be met, the collection fails while it
    reads the body, which it has closed itself. *)
Theorem unusable_challenge_fails now rt m config cm sent req a resp timeout :
  target_url (hc_Protocol config) cm <> "" ->
  create config (target_url (hc_Protocol config) cm) = Ok req ->
  timeout = http_getTimeout (if String.eqb (http_Timeout (hc_Protocol config)) "" then m_Timeout m
                             else http_Timeout (hc_Protocol config)) ->
  client_Do timeout (length sent) req = Ok resp -> challenged (hc_Authorization config) resp a ->
  (forall authVal,
     digest_value (parseAuthHeader (header_Get (resp_Header resp) "WWW-Authenticate")) a (req_Method req)
       (RequestURI (req_URL req)) (generateCnonce random) <> Ok authVal) ->
  exists r, collect now rt m config cm sent = Ret (sent ++ [req]) r /\
    rep_Code r = CollectFail /\ rep_Msg r = "failed to read body: http: read on closed response body".
Proof.
  intros Hu Ec -> Er Hch Hd. unfold collect_http. cbv zeta. apply String.eqb_neq in Hu. rewrite Hu, Ec.
  destruct (create_method _ _ _ Ec) as [Ht Hm].
  match goal with |- context [execute _ _ _ _ _ ?t ?a' ?r] =>
    destruct (execute_spec t a' r sent Ht Hm)
      as [(a1 & resp1 & req' & Hc1 & Er1 & Hr1 & E)|[(a1 & resp1 & Hc1 & Er1 & _ & E)|[Hn E]]] end.
  - destruct Hr1 as (authVal & Ha & _). destruct Hc1 as [Ha1 _], Hch as [Ha2 _]. simplify_eq.
    rewrite Er in Er1. injection Er1 as <-. by apply Hd in Ha.
  - erewrite bind_ret by exact E. eexists. split; [done|]. done.
  - exfalso. exact (Hn _ _ Er Hch).
Qed.

(** C34 (type). A successful result has the aliases as its fields, at least one
    row, and in every row a column for every alias, for all types of responses and
    whatever is in the body. *)
Theorem http_result_full now rt m config cm sent sent' r :
  collect now rt m config cm sent = Ret sent' r -> rep_Code r = CollectSuccess ->
  rep_Fields r = alias_field <$> m_AliasFields m /\
  rep_Values r <> [] /\ Forall (full_row (m_AliasFields m)) (rep_Values r).
Proof.
  unfold collect_http. destruct (String.eqb _ _); [by intros [= <- <-]|].
  destruct (createRequest _ _ _ _ _ _ _) as [req|e]; [|by intros [= <- <-]]. unfold mbind'.
  destruct (execute _ _ _ _ _ _ _ _) as [s [resp|e]|]; [|by intros [= <- <-]|done].
  intros [= <- <-]. unfold parse_response. destruct (resp_Body resp) as [body|]; [|done].
  destruct (parse_rows _ _ _ _ _ _) as [rows|] eqn:E; [|done]. intros _.
  apply fillCommonFields_shape; [done|]. by eapply parse_rows_full.
Qed.

Lemma load_map_ok h o : opt_tag h o TMap -> exists m, load_map o h = Ret h m.
Proof.
  destruct o as [l|]; [|by eexists]. intros (o & Hl & Ho). destruct o; try discriminate Ho.
  eexists. unfold load_map, load. by rewrite Hl.
Qed.

Lemma load_auth_ok h o : opt_tag h o TAuth -> exists a, load_auth o h = Ret h a.
Proof.
  destruct o as [l|]; [|by eexists]. intros (o & Hl & Ho). destruct o; try discriminate Ho.
  eexists. unfold load_auth. by erewrite bind_ret by (unfold load; by rewrite Hl).
Qed.

(** What the dispatcher relies on. *)
Lemma http_Collect_ok now rt h a i ms m :
  heap_ok h -> cells h !! a = Some (OMetrics ms) -> ms !! i = Some m ->
  let Collect := http_Collect url_Parse RawQuery set_RawQuery RequestURI url_String client_Do
    header_order params_order TextToMetricFamilies random now rt in
  match m_HTTP m with
  | Some _ => exists r, Collect (a, i) h = Ret h (Some r) /\ rep_Metrics r = m_Name m
  | None => exists w, Collect (a, i) h = Panic h w
  end.
Proof.
  intros [_ Hok] Ha Hm. pose proof (Hok a _ Ha) as Hms. simpl in Hms.
  pose proof (Forall_at _ _ _ _ Hms Hm) as (Hcm & Hh & _).
  assert (load_metric (a, i) h = Ret h m) as E by (by apply load_metric_at with ms).
  cbv zeta. unfold http_Collect. destruct (m_HTTP m) as [l|] eqn:El.
  2:{ erewrite bind_ret by exact E. rewrite El. by eexists. }
  destruct Hh as (o & Hl & Ho). destruct o; try discriminate Ho.
  pose proof (Hok l _ Hl) as Hp. simpl in Hp. destruct Hp as (Hhd & Hpa & Hau).
  destruct (load_map_ok _ _ Hhd) as [hd Ehd], (load_map_ok _ _ Hpa) as [pa Epa],
    (load_auth_ok _ _ Hau) as [au Eau], (load_map_ok _ _ Hcm) as [cm Ecm].
  erewrite bind_ret by exact E. rewrite El. erewrite bind_ret by (unfold load; by rewrite Hl).
  erewrite bind_ret by exact Ehd. erewrite bind_ret by exact Epa. erewrite bind_ret by exact Eau.
  erewrite bind_ret by exact Ecm.
  destruct (collect_spec now rt m (mkHttpConfig p hd pa au) cm []) as (r & sent' & -> & Hr & _). by exists r.
Qed.

End Exchange.

(** ** Examples *)

Definition ex_http (url script : string) : HTTPProtocol :=
  mkHTTPProtocol url "get" None None "" script "" "" "" "" None.

Definition ex_aliases_metric (aliases : list string) : Metrics :=
  mkMetrics "up" ANil 0 0 60 None [] aliases ANil ANil ANil "http" "" "" "" "" None false
    None None None None None None None None.

(** A server that asks for digest authentication once. *)
Definition ex_server (_ : Z) (n : nat) (_ : @request string) : res http_response :=
  match n with
  | O => Ok (mkHttpResponse 401
           {["Www-Authenticate" := [print_challenge [("realm", "r"); ("nonce", "n")]]]} (Ok "denied"))
  | _ => Ok (mkHttpResponse 200 ∅ (Ok (print ex_doc)))
  end.

Definition ex_digest : option Authorization := Some (mkAuthorization "digest auth" "" "" "u" "p" "").

Local Abbreviation ex_collect do aliases config :=
  (collect_http (URL := string) Ok (fun _ => "") (fun u q => u +:+ "?" +:+ q) (fun u => u) (fun u => u) do
    map_to_list map_to_list (fun _ => Err "") [1]%N 0 7 (ex_aliases_metric aliases) config ∅ []) (only parsing).

(** With parameters in the URL, both requests, and the row of the document. *)
Example ex_digest_exchange :
  (fun o => (map (fun r => (req_Method r, req_URL r)) (outcome_state o), rep_Values <$> outcome_val o))
    (ex_collect ex_server ["cpu"; "statusCode"; "responseTime"]
       (mkHttpConfig (ex_http "host:80/x" "$.data[0]") ∅ {["a b" := "c&d"]} ex_digest)) =
  ([("GET", "http://host:80/x?a+b=c%26d"); ("GET", "http://host:80/x?a+b=c%26d")],
   Some [mkValueRow ["0.5"; "200"; "7"]]).
Proof. vm_compute. reflexivity. Qed.

Lemma requests_handed_to_Do_witness :
  exists r sent', ex_collect ex_server ["cpu"] (mkHttpConfig (ex_http "host" "$.data") ∅ ∅ ex_digest) =
    Ret sent' r /\ rep_Metrics r = "up".
Proof.
  destruct (requests_handed_to_Do (URL := string) Ok (fun _ => "") (fun u q => u +:+ "?" +:+ q) (fun u => u) (fun u => u)
    ex_server map_to_list map_to_list (fun _ => Err "") [1]%N (fun u => ex_intro _ u eq_refl) 0 7
    (ex_aliases_metric ["cpu"]) (mkHttpConfig (ex_http "host" "$.data") ∅ ∅ ex_digest) ∅ [])
    as (r & sent' & E & Hr & _).
  by exists r, sent'.
Defined.

Lemma http_result_full_witness :
  exists sent' r, ex_collect ex_server ["cpu"; "x"] (mkHttpConfig (ex_http "host" "$.data") ∅ ∅ ex_digest) =
    Ret sent' r /\ Forall (full_row ["cpu"; "x"]) (rep_Values r).
Proof.
  eexists _, _. split; [vm_compute; reflexivity|].
  eapply (http_result_full (URL := string) Ok (fun _ => "") (fun u q => u +:+ "?" +:+ q) (fun u => u) (fun u => u)
    ex_server map_to_list map_to_list (fun _ => Err "") [1]%N 0 7
    (ex_aliases_metric ["cpu"; "x"]) (mkHttpConfig (ex_http "host" "$.data") ∅ ∅ ex_digest) ∅ []);
    vm_compute; reflexivity.
Defined.

(** A server that answers 401 without a challenge. *)
Definition ex_refusal (_ : Z) (_ : nat) (_ : @request string) : res http_response :=
  Ok (mkHttpResponse 401 ∅ (Ok "{}")).

Lemma unusable_challenge_fails_witness :
  exists r, ex_collect ex_refusal ["statusCode"] (mkHttpConfig (ex_http "host" "$") ∅ ∅ ex_digest) =
    Ret [mkRequest "GET" "http://host" ∅ None] r /\ rep_Code r = CollectFail.
Proof.
  destruct (unusable_challenge_fails (URL := string) Ok (fun _ => "") (fun u q => u +:+ "?" +:+ q)
    (fun u => u) (fun u => u) ex_refusal map_to_list map_to_list (fun _ => Err "") [1]%N
    (fun u => ex_intro _ u eq_refl) 0 7 (ex_aliases_metric ["statusCode"])
    (mkHttpConfig (ex_http "host" "$") ∅ ∅ ex_digest) ∅ [] (mkRequest "GET" "http://host" ∅ None)
    (mkAuthorization "digest auth" "" "" "u" "p" "") (mkHttpResponse 401 ∅ (Ok "{}")) (10 * Second))
    as (r & E & Hc & _); [done|by vm_compute|done|done|done| |by exists r].
  intros v. vm_compute. discriminate.
Defined.

(** Without digest authentication the same answer is a success. *)
Example ex_unauthorized_success :
  (fun o => (fun r => (rep_Code r, rep_Values r)) <$> outcome_val o)
    (ex_collect ex_refusal ["statusCode"] (mkHttpConfig (ex_http "host" "$") ∅ ∅ None)) =
  Some (CollectSuccess, [mkValueRow ["401"]]).
Proof. vm_compute. reflexivity. Qed.

(** A body that is not JSON is a success, too, with a row without values. *)
Example ex_not_json :
  (fun o => (fun r => (rep_Code r, rep_Values r)) <$> outcome_val o)
    (ex_collect (fun _ _ _ => Ok (mkHttpResponse 500 ∅ (Ok "oops"))) ["cpu"; "statusCode"]
       (mkHttpConfig (ex_http "host" "$") ∅ ∅ None)) =
  Some (CollectSuccess, [mkValueRow ["&nbsp;"; "500"]]).
Proof. vm_compute. reflexivity. Qed.

(** A host whose name begins with the scheme gets none; durations with a unit
    are not read. *)
Example ex_target_url :
  target_url (ex_http "httpbin.org/get" "") ∅ = "httpbin.org/get" /\
  target_url (ex_http "" "") {["host" := "h"; "port" := "80"]} = "http://h:80" /\
  http_getTimeout "30s" = 10 * Second /\ getTimeout "30s" = 30 * Second.
Proof. vm_compute. by split_and!. Qed.
