(* ===== verification/Milvus.v ===== *)
(** * The Milvus collector

    Models protocol/extension/milvus/milvus_collector.go.  The SDK is a
    parameter: the outcome of opening a client and of asking for the version.
    The clients that are open are counted by their addresses, as the connections
    of the other collectors are. *)

From Stdlib Require Import Ascii String.
From S2P Require Import Prelude GoStrings GoFloat JobTypes Params Calc Collect Ssh.

Open Scope string_scope.
Open Scope list_scope.
Open Scope Z_scope.
Open Scope go_scope.

Definition ProtocolMilvus : string := "milvus".

Definition as_milvus (o : obj) : option MilvusProtocol :=
  match o with OMilvus p => Some p | _ => None end.

(** [PreCheck]. *)
Definition milvus_PreCheck (p : option mptr) : M heap (option error) :=
  match p with
  | None => mret (Some "milvus configuration is missing")
  | Some p =>
      m <-! load_metric p ;
      match m_Milvus m with
      | None => mret (Some "milvus configuration is missing")
      | Some _ => mret None
      end
  end.

(** The timeout of the context, in nanoseconds. *)
Definition milvus_timeout (config : MilvusProtocol) : Z :=
  if String.eqb (milvus_Timeout config) "" then 10 * Second
  else match Atoi (milvus_Timeout config) with
       | Some t => wrap64 (t * Millisecond)
       | None => 10 * Second
       end.

(** The user and the password that are used, if both are set. *)
Definition milvus_auth (config : MilvusProtocol) : option (string * string) :=
  if negb (String.eqb (milvus_Username config) "") && negb (String.eqb (milvus_Password config) "")
  then Some (milvus_Username config, milvus_Password config) else None.

Definition milvus_addr (config : MilvusProtocol) : string :=
  milvus_Host config +:+ ":" +:+ milvus_Port config.

(** The value of an alias. *)
Definition milvus_column (config : MilvusProtocol) (version : string) (responseTime : Z) (field : string)
    : string :=
  let f := ToLower field in
  if String.eqb f (ToLower ResponseTime) then Itoa responseTime
  else if String.eqb f "version" then version
  else if String.eqb f "host" then milvus_Host config
  else if String.eqb f "port" then milvus_Port config
  else NullValue.

(** [createSuccessResponse] and [createFailResponse]. *)
Definition milvus_success (now : Z) (m : Metrics) : CollectRepMetricsData :=
  response now m CollectSuccess "success" [] [].
Definition milvus_fail (now : Z) (m : Metrics) (code : Z) (msg : string) : CollectRepMetricsData :=
  response now m code msg [] [].

Section Milvus.
(** [NewDefaultGrpcClientWithAuth], or [NewDefaultGrpcClient] without a user,
    under a timeout and for an address; [GetVersion] of the client. *)
Context (NewClient : Z -> string -> option (string * string) -> option error)
        (GetVersion : Z -> string -> res string).

(** [Collect] from the connection on. *)
Definition milvus_session (m : Metrics) (config : MilvusProtocol) (now responseTime : Z)
    : M net CollectRepMetricsData :=
  let addr := milvus_addr config in
  let timeout := milvus_timeout config in
  match NewClient timeout addr (milvus_auth config) with
  | Some e => mret (milvus_fail now m CollectUnConnectable ("failed to connect: " +:+ e))
  | None =>
      open_conn addr ;!
      r <-! (match GetVersion timeout addr with
             | Err e => mret (milvus_fail now m CollectFail ("failed to get version: " +:+ e))
             | Ok version =>
                 mret (add_rows (milvus_success now m)
                   [mkValueRow (milvus_column config version responseTime <$> m_AliasFields m)])
             end) ;
      close_conn addr ;!                     (** the deferred [Close] *)
      mret r
  end.

(** [Collect]; the clients that were open before are not touched. *)
Definition milvus_Collect (now responseTime : Z) (p : mptr) : M heap (option CollectRepMetricsData) :=
  m <-! load_metric p ;
  match m_Milvus m with
  | None => mpanic "nil pointer dereference"
  | Some l =>
      config <-! load as_milvus l ;
      mret (outcome_val (milvus_session m config now responseTime []))
  end.

(** ** Proofs *)

(** What the collector reports. *)
Definition milvus_report (m : Metrics) (config : MilvusProtocol) (now responseTime : Z)
    : CollectRepMetricsData :=
  match NewClient (milvus_timeout config) (milvus_addr config) (milvus_auth config) with
  | Some e => response now m CollectUnConnectable ("failed to connect: " +:+ e) [] []
  | None =>
      match GetVersion (milvus_timeout config) (milvus_addr config) with
      | Err e => response now m CollectFail ("failed to get version: " +:+ e) [] []
      | Ok version =>
          response now m CollectSuccess "success" []
            [mkValueRow (milvus_column config version responseTime <$> m_AliasFields m)]
      end
  end.

Lemma milvus_session_report m config now rt n :
  milvus_session m config now rt n = Ret n (milvus_report m config now rt).
Proof.
  unfold milvus_session, milvus_report. destruct (NewClient _ _ _); [done|].
  unfold open_conn, close_conn, mbind', mmodify, mret.
  destruct (GetVersion _ _); by rewrite remove_first.
Qed.

Lemma milvus_Collect_report now rt h a i ms m l config :
  cells h !! a = Some (OMetrics ms) -> ms !! i = Some m ->
  m_Milvus m = Some l -> cells h !! l = Some (OMilvus config) ->
  milvus_Collect now rt (a, i) h = Ret h (Some (milvus_report m config now rt)).
Proof.
  intros Ha Hm Hl Hc. unfold milvus_Collect. erewrite bind_ret by (by apply load_metric_at with ms).
  rewrite Hl. erewrite bind_ret by (unfold load; by rewrite Hc). by rewrite milvus_session_report.
Qed.

Lemma milvus_Collect_nil now rt h a i ms m :
  cells h !! a = Some (OMetrics ms) -> ms !! i = Some m -> m_Milvus m = None ->
  milvus_Collect now rt (a, i) h = Panic h "nil pointer dereference".
Proof.
  intros Ha Hm Hl. unfold milvus_Collect. erewrite bind_ret by (by apply load_metric_at with ms).
  by rewrite Hl.
Qed.

End Milvus.

(** The five kinds of columns, whatever the case of the alias. *)
Lemma milvus_columns config version rt :
  milvus_column config version rt <$> ["RESPONSETIME"; "Version"; "host"; "Port"; "other"]
  = [Itoa rt; version; milvus_Host config; milvus_Port config; NullValue].
Proof. reflexivity. Qed.

(** The Milvus collector on every branch, for a metric whose
    configuration PreCheck accepts: nothing stays open; an unreachable server
    and one that gives no version are reported as such, without rows; otherwise
    there is one row with, for each alias up to case, the response time, the
    version, the host, the port, or the placeholder of a null value.  A metric
    that PreCheck refuses makes it panic. *)
Theorem milvus_collects NewClient GetVersion now rt h a i ms m :
  cells h !! a = Some (OMetrics ms) -> ms !! i = Some m ->
  match m_Milvus m with
  | Some l =>
      forall config, cells h !! l = Some (OMilvus config) ->
        milvus_PreCheck (Some (a, i)) h = Ret h None /\
        milvus_Collect NewClient GetVersion now rt (a, i) h
          = Ret h (Some (milvus_report NewClient GetVersion m config now rt)) /\
        forall n, milvus_session NewClient GetVersion m config now rt n
          = Ret n (milvus_report NewClient GetVersion m config now rt)
  | None =>
      milvus_PreCheck (Some (a, i)) h = Ret h (Some "milvus configuration is missing") /\
      exists w, milvus_Collect NewClient GetVersion now rt (a, i) h = Panic h w
  end.
Proof.
  intros Ha Hm. assert (load_metric (a, i) h = Ret h m) as E by (by apply load_metric_at with ms).
  destruct (m_Milvus m) as [l|] eqn:Hl.
  - intros config Hc. split_and!.
    + unfold milvus_PreCheck. erewrite bind_ret by exact E. by rewrite Hl.
    + by eapply milvus_Collect_report.
    + intros n. apply milvus_session_report.
  - split; [unfold milvus_PreCheck; erewrite bind_ret by exact E; by rewrite Hl|].
    eexists. by eapply milvus_Collect_nil.
Qed.

Definition ex_milvus : MilvusProtocol := mkMilvusProtocol "db" "19530" "root" "" "2000".

Definition ex_milvus_metric : Metrics :=
  mkMetrics "basic" ANil 0 0 60 None [] ["version"; "responseTime"; "uptime"] ANil ANil ANil "milvus"
    "" "" "" "" None false None None None None None None None (Some 1%nat).

Definition ex_milvus_heap : heap :=
  mkHeap {[0%nat := OMetrics [ex_milvus_metric]; 1%nat := OMilvus ex_milvus]} 2 0.

Lemma milvus_collects_witness :
  milvus_Collect (fun _ _ _ => None) (fun _ _ => Ok "2.4.1") 1000 7 (0%nat, 0%nat) ex_milvus_heap =
  Ret ex_milvus_heap (Some (response 1000 ex_milvus_metric CollectSuccess "success" []
    [mkValueRow ["2.4.1"; "7"; "&nbsp;"]])).
Proof.
  exact (proj1 (proj2 (milvus_collects (fun _ _ _ => None) (fun _ _ => Ok "2.4.1") 1000 7 ex_milvus_heap
    0%nat 0%nat [ex_milvus_metric] ex_milvus_metric eq_refl eq_refl ex_milvus eq_refl))).
Defined.

(** A timeout of zero, or one that overflows to a negative duration, is used as
    it is; one that is no number is replaced by the default. *)
Example ex_milvus_timeouts :
  milvus_timeout <$> [mkMilvusProtocol "" "" "" "" "0"; mkMilvusProtocol "" "" "" "" "9223372036855";
                      mkMilvusProtocol "" "" "" "" "5s"]
  = [0; -9223372036854551616; 10000000000].
Proof. vm_compute. reflexivity. Qed.
