(* ===== verification/Collectors.v ===== *)
(** * The promise of the collectors

    The dispatcher (Collect) relies on an interface of collectors,
    [collector_ok].  Here it is compared with the collectors for SSH, Redis,
    databases, HTTP and Milvus, and with the registry that the program fills
    with them (the [init] functions of the packages that
    protocol/standard/imports.go imports). *)

From Stdlib Require Import Ascii String.
From S2P Require Import Prelude GoStrings GoFloat JobTypes Params Calc Collect Ssh Redis Jdbc Http Milvus.

Open Scope string_scope.
Open Scope list_scope.
Open Scope Z_scope.
Open Scope go_scope.

(** What is known of a collector whose configurations are of one kind: it
    collects the metrics that have one, and panics on all others. *)
Definition promise_if (configured : Metrics -> option loc)
    (collect : mptr -> M heap (option CollectRepMetricsData)) : Prop :=
  forall h a i ms m,
    heap_ok h -> cells h !! a = Some (OMetrics ms) -> ms !! i = Some m ->
    match configured m with
    | Some _ => exists r, collect (a, i) h = Ret h (Some r) /\ rep_Metrics r = m_Name m
    | None => exists w, collect (a, i) h = Panic h w
    end.

(** Such a collector keeps the interface of collectors if it wants its
    configuration. *)
Lemma promise_collector protocol configured wanted collect :
  (forall m, wanted (configs_of m) = true -> is_Some (configured m)) ->
  promise_if configured collect -> collector_ok wanted (mkCollector protocol collect).
Proof.
  intros Hw Hp h a i ks shape Hok Ht Hk Hs. destruct Ht as (o & Ha & Ht).
  destruct o; try discriminate Ht. injection Ht as <-.
  rewrite list_lookup_fmap in Hk. destruct (ms !! i) as [m|] eqn:Hm; [|discriminate Hk].
  injection Hk as <-. pose proof (Hp h a i ms m Hok Ha Hm) as H. destruct (Hw m Hs) as [l Hl].
  rewrite Hl in H. destruct H as (r & E & Hr). by exists h, r.
Qed.

Lemma milvus_names NewClient GetVersion m config now rt :
  rep_Metrics (milvus_report NewClient GetVersion m config now rt) = m_Name m.
Proof. unfold milvus_report. destruct (NewClient _ _ _); [done|]. by destruct (GetVersion _ _). Qed.

Lemma milvus_Collect_ok NewClient GetVersion now rt :
  promise_if m_Milvus (milvus_Collect NewClient GetVersion now rt).
Proof.
  intros h a i ms m [_ Hok] Ha Hm. destruct (m_Milvus m) as [l|] eqn:Hl.
  - pose proof (Hok a _ Ha) as Hms. simpl in Hms.
    pose proof (Forall_at _ _ _ _ Hms Hm) as (_ & _ & _ & _ & _ & Hmv). rewrite Hl in Hmv.
    destruct Hmv as (o & Ho & Ht). destruct o; try discriminate Ht.
    eexists. split; [by eapply milvus_Collect_report|]. apply milvus_names.
  - eexists. by eapply milvus_Collect_nil.
Qed.

(** ** The registry of the program *)

(** What the collectors of the program want of a metric. *)
Definition program_wants (protocol : string) (c : configs) : bool :=
  if String.eqb protocol "jdbc" then has_JDBC c
  else if String.eqb protocol "http" then has_HTTP c
  else if String.eqb protocol "redis" then has_Redis c
  else if String.eqb protocol ProtocolMilvus then has_Milvus c
  else true.

(** The answers of the servers, and the readings of the clock, are functions of
    the requests. *)
Section Program.
Context (pem_Decode : string -> option (string * string)) {Key Signer : Type}
        (pkcs1 pkcs8 ec raw : string -> res Key) (NewSignerFromKey : Key -> res Signer)
        (dial_tcp : string -> option error) (handshake : string -> @ClientConfig Signer -> option error)
        (client_Dial : string -> string -> option error) (NewSession : string -> option error)
        (session_Run : string -> string -> option error * string * string).
Context (Info : string -> option string -> res string) (cluster_info : string -> res string)
        (masters slaves : string -> list string) (order : list string -> list string)
        {CC : Type} (create_config : SSHProtocol -> res CC).
Context (ssh_Dial : string -> string -> string -> Z -> option error) (net_Listen : res string)
        (sql_Open : string -> string -> option error) (Ping : string * string -> Z -> option error)
        (Query : string * string -> Z -> string -> dberr + rows)
        (Exec : string * string -> Z -> string -> dberr + res Z).
Context {URL : Type} (url_Parse : string -> res URL) (RawQuery : URL -> string)
        (set_RawQuery : URL -> string -> URL) (RequestURI url_String : URL -> string)
        (client_Do : Z -> nat -> @request URL -> res http_response)
        (header_order params_order : gmap string string -> list (string * string))
        (TextToMetricFamilies : string -> res (list (list prom_metric))) (random : list N).
Context (NewClient : Z -> string -> option (string * string) -> option error)
        (GetVersion : Z -> string -> res string).
Context (now rt : Z).

(** The factories of the five packages. *)
Definition NewJDBCCollector : Collector :=
  mkCollector "jdbc" (jdbc_Collect ssh_Dial net_Listen sql_Open Ping Query Exec now rt).
Definition NewHTTPCollector : Collector :=
  mkCollector "http" (http_Collect url_Parse RawQuery set_RawQuery RequestURI url_String client_Do
    header_order params_order TextToMetricFamilies random now rt).
Definition NewRedisCollector : Collector :=
  mkCollector "redis" (redis_Collect Info cluster_info masters slaves order create_config now rt).
Definition NewMilvusCollector : Collector :=
  mkCollector ProtocolMilvus (milvus_Collect NewClient GetVersion now rt).
Definition NewSSHCollector : Collector :=
  Ssh.SSHCollector pem_Decode pkcs1 pkcs8 ec raw NewSignerFromKey dial_tcp handshake client_Dial
    NewSession session_Run now rt.

(** The [init] functions of their packages, in the order in which Go initialises the packages. *)
Definition init_collectors (r : CollectorRegistry Collector) : CollectorRegistry Collector :=
  foldl (fun r c => RegisterFactory (col_Protocol c) c r) r
    [NewJDBCCollector; NewHTTPCollector; NewRedisCollector; NewSSHCollector; NewMilvusCollector].

Definition program_registry : CollectorRegistry Collector :=
  InitializeCollectors (init_collectors globalRegistry).

Lemma program_collectors :
  collectors program_registry =
    <[ProtocolMilvus := NewMilvusCollector]> (<["ssh" := NewSSHCollector]> (<["redis" := NewRedisCollector]>
      (<["http" := NewHTTPCollector]> (<["jdbc" := NewJDBCCollector]> ∅)))).
Proof. unfold program_registry, InitializeCollectors. cbn. by rewrite map_union_empty. Qed.

(** Each collector but that for SSH wants its configuration. *)
Lemma own_promises :
  (forall u, exists u', url_Parse (url_String u) = Ok u') ->
  promise_if m_JDBC (col_Collect NewJDBCCollector) /\ promise_if m_HTTP (col_Collect NewHTTPCollector) /\
  promise_if m_Redis (col_Collect NewRedisCollector) /\ promise_if m_Milvus (col_Collect NewMilvusCollector).
Proof.
  intros Hp. split_and!; intros h a i ms m.
  - apply jdbc_Collect_ok.
  - by apply http_Collect_ok.
  - apply redis_Collect_ok.
  - apply milvus_Collect_ok.
Qed.

Lemma program_collectors_ok :
  (forall u, exists u', url_Parse (url_String u) = Ok u') -> collectors_ok program_registry program_wants.
Proof.
  intros (HJ & HH & HR & HM)%own_promises. unfold collectors_ok. rewrite program_collectors.
  repeat apply map_Forall_insert_2; [|apply ssh_Collect_ok| | | |apply map_Forall_empty].
  - apply (promise_collector _ m_Milvus); [|done]. intros m. apply bool_decide_eq_true_1.
  - apply (promise_collector _ m_Redis); [|done]. intros m. apply bool_decide_eq_true_1.
  - apply (promise_collector _ m_HTTP); [|done]. intros m. apply bool_decide_eq_true_1.
  - apply (promise_collector _ m_JDBC); [|done]. intros m. apply bool_decide_eq_true_1.
Qed.

(** C27 (refinement). What the dispatcher relies on of the collectors, and what
    the program gives it.  Once the collectors are initialised there is one for
    each of the five protocols, and each keeps the interface on every metric
    that has the configuration it wants, whatever the servers answer: the
    collectors for Redis, databases, HTTP and Milvus want one of theirs, that
    for SSH wants none.  On any other metric the first four panic, where
    PreCheck would have refused the metric, had it been called.  For HTTP the
    URLs that have been parsed once are parsed again. *)
Theorem collectors_promise :
  (forall u, exists u', url_Parse (url_String u) = Ok u') ->
  SupportedProtocols program_registry = {["jdbc"; "http"; "redis"; "ssh"; "milvus"]} /\
  collectors_ok program_registry program_wants /\
  promise_if m_JDBC (col_Collect NewJDBCCollector) /\ promise_if m_HTTP (col_Collect NewHTTPCollector) /\
  promise_if m_Redis (col_Collect NewRedisCollector) /\ promise_if m_Milvus (col_Collect NewMilvusCollector).
Proof.
  intros Hp. split; [reflexivity|]. split; [by apply program_collectors_ok|by apply own_promises].
Qed.

End Program.

(** The registry over servers of which only one for Redis answers, until the
    clock reads 6. *)
Definition ex_program (now : Z) : CollectorRegistry Collector :=
  program_registry (Key := Empty_set) (Signer := Empty_set) (fun _ => None) (fun _ => Err "")
    (fun _ => Err "") (fun _ => Err "") (fun _ => Err "") (fun _ => Err "") (fun _ => None)
    (fun _ _ => None) (fun _ _ => None) (fun _ => None) (fun _ _ => (None, "out", ""))
    (fun _ _ => if now <? 6 then Ok "redis_version:7" else Err "timeout") (fun _ => Ok "") (fun _ => []) (fun _ => []) (fun l => l) (fun _ => Ok tt)
    (fun _ _ _ _ => None) (Ok "") (fun _ _ => None) (fun _ _ => None) (fun _ _ _ => inl (plain ""))
    (fun _ _ _ => inl (plain "")) (URL := string) Ok (fun _ => "") (fun u _ => u) (fun u => u) (fun u => u)
    (fun _ _ _ => Err "refused") map_to_list map_to_list (fun _ => Err "") [] (fun _ _ _ => None)
    (fun _ _ => Err "") now 0.

Lemma ex_program_ok now : collectors_ok (ex_program now) program_wants.
Proof. unfold ex_program. apply program_collectors_ok. intros u. by exists u. Qed.

Lemma collectors_promise_witness :
  SupportedProtocols (ex_program 0) = {["jdbc"; "http"; "redis"; "ssh"; "milvus"]} /\
  collectors_ok (ex_program 0) program_wants.
Proof.
  destruct (collectors_promise (Key := Empty_set) (Signer := Empty_set) (fun _ => None) (fun _ => Err "")
    (fun _ => Err "") (fun _ => Err "") (fun _ => Err "") (fun _ => Err "") (fun _ => None)
    (fun _ _ => None) (fun _ _ => None) (fun _ => None) (fun _ _ => (None, "out", ""))
    (fun _ _ => if 0 <? 6 then Ok "redis_version:7" else Err "timeout") (fun _ => Ok "") (fun _ => []) (fun _ => []) (fun l => l) (fun _ => Ok tt)
    (fun _ _ _ _ => None) (Ok "") (fun _ _ => None) (fun _ _ => None) (fun _ _ _ => inl (plain ""))
    (fun _ _ _ => inl (plain "")) (URL := string) Ok (fun _ => "") (fun u _ => u) (fun u => u) (fun u => u)
    (fun _ _ _ => Err "refused") map_to_list map_to_list (fun _ => Err "") [] (fun _ _ _ => None)
    (fun _ _ => Err "") 0 0 (fun u => ex_intro _ u eq_refl)) as (Hs & Hc & _).
  exact (conj Hs Hc).
Defined.

(** Metrics of the example want a configuration for HTTP that they lack: the
    dispatch of their job panics, in a goroutine that recovers nothing. *)
Example unconfigured_metric_panics :
  Forall (fun m => ~ served program_wants m) [ex_metric "cpu" 0 0 60; ex_metric "late" 1 0 60] /\
  match DispatchMetricsTask no_program no_run no_json no_json no_json in_key_order (ex_program 0)
          (handler keep) map_to_list 100000 id (fun _ => true) (Some 0%nat) (ex_heap, []) with
  | Panic _ why => why
  | Ret _ _ => ""
  end = "nil pointer dereference".
Proof. split; [by repeat constructor|vm_compute; reflexivity]. Qed.
