(* ===== verification/EndToEnd.v ===== *)
(** * From the messages of the manager to the results

    The collector of Collector with the heap that its jobs are in: the processor
    of a task (internal/transport/processors.go) decodes a job into fresh
    objects, and the task of the job (wheel_timer_task.go) dispatches the
    collection of its metrics (common_dispatcher.go) on the job it points to.
    The steps of the two systems correspond, with the results of a collection in
    the place of an input. *)

From Stdlib Require Import Ascii String.
From S2P Require Import Prelude GoStrings WheelTimer TimerService JobTypes Crypto Params TimeDispatch Scheduler Agenda JobServer Processors Calc Collect Router Collector Ssh Redis Http Milvus Collectors.

Open Scope string_scope.
Open Scope list_scope.
Open Scope Z_scope.
Open Scope go_scope.

(** ** State and steps *)

(** [ma_jobs]: the pointer to the job that is registered under an id; the task
    of a job holds it. *)
Record machine (T : Type) := mkMachine {
  ma_collector : collector T;
  ma_heap : heap;
  ma_jobs : gmap Z loc;
}.
Arguments mkMachine {T} _ _ _.
Arguments ma_collector {T} _.
Arguments ma_heap {T} _.
Arguments ma_jobs {T} _.

(** The steps of the collector.  [MFinish] runs the collection from the clock
    reading [start]; [turn] tells in which order the goroutines of the metrics
    run, and [received] which results arrive before the deadline. *)
Inductive machine_event :=
| MMessage (now : Z) (msg : Message)
| MTick
| MBegin (id now : Z)
| MFinish (id start now : Z) (turn : nat -> nat) (received : nat -> bool)
| MOffline.

(** [json.Unmarshal] into a new Job: the heap, and the pointer or the error. *)
Definition job_decoder : Type := string -> heap -> heap * res loc.

(** What the code relies on: a decoder allocates. *)
Record decoder_ok (decode : job_decoder) : Prop := mkDecoderOk {
  de_heap text h : heap_ok h -> heap_ok (fst (decode text h));
  de_old text h l o : heap_ok h -> cells h !! l = Some o -> cells (fst (decode text h)) !! l = Some o;
  de_new text h p : heap_ok h -> snd (decode text h) = Ok p ->
    cells h !! p = None /\ exists j, cells (fst (decode text h)) !! p = Some (OJob j);
}.

Section Machine.
Context {T : Type} `{!TimerOps T WheelTimerTask}.
Context (unmarshal_secret : string -> res string) (decode : job_decoder)
        (unmarshal_ids : string -> res (list Z)) (unmarshal_id : string -> res Z).
Context (kind : clientKind) (ipc_write : arrow_record -> ipc_outcome) (identity : string).
Context {program : Type} (compile : string -> res program)
        (run : program -> gmap string any -> res any).
Context (to_strings : any -> option (list string)) (to_calculates : any -> option (list Calculate))
        (to_units : any -> option (list Unit)).
Context (order : nat -> gmap string string -> list (string * string)).
(** [reg now]: the collectors, with what the servers answer to a collection that
    starts at [now]. *)
Context (reg : Z -> CollectorRegistry Collector).
Context (visit : gmap Z (list mptr) -> list (Z * list mptr)).
Implicit Types m : machine T.

(** The job that a text is decoded into. *)
Definition decoded (h : heap) (text : string) : res Job :=
  match snd (decode text h) with
  | Ok p => match cells (fst (decode text h)) !! p with
            | Some (OJob j) => Ok j
            | _ => Err "not a job"
            end
  | Err e => Err e
  end.

(** Whether the processor of a message decodes a job. *)
Definition decodes (msg : Message) (c : client (Runner T)) : bool :=
  ((msg_Type msg =? MessageTypeIssueCyclicTask) || (msg_Type msg =? MessageTypeIssueOneTimeTask)) &&
  negb (awaited (cl_table c) msg) && bool_decide (is_Some (cl_scheduler c)).

(** The heap after the processor of a message has run, and the pointers to the
    registered jobs: a task message is decoded, and its job changed in place. *)
Definition message_heap (msg : Message) m : heap * gmap Z loc :=
  let c := co_client (ma_collector m) in
  if decodes msg c then
    let '(h, r) := decode (msg_Msg msg) (ma_heap m) in
    match issued (decoded (ma_heap m)) (cl_secretKey c) msg, r with
    | Some j, Ok p => (mkHeap (<[p := OJob j]> (cells h)) (hnext h) (hranges h), <[job_ID j := p]> (ma_jobs m))
    | _, _ => (h, ma_jobs m)
    end
  else (ma_heap m, ma_jobs m).

(** A step that leaves the heap alone. *)
Definition on_collector (o : outcome (collector T) unit) (h : heap) (jobs : gmap Z loc)
    : outcome (machine T) unit :=
  match o with
  | Ret s _ => Ret (mkMachine s h jobs) tt
  | Panic s w => Panic (mkMachine s h jobs) w
  end.

Definition machine_step (e : machine_event) m : outcome (machine T) unit :=
  let s := ma_collector m in
  let step := collector_step unmarshal_secret (decoded (ma_heap m)) unmarshal_ids unmarshal_id
                kind ipc_write identity in
  match e with
  | MMessage now msg =>
      let '(h, jobs) := message_heap msg m in
      on_collector (step (CMessage now msg) s) h jobs
  | MTick => on_collector (step CTick s) (ma_heap m) (ma_jobs m)
  | MBegin id now => on_collector (step (CBegin id now) s) (ma_heap m) (ma_jobs m)
  | MFinish id start now turn received =>
      match flight_at id true (co_flight s) with
      | Some i =>
          match DispatchMetricsTask compile run to_strings to_calculates to_units order (reg start)
                  (fun r => HandleCollectData ipc_write kind true identity (Some r)) visit
                  start turn received (ma_jobs m !! id) (ma_heap m, Some (co_client s)) with
          | Ret (h, c) err =>
              on_collector
                (schedule (EFinish i now err) (mkCollector (default (co_client s) c) (co_flight s)))
                h (ma_jobs m)
          | Panic (h, c) w =>
              Panic (mkMachine (mkCollector (default (co_client s) c) (co_flight s)) h (ma_jobs m)) w
          end
      | None => Ret m tt
      end
  | MOffline => on_collector (step COffline s) (ma_heap m) (ma_jobs m)
  end.

Fixpoint machine_run (es : list machine_event) m : outcome (machine T) (list (list Z * list Message)) :=
  match es with
  | [] => Ret m []
  | e :: es =>
      match machine_step e m with
      | Ret m' _ =>
          match machine_run es m' with
          | Ret m'' obs => Ret m'' (observed (ma_collector m) (ma_collector m') :: obs)
          | Panic m'' w => Panic m'' w
          end
      | Panic m' w => Panic m' w
      end
  end.

(** ** The plan *)

(** [wants]: the configurations that a collector wants of a metric. *)
Context (wants : string -> configs -> bool) (ticks : Z -> Z).
Implicit Types p : plan.

(** The step of the collector, given the results of a collection. *)
Definition collector_event_of (e : machine_event) (rs : list CollectRepMetricsData) : collector_event :=
  match e with
  | MMessage now msg => CMessage now msg
  | MTick => CTick
  | MBegin id now => CBegin id now
  | MFinish id _ now _ _ => CFinish id now rs
  | MOffline => COffline
  end.

(** The metrics of a job: names, protocols and configurations. *)
Definition metrics_of (h : heap) (j : Job) : list ((string * string) * configs) :=
  match job_Metrics j ≫= fun a => cells h !! a with
  | Some (OMetrics ms) => metric_shape <$> ms
  | _ => []
  end.

(** The results of the collection at the end of a task, which left the heap [h]:
    the job that the manager issued under the id is dispatched, so that each of
    its metrics is collected once, and there is one result for each of them
    that arrives, in the order of the metrics. *)
Definition results_of (e : machine_event) m p (h : heap) (rs : list CollectRepMetricsData) : Prop :=
  match e with
  | MFinish id start _ _ received =>
      id ∈ pl_begun p ->
      exists j ph l j1, ag_jobs (pl_agenda p) !! id = Some (j, ph) /\
        ma_jobs m !! id = Some l /\ cells (ma_heap m) !! l = Some (OJob j1) /\ job_key j1 = job_key j /\
        dispatched compile run to_strings to_calculates to_units order (reg start) visit
          start received l (metrics_of (ma_heap m) j) (ma_heap m) rs h /\
        Forall2 (result_of (reg start) (job_key j))
          (arrived received 0 (fst <$> metrics_of (ma_heap m) j)) rs
  | _ => rs = []
  end.

Definition next_plan (e : machine_event) m p : plan :=
  plan_step unmarshal_secret (decoded (ma_heap m)) unmarshal_ids unmarshal_id kind ticks
    (collector_event_of e []) p.

(** The messages fit the plan, and the metrics of a job have distinct names and
    the configurations that their collectors want. *)
Definition machine_fits (e : machine_event) m p : Prop :=
  plan_fits (decoded (ma_heap m)) unmarshal_ids unmarshal_id ticks (collector_event_of e []) p /\
  match e with
  | MMessage _ msg =>
      match issued (decoded (ma_heap m)) (pl_key p) msg with
      | Some j => exists a ms, job_Metrics j = Some a /\
          cells (fst (decode (msg_Msg msg) (ma_heap m))) !! a = Some (OMetrics ms) /\
          NoDup (m_Name <$> ms) /\ Forall (served wants) ms
      | None => True
      end
  | _ => True
  end.

(** Each event fits the plan in the state where it comes. *)
Fixpoint machine_ok (es : list machine_event) m p : Prop :=
  match es with
  | [] => True
  | e :: es =>
      machine_fits e m p /\
      match machine_step e m with
      | Ret m' _ => machine_ok es m' (next_plan e m p)
      | Panic _ _ => True
      end
  end.

(** Each step shows what the plan expects. *)
Fixpoint machine_follows (es : list machine_event) m p (obs : list (list Z * list Message)) : Prop :=
  match es, obs with
  | [], [] => True
  | e :: es, o :: obs =>
      match machine_step e m with
      | Ret m' _ =>
          (exists rs, results_of e m p (ma_heap m') rs /\
             as_expected o (expected kind ipc_write identity (collector_event_of e rs) p)) /\
          machine_follows es m' (next_plan e m p) obs
      | Panic _ _ => False
      end
  | _, _ => False
  end.

End Machine.

(** ** The machine follows its plan *)

Section Follows.
Context {T : Type} `{!TimerOps T WheelTimerTask, !TimerLaws T WheelTimerTask,
                     !TimerClock T WheelTimerTask}.
Context (unmarshal_secret : string -> res string) (decode : job_decoder)
        (unmarshal_ids : string -> res (list Z)) (unmarshal_id : string -> res Z).
Context (kind : clientKind) (ipc_write : arrow_record -> ipc_outcome) (identity : string).
Context {program : Type} (compile : string -> res program)
        (run : program -> gmap string any -> res any).
Context (to_strings : any -> option (list string)) (to_calculates : any -> option (list Calculate))
        (to_units : any -> option (list Unit)).
Context (order : nat -> gmap string string -> list (string * string)).
Context (reg : Z -> CollectorRegistry Collector).
Context (visit : gmap Z (list mptr) -> list (Z * list mptr)) (wants : string -> configs -> bool)
        (ticks : Z -> Z).
Hypothesis Hreg : forall now, collectors_ok (reg now) wants.
Hypothesis Hdec : decoder_ok decode.
Implicit Types (m : machine T) (p : plan).

Local Abbreviation mstep := (machine_step unmarshal_secret decode unmarshal_ids unmarshal_id kind
  ipc_write identity compile run to_strings to_calculates to_units order reg visit) (only parsing).
Local Abbreviation results := (results_of compile run to_strings to_calculates to_units order reg visit)
  (only parsing).
Local Abbreviation next := (next_plan unmarshal_secret decode unmarshal_ids unmarshal_id kind ticks)
  (only parsing).
Local Abbreviation fits := (machine_fits decode unmarshal_ids unmarshal_id wants ticks) (only parsing).

(** The job with its metrics is where its pointer says. *)
Definition job_in (h : heap) (ptrs : gmap Z loc) (id : Z) (j : Job) : Prop :=
  exists l a ks, ptrs !! id = Some l /\ has_tag h l (TJob (job_key j)) /\
    job_Metrics j = Some a /\ has_tag h a (TMetrics ks) /\
    NoDup (shape_name <$> ks) /\ Forall (served_shape wants) ks.

Record machine_inv m p : Prop := mkMachineInv {
  mi_follows : follows ticks (ma_collector m) p;
  mi_heap : heap_ok (ma_heap m);
  mi_jobs : map_Forall (job_in (ma_heap m) (ma_jobs m)) (ag_registered (pl_agenda p));
}.

Lemma job_in_ext h h' ptrs id j : ext h h' -> job_in h ptrs id j -> job_in h' ptrs id j.
Proof.
  intros He (l & a & ks & Hl & Ht & Ha & Hm & Hnd & Hw). exists l, a, ks.
  split_and!; [done|by apply He|done|by apply He|done|done].
Qed.

Lemma ext_decode text h : heap_ok h -> ext h (fst (decode text h)).
Proof. intros Hh l t (o & Ho & Ht). exists o. split; [by apply de_old|done]. Qed.

(** The job that a message issues is the decoded one, with its flag set and its
    passwords decrypted. *)
Lemma issued_decoded h key msg j :
  issued (decoded decode h) key msg = Some j ->
  (msg_Type msg =? MessageTypeIssueCyclicTask) || (msg_Type msg =? MessageTypeIssueOneTimeTask) = true /\
  exists l j0 b, snd (decode (msg_Msg msg) h) = Ok l /\
    cells (fst (decode (msg_Msg msg) h)) !! l = Some (OJob j0) /\ j = set_cyclic b (preprocess_job key j0).
Proof.
  unfold issued, decoded. intros H.
  destruct (snd (decode (msg_Msg msg) h)) as [l|e]; [|by repeat case_match].
  destruct (cells _ !! l) as [[]|] eqn:El; try by repeat case_match.
  destruct (msg_Type msg =? MessageTypeIssueCyclicTask);
    [|destruct (msg_Type msg =? MessageTypeIssueOneTimeTask); [|done]];
    injection H as <-; (split; [done|]); by do 3 eexists.
Qed.

(** The registered jobs after a step. *)
Lemma registered_next e m p :
  ag_registered (pl_agenda (next e m p)) =
    match e with
    | MMessage _ msg =>
        match issued (decoded decode (ma_heap m)) (pl_key p) msg with
        | Some j => <[job_ID j := j]> (ag_registered (pl_agenda p))
        | None => foldl (fun g id => delete id g) (ag_registered (pl_agenda p))
                    (deleted unmarshal_ids unmarshal_id msg)
        end
    | _ => ag_registered (pl_agenda p)
    end.
Proof.
  destruct e as [now msg| |id now|id start now turn received|];
    cbn [next_plan collector_event_of plan_step pl_agenda set_agenda]; try done.
  - unfold message_agenda. destruct (issued _ _ _) as [j|]; [by rewrite ag_registered_step|].
    generalize (pl_agenda p) as a. induction (deleted _ _ msg) as [|id ids IH]; intros a; [done|].
    cbn [foldl]. by rewrite IH, ag_registered_step.
  - by rewrite ag_registered_step.
  - case_decide; [|done]. cbn [pl_agenda]. by rewrite ag_registered_step.
Qed.

Lemma deletions_sub (g : gmap Z Job) ids : foldl (fun g id => delete id g) g ids ⊆ g.
Proof.
  revert g. induction ids as [|id ids IH]; intros g; [done|]. cbn [foldl].
  etransitivity; [apply IH|apply delete_subseteq].
Qed.

(** The heap and the pointers after a message. *)
Lemma message_keeps now msg m p :
  machine_inv m p -> fits (MMessage now msg) m p ->
  let '(h, ptrs) := message_heap decode msg m in
  heap_ok h /\ map_Forall (job_in h ptrs) (ag_registered (pl_agenda (next (MMessage now msg) m p))).
Proof.
  intros [Hf Hh Hjobs] [(_ & _ & Hreq & Hadd & _) Hmet]. rewrite registered_next.
  cbn [collector_event_of plan_fits] in *.
  pose proof (fo_key _ _ _ Hf) as Hk. destruct (fo_runner _ _ _ Hf) as (r & Hr & _).
  unfold message_heap, decodes. rewrite Hk, Hr.
  assert (awaited (cl_table (co_client (ma_collector m))) msg = false) as -> by (unfold awaited; by rewrite Hreq).
  rewrite bool_decide_true by by eexists. cbn [negb]. rewrite !andb_true_r.
  destruct (issued _ (pl_key p) msg) as [j|] eqn:Ei.
  - destruct (issued_decoded _ _ _ _ Ei) as (-> & l & j0 & b & El & Ej0 & Ej).
    destruct Hmet as (a & ms & Ha & Hms & Hnd & Hw).
    pose proof (ext_decode (msg_Msg msg) (ma_heap m) Hh) as He.
    pose proof (de_heap _ Hdec (msg_Msg msg) _ Hh) as Hh1.
    destruct (de_new _ Hdec _ _ _ Hh El) as [Hfresh _].
    pose proof (fun l o => de_old _ Hdec (msg_Msg msg) (ma_heap m) l o Hh) as Hold.
    destruct (decode (msg_Msg msg) (ma_heap m)) as [h1 r1]. cbn [fst snd] in *. subst r1.
    set (h2 := mkHeap _ _ _). split; [|apply map_Forall_insert_2].
    + apply (heap_ok_job h1 l j0); [done..|]. subst j. exact (proj2 Hh1 l _ Ej0).
    + exists l, a, (metric_shape <$> ms). split_and!; [by rewrite lookup_insert_eq| |done| | |by apply Forall_fmap].
      * exists (OJob j). cbn. by rewrite lookup_insert_eq.
      * exists (OMetrics ms). cbn. rewrite lookup_insert_ne; [done|]. congruence.
      * by rewrite <- list_fmap_compose.
    + intros id k Hk'. destruct (Hadd j eq_refl) as [_ Hnone].
      assert (id <> job_ID j) as Hne.
      { intros ->. unfold ag_registered in Hk'. rewrite lookup_fmap, Hnone in Hk'. done. }
      destruct (Hjobs id k Hk') as (l' & a' & ks & Hl' & (o & Ho & Ht) & Ha' & (o' & Ho' & Ht') & Hnd' & Hw').
      exists l', a', ks. split_and!; [by rewrite lookup_insert_ne| |done| |done|done].
      * exists o. cbn. rewrite lookup_insert_ne by congruence. by split; [apply Hold|].
      * exists o'. cbn. rewrite lookup_insert_ne by congruence. by split; [apply Hold|].
  - assert (map_Forall (job_in (ma_heap m) (ma_jobs m)) (foldl (fun g id => delete id g)
      (ag_registered (pl_agenda p)) (deleted unmarshal_ids unmarshal_id msg))) as Hdel
      by (intros id k Hid; apply Hjobs; by eapply lookup_weaken, deletions_sub).
    destruct (_ || _); [|done]. destruct (decode (msg_Msg msg) (ma_heap m)) as [h1 r1] eqn:E1.
    pose proof (ext_decode (msg_Msg msg) (ma_heap m) Hh) as He.
    pose proof (de_heap _ Hdec (msg_Msg msg) _ Hh) as Hh1. rewrite E1 in He, Hh1.
    split; [done|]. intros id k Hk'. apply (job_in_ext (ma_heap m)); [done|by apply Hdel].
Qed.

(** What the theorem says of one step. *)
Definition machine_step_follows (e : machine_event) m p : Prop :=
  exists m', mstep e m = Ret m' tt /\ machine_inv m' (next e m p) /\
    exists rs, results e m p (ma_heap m') rs /\
      as_expected (observed (ma_collector m) (ma_collector m'))
        (expected kind ipc_write identity (collector_event_of e rs) p).

(** A step that the collector makes as it stands. *)
Lemma plain_step_follows e m p h ptrs :
  machine_inv m p -> fits e m p ->
  mstep e m = on_collector (collector_step unmarshal_secret (decoded decode (ma_heap m)) unmarshal_ids
    unmarshal_id kind ipc_write identity (collector_event_of e []) (ma_collector m)) h ptrs ->
  heap_ok h -> map_Forall (job_in h ptrs) (ag_registered (pl_agenda (next e m p))) ->
  results e m p h [] -> machine_step_follows e m p.
Proof.
  intros [Hf _ _] [Hfit _] E Hh Hjobs Hrs.
  destruct (follow_step unmarshal_secret (decoded decode (ma_heap m)) unmarshal_ids unmarshal_id
    kind ipc_write identity ticks _ _ _ Hf Hfit) as (s' & E' & Hf' & Ho).
  exists (mkMachine s' h ptrs). split; [by rewrite E, E'|]. split; [by split|]. by exists [].
Qed.

(** What is needed of the job of a task to dispatch it. *)
Lemma job_in_heap h ptrs id j :
  job_in h ptrs id j ->
  exists l j1 a ms, ptrs !! id = Some l /\ cells h !! l = Some (OJob j1) /\ job_key j1 = job_key j /\
    job_Metrics j1 = Some a /\ cells h !! a = Some (OMetrics ms) /\ NoDup (m_Name <$> ms) /\
    Forall (served wants) ms /\ metrics_of h j = metric_shape <$> ms.
Proof.
  intros (l & a & ks & Hl & (o & Ho & Ht) & Ha & (o' & Ho' & Ht') & Hnd & Hw).
  destruct o as [| | | | | | | | | | | |j1]; try discriminate Ht.
  destruct o' as [| | | | | | | | | | |ms|]; try discriminate Ht'.
  injection Ht' as <-. rewrite <- list_fmap_compose in Hnd. rewrite Forall_fmap in Hw.
  assert (job_key j1 = job_key j) as Hkey by (unfold tag_of in Ht; congruence).
  exists l, j1, a, ms. split_and!; try done; [unfold job_key in Hkey; congruence|].
  unfold metrics_of. rewrite Ha. cbn. by rewrite Ho'.
Qed.

Lemma finish_step_follows n start now turn received m p :
  machine_inv m p -> fits (MFinish n start now turn received) m p ->
  machine_step_follows (MFinish n start now turn received) m p.
Proof.
  intros Hinv Hfit. pose proof Hinv as [Hf Hh Hjobs]. unfold machine_step_follows.
  destruct (flight_at n true (co_flight (ma_collector m))) as [i|] eqn:Ei.
  2:{ apply (plain_step_follows _ _ _ (ma_heap m) (ma_jobs m)); [done|done| |done|by rewrite registered_next|].
      - unfold machine_step. rewrite Ei. cbn [collector_event_of collector_step]. rewrite Ei. by destruct m.
      - intros (j & Hin & Hid)%(fo_begun _ _ _ Hf). by apply (flight_at_None _ _ _ _ Ei) in Hin. }
  destruct (flight_at_Some _ _ _ _ Ei) as (j & Hi & Hid).
  destruct (fo_runner _ _ _ Hf) as (r & Hr & Hs & _).
  pose proof (flight_phase ticks _ _ _ j true Hs (list_elem_of_lookup_2 _ _ _ Hi)) as Hj. rewrite Hid in Hj.
  assert (ag_registered (pl_agenda p) !! n = Some j) as Hreg' by (unfold ag_registered; by rewrite lookup_fmap, Hj).
  destruct (job_in_heap _ _ _ _ (Hjobs n j Hreg')) as (l & j1 & a & ms & Hl & Hl1 & Hkey & Ha & Hms & Hnd & Hw & Hmet).
  destruct (dispatch_client compile run to_strings to_calculates to_units order (reg start) wants ipc_write kind identity visit
    start turn received (ma_heap m) (co_client (ma_collector m)) l j1 a ms (Hreg start) Hh Hl1 Ha Hms Hnd Hw)
    as (h' & rs & E & Hh' & He & Hd & Hrs).
  destruct (follow_step unmarshal_secret (decoded decode (ma_heap m)) unmarshal_ids unmarshal_id
    kind ipc_write identity ticks (CFinish n now rs) _ _ Hf (proj1 Hfit)) as (s' & E' & Hf' & Ho).
  exists (mkMachine s' h' (ma_jobs m)). split; [|split; [split; [exact Hf'|done|]|]].
  - unfold machine_step. rewrite Ei, Hl, E. cbn [collector_step] in E'.
    rewrite Ei, Hi, results_sent in E'.     rewrite (message_of_cyclic ipc_write identity j1 j) by (unfold job_key in Hkey; congruence).
    cbn [from_option] in *. unfold id in *. by rewrite E'.
  - rewrite registered_next. intros k x Hk. by apply (job_in_ext (ma_heap m)), Hjobs.
  - exists rs. split; [|done]. intros _. exists j, Running, l, j1. rewrite Hmet. split_and!; try done.
    by rewrite <- list_fmap_compose, <- Hkey.
Qed.

Lemma machine_follows_step e m p : machine_inv m p -> fits e m p -> machine_step_follows e m p.
Proof.
  intros Hinv Hfit. pose proof Hinv as [_ Hh Hjobs]. destruct e as [now msg| |id now|id start now turn received|].
  - pose proof (message_keeps now msg m p Hinv Hfit) as Hkeep.
    destruct (message_heap decode msg m) as [h ptrs] eqn:E. destruct Hkeep.
    apply (plain_step_follows _ _ _ h ptrs); try done. unfold machine_step. by rewrite E.
  - by apply (plain_step_follows _ _ _ (ma_heap m) (ma_jobs m)); [..|rewrite registered_next|].
  - by apply (plain_step_follows _ _ _ (ma_heap m) (ma_jobs m)); [..|rewrite registered_next|].
  - by apply finish_step_follows.
  - by apply (plain_step_follows _ _ _ (ma_heap m) (ma_jobs m)); [..|rewrite registered_next|].
Qed.

End Follows.

(** C3 (refinement). From the messages of the manager to the results of the
    jobs.  Over a decoder that allocates, collectors that keep their interface
    (those of the program do, where they have the configurations that they
    want), a well-typed heap and an idle timer, and for every interleaving of
    the manager's requests, ticks, parts of tasks and the shutdown of the client
    that fits the plan, nothing panics, and each step shows what the plan
    expects: at a tick exactly the jobs of the agenda start; a Netty client replies
    once to every request of the six answered types; at the end of a task the job
    of its id is dispatched: every metric of it is collected once, in any order,
    from a clone of the job, by one call of the collector of its protocol, or gives
    the error where there is none, and of the results that arrive before the
    deadline each that can be written goes out as one message, in the order of the
    metrics.  The heap stays well-typed.  To fit the plan, the metrics of an issued job have distinct
    names and the configurations that their collectors want.  The handler of a
    message and the collection of a job are one step each. *)
Theorem machine_follows_plan {T} `{!TimerOps T WheelTimerTask, !TimerLaws T WheelTimerTask,
                                   !TimerClock T WheelTimerTask}
    unmarshal_secret decode unmarshal_ids unmarshal_id kind ipc_write identity
    {program} compile (run : program -> gmap string any -> res any)
    to_strings to_calculates to_units order reg visit wants
    now (timer : T) (c : client (Runner T)) h es :
  timer_ok timer -> timer_active timer -> pending timer = [] ->
  cl_scheduler c = Some (mkRunner (NewTimeDispatch now timer) ∅) ->
  decoder_ok decode -> (forall now, collectors_ok (reg now) wants) -> heap_ok h ->
  let ticks := timer_ticks timer in
  let p0 := mkPlan (cl_secretKey c) (cl_started c) (cl_shutdown c) ∅ (mkAgenda (timer_now timer) ∅) in
  let m0 := mkMachine (mkCollector c []) h ∅ in
  machine_ok unmarshal_secret decode unmarshal_ids unmarshal_id kind ipc_write identity compile run
    to_strings to_calculates to_units order reg visit wants ticks es m0 p0 ->
  exists m obs,
    machine_run unmarshal_secret decode unmarshal_ids unmarshal_id kind ipc_write identity compile run
      to_strings to_calculates to_units order reg visit es m0 = Ret m obs /\
    machine_follows unmarshal_secret decode unmarshal_ids unmarshal_id kind ipc_write identity compile run
      to_strings to_calculates to_units order reg visit ticks es m0 p0 obs /\
    heap_ok (ma_heap m).
Proof.
  intros Hok Ha Hp Hc Hdec Hreg Hh ticks p0 m0 Hes.
  assert (machine_inv wants ticks m0 p0) as Hinv.
  { split; [by apply (follows_init ticks now timer)|done|]. unfold ag_registered. cbn. rewrite fmap_empty.
    apply map_Forall_empty. }
  clearbody m0 p0 ticks. clear Hok Ha Hp Hc Hh. revert m0 p0 Hinv Hes.
  induction es as [|e es IH]; intros m p Hinv Hes; [exists m, []; split_and!; [done..|apply Hinv]|].
  destruct Hes as [Hfit Hes].
  destruct (machine_follows_step unmarshal_secret decode unmarshal_ids unmarshal_id kind ipc_write identity
    compile run to_strings to_calculates to_units order reg visit wants ticks Hreg Hdec e m p Hinv Hfit)
    as (m1 & E & Hinv1 & Ho). rewrite E in Hes.
  destruct (IH m1 _ Hinv1 Hes) as (m2 & obs & E2 & Hobs & Hh2).
  cbn [machine_run machine_follows]. rewrite E, E2.
  exists m2, (observed (ma_collector m) (ma_collector m1) :: obs). split_and!; [done|done|exact Hobs|done].
Qed.

(** A decoder that knows one text: a job with a metric for SSH that has no
    configuration, and one for Redis. *)
Definition push (o : obj) (h : heap) : heap :=
  mkHeap (<[hnext h := o]> (cells h)) (S (hnext h)) (hranges h).

Definition ex_metric_of (name protocol : string) (redis : option loc) : Metrics :=
  mkMetrics name ANil 0 0 60 None [] ["version"] ANil ANil ANil protocol "" "" "" "" None false
    None None None None None redis None None.

Definition ex_decode : job_decoder := fun text h =>
  if String.eqb text "j7" then
    let h1 := push (ORedis (mkRedisProtocol "db" "6379" "" "" "" "5s" None)) h in
    let h2 := push (OMetrics [ex_metric_of "cpu" "ssh" None; ex_metric_of "mem" "redis" (Some (hnext h))]) h1 in
    (push (OJob (ex_job 7 100 false (Some (hnext h1)))) h2, Ok (hnext h2))
  else (h, Err "syntax").

Lemma push_ok o h : heap_ok h -> obj_ok h o -> heap_ok (push o h).
Proof. intros Hh Ho. apply heap_ok_insert; [|lia|lia|done|done]. apply ext_alloc. by apply Hh. Qed.

Lemma ex_decode_ok : decoder_ok ex_decode.
Proof.
  split; intros text h; unfold ex_decode; destruct (String.eqb text "j7"); try done.
  - intros Hh. apply push_ok; [apply push_ok; [by apply push_ok|]|].
    + cbn. repeat constructor. eexists. split; [apply lookup_insert_eq|done].
    + split_and!; try done. do 2 eexists. split; [apply lookup_insert_eq|done].
  - intros l o [Hf _] Hl. assert (l < hnext h)%nat as Hlt.
    { destruct (decide (l < hnext h)%nat); [done|]. rewrite Hf in Hl by lia. done. }
    cbn. by rewrite !lookup_insert_ne by lia.
  - intros l [Hf _] [= <-]. cbn. split; [apply Hf; lia|]. eexists. apply lookup_insert_eq.
Qed.

(** With the collectors of the program: the job is issued and starts at the next
    tick, a message comes while it runs, both results arrive, and the job starts again. *)
Definition ex_life : list machine_event :=
  [MMessage 0 (mkMessage MessageTypeIssueCyclicTask REQUEST "1" "j7"); MTick; MBegin 7 1;
   MMessage 2 (mkMessage MessageTypeIssueOneTimeTask REQUEST "2" "?"); MFinish 7 3 4 (Nat.sub 1) (fun _ => true)]
  ++ replicate 1000 MTick ++
  [MBegin 7 5; MFinish 7 6 7 id Nat.even].

Definition ex_machine : machine (timers WheelTimerTask) :=
  mkMachine (mkCollector ex_online []) ex_heap ∅.

(** The discipline of a concrete run, decided. *)
Section Checking.
Context (unmarshal_ids : string -> res (list Z)) (unmarshal_id : string -> res Z)
        (step : machine_event -> machine (timers WheelTimerTask) -> outcome (machine (timers WheelTimerTask)) unit)
        (next : machine_event -> machine (timers WheelTimerTask) -> plan -> plan)
        (decode : job_decoder) (wants : string -> configs -> bool) (ticks : Z -> Z).

Definition machine_fitsb (e : machine_event) (m : machine (timers WheelTimerTask)) (p : plan) : bool :=
  bool_decide (plan_fits (decoded decode (ma_heap m)) unmarshal_ids unmarshal_id ticks
                 (collector_event_of e []) p) &&
  match e with
  | MMessage _ msg =>
      match issued (decoded decode (ma_heap m)) (pl_key p) msg with
      | Some j =>
          match job_Metrics j with
          | Some a =>
              match cells (fst (decode (msg_Msg msg) (ma_heap m))) !! a with
              | Some (OMetrics ms) => bool_decide (NoDup (m_Name <$> ms)) &&
                  bool_decide (Forall (fun x => wants (m_Protocol x) (configs_of x) = true) ms)
              | _ => false
              end
          | None => false
          end
      | None => true
      end
  | _ => true
  end.

Lemma machine_fitsb_ok e m p :
  machine_fitsb e m p = true -> machine_fits decode unmarshal_ids unmarshal_id wants ticks e m p.
Proof.
  intros [Hfit%bool_decide_eq_true H]%andb_true_iff. split; [done|].
  destruct e as [now msg| | | |]; try done. destruct (issued _ _ _) as [j|]; [|done].
  destruct (job_Metrics j) as [a|]; [|done]. destruct (cells _ !! a) as [[]|] eqn:E; try done.
  apply andb_true_iff in H as [Hnd%bool_decide_eq_true Hw%bool_decide_eq_true]. by exists a, ms.
Qed.

Fixpoint machine_okb (es : list machine_event) (m : machine (timers WheelTimerTask)) (p : plan) : bool :=
  match es with
  | [] => true
  | e :: es =>
      machine_fitsb e m p &&
      match step e m with Ret m' _ => machine_okb es m' (next e m p) | Panic _ _ => true end
  end.

End Checking.

Abbreviation ex_step := (machine_step ex_secret ex_decode ex_ids ex_id Netty ex_ipc "go-1" no_program no_run
  no_json no_json no_json in_key_order ex_program map_to_list) (only parsing).
Abbreviation ex_next := (next_plan ex_secret ex_decode ex_ids ex_id Netty (timer_ticks ex_timer)) (only parsing).

Lemma ex_okb_ok es : forall m p,
  machine_okb ex_ids ex_id ex_step ex_next ex_decode program_wants (timer_ticks ex_timer) es m p = true ->
  machine_ok ex_secret ex_decode ex_ids ex_id Netty ex_ipc "go-1" no_program no_run
    no_json no_json no_json in_key_order ex_program map_to_list program_wants (timer_ticks ex_timer) es m p.
Proof.
  induction es as [|e es IH]; intros m p H; [done|]. cbn [machine_okb machine_ok] in *.
  apply andb_true_iff in H as [Hfit%machine_fitsb_ok Hes]. split; [done|].
  destruct (ex_step e m); [by apply IH|done].
Qed.

Definition ex_life_seen : list (list Z * list Z) :=
  match machine_run ex_secret ex_decode ex_ids ex_id Netty ex_ipc "go-1" no_program no_run
          no_json no_json no_json in_key_order ex_program map_to_list ex_life ex_machine with
  | Ret _ obs => filter (fun o : list Z * list Z => o <> ([], [])) (ex_summary <$> obs)
  | Panic _ _ => []
  end.

Lemma machine_follows_plan_witness :
  ex_life_seen = [([], [4]); ([7], []); ([], [6]); ([], [8; 8]); ([7], []); ([], [8])] /\
  exists m obs,
    machine_run ex_secret ex_decode ex_ids ex_id Netty ex_ipc "go-1" no_program no_run
      no_json no_json no_json in_key_order ex_program map_to_list ex_life ex_machine = Ret m obs /\
    machine_follows ex_secret ex_decode ex_ids ex_id Netty ex_ipc "go-1" no_program no_run
      no_json no_json no_json in_key_order ex_program map_to_list (timer_ticks ex_timer)
      ex_life ex_machine ex_plan obs /\
    heap_ok (ma_heap m).
Proof.
  split; [vm_compute; reflexivity|].
  assert (machine_ok ex_secret ex_decode ex_ids ex_id Netty ex_ipc "go-1" no_program no_run
    no_json no_json no_json in_key_order ex_program map_to_list program_wants (timer_ticks ex_timer)
    ex_life ex_machine ex_plan) as Hlife by (apply ex_okb_ok; vm_compute; reflexivity).
  exact (machine_follows_plan ex_secret ex_decode ex_ids ex_id Netty ex_ipc "go-1" no_program no_run
    no_json no_json no_json in_key_order ex_program map_to_list program_wants 0 ex_timer ex_online ex_heap ex_life
    (fresh_wf _ _) eq_refl ex_idle eq_refl ex_decode_ok ex_program_ok ex_heap_ok Hlife).
Defined.
