(* ===== verification/Server.v ===== *)
(** * The process

    Models internal/cmd/server.go, internal/server/server.go, the runner of
    internal/metrics/metrics.go and the rest of internal/job/server/job_server.go:
    the three runners start in goroutines of their own, and the end of the
    context, a signal or the error of a runner makes the process close them.
    The runners are a list of records of operations on a state they share; that
    of the transport is made of the functions of Transport.  The other goroutines
    of the program appear as work on that state, whose panic ends the process. *)

From Stdlib Require Import Ascii String.
From S2P Require Import Prelude GoStrings WheelTimer TimerService JobTypes TimeDispatch Scheduler JobServer Processors Config Transport Console.

Open Scope string_scope.
Open Scope list_scope.
Open Scope Z_scope.
Open Scope go_scope.

Definition HertzbeatCollectorGoName : string := "HertzbeatCollectorGoImpl".

(** [server.Server] with its logger; [New] and [Validate]. *)
Record Server := mkServer {
  srv_Name : string;
  srv_Logger : Logger;
  srv_Config : CollectorConfig;
}.

Definition NewServer (cfg : CollectorConfig) : Server :=
  mkServer HertzbeatCollectorGoName (DefaultLogger LogLevelInfo) cfg.

Definition Validate (s : Server) : option error := None.

(** ** Runners *)

(** [Runner]: [r_begin] is the part of [Start] before it waits for its context
    and [r_end] the part after; an error of [r_begin] ends [Start].  [r_close]
    is [Close].  Where [r_free] is false, [Start] has not come to its wait and
    holds a lock that [Close] needs. *)
Record runner (S : Type) := mkRunnerOps {
  r_name : string;
  r_begin : Z -> M S (option error);
  r_end : M S (option error);
  r_close : M S (option error);
  r_free : S -> bool;
}.
Arguments mkRunnerOps {S} _ _ _ _ _.
Arguments r_name {S} _.
Arguments r_begin {S} _ _.
Arguments r_end {S} _.
Arguments r_close {S} _.
Arguments r_free {S} _ _.

(** Where the goroutine of a runner is. *)
Inductive runner_state := RNew | RWaiting | REnded (err : option error).

(** Where [startRunners] is: in the select, closing the runners from an index
    on, or returned; in the last two cases with its result. *)
Inductive main_state :=
| MSelect
| MClosing (next : nat) (result : option error)
| MReturned (result : option error).

(** [sv_errCh] has room for as many errors as there are runners; [sv_closed]
    lists the runners that have been closed. *)
Record process (S : Type) := mkProcess {
  sv_state : S;
  sv_cancelled : bool;
  sv_signal : bool;
  sv_errCh : list error;
  sv_runners : list runner_state;
  sv_main : main_state;
  sv_closed : list string;
}.
Arguments mkProcess {S} _ _ _ _ _ _ _.
Arguments sv_state {S} _.
Arguments sv_cancelled {S} _.
Arguments sv_signal {S} _.
Arguments sv_errCh {S} _.
Arguments sv_runners {S} _.
Arguments sv_main {S} _.
Arguments sv_closed {S} _.

Definition ContextCanceled : error := "context canceled".

Section Process.
Context {S : Type} (runners : list (runner S)).
Implicit Types p : process S.

Definition start_process (s : S) : process S :=
  mkProcess s false false [] (replicate (length runners) RNew) MSelect [].

Definition with_state (s : S) p : process S :=
  mkProcess s (sv_cancelled p) (sv_signal p) (sv_errCh p) (sv_runners p) (sv_main p) (sv_closed p).
Definition with_main (m : main_state) p : process S :=
  mkProcess (sv_state p) (sv_cancelled p) (sv_signal p) (sv_errCh p) (sv_runners p) m (sv_closed p).
Definition with_errCh (l : list error) p : process S :=
  mkProcess (sv_state p) (sv_cancelled p) (sv_signal p) l (sv_runners p) (sv_main p) (sv_closed p).

(** The goroutine of runner [i] moves on; the error of [Start] goes to the
    channel if there is room. *)
Definition runner_to (i : nat) (r : runner_state) p : process S :=
  mkProcess (sv_state p) (sv_cancelled p) (sv_signal p)
    (match r with
     | REnded (Some e) =>
         if bool_decide (length (sv_errCh p) < length runners)%nat then sv_errCh p ++ [e] else sv_errCh p
     | _ => sv_errCh p
     end) (<[i := r]> (sv_runners p)) (sv_main p) (sv_closed p).

(** [EvBegin], [EvEnd]: a part of the [Start] of a runner.  [EvCancel]: the
    parent context ends.  [EvSignal]: a signal arrives, of which one is kept
    until the clean-up stops the notification.  [EvDone], [EvStop], [EvError]:
    the case that the select takes.  [EvClose]: the next step of the clean-up.
    [EvWork]: a step of any other goroutine of the program. *)
Inductive process_event :=
| EvBegin (i : nat) (now : Z)
| EvEnd (i : nat)
| EvCancel
| EvSignal
| EvDone
| EvStop
| EvError
| EvClose
| EvWork (m : M S unit).

(** A call of a runner; its panic ends the process. *)
Definition call_runner (m : M S (option error)) p (k : option error -> process S -> process S)
    : option (outcome (process S) unit) :=
  match m (sv_state p) with
  | Ret s err => Some (Ret (k err (with_state s p)) tt)
  | Panic s w => Some (Panic (with_state s p) w)
  end.

(** [None] when the event cannot occur. *)
Definition process_step (e : process_event) p : option (outcome (process S) unit) :=
  match e with
  | EvBegin i now =>
      match runners !! i, sv_runners p !! i with
      | Some r, Some RNew =>
          call_runner (r_begin r now) p (fun err =>
            runner_to i (match err with Some e => REnded (Some e) | None => RWaiting end))
      | _, _ => None
      end
  | EvEnd i =>
      match runners !! i, sv_runners p !! i with
      | Some r, Some RWaiting =>
          if sv_cancelled p && r_free r (sv_state p)
          then call_runner (r_end r) p (fun err => runner_to i (REnded err)) else None
      | _, _ => None
      end
  | EvCancel =>
      Some (Ret (mkProcess (sv_state p) true (sv_signal p) (sv_errCh p) (sv_runners p) (sv_main p)
                   (sv_closed p)) tt)
  | EvSignal =>
      Some (Ret (mkProcess (sv_state p) (sv_cancelled p)
                   (match sv_main p with MSelect => true | _ => sv_signal p end) (sv_errCh p)
                   (sv_runners p) (sv_main p) (sv_closed p)) tt)
  | EvDone =>
      match sv_main p with
      | MSelect => if sv_cancelled p then Some (Ret (with_main (MClosing 0 (Some ContextCanceled)) p) tt) else None
      | _ => None
      end
  | EvStop =>
      match sv_main p with
      | MSelect => if sv_signal p then Some (Ret (with_main (MClosing 0 None) p) tt) else None
      | _ => None
      end
  | EvError =>
      match sv_main p, sv_errCh p with
      | MSelect, err :: rest =>
          Some (Ret (with_errCh rest (with_main (MClosing 0 (Some err)) p)) tt)
      | _, _ => None
      end
  | EvClose =>
      match sv_main p with
      | MClosing next result =>
          match runners !! next with
          | Some r =>
              if r_free r (sv_state p) then
                call_runner (r_close r) p (fun _ p =>
                  mkProcess (sv_state p) (sv_cancelled p) (sv_signal p) (sv_errCh p) (sv_runners p)
                    (MClosing (Datatypes.S next) result) (sv_closed p ++ [r_name r]))
              else None
          | None =>
              (* the deferred cancel of [server] *)
              Some (Ret (mkProcess (sv_state p) true (sv_signal p) (sv_errCh p) (sv_runners p)
                           (MReturned result) (sv_closed p)) tt)
          end
      | _ => None
      end
  | EvWork m =>
      match m (sv_state p) with
      | Ret s _ => Some (Ret (with_state s p) tt)
      | Panic s w => Some (Panic (with_state s p) w)
      end
  end.

(** A run in which nothing panics. *)
Fixpoint process_run (l : list process_event) p : option (process S) :=
  match l with
  | [] => Some p
  | e :: l =>
      match process_step e p with
      | Some (Ret p' _) => process_run l p'
      | _ => None
      end
  end.

(** ** Invariant *)

Definition ended_errors (l : list runner_state) : list error :=
  omap (fun r => match r with REnded err => err | _ => None end) l.

Definition closed_now (m : main_state) : list string :=
  match m with
  | MSelect => []
  | MClosing next _ => r_name <$> take next runners
  | MReturned _ => r_name <$> runners
  end.

Definition result_of (m : main_state) : option (option error) :=
  match m with MSelect => None | MClosing _ r | MReturned r => Some r end.

Record process_inv p : Prop := {
  pi_length : length (sv_runners p) = length runners;
  pi_closed : sv_closed p = closed_now (sv_main p);
  pi_next : match sv_main p with MClosing next _ => (next <= length runners)%nat | _ => True end;
  (** errors in the channel are errors of runners, and none is dropped *)
  pi_errors : exists took, ended_errors (sv_runners p) ≡ₚ took ++ sv_errCh p /\
    match result_of (sv_main p) with
    | None => took = []
    | Some None => took = []
    | Some (Some e) => took = [e] \/ took = [] /\ e = ContextCanceled
    end;
  pi_cause : match result_of (sv_main p) with Some None => sv_signal p = true | _ => True end;
}.

Lemma ended_errors_length l : (length (ended_errors l) <= length l)%nat.
Proof.
  induction l as [|r l IH]; [simpl; lia|]. unfold ended_errors in *. csimpl.
  destruct r as [| |[e|]]; csimpl; lia.
Qed.

Lemma ended_errors_insert l i r0 r :
  l !! i = Some r0 -> ended_errors [r0] = [] ->
  ended_errors (<[i := r]> l) ≡ₚ ended_errors [r] ++ ended_errors l.
Proof.
  intros Hi H0. rewrite <- (take_drop_middle l i r0 Hi) at 2.
  rewrite insert_take_drop by (by eapply lookup_lt_Some). unfold ended_errors in *.
  rewrite !omap_app. cbn [omap list_omap] in *.
  destruct r0 as [| |[e0|]]; try done; destruct r as [| |[e|]]; csimpl; try done;
    by rewrite Permutation_middle.
Qed.

Lemma ended_room l i r0 took ch :
  l !! i = Some r0 -> ended_errors [r0] = [] -> ended_errors l ≡ₚ took ++ ch ->
  (length ch < length l)%nat.
Proof.
  intros Hi H0 Hp. pose proof (ended_errors_insert l i r0 (REnded (Some "")) Hi H0) as Hq.
  pose proof (ended_errors_length (<[i := REnded (Some "")]> l)) as Hl. rewrite Hq, length_insert in Hl.
  cbn in Hl. rewrite Hp, length_app in Hl. lia.
Qed.

Lemma inv_runner_to i r0 r p :
  process_inv p -> sv_runners p !! i = Some r0 -> ended_errors [r0] = [] -> process_inv (runner_to i r p).
Proof.
  intros [H1 H2 H3 (took & H4 & H5) H6] Hi H0. split; simpl; try done; [by rewrite length_insert|].
  exists took. split; [|done]. rewrite (ended_errors_insert _ _ r0 r Hi H0), H4.
  pose proof (ended_room _ _ _ _ _ Hi H0 H4) as Hroom. rewrite H1 in Hroom.
  destruct r as [| |[e|]]; try done. rewrite bool_decide_true by done.
  cbn. rewrite (app_assoc took). apply (Permutation_app_comm [e]).
Qed.

Lemma inv_with_state s p : process_inv p -> process_inv (with_state s p).
Proof. by intros [H1 H2 H3 H4 H5]. Qed.

Lemma process_step_inv e p p' : process_inv p -> process_step e p = Some (Ret p' tt) -> process_inv p'.
Proof.
  intros Hp. pose proof Hp as [H1 H2 H3 (took & H4 & H5) H6].
  destruct e as [i now|i| | | | | | |m]; simpl; unfold call_runner.
  - destruct (runners !! i) as [r|]; [|done]. destruct (sv_runners p !! i) as [[| |]|] eqn:Hi; try done.
    destruct (r_begin r now (sv_state p)) as [s err|]; [|done]. intros [= <-].
    eapply inv_runner_to; [by apply inv_with_state|done|done].
  - destruct (runners !! i) as [r|]; [|done]. destruct (sv_runners p !! i) as [[| |]|] eqn:Hi; try done.
    destruct (_ && _); [|done]. destruct (r_end r (sv_state p)) as [s err|]; [|done]. intros [= <-].
    eapply inv_runner_to; [by apply inv_with_state|done|done].
  - intros [= <-]. split; simpl; eauto.
  - intros [= <-]. split; simpl; eauto. destruct (sv_main p) as [|n [e|]|[e|]]; done.
  - destruct (sv_main p); try done. destruct (sv_cancelled p); [|done]. intros [= <-].
    split; simpl; [done|done|lia| |done]. exists took. split; [done|]. by right.
  - destruct (sv_main p); try done. destruct (sv_signal p) eqn:Hs; [|done]. intros [= <-].
    split; simpl; [done|done|lia| |done]. by exists took.
  - destruct (sv_main p); try done. destruct (sv_errCh p) as [|e ch] eqn:Hch; [done|]. intros [= <-].
    simpl in H5. subst took. split; simpl; [done|done|lia| |done]. exists [e]. split; [done|by left].
  - destruct (sv_main p) as [|n result|]; try done. destruct (runners !! n) as [r|] eqn:Hn.
    + destruct (r_free r _); [|done]. destruct (r_close r (sv_state p)) as [s err|]; [|done]. intros [= <-].
      split; simpl; [done| |by apply lookup_lt_Some in Hn|by exists took|done].
      rewrite H2. simpl. by rewrite (take_S_r _ _ r), fmap_app.
    + intros [= <-]. split; simpl; [done| |done|by exists took|done].
      rewrite H2. simpl. apply lookup_ge_None in Hn. by rewrite take_ge.
  - destruct (m (sv_state p)); [|done]. intros [= <-]. by apply inv_with_state.
Qed.

Lemma process_start_inv s : process_inv (start_process s).
Proof.
  split; simpl; [apply length_replicate|done|done| |done]. exists []. split; [|done].
  induction (length runners) as [|n IH]; [done|]. by rewrite replicate_S.
Qed.

Lemma process_run_inv l : forall p p', process_inv p -> process_run l p = Some p' -> process_inv p'.
Proof.
  induction l as [|e l IH]; intros p p' Hp; simpl; [by intros [= <-]|].
  destruct (process_step e p) as [[q []|]|] eqn:E; try done. apply IH. by apply (process_step_inv e p).
Qed.

(** *** No panic, and main is never stuck *)

(** An invariant of the shared state and of what has been started, which every
    part of a runner keeps without a panic. *)
Class RunnersInv (Inv : list runner_state -> S -> Prop) : Prop := {
  ri_begin rs s i r now :
    Inv rs s -> runners !! i = Some r -> rs !! i = Some RNew ->
    exists s' err, r_begin r now s = Ret s' err /\
      Inv (<[i := match err with Some e => REnded (Some e) | None => RWaiting end]> rs) s';
  ri_end rs s i r :
    Inv rs s -> runners !! i = Some r -> rs !! i = Some RWaiting ->
    exists s' err, r_end r s = Ret s' err /\ Inv (<[i := REnded err]> rs) s';
  ri_close rs s i r :
    Inv rs s -> runners !! i = Some r ->
    r_free r s = true /\ exists s' err, r_close r s = Ret s' err /\ Inv rs s';
}.

(** What the other goroutines do keeps the invariant, unless they panic. *)
Definition works (Inv : list runner_state -> S -> Prop) (e : process_event) : Prop :=
  match e with
  | EvWork m => forall rs s s', Inv rs s -> m s = Ret s' tt -> Inv rs s'
  | _ => True
  end.

(** A step of the main goroutine, of one of a runner, or of the world. *)
Definition own_step (e : process_event) : Prop := match e with EvWork _ => False | _ => True end.

Section Safe.
Context (Inv : list runner_state -> S -> Prop) `{!RunnersInv Inv}.

Definition safe p : Prop := Inv (sv_runners p) (sv_state p).

Lemma process_step_safe e p o :
  safe p -> own_step e -> process_step e p = Some o -> exists p', o = Ret p' tt /\ safe p'.
Proof.
  unfold safe. intros Hs Hw. destruct e as [i now|i| | | | | | |m]; simpl; unfold call_runner.
  - destruct (runners !! i) as [r|] eqn:Hr; [|done].
    destruct (sv_runners p !! i) as [[| |]|] eqn:Hi; try done.
    destruct (ri_begin _ _ i r now Hs Hr Hi) as (s' & err & -> & Hs'). intros [= <-]. by eexists.
  - destruct (runners !! i) as [r|] eqn:Hr; [|done].
    destruct (sv_runners p !! i) as [[| |]|] eqn:Hi; try done. destruct (_ && _); [|done].
    destruct (ri_end _ _ i r Hs Hr Hi) as (s' & err & -> & Hs'). intros [= <-]. by eexists.
  - intros [= <-]. by eexists.
  - intros [= <-]. by eexists.
  - destruct (sv_main p); try done. destruct (sv_cancelled p); [|done]. intros [= <-]. by eexists.
  - destruct (sv_main p); try done. destruct (sv_signal p); [|done]. intros [= <-]. by eexists.
  - destruct (sv_main p); try done. destruct (sv_errCh p); [done|]. intros [= <-]. by eexists.
  - destruct (sv_main p) as [|n result|]; try done. destruct (runners !! n) as [r|] eqn:Hn.
    + destruct (ri_close _ _ n r Hs Hn) as (-> & s' & err & -> & Hs'). intros [= <-]. by eexists.
    + intros [= <-]. by eexists.
  - done.
Qed.

Lemma process_step_works e p p' :
  safe p -> works Inv e -> process_step e p = Some (Ret p' tt) -> safe p'.
Proof.
  intros Hs Hw H.
  destruct e as [i now|i| | | | | | |m];
    [destruct (fun x => process_step_safe _ p _ Hs x H) as (q & E & Hq); [exact I|by injection E as ->]..|].
  simpl in H. destruct (m (sv_state p)) as [s []|] eqn:E; [|done]. injection H as <-. by eapply Hw.
Qed.

Lemma process_run_safe l : forall p p',
  safe p -> Forall (works Inv) l -> process_run l p = Some p' -> safe p'.
Proof.
  induction l as [|e l IH]; intros p p' Hs Hl; simpl; [by intros [= <-]|].
  apply Forall_cons in Hl as [He Hl]. destruct (process_step e p) as [[q []|]|] eqn:E; try done.
  apply IH; [|done]. by apply (process_step_works e p).
Qed.

Lemma closing_returns k : forall p next result,
  safe p -> sv_main p = MClosing next result -> (length runners = next + k)%nat ->
  exists p', process_run (replicate (Datatypes.S k) EvClose) p = Some p' /\ sv_main p' = MReturned result.
Proof.
  induction k as [|k IH]; intros p next result Hsafe Hm Hk.
  - cbn [replicate process_run process_step]. rewrite Hm.
    rewrite (proj2 (lookup_ge_None runners next)) by lia. eexists. split; [done|]. done.
  - destruct (lookup_lt_is_Some_2 runners next) as [r Hr]; [lia|].
    destruct (ri_close _ _ next r Hsafe Hr) as (Hf & s & err & E & Hs).
    change (replicate (Datatypes.S (Datatypes.S k)) EvClose) with (EvClose :: replicate (Datatypes.S k) EvClose).
    cbn [process_run process_step]. rewrite Hm, Hr, Hf. unfold call_runner. rewrite E.
    apply (IH _ (Datatypes.S next) result); [done|done|lia].
Qed.

End Safe.

(** What the property below says of runners that keep an invariant. *)
Lemma shutdown_of Inv `{!RunnersInv Inv} l s p :
  Inv (replicate (length runners) RNew) s -> Forall (works Inv) l ->
  process_run l (start_process s) = Some p ->
  (forall e o, own_step e -> process_step e p = Some o -> exists p', o = Ret p' tt) /\
  (sv_main p = MSelect -> sv_cancelled p = true \/ sv_signal p = true \/ sv_errCh p <> [] ->
   exists e p' result, process_run (e :: replicate (Datatypes.S (length runners)) EvClose) p = Some p' /\
     sv_main p' = MReturned result) /\
  (forall result, sv_main p = MReturned result ->
   sv_closed p = r_name <$> runners /\
   match result with
   | None => sv_signal p = true /\ ended_errors (sv_runners p) ≡ₚ sv_errCh p
   | Some e => e = ContextCanceled /\ ended_errors (sv_runners p) ≡ₚ sv_errCh p \/
               ended_errors (sv_runners p) ≡ₚ e :: sv_errCh p
   end).
Proof.
  intros Hs Hl Hrun. assert (safe Inv p) as Hsafe by (by apply (process_run_safe Inv l (start_process s))).
  split_and!.
  - intros e o He E. destruct (process_step_safe Inv e p o Hsafe He E) as (p' & -> & _). by exists p'.
  - intros Hm Hready.
    assert (exists e result p1, process_step e p = Some (Ret p1 tt) /\ sv_main p1 = MClosing 0 result /\
      sv_runners p1 = sv_runners p /\ sv_state p1 = sv_state p)
      as (e & result & p1 & E & Hm1 & Hr1 & Hs1).
    { destruct Hready as [Hc|[Hc|Hc]].
      - exists EvDone. do 2 eexists. split; [cbn [process_step]; by rewrite Hm, Hc|done].
      - exists EvStop. do 2 eexists. split; [cbn [process_step]; by rewrite Hm, Hc|done].
      - destruct (sv_errCh p) as [|err rest] eqn:He; [done|].
        exists EvError. do 2 eexists. split; [cbn [process_step]; by rewrite Hm, He|done]. }
    destruct (closing_returns Inv (length runners) p1 0 result) as (p' & Hr & Hm');
      [unfold safe; by rewrite Hr1, Hs1|done|done|].
    exists e, p', result. split; [|done]. cbn [process_run]. by rewrite E.
  - intros result Hm. pose proof (process_run_inv l _ p (process_start_inv s) Hrun) as [H1 H2 H3 (took & H4 & H5) H6].
    rewrite Hm in *. split; [done|]. simpl in H5, H6. destruct result as [e|].
    + destruct H5 as [->|[-> ->]]; [by right|by left].
    + by subst took.
Qed.

End Process.

(** ** The runners of the collector

    The state they share: the HTTP server of the metrics runner, by its address,
    the job runner, and the client of the transport runner, which has a reference
    to the job runner for its scheduler; [sy_dialling]: a gRPC client waits for
    the manager, with its lock. *)
Record system (T : Type) := mkSystem {
  sy_metrics : option string;
  sy_job : Runner T;
  sy_transport : option (session unit);
  sy_dialling : bool;
}.
Arguments mkSystem {T} _ _ _ _.
Arguments sy_metrics {T} _.
Arguments sy_job {T} _.
Arguments sy_transport {T} _.
Arguments sy_dialling {T} _.

Section System.
Context {T : Type} `{!TimerOps T WheelTimerTask}.
Abbreviation Sys := (system T) (only parsing).

(** [http.Server.Shutdown], by the address. *)
Context (http_Shutdown : string -> option error).

(** metrics.go: [Close], and [Start] up to the wait and after it; the listener
    has a goroutine of its own whose failure is logged. *)
Definition metrics_Close : M Sys (option error) :=
  s <-! mget ;
  mret (match sy_metrics s with Some addr => http_Shutdown addr | None => None end).

Definition metrics_begin (port : Z) : M Sys (option error) :=
  mmodify (fun s => mkSystem (Some (":" +:+ Itoa port)) (sy_job s) (sy_transport s) (sy_dialling s)) ;! mret None.

Definition metrics_runner (port : Z) : runner Sys :=
  mkRunnerOps "metrics-server" (fun _ => metrics_begin port) metrics_Close metrics_Close (fun _ => true).

(** A call of the job runner. *)
Definition on_job {A} (m : M (Runner T) A) : M Sys A :=
  fun s => match m (sy_job s) with
           | Ret r a => Ret (mkSystem (sy_metrics s) r (sy_transport s) (sy_dialling s)) a
           | Panic r w => Panic (mkSystem (sy_metrics s) r (sy_transport s) (sy_dialling s)) w
           end.

(** [Runner.Start] of job_server.go after the wait: an error is logged. *)
Definition job_end : M (Runner T) (option error) :=
  on_dispatch Stop ;! mret None.

Definition job_runner : runner Sys :=
  mkRunnerOps "job-service" (fun now => on_job (runner_Start now)) (on_job job_end) (on_job runner_Close)
    (fun _ => true).

(** [New] of job_server.go, with the timer of the dispatcher it creates. *)
Definition NewRunner (now : Z) (timer : T) : Runner T := mkRunner (NewTimeDispatch now timer) ∅.

(** transport.go: [Start] up to the wait, which has no client if none could be
    created, and [Close].  After the wait it returns; the goroutine that shuts
    the client down when the context ends is work.  [world] is what dialling
    gives at a time. *)
Context (getenv : string -> string) (cfg : CollectorConfig) (world : Z -> env).

Definition put_transport (x : option (session unit)) (s : Sys) : Sys :=
  mkSystem (sy_metrics s) (sy_job s) x (sy_dialling s).

(** [grpc.Dial] is called to wait, without a deadline. *)
Definition dials_for_ever (now : Z) : bool :=
  match CreateClient (runner_protocol getenv cfg), env_dial (world now) with
  | Ok Grpc, Some _ => true
  | _, _ => false
  end.

Definition transport_begin (now : Z) : M Sys (option error) :=
  fun s =>
    if dials_for_ever now
    then Ret (mkSystem (sy_metrics s) (sy_job s)
                (Some (new_session Grpc (runner_addr getenv cfg) cfg (Some tt))) true) None
    else match Runner_Start getenv cfg (Some tt) (world now) with
           | None => Ret (put_transport None s) None
           | Some (Ret t _) => Ret (put_transport (Some t) s) None
           | Some (Panic t w) => Panic (put_transport (Some t) s) w
           end.

(** A call of the client, if there is one. *)
Definition on_session (m : M (session unit) unit) : M Sys unit :=
  fun s => match sy_transport s with
           | None => Ret s tt
           | Some t => match m t with
                       | Ret t _ => Ret (put_transport (Some t) s) tt
                       | Panic t w => Panic (put_transport (Some t) s) w
                       end
           end.

Definition transport_Close : M Sys (option error) := on_session ShutdownClient ;! mret None.

Definition transport_runner : runner Sys :=
  mkRunnerOps "transport" transport_begin (mret None) transport_Close (fun s => negb (sy_dialling s)).

(** [startRunners]: the transport runner is given the job runner as its
    scheduler. *)
Definition start_runners (port now : Z) (timer : T) : list (runner Sys) * process Sys :=
  let runners := [metrics_runner port; job_runner; transport_runner] in
  (runners, start_process runners (mkSystem None (NewRunner now timer) None false)).

End System.

(** [server]: a configuration that cannot be read, and an error of the banner,
    end it before anything is started; the state is the standard output. *)
Definition server {R} (unmarshal : string -> res CollectorConfig) (fs : FS) (cfgPath : string)
    (ReadFile : string -> res string) (pid : Z) (startRunners : Server -> R) : M string (option error + R) :=
  match getConfigByPath unmarshal fs cfgPath with
  | Err e => mret (inl (Some e))
  | Ok cfg =>
      let collectorServer := NewServer cfg in
      err <-! PrintBanner ReadFile pid (ci_Name (cfg_Info cfg)) (ci_IP (cfg_Info cfg)) ;
      mret (match err with
            | Some e => inl (Some e)
            | None => inr (startRunners collectorServer)
            end)
  end.

(** *** The invariant of the collector's runners, on the wheel *)

Section Safety.
Abbreviation W := (timers WheelTimerTask) (only parsing).
Implicit Types td : TimeDispatch W.

Definition no_nil (m : gmap Z (option tptr)) : Prop := map_Forall (fun _ x => is_Some x) m.

(** The dispatcher can be stopped once it has been started. *)
Definition stoppable td : Prop :=
  td_started td = true ->
  no_nil (td_cyclicTasks td) /\ no_nil (td_tempTasks td) /\
  hwt_stopped (hwt (td_wheelTimer td)) = false /\ hwt_cancel (hwt (td_wheelTimer td)) = true.

(** Before it is started it has no jobs. *)
Definition unstarted td : Prop :=
  td_started td = false /\ no_nil (td_cyclicTasks td) /\ no_nil (td_tempTasks td) /\
  hwt_started (hwt (td_wheelTimer td)) = false /\ hwt_stopped (hwt (td_wheelTimer td)) = false.

Lemma cancel_all_ok l : forall td,
  Forall is_Some l ->
  exists td', cancel_all l td = Ret td' tt /\ hwt (td_wheelTimer td') = hwt (td_wheelTimer td).
Proof.
  induction l as [|x l IH]; intros td Hl; [by exists td|].
  apply Forall_cons in Hl as [[p ->] Hl]. cbn [cancel_all].
  destruct (IH (set_timer (timer_cancel p (td_wheelTimer td)) td) Hl) as (td' & E & Ht).
  exists td'. split; [|done]. by erewrite bind_ret by reflexivity.
Qed.

Lemma no_nil_values m : no_nil m -> Forall is_Some (snd <$> map_to_list m).
Proof.
  intros Hm. apply Forall_fmap, Forall_forall. intros [k x] Hin. apply elem_of_map_to_list in Hin.
  by apply (Hm k).
Qed.

Lemma Stop_ok td : stoppable td ->
  exists td', Stop td = Ret td' None /\ td_started td' = false.
Proof.
  intros Hs. unfold Stop. erewrite bind_ret by reflexivity.
  destruct (td_started td) eqn:E; cbn [negb]; [|by exists td].
  destruct (Hs E) as (Hc & Ht & Hst & Hca). erewrite bind_ret by reflexivity.
  set (td1 := TimeDispatch.set_started true false td).
  destruct (cancel_all_ok _ td1 (no_nil_values _ Hc)) as (td2 & E2 & H2). erewrite bind_ret by exact E2.
  destruct (cancel_all_ok _ td2 (no_nil_values _ Ht)) as (td3 & E3 & H3). erewrite bind_ret by exact E3.
  erewrite bind_ret by reflexivity.
  set (td4 := set_tasks ∅ ∅ ∅ td3).
  assert (hwt (td_wheelTimer td4) = hwt (td_wheelTimer td)) as H4 by (cbn; by rewrite H3, H2).
  assert (exists t, with_timer timer_stop td4 = Ret (set_timer t td4) tt) as [t E5].
  { unfold with_timer. cbn [timer_stop wheel_ops]. unfold hwt_Stop. rewrite H4, Hst. cbn [hwt_cancel].
    rewrite Hca. cbn [negb]. by eexists. }
  erewrite bind_ret by exact E5. by eexists.
Qed.

(** What the runners need of the job runner: [first] is the state of its
    goroutine. *)
Definition job_inv (rs : list runner_state) (s : system W) : Prop :=
  let td := rn_TimeDispatch (sy_job s) in
  stoppable td /\ (rs !! 1%nat = Some RNew -> unstarted td) /\ sy_dialling s = false.

Context (http_Shutdown : string -> option error) (getenv : string -> string)
        (cfg : CollectorConfig) (world : Z -> env).

Definition collector_runners (port : Z) : list (runner (system W)) :=
  [metrics_runner http_Shutdown port; job_runner; transport_runner getenv cfg world].

(** The functions of the transport runner leave the job runner alone, and none
    of them panics. *)
Lemma Runner_Start_ret (e : env) :
  match Runner_Start getenv cfg (Some tt) e with
  | Some (Panic _ _) => False
  | _ => True
  end.
Proof.
  unfold Runner_Start. destruct (CreateClient _) as [k|]; [|done].
  unfold Transport.Start, netty_Start, grpc_Start, connect, mbind', mget.
  destruct k; cbn; by destruct (env_dial e).
Qed.

Lemma transport_begin_ret now (s : system W) :
  runner_protocol getenv cfg <> "grpc" ->
  exists s', transport_begin getenv cfg world now s = Ret s' None /\ sy_job s' = sy_job s /\
    sy_dialling s' = sy_dialling s.
Proof.
  intros Hg. unfold transport_begin.
  assert (dials_for_ever getenv cfg world now = false) as ->.
  { unfold dials_for_ever, CreateClient. rewrite (proj2 (String.eqb_neq _ _) Hg).
    by destruct (String.eqb _ _). }
  pose proof (Runner_Start_ret (world now)) as H.
  destruct (Runner_Start _ _ _ _) as [[t []|]|]; [by eexists|done|by eexists].
Qed.

Lemma transport_Close_ret (s : system W) :
  exists s', transport_Close s = Ret s' None /\ sy_job s' = sy_job s /\ sy_dialling s' = sy_dialling s.
Proof.
  unfold transport_Close, on_session, mbind'. destruct (sy_transport s) as [t|]; [|by eexists].
  destruct (ShutdownClient_ret t) as (t' & -> & _). by eexists.
Qed.

(** What the client does by itself. *)
Lemma works_session (m : M (session unit) unit) : works job_inv (EvWork (on_session m)).
Proof.
  intros rs s s' Hi. unfold on_session. destruct (sy_transport s) as [t|]; [|by intros [= <-]].
  destruct (m t); [|done]. by intros [= <-].
Qed.

Lemma job_inv_other rs s s' i r :
  job_inv rs s -> sy_job s' = sy_job s -> sy_dialling s' = sy_dialling s -> i <> 1%nat ->
  job_inv (<[i := r]> rs) s'.
Proof.
  unfold job_inv. intros (H1 & H2 & H3) -> -> Hi. split; [done|]. by rewrite list_lookup_insert_ne.
Qed.

Lemma job_Stop r : stoppable (rn_TimeDispatch r) ->
  exists td, on_dispatch Stop r = Ret (mkRunner td (rn_runningJobs r)) None /\ td_started td = false.
Proof.
  intros Hs. destruct (Stop_ok _ Hs) as (td & E & Ht). exists td. split; [|done].
  unfold on_dispatch. by rewrite E.
Qed.

Lemma job_begin_ok r now : unstarted (rn_TimeDispatch r) ->
  exists r', runner_Start now r = Ret r' None /\ stoppable (rn_TimeDispatch r').
Proof.
  destruct r as [td run]. intros (H1 & H2 & H3 & H4 & H5). cbn [rn_TimeDispatch] in *.
  unfold runner_Start, on_dispatch, TimeDispatch.Start, mbind', mget, mmodify, mret. cbn [rn_TimeDispatch].
  rewrite H1. eexists. split; [done|]. intros _. cbn.
  unfold hwt_Start. rewrite H4. cbn. by split_and!.
Qed.

Lemma stopped_inv rs m td run x :
  td_started td = false -> rs !! 1%nat <> Some RNew ->
  job_inv rs (mkSystem m (mkRunner td run) x false).
Proof.
  intros Ht Hrs. split; [|by split]. intros Hs. cbn in Hs. congruence.
Qed.

Lemma not_new (rs : list runner_state) r : r <> RNew -> <[1%nat := r]> rs !! 1%nat <> Some RNew.
Proof.
  intros Hr Hi. apply list_lookup_insert_Some in Hi as [(_ & Hi & _)|[Hi _]]; [by apply Hr|by apply Hi].
Qed.

Lemma close_ok rs s :
  job_inv rs s -> exists s', on_job runner_Close s = Ret s' None /\ job_inv rs s'.
Proof.
  destruct s as [m [td run] x b]. intros (Hs & Hn & Hb). cbn [sy_job sy_dialling rn_TimeDispatch] in *. subst b.
  destruct (td_started td) eqn:E.
  - destruct (job_Stop (mkRunner td run) Hs) as (td' & ES & Ht).
    eexists. split.
    + unfold on_job, runner_Close. cbn [sy_job]. erewrite bind_ret by exact ES. done.
    + apply stopped_inv; [done|]. intros Hrs. destruct (Hn Hrs) as (? & _). congruence.
  - eexists. split.
    + unfold on_job, runner_Close, on_dispatch, Stop, mbind', mget, mret, on_running, mmodify.
      cbn [sy_job rn_TimeDispatch rn_runningJobs]. rewrite E. cbn [negb]. done.
    + split; [done|]. by split.
Qed.

#[export] Instance collector_inv port :
  runner_protocol getenv cfg <> "grpc" -> RunnersInv (collector_runners port) job_inv.
Proof.
  intros Hg. split.
  - intros rs s i r now Hi Hr Hn. destruct i as [|[|[|i]]]; simplify_eq/=.
    + eexists _, _. split; [reflexivity|]. by eapply job_inv_other.
    + destruct s as [m r x b]. destruct Hi as (_ & Hu & Hb). cbn [sy_job sy_dialling] in Hu, Hb.
      destruct (job_begin_ok r now (Hu Hn)) as (r' & E & Hs).
      eexists _, _. split; [unfold on_job; cbn [sy_job]; by rewrite E|]. split_and!; [done| |done].
      intros Hrs. by apply not_new in Hrs.
    + destruct (transport_begin_ret now s Hg) as (s' & E & Hk & Hb). exists s', None. split; [done|].
      by eapply job_inv_other.
  - intros rs s i r Hi Hr Hn. destruct i as [|[|[|i]]]; simplify_eq/=.
    + eexists s, _. split; [reflexivity|]. by eapply job_inv_other.
    + destruct s as [m r x b]. destruct Hi as (Hs & _ & Hb). cbn [sy_job sy_dialling] in Hs, Hb. subst b.
      destruct (job_Stop r Hs) as (td & E & Ht).
      eexists _, None. split.
      * unfold on_job, job_end. cbn [sy_job]. by erewrite bind_ret by exact E.
      * apply stopped_inv; [done|by apply not_new].
    + exists s, None. split; [done|]. by eapply job_inv_other.
  - intros rs s i r Hi Hr. destruct i as [|[|[|i]]]; simplify_eq/=.
    + split; [done|]. by eexists s, _.
    + split; [done|]. destruct (close_ok rs s Hi) as (s' & E & Hs). by eexists s', None.
    + destruct (transport_Close_ret s) as (s' & E & Hk & Hb). unfold job_inv in *. split.
      * cbn. destruct Hi as (_ & _ & ->). done.
      * exists s', None. split; [done|]. by rewrite Hk, Hb.
Qed.

(** *** Work that keeps the invariant *)

(** The timer of the dispatcher keeps what [Stop] needs. *)
Definition same_life (h h' : hashedWheelTimer) : Prop :=
  hwt_started h' = hwt_started h /\ hwt_stopped h' = hwt_stopped h /\ hwt_cancel h' = hwt_cancel h.

Lemma job_inv_work rs s td' run' :
  let td := rn_TimeDispatch (sy_job s) in
  job_inv rs s -> td_started td' = td_started td ->
  same_life (hwt (td_wheelTimer td)) (hwt (td_wheelTimer td')) ->
  (hwt_stopped (hwt (td_wheelTimer td)) = false ->
   no_nil (td_cyclicTasks td) -> no_nil (td_tempTasks td) ->
   no_nil (td_cyclicTasks td') /\ no_nil (td_tempTasks td')) ->
  job_inv rs (mkSystem (sy_metrics s) (mkRunner td' run') (sy_transport s) (sy_dialling s)).
Proof.
  intros td (Hs & Hu & Hb) Hst (H1 & H2 & H3) Hn. unfold job_inv. cbn [sy_job sy_dialling rn_TimeDispatch].
  split_and!; [| |done].
  - intros Ht. rewrite Hst in Ht. destruct (Hs Ht) as (Hc & Hm & Hstop & Hca).
    destruct (Hn Hstop Hc Hm) as [? ?]. by split_and!; rewrite ?H2, ?H3.
  - intros Hrs. destruct (Hu Hrs) as (Ht & Hc & Hm & Hsa & Hstop).
    destruct (Hn Hstop Hc Hm) as [? ?]. by split_and!; rewrite ?Hst, ?H1, ?H2.
Qed.

Lemma new_life now (task : WheelTimerTask) delay t :
  same_life (hwt t) (hwt (outcome_state (NewTimeout now task delay t))) /\
  (hwt_stopped (hwt t) = false ->
   forall t' o, NewTimeout now task delay t = Ret t' o -> is_Some o).
Proof.
  unfold NewTimeout. destruct (hwt_stopped (hwt t)) eqn:E; [split; [by split_and!|done]|].
  destruct (_ && _); cbn; (split; [by split_and!|]); [|done].
  intros _ t' o [= <- <-]. by eexists.
Qed.

(** Adding a job, removing one, and a tick of the timer. *)
Definition keeps_inv {A} (m : M (system W) A) : Prop :=
  forall rs s, job_inv rs s -> job_inv rs (outcome_state (m s)).

Lemma works_of {A} (m : M (system W) A) : keeps_inv m -> works job_inv (EvWork (m ;! mret tt)%go).
Proof.
  intros Hm rs s s' Hi. unfold mbind'. specialize (Hm rs s Hi).
  destruct (m s); [|done]. by intros [= <-].
Qed.

Lemma works_add now j : keeps_inv (on_job (AddAsyncCollectJob now (Some j))).
Proof.
  intros rs [m [td run] x b] Hi. pose proof (new_life now (NewWheelTimerTask (Some j)) (first_delay j)
    (td_wheelTimer td)) as [Hlife Hsome].
  unfold on_job, AddAsyncCollectJob, on_running, on_dispatch, AddJob, with_timer, mbind', mmodify, mret.
  cbn [sy_job rn_TimeDispatch rn_runningJobs td_wheelTimer set_stats timer_new wheel_ops].
  destruct (NewTimeout now (NewWheelTimerTask (Some j)) (first_delay j) (td_wheelTimer td))
    as [t' o|t' w] eqn:E; cbn [outcome_state] in *.
  - apply (job_inv_work rs (mkSystem m (mkRunner td run) x b)); try done; cbn; destruct (job_IsCyclic j); try done.
    + intros Hstop Hc Hm. split; [|done]. apply map_Forall_insert_2; [by apply (Hsome Hstop t')|done].
    + intros Hstop Hc Hm. split; [done|]. apply map_Forall_insert_2; [by apply (Hsome Hstop t')|done].
  - by apply (job_inv_work rs (mkSystem m (mkRunner td run) x b)).
Qed.

Lemma works_tick : keeps_inv (on_job (on_dispatch (with_timer timer_tick))).
Proof.
  intros rs [m [td run] x b] Hi. unfold on_job, on_dispatch, with_timer.
  cbn [sy_job rn_TimeDispatch rn_runningJobs timer_tick wheel_ops].
  assert (same_life (hwt (td_wheelTimer td)) (hwt (outcome_state (tick (td_wheelTimer td))))) as Hlife.
  { unfold tick. repeat case_match; by split_and!. }
  destruct (tick (td_wheelTimer td)) as [t' o|t' w]; cbn [outcome_state] in *;
    by apply (job_inv_work rs (mkSystem m (mkRunner td run) x b)).
Qed.

Lemma RemoveJob_life id td :
  let td' := outcome_state (RemoveJob id td) in
  td_started td' = td_started td /\ same_life (hwt (td_wheelTimer td)) (hwt (td_wheelTimer td')) /\
  (no_nil (td_cyclicTasks td) -> no_nil (td_cyclicTasks td')) /\
  (no_nil (td_tempTasks td) -> no_nil (td_tempTasks td')).
Proof.
  assert (forall m : gmap Z (option tptr), no_nil m -> no_nil (delete id m)) as Hdel
    by (intros m; apply map_Forall_delete).
  unfold RemoveJob, mbind', mmodify, mget. cbn [td_cyclicTasks td_tempTasks set_stats].
  destruct (td_cyclicTasks td !! id) as [[p|]|]; [| |destruct (td_tempTasks td !! id) as [[p|]|]];
    cbn; split_and!; auto; by split_and!.
Qed.

Lemma works_remove id : keeps_inv (on_job (RemoveAsyncCollectJob id)).
Proof.
  intros rs [m [td run] x b] Hi. pose proof (RemoveJob_life id td) as (H1 & H2 & H3 & H4).
  unfold on_job, RemoveAsyncCollectJob, on_running, on_dispatch, mbind', mmodify, mret.
  cbn [sy_job rn_TimeDispatch rn_runningJobs].
  destruct (RemoveJob id td) as [td' [e|]|td' w]; cbn [outcome_state] in *;
    apply (job_inv_work rs (mkSystem m (mkRunner td run) x b)); auto.
Qed.

End Safety.

(** C10 (liveness). The process of the collector with its metrics server, job
    runner and transport: however the goroutines of the runners, the end of the
    parent context, signals and the work of the other goroutines interleave, no
    part of a runner panics: neither [Start] nor [Close].  (A panic of another
    goroutine ends the process at once.)  When the select has a case that is
    ready, the main goroutine can take it and return by its own steps alone; when
    it has returned, the metrics server, the job runner and the transport have
    been closed, once each and in this order, and the result says why: nothing
    for a signal, the error of a cancelled context, or the error of a runner, of
    which none is dropped.  The protocol is not gRPC, whose [Start] may wait for
    ever for the manager with the lock that [Close] needs.  The work assumed is
    any that keeps what the dispatcher needs to be stopped; the functions of the
    job runner and of the client do. *)
Theorem shutdown_closes_all http_Shutdown getenv cfg world port now l p :
  runner_protocol getenv cfg <> "grpc" ->
  let '(runners, p0) :=
    start_runners http_Shutdown getenv cfg world port now (fresh_timers 512 (100 * Millisecond)) in
  Forall (works job_inv) l -> process_run runners l p0 = Some p ->
  (forall e o, own_step e -> process_step runners e p = Some o -> exists p', o = Ret p' tt) /\
  (sv_main p = MSelect -> sv_cancelled p = true \/ sv_signal p = true \/ sv_errCh p <> [] ->
   exists e p' result, process_run runners (e :: replicate 4 EvClose) p = Some p' /\
     sv_main p' = MReturned result) /\
  (forall result, sv_main p = MReturned result ->
   sv_closed p = ["metrics-server"; "job-service"; "transport"] /\
   match result with
   | None => sv_signal p = true /\ ended_errors (sv_runners p) ≡ₚ sv_errCh p
   | Some e => e = ContextCanceled /\ ended_errors (sv_runners p) ≡ₚ sv_errCh p \/
               ended_errors (sv_runners p) ≡ₚ e :: sv_errCh p
   end).
Proof.
  intros Hg Hl Hrun.
  pose proof (collector_inv http_Shutdown getenv cfg world port Hg) as Hinv.
  apply (shutdown_of (collector_runners http_Shutdown getenv cfg world port) job_inv l
    (mkSystem None (NewRunner now (fresh_timers 512 (100 * Millisecond))) None false) p); done.
Qed.

(** A signal while the job runner works and the transport has found no manager
    yet. *)
Abbreviation W0 := (timers WheelTimerTask) (only parsing).

Definition ex_world (now : Z) : env :=
  mkEnv now (Some "connection refused") ReadFailed None (Err "") None false.

Definition ex_life : list (process_event (S := system W0)) :=
  [EvBegin 1 0; EvBegin 0 0; EvBegin 2 0;
   EvWork (on_job (AddAsyncCollectJob 1 (Some (ex_job 7 60 true None))) ;! mret tt)%go;
   EvSignal; EvStop; EvClose; EvClose; EvClose; EvClose; EvWork (on_session ShutdownClient); EvEnd 1].

Definition ex_process : list (runner (system W0)) * process (system W0) :=
  start_runners (fun _ => None) no_env (ex_config "netty") ex_world 9090 0
    (fresh_timers 512 (100 * Millisecond)).

Lemma shutdown_closes_all_witness :
  exists p, process_run (fst ex_process) ex_life (snd ex_process) = Some p /\
    sv_main p = MReturned None /\ sv_closed p = ["metrics-server"; "job-service"; "transport"] /\
    sv_signal p = true.
Proof.
  assert (sv_main <$> process_run (fst ex_process) ex_life (snd ex_process) = Some (MReturned None)) as H
    by (vm_compute; reflexivity).
  destruct (process_run (fst ex_process) ex_life (snd ex_process)) as [p|] eqn:E; [|discriminate H].
  assert (sv_main p = MReturned None) as Hm by (by injection H). clear H.
  exists p. split; [reflexivity|]. split; [exact Hm|].
  destruct (shutdown_closes_all (fun _ => None) no_env (ex_config "netty") ex_world 9090 0 ex_life p)
    as (_ & _ & H).
  - intros Hg. vm_compute in Hg. discriminate Hg.
  - unfold ex_life. rewrite !Forall_cons.
    split_and!; try exact I; [apply works_of, works_add|apply works_session|by apply Forall_nil].
  - exact E.
  - destruct (H None Hm) as [Hc [Hs _]]. split; [exact Hc|exact Hs].
Defined.

(** With gRPC and a manager that cannot be reached, the process does not end: the
    clean-up waits for the lock of the client. *)
Example grpc_never_closes :
  let '(runners, p0) :=
    start_runners (fun _ => None) no_env (set_Protocol "grpc" (ex_config "")) ex_world 9090 0
      (fresh_timers 512 (100 * Millisecond)) in
  (fun p => (sv_main p, bool_decide (is_Some (process_step runners EvClose p)))) <$>
    process_run runners [EvBegin 2 0; EvSignal; EvStop; EvClose; EvClose] p0
  = Some (MClosing 2 None, false).
Proof. vm_compute. reflexivity. Qed.

(** Nothing waits for the goroutines of the runners: one that begins after the
    clean-up starts what has been closed. *)
Example late_start :
  (fun p => (sv_main p, td_started (rn_TimeDispatch (sy_job (sv_state p))))) <$>
    process_run (fst ex_process) [EvSignal; EvStop; EvClose; EvClose; EvClose; EvClose; EvBegin 1 0]
      (snd ex_process)
  = Some (MReturned None, true).
Proof. vm_compute. reflexivity. Qed.
